(* ===== verification/_CoqProject ===== *)
-Q . S2P
Prelude.v
Contiki.v
Types.v
Node.v
Membership.v
Log.v
Server.v
Election.v
Replication.v
Wire.v
App.v
Sim.v
NodeFacts.v
Frames.v
History.v
LogFacts.v
MemberFacts.v
ElectionFacts.v
Roles.v
Campaign.v
Sending.v
Receiving.v
Batches.v
Commit.v
Config.v
Termination.v
Lifecycle.v
Fixed.v
Ranges.v
Conflict.v
Liveness.v
Cluster.v
Outbox.v
Growth.v
Acks.v
Network.v
Ledger.v
Council.v
Matching.v
Visits.v
Timers.v
Claims.v
Sessions.v
Agreement.v
AppFacts.v
AppStart.v
AppSafety.v
Radio.v
Rounds.v
Mesh.v
Air.v
Progress.v
Consensus.v
AppRuns.v
MeshRuns.v
PowerLoss.v
