(* ===== verification/Prelude.v ===== *)
(** * A verification of raft-contiki

    The repository is a port of the willemt/raft C library, an implementation of
    the Raft consensus algorithm, to the Contiki operating system (the default
    build targets the MSP430, whose [int] has 16 bits), with an application that
    runs a cluster of five servers over a flooding radio network.  This
    development models the library and the application as functions in a state
    monad with explicit memory, and proves what they do.

    ** The program and its model

    - src/src/raft_node.c, the record a server keeps of each peer: [Node.v].
      Flags are bits of a [Z] as in the source.
    - src/src/raft_log.c, the log, a Contiki list of blocks from a pool of
      fifty: [Log.v].
    - src/src/raft_server_properties.c and the construction, snapshot and vote
      primitives of src/src/raft_server.c: [Server.v]; the list of peers and the
      configuration changes: [Membership.v].
    - src/src/raft_server.c, elections and the sending of appendentries:
      [Election.v]; appendentries, their responses, client entries, the
      application of entries, and the periodic function: [Replication.v].
    - src/include/raft.h and raft_private.h, the data types: [Types.v].
    - src/app/proto.h and the message layouts of src/app/main.c: [Wire.v]; the
      callbacks, packet handlers, processes and start of src/app/main.c:
      [App.v].

    The state is the record [Types.world]: the static server structure, the
    static log structure, the two block pools with the contents of their blocks
    ([entry_heap], [node_heap]), the random generator, and the data behind the
    user's callbacks.  A node or entry pointer is an optional block address, so
    that aliasing, freed blocks and null pointers are as in the source.  A C
    function is a function of the same name from its arguments to [M world A];
    the loops over Contiki lists are [foreach], [foreach_ret], [find_first] and
    [count_from]; parts of long functions have names of their own (labels and
    loops: [recv_ae_match], [recv_requestvote_done], ...).  [M] ends in a value
    and a state or in a [fault]: a failed [assert], the dereference of a null or
    dangling pointer, the call of a null function pointer, signed overflow,
    division by zero, or the [free] of a static object.  Integers are [Z]; every
    signed addition is checked ([int_chk]) against the width of the target
    [CTarget], at least 16 bits and otherwise arbitrary; unsigned fields and
    comparisons use [to_uint] and [to_int].

    ** Parameters

    Contiki is a git submodule and is a parameter: the class [Contiki.Contiki]
    has one operation for each function of lib/list.h, lib/memb.h and
    lib/random.h the sources call, [ContikiLaws] states their documented
    behaviour, and [sim_contiki] is an instance that satisfies it.  [App.Platform]
    does the same for the packet buffer and the flooding of net/rime.  The
    user's callbacks of [raft_cbs_t] are arbitrary functions on the user's data
    ([Types.User]); they may return any value, and [None] is a null pointer.
    [Sim.v] and [AppRuns.v] hold concrete instances, on which the witnesses run.

    ** Theorems

    - [NodeFacts.v]: the flags of a node implement a record of booleans.
    - [Frames.v]: which operations leave which parts of the state alone.
    - [History.v]: over any sequence of calls, the term, the commit index and the
      applied index never decrease and a server votes once per term.
    - [LogFacts.v]: the log implements an abstract log, a base index and a list
      of entries ([alog], [log_repr]); what it does at its limits.
    - [MemberFacts.v]: the list of peers implements a list of members with unique
      ids ([nodes_wf], [members]).
    - [ElectionFacts.v]: majorities intersect; a vote request is answered as Raft
      prescribes; the invariant [server_ok] the later theorems assume.
    - [Roles.v]: the role machine, elections by majority.
    - [Campaign.v]: a campaign asks every voter once.
    - [Sending.v]: heartbeats and client entries.
    - [Receiving.v]: appendentries as the replication of an abstract log, its
      rejection, and the conflict that leaves stale entries.
    - [Batches.v]: a repeated appendentries message changes nothing, and a message
      is equivalent to its parts.
    - [Conflict.v]: a conflict with the last entry is resolved as Raft prescribes;
      what a [log_pop] that refuses makes of a conflict; what becomes of a message
      that starts at an entry the log has evicted.
    - [Commit.v]: commitment needs a majority; entries are applied once and in
      order; the status of an entry.
    - [Config.v]: configuration entries implement changes of the abstract members
      when they are offered, popped and applied, except where the first node of the
      list or the server's own node is taken out; popping undoes offering.
    - [Termination.v]: no call loops without end.
    - [Lifecycle.v]: creation, clearing, configuration indices, timeouts.
    - [Fixed.v]: servers that no configuration entry reaches keep their members,
      and votes are recorded by responses only.
    - [Ranges.v]: a typing judgement for operations ([tyr]); every field of every
      structure stays in the range of its C type, and every message and argument
      given to the user's functions is in range.
    - [Liveness.v]: an election among willing voters succeeds, and an acknowledged
      entry is committed, in whatever order the answers arrive.
    - [Cluster.v]: a step relation for a cluster of servers and a network that
      loses, repeats, delays and reorders vote responses; election safety, at
      most one leader per term over the whole of a run.
    - [Outbox.v]: every message the library asks the user to send is honest: its
      term, its log entries and its commit index are those of the sender, and its
      role allows it.
    - [Growth.v]: inversion of the calls when no entry is deleted: the log only
      grows, by which entries, and what a successful response acknowledges.
    - [Acks.v]: what a granted vote tells of the voter's log, and what a leader
      remembers of its peers.
    - [Ledger.v]: an abstract specification of replication, a step relation on
      logs and reigns without servers and messages, and log matching for it.
    - [Council.v]: an abstract specification of agreement, the ledger with terms,
      votes and acknowledgements; what a majority acknowledged is in the logs of
      all later leaders.
    - [Network.v], [Matching.v]: servers that exchange all four kinds of messages;
      election safety, the refinement of the ledger, log matching.
    - [Visits.v], [Claims.v], [Sessions.v], [Agreement.v]: what a call does to
      votes, acknowledgements and commitments; what messages claim; each call is a
      sequence of steps of the council; leader completeness and the agreement of
      committed entries.
    - [AppFacts.v], [AppStart.v]: packets are delivered to the peer they are
      addressed to and decode to the message that was sent; the buffers; the start
      of the program establishes the invariant; the client.
    - [AppSafety.v]: over any sequence of packets, of any bytes, and timer events,
      a node's history only advances and its fields stay in range; a conflict
      ends the program.
    - [Radio.v], [Rounds.v], [Mesh.v], [Consensus.v]: nodes that run the program and
      a radio that loses, repeats, delays and reorders packets refine the network
      of servers, so that election safety, log matching, leader completeness and
      state machine safety hold of the program.  The layers are [Mesh.mesh_step]
      (packets and processes), [Network.network_step] (messages and calls of the
      library), which implements [Cluster.cluster_step] (votes) and
      [Council.council_step] (votes, logs and acknowledgements), and the council
      takes the steps of [Ledger.ledger_step] (logs).  [MeshRuns.v] runs three
      nodes through an election, two replications and a change of leaders.
    - [Timers.v], [Air.v], [Progress.v]: timers stay in their bounds and
      [raft_periodic] never fails; from any state the nodes reach, a node whose log
      is not behind those of two others can be elected, three nodes or more can get
      to a state with a leader, whatever their terms, logs and roles, and a leader
      can commit the value a client sends it once two others that have its log take
      it, all through the packets and timers of the program.  The courses of events
      these theorems give are of nodes that receive packets given to
      [netflood_send] ([Air.posting] writes them down).
    - [PowerLoss.v]: a node that restarts has forgotten its vote, and election
      safety fails.

    ** Bounds

    Two loops of the source are not bounded by a list or a count: that of
    [log_clear], started with the length of the list, and that of
    [raft_apply_all], started with the distance between the applied and the
    commit index.  [Termination.operations_end] shows that both bounds are
    enough.  The loops over the entries of a message are started with the number
    of entries left.

    ** Not modelled

    - The text of log messages, [printf], and the formatting buffer of [__log].
    - Callbacks that call back into the server or change the data of an entry.
    - Cyclic entry chains: the entries behind a message's pointer are a list.
    - Snapshots and [log_poll]: their bodies are commented out in the source;
      the stubs are modelled as they are.
    - Fairness: the theorems about progress give a course of events that leads to
      the result; they do not say that the radio and the timers follow it.  In
      particular netflood is best effort, and a packet sent while the one before it
      waits may replace it; when packets of a round are lost that way in every
      round, the theorems about progress say nothing.  The theorems about safety
      hold whatever is lost.
    - The scheduler of Contiki: [App.v] has one definition per round of a
      process, for the event that resumes it.
    - The handshake and configuration structures of proto.h, which no code uses.
    - The tests, the test framework and the build scripts.
    - In the theorems about the whole network: changes of the configuration while
      it runs (the program makes none), the restart of a node (the program keeps
      nothing in permanent storage: [PowerLoss.v]), and, for what the logs say, logs that were
      full: a log of more than fifty entries forgets the first, and then takes old
      entries for new ones ([Conflict.appendentries_after_eviction]). *)
From Stdlib Require Export ZArith Lia.
From stdpp Require Export base decidable option list numbers gmap.

#[export] Set Warnings "-clear-no-such-hyp".

Declare Scope raft_scope.
Delimit Scope raft_scope with raft.
Open Scope Z_scope.

(** ** Machine integers *)

(** The C target: the width of [int].  The language guarantees 16 bits; the
    default target of the Makefile ([TARGET=sky], an MSP430) has exactly 16. *)
Class CTarget := {
  int_bits : Z;
  int_bits_ge : 16 <= int_bits
}.

Definition sky : CTarget := {| int_bits := 16; int_bits_ge := ltac:(lia) |}.
Definition native32 : CTarget := {| int_bits := 32; int_bits_ge := ltac:(lia) |}.

Section Int.
Context {T : CTarget}.

Definition INT_MAX : Z := 2 ^ (int_bits - 1) - 1.
Definition INT_MIN : Z := - 2 ^ (int_bits - 1).

(** Whether a mathematical result is representable as an [int]; a signed
    operation whose result is not is undefined behaviour. *)
Definition int_ok (z : Z) : bool := (INT_MIN <=? z) && (z <=? INT_MAX).

(** Conversion of an [int] to [unsigned int]. *)
Definition to_uint (z : Z) : Z := z mod 2 ^ int_bits.

(** Conversion of an [unsigned int] to [int] (modular, as GCC defines it). *)
Definition to_int (z : Z) : Z :=
  let u := z mod 2 ^ int_bits in
  if u <? 2 ^ (int_bits - 1) then u else u - 2 ^ int_bits.
End Int.

Section IntFacts.
Context {T : CTarget}.

Lemma int_modulus : 2 ^ int_bits = 2 * 2 ^ (int_bits - 1).
Proof.
  pose proof int_bits_ge. rewrite <- Z.pow_succ_r by lia. f_equal. lia.
Qed.

Lemma INT_MAX_ge : 32767 <= INT_MAX.
Proof.
  unfold INT_MAX. pose proof int_bits_ge.
  pose proof (Z.pow_le_mono_r 2 15 (int_bits - 1)). lia.
Qed.

Lemma INT_MIN_MAX : INT_MIN = - INT_MAX - 1.
Proof. unfold INT_MIN, INT_MAX. lia. Qed.

Lemma int_ok_iff z : int_ok z = true <-> INT_MIN <= z <= INT_MAX.
Proof. unfold int_ok. rewrite andb_true_iff, !Z.leb_le. done. Qed.

Lemma int_ok_nonneg z : 0 <= z <= INT_MAX -> int_ok z = true.
Proof. rewrite int_ok_iff, INT_MIN_MAX. lia. Qed.

(** The conversions are the identity on values both types represent. *)
Lemma to_uint_small z : 0 <= z <= INT_MAX -> to_uint z = z.
Proof.
  unfold INT_MAX, to_uint. rewrite int_modulus. intros Hz. apply Z.mod_small. lia.
Qed.
Lemma to_int_small z : 0 <= z <= INT_MAX -> to_int z = z.
Proof.
  intros Hz. unfold to_int. fold (to_uint z). rewrite to_uint_small by done.
  unfold INT_MAX in Hz. destruct (Z.ltb_spec z (2 ^ (int_bits - 1))); lia.
Qed.
End IntFacts.

(** Truth value of a C expression and the [int] a comparison yields. *)
Definition truth (z : Z) : bool := negb (z =? 0).
Definition of_bool (b : bool) : Z := if b then 1 else 0.

(** The macros [min] and [max] of raft_server.c. *)
Definition c_min (a b : Z) : Z := if a <? b then a else b.
Definition c_max (a b : Z) : Z := if a <? b then b else a.

(** ** Faults and the state monad *)

(** The ways an execution goes wrong: a failed [assert] (the program aborts) or
    a behaviour C leaves undefined.  [OutOfFuel] marks a bounded loop of the model
    that did not end; the development proves it never occurs. *)
Inductive fault :=
  | AssertFailed | NullDeref | WildDeref | NullCall
  | IntOverflow | DivByZero | InvalidFree | OutOfFuel.

#[export] Instance fault_eq_dec : EqDecision fault.
Proof. solve_decision. Defined.

Inductive outcome (S A : Type) :=
  | Ok (a : A) (s : S)
  | Fault (f : fault).
Arguments Ok {S A} a s.
Arguments Fault {S A} f.

Definition M (S A : Type) : Type := S -> outcome S A.

Section Monad.
Context {S : Type}.

Definition ret {A} (a : A) : M S A := fun s => Ok a s.
Definition bind {A B} (m : M S A) (k : A -> M S B) : M S B :=
  fun s => match m s with Ok a s' => k a s' | Fault f => Fault f end.
Definition raise {A} (f : fault) : M S A := fun _ => Fault f.
Definition gets {A} (g : S -> A) : M S A := fun s => Ok (g s) s.
Definition modify (g : S -> S) : M S unit := fun s => Ok tt (g s).
(** [assert(b)] with assertions enabled. *)
Definition assert_ (b : bool) : M S unit :=
  if b then ret tt else raise AssertFailed.
(** A signed result: kept when representable. *)
Definition int_chk {T : CTarget} (z : Z) : M S Z :=
  if int_ok z then ret z else raise IntOverflow.

(** [for (x = list_head(l); x != NULL; x = list_item_next(x)) f(x)]. *)
Fixpoint foreach {X} (l : list X) (f : X -> M S unit) : M S unit :=
  match l with
  | [] => ret tt
  | x :: l' => bind (f x) (fun _ => foreach l' f)
  end.

(** The same loop whose body may leave the function: [Some e] is
    [return e]. *)
Fixpoint foreach_ret {X R} (l : list X) (f : X -> M S (option R)) : M S (option R) :=
  match l with
  | [] => ret None
  | x :: l' =>
      bind (f x) (fun o => match o with Some e => ret (Some e) | None => foreach_ret l' f end)
  end.

(** The same loop looking for the first item that satisfies a test. *)
Fixpoint find_first {X} (l : list X) (f : X -> M S bool) : M S (option X) :=
  match l with
  | [] => ret None
  | x :: l' => bind (f x) (fun b => if b : bool then ret (Some x) else find_first l' f)
  end.

(** The same loop incrementing a counter for the items that satisfy a test. *)
Fixpoint count_from {X} (n : Z) (l : list X) (f : X -> M S bool) : M S Z :=
  match l with
  | [] => ret n
  | x :: l' => bind (f x) (fun b => count_from (if b : bool then n + 1 else n) l' f)
  end.
End Monad.

Notation "'let!' x ':=' m 'in' k" := (bind m (fun x => k))
  (at level 10, x pattern, m at level 100, k at level 200) : raft_scope.
Notation "'exec!' m 'in' k" := (bind m (fun _ => k))
  (at level 10, m at level 100, k at level 200) : raft_scope.
Open Scope raft_scope.

(** [if (b) m;] *)
Definition when {S} (b : bool) (m : M S unit) : M S unit := if b then m else ret tt.

(** ** Program logic

    [wp E m Q s]: run from [s], [m] either terminates with a value and a state
    that satisfy [Q], or goes wrong with a fault [E] allows. *)
Section Wp.
Context {S : Type}.

Definition wp {A} (E : fault -> Prop) (m : M S A) (Q : A -> S -> Prop) (s : S) : Prop :=
  match m s with Ok a s' => Q a s' | Fault f => E f end.

Implicit Types (E : fault -> Prop) (s : S).

Lemma wp_ret {A} E (a : A) (Q : A -> S -> Prop) s : Q a s -> wp E (ret a) Q s.
Proof. done. Qed.

Lemma wp_bind {A B} E (m : M S A) (k : A -> M S B) Q s :
  wp E m (fun a s' => wp E (k a) Q s') s -> wp E (bind m k) Q s.
Proof. unfold wp, bind. by destruct (m s). Qed.

Lemma wp_bind_inv {A B} E (m : M S A) (k : A -> M S B) Q s :
  wp E (bind m k) Q s -> wp E m (fun a s' => wp E (k a) Q s') s.
Proof. unfold wp, bind. by destruct (m s). Qed.

Lemma wp_mono {A} E (m : M S A) (Q Q' : A -> S -> Prop) s :
  wp E m Q s -> (forall a s', Q a s' -> Q' a s') -> wp E m Q' s.
Proof. unfold wp. destruct (m s); auto. Qed.

Lemma wp_faults {A} (E E' : fault -> Prop) (m : M S A) (Q : A -> S -> Prop) s :
  wp E m Q s -> (forall f, E f -> E' f) -> wp E' m Q s.
Proof. unfold wp. destruct (m s); auto. Qed.

Lemma wp_conj {A} E (m : M S A) (Q Q' : A -> S -> Prop) s :
  wp E m Q s -> wp E m Q' s -> wp E m (fun a s' => Q a s' /\ Q' a s') s.
Proof. unfold wp. destruct (m s); auto. Qed.

Lemma wp_gets {A} E (g : S -> A) (Q : A -> S -> Prop) s : Q (g s) s -> wp E (gets g) Q s.
Proof. done. Qed.

Lemma wp_modify E (g : S -> S) (Q : unit -> S -> Prop) s :
  Q tt (g s) -> wp E (modify g) Q s.
Proof. done. Qed.

Lemma wp_raise {A} E f (Q : A -> S -> Prop) s : E f -> wp E (raise f) Q s.
Proof. done. Qed.

Lemma wp_assert E b (Q : unit -> S -> Prop) s :
  (b = true -> Q tt s) -> (b = false -> E AssertFailed) -> wp E (assert_ b) Q s.
Proof. destruct b; cbn; auto. Qed.

Lemma wp_int_chk `{CTarget} E z (Q : Z -> S -> Prop) s :
  (int_ok z = true -> Q z s) -> (int_ok z = false -> E IntOverflow) ->
  wp E (int_chk z) Q s.
Proof. unfold int_chk. destruct (int_ok z); cbn; auto. Qed.

(** A run that ends normally satisfies every [wp] that holds of it. *)
Lemma wp_ok {A} E (m : M S A) (Q : A -> S -> Prop) s a s' :
  wp E m Q s -> m s = Ok a s' -> Q a s'.
Proof. unfold wp. intros H Hm. by rewrite Hm in H. Qed.

Lemma wp_of_ok {A} E (m : M S A) (Q : A -> S -> Prop) s a s' :
  m s = Ok a s' -> Q a s' -> wp E m Q s.
Proof. unfold wp. intros Hm. by rewrite Hm. Qed.

(** Total correctness produces the result. *)
Lemma wp_total {A} (m : M S A) (Q : A -> S -> Prop) s :
  wp (fun _ => False) m Q s -> exists a s', m s = Ok a s' /\ Q a s'.
Proof. unfold wp. destruct (m s); [eauto|done]. Qed.

Lemma bind_fault_l {A B} (m : M S A) (k : A -> M S B) s f :
  m s = Fault f -> bind m k s = Fault f.
Proof. intros H. unfold bind. by rewrite H. Qed.
Lemma bind_ok_l {A B} (m : M S A) (k : A -> M S B) s a s' :
  m s = Ok a s' -> bind m k s = k a s'.
Proof. unfold bind. by intros ->. Qed.

Lemma bind_ok {A B} (m : M S A) (k : A -> M S B) s b s' :
  bind m k s = Ok b s' -> exists a s1, m s = Ok a s1 /\ k a s1 = Ok b s'.
Proof. unfold bind. destruct (m s); [eauto|done]. Qed.

(** Two continuations that agree on the results of [m]. *)
Lemma bind_cong {A B} (m : M S A) (k k' : A -> M S B) s :
  (forall a s', m s = Ok a s' -> k a s' = k' a s') -> bind m k s = bind m k' s.
Proof. unfold bind. destruct (m s); auto. Qed.

Lemma bind_cong_l {A B} (m m' : M S A) (k : A -> M S B) s :
  m s = m' s -> bind m k s = bind m' k s.
Proof. unfold bind. by intros ->. Qed.

(** Equations of sequencing after a basic operation. *)
Lemma bind_ret_l {A B} (a : A) (k : A -> M S B) s : bind (ret a) k s = k a s.
Proof. done. Qed.
Lemma bind_gets_l {A B} (g : S -> A) (k : A -> M S B) s : bind (gets g) k s = k (g s) s.
Proof. done. Qed.
Lemma bind_modify_l {B} (g : S -> S) (k : unit -> M S B) s :
  bind (modify g) k s = k tt (g s).
Proof. done. Qed.
Lemma bind_raise_l {A B} f (k : A -> M S B) s : bind (raise f) k s = Fault f.
Proof. done. Qed.
Lemma bind_assert_l {B} b (k : unit -> M S B) s :
  bind (assert_ b) k s = if b then k tt s else Fault AssertFailed.
Proof. by destruct b. Qed.
Lemma bind_int_chk_l `{CTarget} {B} z (k : Z -> M S B) s :
  bind (int_chk z) k s = if int_ok z then k z s else Fault IntOverflow.
Proof. unfold int_chk. by destruct (int_ok z). Qed.
Lemma bind_assoc {A B D} (m : M S A) (k : A -> M S B) (h : B -> M S D) s :
  bind (bind m k) h s = bind m (fun a => bind (k a) h) s.
Proof. unfold bind. by destruct (m s). Qed.

(** Loop rule with an invariant indexed by the items still to visit. *)
Lemma wp_foreach {X} E (I : list X -> S -> Prop) (l : list X) (f : X -> M S unit)
    (Q : unit -> S -> Prop) s :
  I l s ->
  (forall x l' s', I (x :: l') s' -> wp E (f x) (fun _ s'' => I l' s'') s') ->
  (forall s', I [] s' -> Q tt s') ->
  wp E (foreach l f) Q s.
Proof.
  intros HI Hstep HQ. revert s HI. induction l as [|x l IH]; intros s HI; cbn.
  - by apply HQ.
  - apply wp_bind. eapply wp_mono; [by apply Hstep|]. intros ? s' HI'. by apply IH.
Qed.
End Wp.
#[global] Arguments wp {S A} E m Q s : simpl never.

Create Rewrite HintDb monad.
#[export] Hint Rewrite @bind_ret_l @bind_gets_l @bind_modify_l @bind_raise_l @bind_assert_l
  @bind_int_chk_l @bind_assoc : monad.

(** [run_simp H] executes the basic operations a run [H : m s = Ok a s'] starts
    with; [run_ret H] ends it at [ret]; [run_bind H] splits it at a sequencing. *)
Ltac run_simp H := repeat (progress autorewrite with monad in H; cbv beta in H).
Ltac run_ret H := unfold ret in H; injection H; clear H; intros; subst.
Tactic Notation "run_bind" hyp(H) "as" simple_intropattern(a) simple_intropattern(w)
    simple_intropattern(H1) :=
  apply bind_ok in H; destruct H as (a & w & H1 & H).

(** ** Runs related by a preorder

    [keeps R m]: every run of [m] that ends relates its initial state to its
    final state by [R].  Closed under sequencing when [R] is a preorder, so a
    relation that holds of the primitive operations holds of every program
    built from them. *)
Section Keeps.
Context {S : Type} (R : S -> S -> Prop).

Definition keeps {A} (m : M S A) : Prop :=
  forall s a s', m s = Ok a s' -> R s s'.

Context `{!PreOrder R}.

Lemma keeps_ret {A} (a : A) : keeps (ret a).
Proof. intros s b s' [= <- <-]. reflexivity. Qed.
Lemma keeps_raise {A} f : keeps (raise f : M S A).
Proof. by intros s a s'. Qed.
Lemma keeps_gets {A} (g : S -> A) : keeps (gets g).
Proof. intros s b s' [= <- <-]. reflexivity. Qed.
Lemma keeps_assert b : keeps (assert_ b).
Proof. destruct b; [apply keeps_ret|apply keeps_raise]. Qed.
Lemma keeps_int_chk `{CTarget} z : keeps (int_chk z).
Proof. unfold int_chk. destruct (int_ok z); [apply keeps_ret|apply keeps_raise]. Qed.
Lemma keeps_modify g : (forall s, R s (g s)) -> keeps (modify g).
Proof. intros H s a s' [= <- <-]. apply H. Qed.

Lemma keeps_bind {A B} (m : M S A) (k : A -> M S B) :
  keeps m -> (forall a, keeps (k a)) -> keeps (bind m k).
Proof.
  intros Hm Hk s b s' (a & s1 & H1 & H2)%bind_ok.
  transitivity s1; [by eapply Hm|by eapply Hk].
Qed.

Lemma keeps_when b (m : M S unit) : keeps m -> keeps (when b m).
Proof. destruct b; [done|]. intros _. apply keeps_ret. Qed.

Lemma keeps_foreach {X} (l : list X) f :
  (forall x, keeps (f x)) -> keeps (foreach l f).
Proof.
  intros H. induction l as [|x l IH]; cbn; [apply keeps_ret|].
  apply keeps_bind; auto.
Qed.
Lemma keeps_foreach_ret {X Y} (l : list X) (f : X -> M S (option Y)) :
  (forall x, keeps (f x)) -> keeps (foreach_ret l f).
Proof.
  intros H. induction l as [|x l IH]; cbn; [apply keeps_ret|].
  apply keeps_bind; [done|]. intros [y|]; [apply keeps_ret|done].
Qed.
Lemma keeps_find_first {X} (l : list X) f :
  (forall x, keeps (f x)) -> keeps (find_first l f).
Proof.
  intros H. induction l as [|x l IH]; cbn; [apply keeps_ret|].
  apply keeps_bind; [done|]. intros []; [apply keeps_ret|done].
Qed.
Lemma keeps_count_from {X} (l : list X) f n :
  (forall x, keeps (f x)) -> keeps (count_from n l f).
Proof.
  intros H. revert n. induction l as [|x l IH]; intros n; cbn; [apply keeps_ret|].
  apply keeps_bind; [done|]. intros []; apply IH.
Qed.
End Keeps.

(** A loop whose body skips some items. *)
Lemma foreach_skip {S X} (b : X -> bool) (l : list X) (f : X -> M S unit) s :
  foreach l (fun x => if b x then ret tt else f x) s
  = foreach (List.filter (fun x => negb (b x)) l) f s.
Proof.
  revert s. induction l as [|x l IH]; intros s; [done|]. cbn [foreach List.filter].
  destruct (b x); cbn [negb foreach]; [by rewrite bind_ret_l|]. by apply bind_cong.
Qed.

(** ** Loops whose body only reads *)

Lemma list_find_append {X} (g : X -> bool) (l1 l2 : list X) :
  List.find g (l1 ++ l2) = match List.find g l1 with Some x => Some x | None => List.find g l2 end.
Proof. induction l1 as [|x l1 IH]; cbn; [done|]. by destruct (g x). Qed.

Section PureLoops.
Context {S X : Type}.

Lemma find_first_some (l : list X) (f : X -> M S bool) s p s' :
  find_first l f s = Ok (Some p) s' -> p ∈ l /\ exists s1, f p s1 = Ok true s'.
Proof.
  revert s. induction l as [|x l IH]; intros s H; [done|]. cbn [find_first] in H.
  apply bind_ok in H as (b & s1 & H1 & H2). destruct b.
  - injection H2 as <- <-. split; [left|by exists s].
  - destruct (IH s1 H2) as [Hin Hp]. split; [by right|done].
Qed.
Lemma find_first_pure (g : X -> bool) (l : list X) (f : X -> M S bool) s :
  (forall x, x ∈ l -> f x s = Ok (g x) s) ->
  find_first l f s = Ok (List.find g l) s.
Proof.
  induction l as [|x l IH]; intros H; cbn; [done|].
  unfold bind. rewrite H by set_solver. destruct (g x); [done|].
  apply IH. intros y Hy. apply H. set_solver.
Qed.

Lemma count_from_pure (g : X -> bool) (l : list X) (f : X -> M S bool) n s :
  (forall x, x ∈ l -> f x s = Ok (g x) s) ->
  count_from n l f s = Ok (n + Z.of_nat (length (List.filter g l))) s.
Proof.
  revert n. induction l as [|x l IH]; intros n H; cbn.
  - unfold ret. f_equal. lia.
  - unfold bind. rewrite H by set_solver.
    assert (forall y, y ∈ l -> f y s = Ok (g y) s) as H' by (intros; apply H; set_solver).
    destruct (g x); rewrite IH by done; cbn; f_equal; lia.
Qed.
End PureLoops.

(** A program that only reads keeps every reflexive relation. *)
Abbreviation readonly m := (keeps eq m).

Lemma readonly_keeps {S A} (R : S -> S -> Prop) `{!Reflexive R} (m : M S A) :
  readonly m -> keeps R m.
Proof. intros H s a s' Hm. by rewrite (H _ _ _ Hm). Qed.

(** [same f]: an observation [f] of the state is the same before and after. *)
Definition same {S X} (f : S -> X) (s s' : S) : Prop := f s' = f s.
#[export] Instance same_preorder {S X} (f : S -> X) : PreOrder (same f).
Proof. split; [done|]. unfold same. intros s1 s2 s3 H1 H2. congruence. Qed.

Lemma keeps_same_modify {S X} (f : S -> X) g :
  (forall s, f (g s) = f s) -> keeps (same f) (modify g).
Proof. intros H. by apply keeps_modify. Qed.

(** What [keeps (same f)] says of a run. *)
Lemma keeps_same_ok {S X A} (f : S -> X) (m : M S A) s a s' :
  keeps (same f) m -> m s = Ok a s' -> f s' = f s.
Proof. intros H Hm. by apply (H s a s'). Qed.

Lemma wp_keeps {S A} (R : S -> S -> Prop) (m : M S A) s :
  keeps R m -> wp (fun _ => True) m (fun _ s' => R s s') s.
Proof. intros H. unfold wp. destruct (m s) eqn:Hm; [by eapply H|done]. Qed.

Create HintDb keeps discriminated.
#[export] Hint Resolve keeps_ret keeps_raise keeps_gets keeps_assert keeps_int_chk
  keeps_when keeps_foreach keeps_foreach_ret keeps_find_first keeps_count_from : keeps.

#[export] Hint Extern 2 (keeps ?R ?m) =>
  (lazymatch R with eq => fail | _ => apply readonly_keeps; [typeclasses eauto|] end) : keeps.

(** Syntax-directed proof of [keeps]: splits sequencing and case distinctions,
    and closes the leaves with the [keeps] hint database. *)
Ltac keeps_step :=
  match goal with
  | |- keeps _ (bind _ _) => apply keeps_bind; [apply _| |intros ?]
  | |- keeps _ (let '(_, _) := ?x in _) => destruct x
  | |- keeps _ (match ?x with _ => _ end) => destruct x
  | |- keeps _ _ => solve [eauto 3 with keeps typeclass_instances]
  | |- keeps _ _ => (apply keeps_when; [apply _|])
  | |- keeps _ (foreach _ _) => apply keeps_foreach; [apply _|intros ?]
  | |- keeps _ (foreach_ret _ _) => apply keeps_foreach_ret; [apply _|intros ?]
  | |- keeps _ (find_first _ _) => apply keeps_find_first; [apply _|intros ?]
  | |- keeps _ (count_from _ _ _) => apply keeps_count_from; [apply _|intros ?]
  end.
Ltac keeps_solve := repeat keeps_step.

(** From a run [H : m s = Ok a s'], the fact [K : R s s'], by [keeps_solve]. *)
Tactic Notation "run_keeps" hyp(H) uconstr(R) "as" ident(K) :=
  match type of H with
  | ?m ?s = Ok ?a ?s' =>
      assert (K : keeps R m); [keeps_solve|specialize (K s a s' H); cbv beta in K]
  end.

(** ** Quorums *)

(** Two majorities of a set have a member in common. *)
Lemma quorums_meet (V P Q : gset Z) : P ⊆ V -> Q ⊆ V ->
  (stdpp.base.size V < 2 * stdpp.base.size P)%nat ->
  (stdpp.base.size V < 2 * stdpp.base.size Q)%nat -> exists j, j ∈ P /\ j ∈ Q.
Proof.
  intros HP HQ H1 H2. destruct (set_choose_or_empty (P ∩ Q)) as [[j Hj]|He].
  - exists j. set_solver.
  - assert (P ## Q) as Hd by set_solver. apply size_union in Hd.
    pose proof (subseteq_size (P ∪ Q) V ltac:(set_solver)). lia.
Qed.
