(* ===== verification/Contiki.v ===== *)
(** * The operating-system interface

    The Contiki functions the sources call: the linked lists of lib/list.h, the
    block pools of lib/memb.h and the generator of lib/random.h.  Contiki is a
    git submodule, so its code is a parameter here: [Contiki] has one operation
    per function called, [ContikiLaws] the documented behaviour the development
    relies on, and [sim_contiki] is a concrete instance that satisfies it, used
    to run the model on examples. *)
From S2P Require Import Prelude.

(** Addresses of memory blocks, and C pointers ([None] is [NULL]). *)
Abbreviation addr := positive.
Abbreviation ptr := (option addr).

(** A Contiki list is represented by the sequence of its items, in the order
    [list_head] and [list_item_next] visit them; the loop
    [for (x = list_head(l); x != NULL; x = list_item_next(x))] is an iteration
    over that sequence.  A pool is an abstract value with two observations, the
    blocks in use and the number of blocks. *)
Class Contiki := {
  list_init : list addr -> list addr;
  list_head : list addr -> ptr;
  list_tail : list addr -> ptr;
  list_length : list addr -> Z;
  list_pop : list addr -> ptr * list addr;
  list_add : list addr -> addr -> list addr;
  list_remove : list addr -> ptr -> list addr;
  memb : Type;
  MEMB : nat -> memb;
  memb_alloc : memb -> ptr * memb;
  memb_free : memb -> ptr -> memb;
  memb_used : memb -> gset addr;
  memb_num : memb -> nat;
  rng : Type;
  random_rand : rng -> Z * rng
}.

Class ContikiLaws (C : Contiki) : Prop := {
  list_init_spec l : list_init l = [];
  list_head_spec l : list_head l = head l;
  list_tail_spec l : list_tail l = last l;
  list_length_spec l : list_length l = Z.of_nat (length l);
  list_pop_nil : list_pop [] = (None, []);
  list_pop_cons x l : list_pop (x :: l) = (Some x, l);
  list_add_fresh l x : x ∉ l -> list_add l x = (l ++ [x]);
  list_remove_absent l x : x ∉ l -> list_remove l (Some x) = l;
  list_remove_present l1 x l2 : x ∉ l1 ->
    list_remove (l1 ++ x :: l2) (Some x) = (l1 ++ l2);
  MEMB_used n : memb_used (MEMB n) = ∅;
  MEMB_num n : memb_num (MEMB n) = n;
  memb_alloc_full m : memb_num m = size (memb_used m) -> memb_alloc m = (None, m);
  memb_alloc_room m : (size (memb_used m) < memb_num m)%nat ->
    exists a m', memb_alloc m = (Some a, m') /\ (a ∉ memb_used m) /\
      memb_used m' = ({[a]} ∪ memb_used m) /\ memb_num m' = memb_num m;
  memb_free_spec m a : a ∈ memb_used m ->
    memb_used (memb_free m (Some a)) = memb_used m ∖ {[a]} /\
    memb_num (memb_free m (Some a)) = memb_num m;
  random_rand_range g : 0 <= fst (random_rand g) <= 65535
}.

(** ** Consequences of the laws *)
Section Laws.
Context `{L : ContikiLaws}.

(** Allocation succeeds exactly when a block is free; the block is new. *)
Lemma memb_alloc_cases m : (size (memb_used m) <= memb_num m)%nat ->
  (memb_alloc m = (None, m) /\ memb_num m = size (memb_used m)) \/
  (exists a m', memb_alloc m = (Some a, m') /\ (a ∉ memb_used m) /\
    memb_used m' = ({[a]} ∪ memb_used m) /\ memb_num m' = memb_num m /\
    (size (memb_used m) < memb_num m)%nat).
Proof.
  intros Hle. destruct (decide (memb_num m = size (memb_used m))) as [Heq|Hne].
  - left. split; [by apply memb_alloc_full|done].
  - right. destruct (memb_alloc_room m) as (a & m' & ? & ? & ? & ?); [lia|].
    exists a, m'. repeat split; try done; lia.
Qed.

(** Removing an item keeps the others, in order. *)
Lemma list_remove_incl l x y : NoDup l -> y ∈ list_remove l (Some x) -> y ∈ l.
Proof.
  intros Hnd. destruct (decide (x ∈ l)) as [(l1 & l2 & ->)%list_elem_of_split|Hx].
  - apply NoDup_app in Hnd as (H1 & H2 & H3); rewrite list_remove_present by set_solver. clear L. set_solver.
  - by rewrite list_remove_absent.
Qed.

Lemma list_remove_NoDup l x : NoDup l -> NoDup (list_remove l (Some x)).
Proof.
  intros Hnd. destruct (decide (x ∈ l)) as [(l1 & l2 & ->)%list_elem_of_split|Hx].
  - apply NoDup_app in Hnd as (H1 & H2 & H3); rewrite list_remove_present by set_solver.
    apply NoDup_cons in H3 as [H3 H4].
    apply NoDup_app. set_solver.
  - by rewrite list_remove_absent.
Qed.
End Laws.

(** ** A concrete instance *)

Fixpoint remove_first (x : addr) (l : list addr) : list addr :=
  match l with
  | [] => []
  | y :: l' => if decide (y = x) then l' else y :: remove_first x l'
  end.

Definition sim_list_remove (l : list addr) (p : ptr) : list addr :=
  match p with None => l | Some x => remove_first x l end.

Record sim_memb := { sim_used : gset addr; sim_num : nat }.

Definition sim_memb_alloc (m : sim_memb) : ptr * sim_memb :=
  if decide (size (sim_used m) < sim_num m)%nat
  then let a := fresh (sim_used m) in
       (Some a, {| sim_used := {[a]} ∪ sim_used m; sim_num := sim_num m |})
  else (None, m).

Definition sim_memb_free (m : sim_memb) (p : ptr) : sim_memb :=
  match p with
  | None => m
  | Some a => {| sim_used := sim_used m ∖ {[a]}; sim_num := sim_num m |}
  end.

(** A generator that steps through the 16-bit values. *)
Definition sim_rand (g : Z) : Z * Z := (g mod 65536, g + 7919).

Definition sim_contiki : Contiki := {|
  list_init := fun _ => [];
  list_head := head;
  list_tail := last;
  list_length := fun l => Z.of_nat (length l);
  list_pop := fun l => match l with [] => (None, []) | x :: l' => (Some x, l') end;
  list_add := fun l x => (l ++ [x]);
  list_remove := sim_list_remove;
  memb := sim_memb;
  MEMB := fun n => {| sim_used := ∅; sim_num := n |};
  memb_alloc := sim_memb_alloc;
  memb_free := sim_memb_free;
  memb_used := sim_used;
  memb_num := sim_num;
  rng := Z;
  random_rand := sim_rand
|}.

#[export] Instance sim_contiki_laws : ContikiLaws sim_contiki.
Proof.
  split; try done; cbn.
  - intros l x Hx. induction l as [|y l IH]; [done|]. cbn. case_decide; [set_solver|].
    f_equal. apply IH. set_solver.
  - intros l1 x l2 Hx. induction l1 as [|y l IH]; cbn; [by case_decide|].
    case_decide; [set_solver|]. f_equal. apply IH. set_solver.
  - intros m Hm. unfold sim_memb_alloc. case_decide; [lia|done].
  - intros m Hm. unfold sim_memb_alloc. case_decide; [|lia].
    eexists _, _. split; [done|]. cbn. split; [apply is_fresh|done].
  - intros g. pose proof (Z.mod_pos_bound g 65536). lia.
Qed.
