(* ===== verification/Types.v ===== *)
(** * Data model

    The types of include/raft.h and include/raft_private.h, the private
    structures of raft_node.c and raft_log.c, and the memory the library works
    on.  An [int] or [unsigned int] is a [Z]; a structure is a record; a pointer
    to a node or an entry is an address into the block pool it comes from. *)
From S2P Require Import Prelude Contiki.

(** ** Constants of raft.h *)
Definition RAFT_ERR_NOT_LEADER : Z := -2.
Definition RAFT_ERR_ONE_VOTING_CHANGE_ONLY : Z := -3.
Definition RAFT_ERR_SHUTDOWN : Z := -4.
Definition RAFT_ERR_NOMEM : Z := -5.
Definition RAFT_ERR_NEEDS_SNAPSHOT : Z := -6.
Definition RAFT_ERR_SNAPSHOT_IN_PROGRESS : Z := -7.

Definition RAFT_REQUESTVOTE_ERR_GRANTED : Z := 1.
Definition RAFT_REQUESTVOTE_ERR_NOT_GRANTED : Z := 0.
Definition RAFT_REQUESTVOTE_ERR_UNKNOWN_NODE : Z := -1.

Inductive raft_state_e :=
  | RAFT_STATE_NONE | RAFT_STATE_FOLLOWER | RAFT_STATE_CANDIDATE | RAFT_STATE_LEADER.
#[export] Instance raft_state_eq_dec : EqDecision raft_state_e.
Proof. solve_decision. Defined.

(** [raft_logtype_e]; an entry's [type] is an [int], so any value can arrive. *)
Definition RAFT_LOGTYPE_NORMAL : Z := 0.
Definition RAFT_LOGTYPE_ADD_NONVOTING_NODE : Z := 1.
Definition RAFT_LOGTYPE_ADD_NODE : Z := 2.
Definition RAFT_LOGTYPE_DEMOTE_NODE : Z := 3.
Definition RAFT_LOGTYPE_REMOVE_NODE : Z := 4.
Definition RAFT_LOGTYPE_SNAPSHOT : Z := 5.

Inductive raft_node_status_e :=
  | RAFT_NODE_STATUS_DISCONNECTED | RAFT_NODE_STATUS_CONNECTED
  | RAFT_NODE_STATUS_CONNECTING | RAFT_NODE_STATUS_DISCONNECTING.
#[export] Instance raft_node_status_eq_dec : EqDecision raft_node_status_e.
Proof. solve_decision. Defined.

(** ** Entries and messages *)

(** [unsigned char buf[2]] *)
Record raft_entry_data_t := mk_data { buf0 : Z; buf1 : Z }.

(** An entry, without its [next] link: the links of the entries of a list are
    the order of that list. *)
Record raft_entry_t := mk_entry {
  ety_term : Z;
  ety_idx : Z;
  ety_id : Z;
  ety_type : Z;
  ety_data : raft_entry_data_t
}.

Definition with_ety_idx (v : Z) (e : raft_entry_t) : raft_entry_t :=
  mk_entry (ety_term e) v (ety_id e) (ety_type e) (ety_data e).
Definition with_ety_term (v : Z) (e : raft_entry_t) : raft_entry_t :=
  mk_entry v (ety_idx e) (ety_id e) (ety_type e) (ety_data e).

Record msg_entry_response_t := mk_entry_response { er_id : Z; er_term : Z; er_idx : Z }.

Record msg_requestvote_t := mk_requestvote {
  rv_term : Z;
  rv_candidate_id : Z;
  rv_last_log_idx : Z;
  rv_last_log_term : Z
}.

Record msg_requestvote_response_t := mk_requestvote_response {
  rvr_term : Z;
  rvr_vote_granted : Z
}.

(** [ae_entries] is the chain of entries reachable from the [entries] pointer
    through [next], empty for [NULL]; [ae_n_entries] is the separate count. *)
Record msg_appendentries_t := mk_appendentries {
  ae_term : Z;
  ae_prev_log_idx : Z;
  ae_prev_log_term : Z;
  ae_leader_commit : Z;
  ae_n_entries : Z;
  ae_entries : list raft_entry_t
}.

Record msg_appendentries_response_t := mk_appendentries_response {
  aer_term : Z;
  aer_success : Z;
  aer_current_idx : Z;
  aer_first_idx : Z
}.

(** ** Nodes (raft_node.c) and the log structure (raft_log.c) *)
Record raft_node_private_t := mk_node {
  next_idx : Z;
  match_idx : Z;
  flags : Z;
  id : Z
}.

Definition with_next_idx (v : Z) (n : raft_node_private_t) : raft_node_private_t :=
  mk_node v (match_idx n) (flags n) (id n).
Definition with_match_idx (v : Z) (n : raft_node_private_t) : raft_node_private_t :=
  mk_node (next_idx n) v (flags n) (id n).
Definition with_flags (v : Z) (n : raft_node_private_t) : raft_node_private_t :=
  mk_node (next_idx n) (match_idx n) v (id n).
Definition with_id (v : Z) (n : raft_node_private_t) : raft_node_private_t :=
  mk_node (next_idx n) (match_idx n) (flags n) v.

(** A pointer to a statically allocated object: [NULL] or the server. *)
Inductive static_ptr := SNull | SServer.
#[export] Instance static_ptr_eq_dec : EqDecision static_ptr.
Proof. solve_decision. Defined.

Record log_private_t := mk_log {
  size : Z  (** size of array *);
  count : Z  (** amount of elements *);
  base : Z  (** Base Log Index *);
  entries_list : list addr  (** the list raft_entries_list *);
  log_cb : static_ptr  (** the callbacks *);
  log_raft : static_ptr  (** the server *)
}.

Definition with_size (v : Z) (l : log_private_t) : log_private_t :=
  mk_log v (count l) (base l) (entries_list l) (log_cb l) (log_raft l).
Definition with_count (v : Z) (l : log_private_t) : log_private_t :=
  mk_log (size l) v (base l) (entries_list l) (log_cb l) (log_raft l).
Definition with_base (v : Z) (l : log_private_t) : log_private_t :=
  mk_log (size l) (count l) v (entries_list l) (log_cb l) (log_raft l).
Definition with_entries_list (v : list addr) (l : log_private_t) : log_private_t :=
  mk_log (size l) (count l) (base l) v (log_cb l) (log_raft l).
Definition with_log_cb (v : static_ptr) (l : log_private_t) : log_private_t :=
  mk_log (size l) (count l) (base l) (entries_list l) v (log_raft l).
Definition with_log_raft (v : static_ptr) (l : log_private_t) : log_private_t :=
  mk_log (size l) (count l) (base l) (entries_list l) (log_cb l) v.

(** ** Callbacks

    The user of the library supplies functions and a [user_data] pointer; what
    the functions do is a state transformer of the data behind that pointer,
    together with the [int] they return.  They are given the structures their
    pointer arguments designate and do not call back into the server. *)
Class User := { udata : Type }.

Section Callbacks.
Context {U : User}.

Definition func_logentry_event_f : Type := udata -> raft_entry_t -> Z -> Z * udata.

(** [None] is a [NULL] function pointer. *)
Record raft_cbs_t := mk_cbs {
send_requestvote : option (udata -> raft_node_private_t -> msg_requestvote_t -> Z * udata);
send_appendentries :
  option (udata -> raft_node_private_t -> msg_appendentries_t -> Z * udata);
send_snapshot : option (udata -> raft_node_private_t -> Z * udata);
applylog : option func_logentry_event_f;
persist_vote : option (udata -> Z -> Z * udata);
persist_term : option (udata -> Z -> Z -> Z * udata);
log_offer : option func_logentry_event_f;
log_poll_cb : option func_logentry_event_f;
log_pop : option func_logentry_event_f;
log_get_node_id : option func_logentry_event_f;
node_has_sufficient_logs : option (udata -> raft_node_private_t -> Z * udata);
log_message : option (udata -> ptr -> udata)
}.

(** The callbacks of a server on which [raft_set_callbacks] was not called. *)
Definition no_cbs : raft_cbs_t :=
mk_cbs None None None None None None None None None None None None.

(** ** The server (raft_private.h) *)
Record raft_server_private_t := mk_server {
current_term : Z  (** the server's best guess of the current term *);
voted_for : Z  (** node ID of the candidate voted for in this term, -1 for none *);
commit_idx : Z  (** idx of highest log entry known to be committed *);
last_applied_idx : Z  (** idx of highest log entry applied to state machine *);
state : raft_state_e  (** follower/leader/candidate indicator *);
timeout_elapsed : Z  (** time since the last reset of the timer *);
nodes_list : list addr  (** the list raft_nodes_list *);
num_nodes : Z;
election_timeout : Z;
election_timeout_rand : Z;
request_timeout : Z;
current_leader : ptr  (** node of the current leader, NULL when unknown *);
cb : raft_cbs_t  (** callbacks *);
node : ptr  (** my node *);
voting_cfg_change_log_idx : Z  (** the log which has a voting cfg change, otherwise -1 *);
connected : raft_node_status_e;
snapshot_in_progress : Z;
snapshot_last_idx : Z;
snapshot_last_term : Z
}.

Definition with_current_term (v : Z) (s : raft_server_private_t) : raft_server_private_t :=
mk_server v (voted_for s) (commit_idx s) (last_applied_idx s) (state s) (timeout_elapsed
  s) (nodes_list s) (num_nodes s) (election_timeout s) (election_timeout_rand s)
  (request_timeout s) (current_leader s) (cb s) (node s) (voting_cfg_change_log_idx s)
  (connected s) (snapshot_in_progress s) (snapshot_last_idx s) (snapshot_last_term s).
Definition with_voted_for (v : Z) (s : raft_server_private_t) : raft_server_private_t :=
mk_server (current_term s) v (commit_idx s) (last_applied_idx s) (state s)
  (timeout_elapsed s) (nodes_list s) (num_nodes s) (election_timeout s)
  (election_timeout_rand s) (request_timeout s) (current_leader s) (cb s) (node s)
  (voting_cfg_change_log_idx s) (connected s) (snapshot_in_progress s) (snapshot_last_idx
  s) (snapshot_last_term s).
Definition with_commit_idx (v : Z) (s : raft_server_private_t) : raft_server_private_t :=
mk_server (current_term s) (voted_for s) v (last_applied_idx s) (state s) (timeout_elapsed
  s) (nodes_list s) (num_nodes s) (election_timeout s) (election_timeout_rand s)
  (request_timeout s) (current_leader s) (cb s) (node s) (voting_cfg_change_log_idx s)
  (connected s) (snapshot_in_progress s) (snapshot_last_idx s) (snapshot_last_term s).
Definition with_last_applied_idx (v : Z) (s : raft_server_private_t) : raft_server_private_t :=
mk_server (current_term s) (voted_for s) (commit_idx s) v (state s) (timeout_elapsed s)
  (nodes_list s) (num_nodes s) (election_timeout s) (election_timeout_rand s)
  (request_timeout s) (current_leader s) (cb s) (node s) (voting_cfg_change_log_idx s)
  (connected s) (snapshot_in_progress s) (snapshot_last_idx s) (snapshot_last_term s).
Definition with_state (v : raft_state_e) (s : raft_server_private_t) : raft_server_private_t :=
mk_server (current_term s) (voted_for s) (commit_idx s) (last_applied_idx s) v
  (timeout_elapsed s) (nodes_list s) (num_nodes s) (election_timeout s)
  (election_timeout_rand s) (request_timeout s) (current_leader s) (cb s) (node s)
  (voting_cfg_change_log_idx s) (connected s) (snapshot_in_progress s) (snapshot_last_idx
  s) (snapshot_last_term s).
Definition with_timeout_elapsed (v : Z) (s : raft_server_private_t) : raft_server_private_t :=
mk_server (current_term s) (voted_for s) (commit_idx s) (last_applied_idx s) (state s) v
  (nodes_list s) (num_nodes s) (election_timeout s) (election_timeout_rand s)
  (request_timeout s) (current_leader s) (cb s) (node s) (voting_cfg_change_log_idx s)
  (connected s) (snapshot_in_progress s) (snapshot_last_idx s) (snapshot_last_term s).
Definition with_nodes_list (v : list addr) (s : raft_server_private_t) :
  raft_server_private_t :=
mk_server (current_term s) (voted_for s) (commit_idx s) (last_applied_idx s) (state s)
  (timeout_elapsed s) v (num_nodes s) (election_timeout s) (election_timeout_rand s)
  (request_timeout s) (current_leader s) (cb s) (node s) (voting_cfg_change_log_idx s)
  (connected s) (snapshot_in_progress s) (snapshot_last_idx s) (snapshot_last_term s).
Definition with_num_nodes (v : Z) (s : raft_server_private_t) : raft_server_private_t :=
mk_server (current_term s) (voted_for s) (commit_idx s) (last_applied_idx s) (state s)
  (timeout_elapsed s) (nodes_list s) v (election_timeout s) (election_timeout_rand s)
  (request_timeout s) (current_leader s) (cb s) (node s) (voting_cfg_change_log_idx s)
  (connected s) (snapshot_in_progress s) (snapshot_last_idx s) (snapshot_last_term s).
Definition with_election_timeout (v : Z) (s : raft_server_private_t) : raft_server_private_t :=
mk_server (current_term s) (voted_for s) (commit_idx s) (last_applied_idx s) (state s)
  (timeout_elapsed s) (nodes_list s) (num_nodes s) v (election_timeout_rand s)
  (request_timeout s) (current_leader s) (cb s) (node s) (voting_cfg_change_log_idx s)
  (connected s) (snapshot_in_progress s) (snapshot_last_idx s) (snapshot_last_term s).
Definition with_election_timeout_rand (v : Z) (s : raft_server_private_t) :
  raft_server_private_t :=
mk_server (current_term s) (voted_for s) (commit_idx s) (last_applied_idx s) (state s)
  (timeout_elapsed s) (nodes_list s) (num_nodes s) (election_timeout s) v (request_timeout
  s) (current_leader s) (cb s) (node s) (voting_cfg_change_log_idx s) (connected s)
  (snapshot_in_progress s) (snapshot_last_idx s) (snapshot_last_term s).
Definition with_request_timeout (v : Z) (s : raft_server_private_t) : raft_server_private_t :=
mk_server (current_term s) (voted_for s) (commit_idx s) (last_applied_idx s) (state s)
  (timeout_elapsed s) (nodes_list s) (num_nodes s) (election_timeout s)
  (election_timeout_rand s) v (current_leader s) (cb s) (node s)
  (voting_cfg_change_log_idx s) (connected s) (snapshot_in_progress s) (snapshot_last_idx
  s) (snapshot_last_term s).
Definition with_current_leader (v : ptr) (s : raft_server_private_t) : raft_server_private_t :=
mk_server (current_term s) (voted_for s) (commit_idx s) (last_applied_idx s) (state s)
  (timeout_elapsed s) (nodes_list s) (num_nodes s) (election_timeout s)
  (election_timeout_rand s) (request_timeout s) v (cb s) (node s)
  (voting_cfg_change_log_idx s) (connected s) (snapshot_in_progress s) (snapshot_last_idx
  s) (snapshot_last_term s).
Definition with_cb (v : raft_cbs_t) (s : raft_server_private_t) : raft_server_private_t :=
mk_server (current_term s) (voted_for s) (commit_idx s) (last_applied_idx s) (state s)
  (timeout_elapsed s) (nodes_list s) (num_nodes s) (election_timeout s)
  (election_timeout_rand s) (request_timeout s) (current_leader s) v (node s)
  (voting_cfg_change_log_idx s) (connected s) (snapshot_in_progress s) (snapshot_last_idx
  s) (snapshot_last_term s).
Definition with_node (v : ptr) (s : raft_server_private_t) : raft_server_private_t :=
mk_server (current_term s) (voted_for s) (commit_idx s) (last_applied_idx s) (state s)
  (timeout_elapsed s) (nodes_list s) (num_nodes s) (election_timeout s)
  (election_timeout_rand s) (request_timeout s) (current_leader s) (cb s) v
  (voting_cfg_change_log_idx s) (connected s) (snapshot_in_progress s) (snapshot_last_idx
  s) (snapshot_last_term s).
Definition with_voting_cfg_change_log_idx (v : Z) (s : raft_server_private_t) :
  raft_server_private_t :=
mk_server (current_term s) (voted_for s) (commit_idx s) (last_applied_idx s) (state s)
  (timeout_elapsed s) (nodes_list s) (num_nodes s) (election_timeout s)
  (election_timeout_rand s) (request_timeout s) (current_leader s) (cb s) (node s) v
  (connected s) (snapshot_in_progress s) (snapshot_last_idx s) (snapshot_last_term s).
Definition with_connected (v : raft_node_status_e) (s : raft_server_private_t) :
  raft_server_private_t :=
mk_server (current_term s) (voted_for s) (commit_idx s) (last_applied_idx s) (state s)
  (timeout_elapsed s) (nodes_list s) (num_nodes s) (election_timeout s)
  (election_timeout_rand s) (request_timeout s) (current_leader s) (cb s) (node s)
  (voting_cfg_change_log_idx s) v (snapshot_in_progress s) (snapshot_last_idx s)
  (snapshot_last_term s).
Definition with_snapshot_in_progress (v : Z) (s : raft_server_private_t) :
  raft_server_private_t :=
mk_server (current_term s) (voted_for s) (commit_idx s) (last_applied_idx s) (state s)
  (timeout_elapsed s) (nodes_list s) (num_nodes s) (election_timeout s)
  (election_timeout_rand s) (request_timeout s) (current_leader s) (cb s) (node s)
  (voting_cfg_change_log_idx s) (connected s) v (snapshot_last_idx s) (snapshot_last_term
  s).
Definition with_snapshot_last_idx (v : Z) (s : raft_server_private_t) : raft_server_private_t :=
mk_server (current_term s) (voted_for s) (commit_idx s) (last_applied_idx s) (state s)
  (timeout_elapsed s) (nodes_list s) (num_nodes s) (election_timeout s)
  (election_timeout_rand s) (request_timeout s) (current_leader s) (cb s) (node s)
  (voting_cfg_change_log_idx s) (connected s) (snapshot_in_progress s) v
  (snapshot_last_term s).
Definition with_snapshot_last_term (v : Z) (s : raft_server_private_t) :
  raft_server_private_t :=
mk_server (current_term s) (voted_for s) (commit_idx s) (last_applied_idx s) (state s)
  (timeout_elapsed s) (nodes_list s) (num_nodes s) (election_timeout s)
  (election_timeout_rand s) (request_timeout s) (current_leader s) (cb s) (node s)
  (voting_cfg_change_log_idx s) (connected s) (snapshot_in_progress s) (snapshot_last_idx
  s) v.

End Callbacks.

(** ** Memory

    The static objects of the library: the server, the log, the two pools with
    the contents of their blocks, and the state outside the library that its
    calls change. *)
Section World.
Context {C : Contiki} {U : User}.

Record world := mk_world {
srv : raft_server_private_t;
lg : log_private_t;
entry_heap : gmap addr raft_entry_t  (** contents of the entry blocks *);
raft_entries_mem : memb  (** pool of entry blocks *);
node_heap : gmap addr raft_node_private_t  (** contents of the node blocks *);
raft_nodes_mem : memb  (** pool of node blocks *);
rand_state : rng  (** state of the random generator *);
user_data : udata  (** state of the user's callbacks *)
}.

Definition with_srv (v : raft_server_private_t) (w : world) : world :=
mk_world v (lg w) (entry_heap w) (raft_entries_mem w) (node_heap w) (raft_nodes_mem w)
  (rand_state w) (user_data w).
Definition with_lg (v : log_private_t) (w : world) : world :=
mk_world (srv w) v (entry_heap w) (raft_entries_mem w) (node_heap w) (raft_nodes_mem w)
  (rand_state w) (user_data w).
Definition with_entry_heap (v : gmap addr raft_entry_t) (w : world) : world :=
mk_world (srv w) (lg w) v (raft_entries_mem w) (node_heap w) (raft_nodes_mem w)
  (rand_state w) (user_data w).
Definition with_raft_entries_mem (v : memb) (w : world) : world :=
mk_world (srv w) (lg w) (entry_heap w) v (node_heap w) (raft_nodes_mem w) (rand_state w)
  (user_data w).
Definition with_node_heap (v : gmap addr raft_node_private_t) (w : world) : world :=
mk_world (srv w) (lg w) (entry_heap w) (raft_entries_mem w) v (raft_nodes_mem w)
  (rand_state w) (user_data w).
Definition with_raft_nodes_mem (v : memb) (w : world) : world :=
mk_world (srv w) (lg w) (entry_heap w) (raft_entries_mem w) (node_heap w) v (rand_state w)
  (user_data w).
Definition with_rand_state (v : rng) (w : world) : world :=
mk_world (srv w) (lg w) (entry_heap w) (raft_entries_mem w) (node_heap w) (raft_nodes_mem
  w) v (user_data w).
Definition with_user_data (v : udata) (w : world) : world :=
mk_world (srv w) (lg w) (entry_heap w) (raft_entries_mem w) (node_heap w) (raft_nodes_mem
  w) (rand_state w) v.

(** The list link [next] of an entry designates the item that follows it in the
  list, so the chain from an entry of a list is the suffix that starts at it. *)
Fixpoint suffix_from (a : addr) (l : list addr) : list addr :=
match l with
| [] => []
| x :: l' => if decide (x = a) then l else suffix_from a l'
end.

(** ** Access to memory *)
Definition upd_srv (f : raft_server_private_t -> raft_server_private_t) : M world unit :=
modify (fun w => with_srv (f (srv w)) w).
Definition upd_lg (f : log_private_t -> log_private_t) : M world unit :=
modify (fun w => with_lg (f (lg w)) w).

(** [*p] for a node pointer, and assignment to its fields. *)
Definition node_get (p : ptr) : M world raft_node_private_t :=
match p with
| None => raise NullDeref
| Some a =>
    let! h := gets node_heap in
    match h !! a with None => raise WildDeref | Some n => ret n end
end.
Definition node_put (p : ptr) (n : raft_node_private_t) : M world unit :=
match p with
| None => raise NullDeref
| Some a => modify (fun w => with_node_heap (<[a := n]> (node_heap w)) w)
end.
Definition node_read {A} (f : raft_node_private_t -> A) (p : ptr) : M world A :=
let! n := node_get p in ret (f n).
Definition node_write (f : raft_node_private_t -> raft_node_private_t) (p : ptr)
  : M world unit :=
let! n := node_get p in node_put p (f n).

(** [*p] for an entry pointer. *)
Definition entry_get (p : ptr) : M world raft_entry_t :=
match p with
| None => raise NullDeref
| Some a =>
    let! h := gets entry_heap in
    match h !! a with None => raise WildDeref | Some e => ret e end
end.

(** A call of a user's function. *)
Definition call (f : udata -> Z * udata) : M world Z :=
let! u := gets user_data in
let r := f u in
exec! modify (with_user_data (snd r)) in
ret (fst r).

(** The function behind a pointer that is called without a test. *)
Definition non_null {A} (o : option A) : M world A :=
match o with None => raise NullCall | Some f => ret f end.

End World.

(** The statically allocated objects before any call: zeroed. *)
Section Boot.
Context {C : Contiki} {U : User}.

Definition zero_server : raft_server_private_t :=
  mk_server 0 0 0 0 RAFT_STATE_NONE 0 [] 0 0 0 0 None no_cbs None 0
    RAFT_NODE_STATUS_DISCONNECTED 0 0 0.
Definition zero_log : log_private_t := mk_log 0 0 0 [] SNull SNull.
End Boot.
