(* ===== verification/Node.v ===== *)
(** * Peers: raft_node.c

    One definition per function.  A function that only reads or writes the
    structure its argument points to is a function of that structure in
    [Module Node]; the versions on pointers follow, through [node_read] and
    [node_write], with the [NULL] check the machine makes. *)
From S2P Require Import Prelude Contiki Types.

Definition RAFT_NODE_VOTED_FOR_ME : Z := Z.shiftl 1 0.
Definition RAFT_NODE_VOTING : Z := Z.shiftl 1 1.
Definition RAFT_NODE_HAS_SUFFICIENT_LOG : Z := Z.shiftl 1 2.
Definition RAFT_NODE_INACTIVE : Z := Z.shiftl 1 3.
Definition RAFT_NODE_VOTING_COMMITTED : Z := Z.shiftl 1 4.
Definition RAFT_NODE_ADDITION_COMMITTED : Z := Z.shiftl 1 5.
Definition MAX_NODES : nat := 7.

Module Node.

(** [me->flags |= m], [me->flags &= ~m] and [(me->flags & m) != 0] *)
Definition set_flag (m : Z) (me : raft_node_private_t) : raft_node_private_t :=
  with_flags (Z.lor (flags me) m) me.
Definition clear_flag (m : Z) (me : raft_node_private_t) : raft_node_private_t :=
  with_flags (Z.land (flags me) (Z.lnot m)) me.
Definition has_flag (m : Z) (me : raft_node_private_t) : bool :=
  negb (Z.land (flags me) m =? 0).

Definition init (id : Z) : raft_node_private_t := mk_node 1 0 RAFT_NODE_VOTING id.

Definition get_next_idx (me : raft_node_private_t) : Z := next_idx me.
Definition set_next_idx (nextIdx : Z) (me : raft_node_private_t) : raft_node_private_t :=
  with_next_idx (if nextIdx <? 1 then 1 else nextIdx) me.
Definition get_match_idx (me : raft_node_private_t) : Z := match_idx me.
Definition set_match_idx (matchIdx : Z) (me : raft_node_private_t) : raft_node_private_t :=
  with_match_idx matchIdx me.
Definition get_id (me : raft_node_private_t) : Z := id me.

Definition vote_for_me (vote : bool) (me : raft_node_private_t) : raft_node_private_t :=
  if vote then set_flag RAFT_NODE_VOTED_FOR_ME me
  else clear_flag RAFT_NODE_VOTED_FOR_ME me.
Definition has_vote_for_me (me : raft_node_private_t) : bool :=
  has_flag RAFT_NODE_VOTED_FOR_ME me.

Definition is_voting (me : raft_node_private_t) : bool := has_flag RAFT_NODE_VOTING me.
(** [None]: the assertion fails. *)
Definition set_voting (voting : bool) (me : raft_node_private_t)
    : option raft_node_private_t :=
  if voting
  then if negb (is_voting me) then Some (set_flag RAFT_NODE_VOTING me) else None
  else if is_voting me then Some (clear_flag RAFT_NODE_VOTING me) else None.

Definition has_sufficient_logs (me : raft_node_private_t) : bool :=
  has_flag RAFT_NODE_HAS_SUFFICIENT_LOG me.
Definition set_has_sufficient_logs (me : raft_node_private_t) : raft_node_private_t :=
  set_flag RAFT_NODE_HAS_SUFFICIENT_LOG me.

Definition set_active (active : bool) (me : raft_node_private_t) : raft_node_private_t :=
  if negb active then set_flag RAFT_NODE_INACTIVE me else clear_flag RAFT_NODE_INACTIVE me.
Definition is_active (me : raft_node_private_t) : bool :=
  negb (has_flag RAFT_NODE_INACTIVE me).

Definition set_voting_committed (voting : bool) (me : raft_node_private_t)
    : raft_node_private_t :=
  if voting then set_flag RAFT_NODE_VOTING_COMMITTED me
  else clear_flag RAFT_NODE_VOTING_COMMITTED me.
Definition is_voting_committed (me : raft_node_private_t) : bool :=
  has_flag RAFT_NODE_VOTING_COMMITTED me.

Definition set_addition_committed (committed : bool) (me : raft_node_private_t)
    : raft_node_private_t :=
  if committed then set_flag RAFT_NODE_ADDITION_COMMITTED me
  else clear_flag RAFT_NODE_ADDITION_COMMITTED me.
Definition is_addition_committed (me : raft_node_private_t) : bool :=
  has_flag RAFT_NODE_ADDITION_COMMITTED me.
End Node.

Section NodeOps.
Context {C : Contiki} {U : User}.

Definition raft_node_new (id : Z) : M world ptr :=
  let! pool := gets raft_nodes_mem in
  let '(p, pool') := memb_alloc pool in
  exec! modify (with_raft_nodes_mem pool') in
  match p with
  | None => ret None
  | Some a => exec! node_put (Some a) (Node.init id) in ret (Some a)
  end.

(** The block goes back to the pool; its contents stay in memory. *)
Definition raft_node_free (p : ptr) : M world unit :=
  modify (fun w => with_raft_nodes_mem (memb_free (raft_nodes_mem w) p) w).

Definition raft_node_get_next_idx : ptr -> M world Z := node_read Node.get_next_idx.
Definition raft_node_set_next_idx (p : ptr) (v : Z) : M world unit :=
  node_write (Node.set_next_idx v) p.
Definition raft_node_get_match_idx : ptr -> M world Z := node_read Node.get_match_idx.
Definition raft_node_set_match_idx (p : ptr) (v : Z) : M world unit :=
  node_write (Node.set_match_idx v) p.
Definition raft_node_vote_for_me (p : ptr) (vote : bool) : M world unit :=
  node_write (Node.vote_for_me vote) p.
Definition raft_node_has_vote_for_me : ptr -> M world bool := node_read Node.has_vote_for_me.
Definition raft_node_is_voting : ptr -> M world bool := node_read Node.is_voting.
Definition raft_node_set_voting (p : ptr) (voting : bool) : M world unit :=
  let! n := node_get p in
  match Node.set_voting voting n with
  | None => raise AssertFailed
  | Some n' => node_put p n'
  end.
Definition raft_node_has_sufficient_logs : ptr -> M world bool :=
  node_read Node.has_sufficient_logs.
Definition raft_node_set_has_sufficient_logs : ptr -> M world unit :=
  node_write Node.set_has_sufficient_logs.
Definition raft_node_set_active (p : ptr) (active : bool) : M world unit :=
  node_write (Node.set_active active) p.
Definition raft_node_is_active : ptr -> M world bool := node_read Node.is_active.
Definition raft_node_set_voting_committed (p : ptr) (voting : bool) : M world unit :=
  node_write (Node.set_voting_committed voting) p.
Definition raft_node_is_voting_committed : ptr -> M world bool :=
  node_read Node.is_voting_committed.
Definition raft_node_get_id : ptr -> M world Z := node_read Node.get_id.
Definition raft_node_set_addition_committed (p : ptr) (committed : bool) : M world unit :=
  node_write (Node.set_addition_committed committed) p.
Definition raft_node_is_addition_committed : ptr -> M world bool :=
  node_read Node.is_addition_committed.
End NodeOps.
