(* ===== verification/Membership.v ===== *)
(** * Membership: the list of peers

    The functions of raft_server.c and raft_server_properties.c that search and
    change the list of nodes, and the configuration changes that log entries
    make ([raft_offer_log], [raft_pop_log]). *)
From S2P Require Import Prelude Contiki Types Node.

Section Membership.
Context {T : CTarget} {C : Contiki} {U : User}.

(** ** Searching the list *)

Definition raft_get_nodeid : M world Z :=
  let! me := gets srv in
  match node me with
  | None => ret (-1)
  | Some _ => raft_node_get_id (node me)
  end.

Definition raft_get_num_nodes : M world Z := gets (fun w => num_nodes (srv w)).

(** [node == list item], as a test on pointers *)
Definition is_self_ptr (me : raft_server_private_t) (a : addr) : bool :=
  bool_decide (node me = Some a).

Definition raft_get_num_voting_nodes : M world Z :=
  let! me := gets srv in
  count_from 0 (nodes_list me) (fun a =>
    let! act := raft_node_is_active (Some a) in
    if act : bool then raft_node_is_voting (Some a) else ret false).

Definition raft_get_node (nodeid : Z) : M world ptr :=
  let! me := gets srv in
  find_first (nodes_list me) (fun a =>
    let! i := raft_node_get_id (Some a) in ret (nodeid =? i)).

Definition raft_get_my_node : M world ptr :=
  let! me := gets srv in
  find_first (nodes_list me) (fun a =>
    let! self := raft_get_nodeid in
    let! i := raft_node_get_id (Some a) in ret (self =? i)).

(** [i] counts up to [num_nodes]; the loop returns at the item where it
    equals [idx]. *)
Fixpoint node_from_idx (l : list addr) (i n idx : Z) : ptr :=
  match l with
  | [] => None
  | a :: l' =>
      if i <? n then if i =? idx then Some a else node_from_idx l' (i + 1) n idx
      else None
  end.
Definition raft_get_node_from_idx (idx : Z) : M world ptr :=
  let! me := gets srv in ret (node_from_idx (nodes_list me) 0 (num_nodes me) idx).

Definition raft_get_nvotes_for_me : M world Z :=
  let! me := gets srv in
  let! votes := count_from 0 (nodes_list me) (fun a =>
    if is_self_ptr me a then ret false
    else
      let! act := raft_node_is_active (Some a) in
      if negb act then ret false
      else
        let! voting := raft_node_is_voting (Some a) in
        if negb voting then ret false else raft_node_has_vote_for_me (Some a)) in
  let! self := raft_get_nodeid in
  ret (if voted_for me =? self then votes + 1 else votes).

(** ** Changing the list *)

Definition raft_add_node (id : Z) (is_self : bool) : M world ptr :=
  let! found := raft_get_node id in
  match found with
  | Some _ =>
      let! voting := raft_node_is_voting found in
      if negb voting then exec! raft_node_set_voting found true in ret found
      else ret None
  | None =>
      let! p := raft_node_new id in
      match p with
      | None => ret None
      | Some a =>
          exec! upd_srv (fun me => with_nodes_list (list_add (nodes_list me) a) me) in
          let! me := gets srv in
          let! n := int_chk (num_nodes me + 1) in
          exec! upd_srv (with_num_nodes n) in
          exec! when is_self (upd_srv (with_node p)) in
          ret p
      end
  end.

Definition raft_add_non_voting_node (id : Z) (is_self : bool) : M world ptr :=
  let! found := raft_get_node id in
  match found with
  | Some _ => ret None
  | None =>
      let! p := raft_add_node id is_self in
      match p with
      | None => ret None
      | Some _ => exec! raft_node_set_voting p false in ret p
      end
  end.

(** [list_remove] is given the first item of the list in the place of the
    list: the list that starts at the link of that item is the tail, and the
    call reads through a null pointer when there is no first item. *)
Definition raft_remove_node (p : ptr) : M world unit :=
  exec! assert_ (bool_decide (is_Some p)) in
  let! me := gets srv in
  exec! match nodes_list me with
        | [] => raise NullDeref
        | h :: rest => upd_srv (with_nodes_list (h :: list_remove rest p))
        end in
  let! n := int_chk (num_nodes me - 1) in
  exec! upd_srv (with_num_nodes n) in
  raft_node_free p.

(** ** Configuration changes in the log *)

Definition raft_entry_is_voting_cfg_change (ety : raft_entry_t) : bool :=
  (RAFT_LOGTYPE_ADD_NODE =? ety_type ety) || (RAFT_LOGTYPE_DEMOTE_NODE =? ety_type ety).

Definition raft_entry_is_cfg_change (ety : raft_entry_t) : bool :=
  (RAFT_LOGTYPE_ADD_NODE =? ety_type ety)
  || (RAFT_LOGTYPE_ADD_NONVOTING_NODE =? ety_type ety)
  || (RAFT_LOGTYPE_DEMOTE_NODE =? ety_type ety)
  || (RAFT_LOGTYPE_REMOVE_NODE =? ety_type ety).

(** [me->cb.log_get_node_id(me_, udata, ety, idx)] *)
Definition call_log_get_node_id (ety : raft_entry_t) (idx : Z) : M world Z :=
  let! me := gets srv in
  let! f := non_null (log_get_node_id (cb me)) in
  call (fun u => f u ety idx).

Definition raft_offer_log (p : ptr) (idx : Z) : M world unit :=
  let! ety := entry_get p in
  if negb (raft_entry_is_cfg_change ety) then ret tt
  else
    let! node_id := call_log_get_node_id ety idx in
    let! node := raft_get_node node_id in
    let! self := raft_get_nodeid in
    let is_self := node_id =? self in
    if ety_type ety =? RAFT_LOGTYPE_ADD_NONVOTING_NODE then
      if negb is_self then
        match node with
        | Some _ =>
            let! act := raft_node_is_active node in
            when (negb act) (raft_node_set_active node true)
        | None =>
            let! node := raft_add_non_voting_node node_id is_self in
            assert_ (bool_decide (is_Some node))
        end
      else ret tt
    else if ety_type ety =? RAFT_LOGTYPE_ADD_NODE then
      let! node := raft_add_node node_id is_self in
      exec! assert_ (bool_decide (is_Some node)) in
      let! voting := raft_node_is_voting node in
      assert_ voting
    else if ety_type ety =? RAFT_LOGTYPE_DEMOTE_NODE then
      when (bool_decide (is_Some node)) (raft_node_set_voting node false)
    else if ety_type ety =? RAFT_LOGTYPE_REMOVE_NODE then
      when (bool_decide (is_Some node)) (raft_node_set_active node false)
    else raise AssertFailed.

Definition raft_pop_log (p : ptr) (idx : Z) : M world unit :=
  let! ety := entry_get p in
  if negb (raft_entry_is_cfg_change ety) then ret tt
  else
    let! node_id := call_log_get_node_id ety idx in
    if ety_type ety =? RAFT_LOGTYPE_DEMOTE_NODE then
      let! node := raft_get_node node_id in raft_node_set_voting node true
    else if ety_type ety =? RAFT_LOGTYPE_REMOVE_NODE then
      let! node := raft_get_node node_id in raft_node_set_active node true
    else if ety_type ety =? RAFT_LOGTYPE_ADD_NONVOTING_NODE then
      let! self := raft_get_nodeid in
      let is_self := node_id =? self in
      let! node := raft_get_node node_id in
      exec! raft_remove_node node in
      when is_self (raise AssertFailed)
    else if ety_type ety =? RAFT_LOGTYPE_ADD_NODE then
      let! node := raft_get_node node_id in raft_node_set_voting node false
    else raise AssertFailed.
End Membership.
