(* ===== verification/Log.v ===== *)
(** * The log: raft_log.c *)
From S2P Require Import Prelude Contiki Types Node Membership.

Definition INITIAL_CAPACITY : Z := 10.
Definition MAX_ENTRIES : nat := 50.

Section Log.
Context {T : CTarget} {C : Contiki} {U : User}.

(** ** Construction *)

(** [a % b] truncates towards zero. *)
Definition mod_ (a b : Z) : Z := let r := Z.rem a b in if r <? 0 then r + b else r.

Definition log_load_from_snapshot (idx term : Z) : M world Z := ret 0.

Definition log_alloc (initial_size : Z) : M world unit :=
  let! me := gets lg in
  upd_lg (fun l =>
    mk_log initial_size 0 0 (list_init (entries_list l)) SNull SNull).

Definition log_new : M world unit := log_alloc INITIAL_CAPACITY.

Definition log_set_callbacks (funcs raft : static_ptr) : M world unit :=
  upd_lg (fun l => with_log_cb funcs (with_log_raft raft l)).

(** The loop ends because each round removes an item: [fuel] bounds the
    number of rounds, and [log_clear] starts it with the length of the list. *)
Fixpoint log_clear_loop (fuel : nat) : M world unit :=
  let! me := gets lg in
  if list_length (entries_list me) =? 0 then ret tt
  else
    match fuel with
    | O => raise OutOfFuel
    | S fuel' =>
        let '(ety, rest) := list_pop (entries_list me) in
        exec! upd_lg (with_entries_list rest) in
        exec! modify (fun w => with_raft_entries_mem (memb_free (raft_entries_mem w) ety) w) in
        log_clear_loop fuel'
    end.

Definition log_clear : M world unit :=
  let! me := gets lg in
  exec! log_clear_loop (length (entries_list me)) in
  upd_lg (fun l => with_base 0 (with_count 0 l)).

(** ** Reading *)

Definition log_count : M world Z := gets (fun w => count (lg w)).

Definition log_get_current_idx : M world Z :=
  let! me := gets lg in let! c := log_count in int_chk (c + base me).

Definition log_get_base : M world Z := gets (fun w => base (lg w)).

(** The first item [a] of the list with [a->idx == idx]; the comparison is
    made on [unsigned int]. *)
Definition log_find (idx : Z) : M world ptr :=
  let! me := gets lg in
  find_first (entries_list me) (fun a =>
    let! ety := entry_get (Some a) in ret (ety_idx ety =? to_uint idx)).

Definition log_get_from_idx (idx : Z) : M world (ptr * Z) :=
  let! me := gets lg in
  let! before := int_chk (idx - 1) in
  exec! assert_ (0 <=? before) in
  let! last := int_chk (base me + count me) in
  if (last <? idx) || (idx <? base me) then ret (None, 0)
  else
    let! first_match_ety := log_find idx in
    let last_ety := list_tail (entries_list me) in
    let! le := entry_get last_ety in
    let! fe := entry_get first_match_ety in
    let logs_till_end_of_log := to_int (to_uint (to_uint (ety_idx le - ety_idx fe) + 1)) in
    ret (first_match_ety, logs_till_end_of_log).

Definition log_get_at_idx (idx : Z) : M world ptr :=
  let! me := gets lg in
  if idx =? 0 then ret None
  else if idx <=? base me then ret None
  else
    let! last := int_chk (base me + count me) in
    if last <? idx then ret None else log_find idx.

Definition log_peektail : M world ptr :=
  let! me := gets lg in
  if 0 =? count me then ret None else ret (list_tail (entries_list me)).

(** The entries reachable from [ety] through [log_get_next_entry]. *)
Fixpoint read_entries (l : list addr) : M world (list raft_entry_t) :=
  match l with
  | [] => ret []
  | x :: l' =>
      let! e := entry_get (Some x) in
      let! es := read_entries l' in ret (e :: es)
  end.

Definition log_chain (ety : ptr) : M world (list raft_entry_t) :=
  match ety with
  | None => ret []
  | Some a => let! me := gets lg in read_entries (suffix_from a (entries_list me))
  end.

(** ** Writing *)

(** Makes room: when the list holds [MAX_ENTRIES] items, the first one is
    removed and its block freed. *)
Definition log_make_room : M world unit :=
  let! me := gets lg in
  when (list_length (entries_list me) =? Z.of_nat MAX_ENTRIES)
    (let '(ety, rest) := list_pop (entries_list me) in
     exec! upd_lg (with_entries_list rest) in
     modify (fun w => with_raft_entries_mem (memb_free (raft_entries_mem w) ety) w)).

(** Reading a field through a pointer to the static server; in particular
    [raft_get_udata(p)]. *)
Definition deref_static (p : static_ptr) : M world unit :=
  match p with SNull => raise NullDeref | SServer => ret tt end.
Definition raft_get_udata (p : static_ptr) : M world unit := deref_static p.

(** The notifications of a new entry: the user's [log_offer], then the
    server's [raft_offer_log]. *)
Definition log_notify_offer (new_ety : addr) (ety : raft_entry_t) (idx : Z) : M world Z :=
  let! me := gets lg in
  let! s := gets srv in
  match log_cb me, log_offer (cb s) with
  | SServer, Some f =>
      exec! raft_get_udata (log_raft me) in
      let! e := call (fun u => f u ety idx) in
      if truth e then ret e
      else exec! raft_offer_log (Some new_ety) idx in ret 0
  | _, _ => ret 0
  end.

(** Returns the result and the caller's entry, whose index is assigned. *)
Definition log_append_entry (ety : raft_entry_t) : M world (Z * raft_entry_t) :=
  let! me := gets lg in
  let! last := int_chk (base me + count me) in
  let! idx := int_chk (last + 1) in
  let ety := with_ety_idx (to_uint idx) ety in
  exec! log_make_room in
  let! pool := gets raft_entries_mem in
  let '(new_ety, pool') := memb_alloc pool in
  exec! modify (with_raft_entries_mem pool') in
  match new_ety with
  | None => ret (1, ety)
  | Some a =>
      exec! modify (fun w => with_entry_heap (<[a := ety]> (entry_heap w)) w) in
      exec! upd_lg (fun l => with_entries_list (list_add (entries_list l) a) l) in
      let! e := log_notify_offer a ety idx in
      if truth e then ret (e, ety)
      else
        let! c := gets (fun w => count (lg w)) in
        let! c' := int_chk (c + 1) in
        exec! upd_lg (with_count c') in
        ret (0, ety)
  end.

Definition log_delete (idx : Z) : M world Z :=
  let! me := gets lg in
  if 0 =? idx then ret (-1)
  else
    let idx := if idx <? base me then base me else idx in
    let! ety_to_remove := log_find idx in
    match ety_to_remove with
    | None => ret (-1)
    | Some a =>
        let! ety := entry_get (Some a) in
        exec! deref_static (log_cb me) in
        let! s := gets srv in
        let! f := non_null (log_pop (cb s)) in
        exec! raft_get_udata (log_raft me) in
        let! e := call (fun u => f u ety idx) in
        if truth e then ret e
        else
          exec! raft_pop_log (Some a) idx in
          let! c := gets (fun w => count (lg w)) in
          let! c' := int_chk (c - 1) in
          exec! upd_lg (with_count c') in
          exec! upd_lg (fun l => with_entries_list (list_remove (entries_list l) (Some a)) l) in
          exec! modify (fun w =>
            with_raft_entries_mem (memb_free (raft_entries_mem w) (Some a)) w) in
          ret 0
    end.

Definition log_poll : M world Z := ret 0.

Definition log_empty : M world unit := upd_lg (with_count 0).

(** [free] is given the address of static objects. *)
Definition log_free : M world unit := raise InvalidFree.
End Log.
