(* ===== verification/Server.v ===== *)
(** * Server state: raft_server_properties.c, and the construction of a server

    Accessors, the setters with their guards and assertions, [raft_new],
    [raft_set_callbacks], [raft_clear], votes. *)
From S2P Require Import Prelude Contiki Types Node Membership Log.

Section Server.
Context {T : CTarget} {C : Contiki} {U : User}.

(** [__log]: the debug callback is optional; the text is not modelled.  The
    arguments are evaluated by the caller in either case. *)
Definition log_msg (node : ptr) : M world unit :=
  let! me := gets srv in
  match log_message (cb me) with
  | None => ret tt
  | Some f => modify (fun w => with_user_data (f (user_data w) node) w)
  end.

(** [me->election_timeout + random_rand() % me->election_timeout], stored in
    an [int].  [random_rand] returns an [unsigned short]: it is promoted to
    [int] when [int] is wider than 16 bits, and otherwise to [unsigned int],
    with [election_timeout] converted to [unsigned int]. *)
Definition random_timeout (election_timeout r : Z) : M world Z :=
  if election_timeout =? 0 then raise DivByZero
  else if 16 <? int_bits then int_chk (election_timeout + Z.rem r election_timeout)
  else ret (to_int (to_uint (to_uint election_timeout + r mod to_uint election_timeout))).

Definition raft_randomize_election_timeout : M world unit :=
  let! me := gets srv in
  let! g := gets rand_state in
  let '(r, g') := random_rand g in
  exec! modify (with_rand_state g') in
  let! t := random_timeout (election_timeout me) r in
  exec! upd_srv (with_election_timeout_rand t) in
  log_msg None.

(** ** Accessors *)
Definition raft_get_state : M world raft_state_e := gets (fun w => state (srv w)).
Definition raft_is_follower : M world bool :=
  let! s := raft_get_state in ret (bool_decide (s = RAFT_STATE_FOLLOWER)).
Definition raft_is_leader : M world bool :=
  let! s := raft_get_state in ret (bool_decide (s = RAFT_STATE_LEADER)).
Definition raft_is_candidate : M world bool :=
  let! s := raft_get_state in ret (bool_decide (s = RAFT_STATE_CANDIDATE)).
Definition raft_get_current_term : M world Z := gets (fun w => current_term (srv w)).
Definition raft_get_voted_for : M world Z := gets (fun w => voted_for (srv w)).
Definition raft_already_voted : M world bool :=
  gets (fun w => negb (voted_for (srv w) =? -1)).
Definition raft_get_commit_idx : M world Z := gets (fun w => commit_idx (srv w)).
Definition raft_get_last_applied_idx : M world Z := gets (fun w => last_applied_idx (srv w)).
Definition raft_get_election_timeout : M world Z := gets (fun w => election_timeout (srv w)).
Definition raft_get_request_timeout : M world Z := gets (fun w => request_timeout (srv w)).
Definition raft_get_timeout_elapsed : M world Z := gets (fun w => timeout_elapsed (srv w)).
Definition raft_is_connected : M world raft_node_status_e := gets (fun w => connected (srv w)).
Definition raft_snapshot_is_in_progress : M world bool :=
  gets (fun w => truth (snapshot_in_progress (srv w))).
Definition raft_get_snapshot_last_idx : M world Z := gets (fun w => snapshot_last_idx (srv w)).
Definition raft_get_snapshot_last_term : M world Z := gets (fun w => snapshot_last_term (srv w)).
Definition raft_voting_change_is_in_progress : M world bool :=
  gets (fun w => negb (voting_cfg_change_log_idx (srv w) =? -1)).
Definition raft_get_log_count : M world Z := log_count.
Definition raft_get_current_idx : M world Z := log_get_current_idx.
Definition raft_get_entry_from_idx (etyidx : Z) : M world ptr := log_get_at_idx etyidx.
Definition raft_get_entries_from_idx (idx : Z) : M world (ptr * Z) := log_get_from_idx idx.
Definition raft_get_current_leader_node : M world ptr := gets (fun w => current_leader (srv w)).

Definition raft_get_current_leader : M world Z :=
  let! l := raft_get_current_leader_node in
  match l with Some _ => raft_node_get_id l | None => ret (-1) end.

(** An [unsigned] term returned as an [int]. *)
Definition raft_get_last_log_term : M world Z :=
  let! current_idx := raft_get_current_idx in
  if 0 <? current_idx then
    let! p := raft_get_entry_from_idx current_idx in
    match p with
    | Some _ => let! ety := entry_get p in ret (to_int (ety_term ety))
    | None => ret 0
    end
  else ret 0.

Definition raft_get_last_applied_entry : M world ptr :=
  let! i := raft_get_last_applied_idx in
  if i =? 0 then ret None else log_get_at_idx i.

Definition raft_get_first_entry_idx : M world Z :=
  let! ci := raft_get_current_idx in
  exec! assert_ (0 <? ci) in
  let! me := gets srv in
  ret (if snapshot_last_idx me =? 0 then 1 else snapshot_last_idx me).

Definition raft_get_num_snapshottable_logs : M world Z :=
  let! n := raft_get_log_count in
  if n <=? 1 then ret 0
  else
    let! ci := raft_get_commit_idx in
    let! b := log_get_base in int_chk (ci - b).

(** ** Setters *)
Definition raft_set_election_timeout (millisec : Z) : M world unit :=
  exec! upd_srv (with_election_timeout millisec) in
  raft_randomize_election_timeout.

Definition raft_set_request_timeout (millisec : Z) : M world unit :=
  upd_srv (with_request_timeout millisec).

Definition raft_set_current_term (term : Z) : M world Z :=
  let! me := gets srv in
  if current_term me <? term then
    let voted := -1 in
    let! e :=
      match persist_term (cb me) with
      | Some f => call (fun u => f u term voted)
      | None => ret 0
      end in
    if truth e then ret e
    else
      exec! upd_srv (fun s => with_voted_for voted (with_current_term term s)) in
      ret 0
  else ret 0.

Definition raft_set_commit_idx (idx : Z) : M world unit :=
  let! me := gets srv in
  exec! assert_ (commit_idx me <=? idx) in
  let! ci := raft_get_current_idx in
  exec! assert_ (idx <=? ci) in
  upd_srv (with_commit_idx idx).

Definition raft_set_last_applied_idx (idx : Z) : M world unit :=
  upd_srv (with_last_applied_idx idx).

Definition raft_set_state (st : raft_state_e) : M world unit :=
  exec! when (bool_decide (st = RAFT_STATE_LEADER))
    (upd_srv (fun me => with_current_leader (node me) me)) in
  upd_srv (with_state st).

Definition raft_set_snapshot_metadata (term idx : Z) : M world unit :=
  upd_srv (fun s => with_snapshot_last_idx idx (with_snapshot_last_term term s)).

Definition raft_vote_for_nodeid (nodeid : Z) : M world Z :=
  let! me := gets srv in
  let! e :=
    match persist_vote (cb me) with
    | Some f => call (fun u => f u nodeid)
    | None => ret 0
    end in
  if truth e then ret e
  else exec! upd_srv (with_voted_for nodeid) in ret 0.

Definition raft_vote (p : ptr) : M world Z :=
  match p with
  | Some _ => let! i := raft_node_get_id p in raft_vote_for_nodeid i
  | None => raft_vote_for_nodeid (-1)
  end.

(** ** Construction *)
Definition raft_new : M world unit :=
  exec! upd_srv (fun s => with_nodes_list (nodes_list s) zero_server) in
  exec! upd_srv (fun s => with_timeout_elapsed 0 (with_voted_for (-1) (with_current_term 0 s))) in
  exec! upd_srv (fun s => with_election_timeout 1000 (with_request_timeout 200 s)) in
  exec! raft_randomize_election_timeout in
  exec! log_new in
  exec! upd_srv (with_voting_cfg_change_log_idx (-1)) in
  exec! raft_set_state RAFT_STATE_FOLLOWER in
  exec! upd_srv (with_current_leader None) in
  exec! upd_srv (with_snapshot_in_progress 0) in
  exec! raft_set_snapshot_metadata 0 0 in
  upd_srv (fun s => with_nodes_list (list_init (nodes_list s)) s).

Definition raft_set_callbacks (funcs : raft_cbs_t) (udata : udata) : M world unit :=
  exec! upd_srv (with_cb funcs) in
  exec! modify (with_user_data udata) in
  log_set_callbacks SServer SServer.

(** [log_free], then [free] of the server, also a static object. *)
Definition raft_free : M world unit := exec! log_free in raise InvalidFree.

Definition raft_clear : M world unit :=
  exec! upd_srv (fun s => with_timeout_elapsed 0 (with_voted_for (-1) (with_current_term 0 s))) in
  exec! raft_randomize_election_timeout in
  exec! upd_srv (with_voting_cfg_change_log_idx (-1)) in
  exec! raft_set_state RAFT_STATE_FOLLOWER in
  exec! upd_srv (with_current_leader None) in
  exec! upd_srv (with_commit_idx 0) in
  exec! upd_srv (with_last_applied_idx 0) in
  exec! upd_srv (with_num_nodes 0) in
  exec! upd_srv (with_node None) in
  exec! upd_srv (with_voting_cfg_change_log_idx 0) in
  log_clear.

(** ** Snapshots: the bodies are commented out in the sources *)
Definition raft_begin_snapshot : M world Z := ret 0.
Definition raft_end_snapshot : M world Z := ret 0.
Definition raft_begin_load_snapshot (last_included_term last_included_index : Z)
  : M world Z := ret 0.
Definition raft_end_load_snapshot : M world Z := ret 0.
(** [log_poll] leaves the caller's pointer [ety] as it was. *)
Definition raft_poll_entry (ety : ptr) : M world Z :=
  let! e := log_poll in
  if truth e then ret e else exec! assert_ (bool_decide (is_Some ety)) in ret 0.
End Server.
