(* ===== verification/Election.v ===== *)
(** * Elections: candidates, votes, leaders

    The part of raft_server.c that moves a server between follower, candidate
    and leader and that grants, requests and counts votes; and
    [raft_send_appendentries], which a new leader calls. *)
From S2P Require Import Prelude Contiki Types Node Membership Log Server.

Section Election.
Context {T : CTarget} {C : Contiki} {U : User}.

(** ** Sending *)

(** [call] of a function that is given the structure behind a node pointer *)
Definition call_node (f : udata -> raft_node_private_t -> Z * udata) (p : ptr) : M world Z :=
  let! n := node_get p in call (fun u => f u n).

Definition raft_send_requestvote (p : ptr) : M world Z :=
  let! me := gets srv in
  exec! assert_ (bool_decide (is_Some p)) in
  exec! assert_ (negb (bool_decide (p = node me))) in
  let! _ := raft_node_get_id p in
  exec! log_msg p in
  let! last_log_idx := raft_get_current_idx in
  let! last_log_term := raft_get_last_log_term in
  let! candidate_id := raft_get_nodeid in
  let rv := mk_requestvote (current_term me) candidate_id last_log_idx last_log_term in
  match send_requestvote (cb me) with
  | Some f => call_node (fun u n => f u n rv) p
  | None => ret 0
  end.

(** The term of the entry before the ones to send, or that of the last
    snapshot when the log does not hold it. *)
Definition prev_log (next_idx : Z) : M world (Z * Z) :=
  if 1 <? next_idx then
    let! i := int_chk (next_idx - 1) in
    let! prev_ety := raft_get_entry_from_idx i in
    match prev_ety with
    | Some _ => let! e := entry_get prev_ety in ret (i, to_int (ety_term e))
    | None => let! me := gets srv in ret (i, snapshot_last_term me)
    end
  else ret (0, 0).

Definition raft_send_appendentries (p : ptr) : M world Z :=
  let! me := gets srv in
  exec! assert_ (bool_decide (is_Some p)) in
  exec! assert_ (negb (bool_decide (p = node me))) in
  match send_appendentries (cb me) with
  | None => ret (-1)
  | Some f =>
      let! next_idx := raft_node_get_next_idx p in
      if (0 <? snapshot_last_idx me) && (next_idx <? snapshot_last_idx me) then
        exec! match send_snapshot (cb me) with
              | Some g => let! _ := call_node g p in ret tt
              | None => ret tt
              end in
        ret RAFT_ERR_NEEDS_SNAPSHOT
      else
        let! (entries, n_entries) := raft_get_entries_from_idx next_idx in
        exec! assert_ (match entries with
                       | None => n_entries =? 0
                       | Some _ => 0 <? n_entries
                       end) in
        let! (prev_log_idx, prev_log_term) := prev_log next_idx in
        let! _ := raft_node_get_id p in
        let! _ := raft_get_current_idx in
        exec! log_msg p in
        let! chain := log_chain entries in
        let ae := mk_appendentries (current_term me) prev_log_idx prev_log_term
                    (commit_idx me) n_entries chain in
        call_node (fun u n => f u n ae) p
  end.

Definition raft_send_appendentries_all : M world Z :=
  exec! upd_srv (with_timeout_elapsed 0) in
  let! me := gets srv in
  let! r := foreach_ret (nodes_list me) (fun a =>
    if is_self_ptr me a then ret None
    else
      let! act := raft_node_is_active (Some a) in
      if negb act then ret None
      else
        let! e := raft_send_appendentries (Some a) in
        ret (if truth e then Some e else None)) in
  ret (match r with Some e => e | None => 0 end).

(** ** State changes *)

Definition raft_become_leader : M world unit :=
  exec! log_msg None in
  exec! raft_set_state RAFT_STATE_LEADER in
  exec! upd_srv (with_timeout_elapsed 0) in
  let! me := gets srv in
  foreach (nodes_list me) (fun a =>
    if is_self_ptr me a then ret tt
    else
      let! act := raft_node_is_active (Some a) in
      when act
        (let! ci := raft_get_current_idx in
         let! next := int_chk (ci + 1) in
         exec! raft_node_set_next_idx (Some a) next in
         exec! raft_node_set_match_idx (Some a) 0 in
         let! _ := raft_send_appendentries (Some a) in
         ret tt)).

Definition raft_become_follower : M world unit :=
  exec! log_msg None in
  exec! raft_set_state RAFT_STATE_FOLLOWER in
  exec! raft_randomize_election_timeout in
  upd_srv (with_timeout_elapsed 0).

(** The loop that asks every other active voting node for its vote. *)
Definition request_votes : M world unit :=
  let! me := gets srv in
  foreach (nodes_list me) (fun a =>
    if is_self_ptr me a then ret tt
    else
      let! act := raft_node_is_active (Some a) in
      when act
        (let! voting := raft_node_is_voting (Some a) in
         when voting (let! _ := raft_send_requestvote (Some a) in ret tt))).

Definition clear_votes : M world unit :=
  let! me := gets srv in
  foreach (nodes_list me) (fun a => raft_node_vote_for_me (Some a) false).

Definition raft_become_candidate : M world Z :=
  exec! log_msg None in
  let! t := raft_get_current_term in
  let! t' := int_chk (t + 1) in
  let! e := raft_set_current_term t' in
  if truth e then ret e
  else
    exec! clear_votes in
    let! me := gets srv in
    let! _ := raft_vote (node me) in
    exec! upd_srv (with_current_leader None) in
    exec! raft_set_state RAFT_STATE_CANDIDATE in
    exec! raft_randomize_election_timeout in
    exec! upd_srv (with_timeout_elapsed 0) in
    exec! request_votes in
    ret 0.

Definition raft_election_start : M world Z :=
  let! _ := raft_get_current_idx in
  exec! log_msg None in
  raft_become_candidate.

(** ** Granting votes *)

(** The comparisons with the term of the last entry are made on
    [unsigned int]. *)
Definition should_grant_vote (vr : msg_requestvote_t) : M world bool :=
  let! my := raft_get_my_node in
  let! voting := raft_node_is_voting my in
  if negb voting then ret false
  else
    let! ct := raft_get_current_term in
    if rv_term vr <? ct then ret false
    else
      let! voted := raft_already_voted in
      if voted : bool then ret false
      else
        let! current_idx := raft_get_current_idx in
        if 0 =? current_idx then ret true
        else
          let! p := raft_get_entry_from_idx current_idx in
          let! ety := entry_get p in
          if ety_term ety <? to_uint (rv_last_log_term vr) then ret true
          else
            ret ((to_uint (rv_last_log_term vr) =? ety_term ety)
                 && (current_idx <=? rv_last_log_idx vr)).

(** The label [done]: the requesting node's id is read for the log message. *)
Definition recv_requestvote_done (p : ptr) (e vote_granted : Z)
    : M world (Z * msg_requestvote_response_t) :=
  let! _ := raft_node_get_id p in
  exec! log_msg p in
  let! t := raft_get_current_term in
  ret (e, mk_requestvote_response t vote_granted).

(** The decision, once the term is up to date. *)
Definition recv_requestvote_decide (p : ptr) (vr : msg_requestvote_t)
    : M world (Z * msg_requestvote_response_t) :=
  let! grant := should_grant_vote vr in
  if grant : bool then
    let! leader := raft_is_leader in
    let! candidate := if leader : bool then ret true else raft_is_candidate in
    exec! assert_ (negb candidate) in
    let! e := raft_vote_for_nodeid (rv_candidate_id vr) in
    exec! upd_srv (with_current_leader None) in
    exec! upd_srv (with_timeout_elapsed 0) in
    recv_requestvote_done p e (if e =? 0 then 1 else 0)
  else
    match p with
    | None => recv_requestvote_done p 0 RAFT_REQUESTVOTE_ERR_UNKNOWN_NODE
    | Some _ => recv_requestvote_done p 0 0
    end.

Definition raft_recv_requestvote (p : ptr) (vr : msg_requestvote_t)
    : M world (Z * msg_requestvote_response_t) :=
  let! p := match p with
            | None => raft_get_node (rv_candidate_id vr)
            | Some _ => ret p
            end in
  let! t := raft_get_current_term in
  if t <? rv_term vr then
    let! e := raft_set_current_term (rv_term vr) in
    if truth e then recv_requestvote_done p e 0
    else
      exec! raft_become_follower in
      exec! upd_srv (with_current_leader None) in
      recv_requestvote_decide p vr
  else recv_requestvote_decide p vr.

(** ** Counting votes *)

(** [half + 1 <= nvotes], with [num_nodes / 2] truncated. *)
Definition raft_votes_is_majority (num_nodes nvotes : Z) : bool :=
  if num_nodes <? nvotes then false else Z.quot num_nodes 2 + 1 <=? nvotes.

Definition raft_recv_requestvote_response (p : ptr) (r : msg_requestvote_response_t)
    : M world Z :=
  exec! log_msg p in
  let! candidate := raft_is_candidate in
  let! t := raft_get_current_term in
  if negb candidate then ret 0
  else if t <? rvr_term r then
    let! e := raft_set_current_term (rvr_term r) in
    if truth e then ret e
    else
      exec! raft_become_follower in
      exec! upd_srv (with_current_leader None) in
      ret 0
  else if negb (t =? rvr_term r) then ret 0
  else if rvr_vote_granted r =? RAFT_REQUESTVOTE_ERR_GRANTED then
    exec! when (bool_decide (is_Some p)) (raft_node_vote_for_me p true) in
    let! votes := raft_get_nvotes_for_me in
    let! n := raft_get_num_voting_nodes in
    exec! when (raft_votes_is_majority n votes) raft_become_leader in
    ret 0
  else if rvr_vote_granted r =? RAFT_REQUESTVOTE_ERR_NOT_GRANTED then ret 0
  else if rvr_vote_granted r =? RAFT_REQUESTVOTE_ERR_UNKNOWN_NODE then
    let! my := raft_get_my_node in
    let! voting := raft_node_is_voting my in
    let! me := gets srv in
    if voting && bool_decide (connected me = RAFT_NODE_STATUS_DISCONNECTING)
    then ret RAFT_ERR_SHUTDOWN else ret 0
  else raise AssertFailed.
End Election.
