(* ===== verification/Replication.v ===== *)
(** * Replication: appending, committing and applying entries

    The part of raft_server.c that handles appendentries messages and their
    responses, entries from clients, the application of committed entries, and
    the periodic function. *)
From S2P Require Import Prelude Contiki Types Node Membership Log Server Election.

Section Replication.
Context {T : CTarget} {C : Contiki} {U : User}.

(** ** Changing the log *)

Definition raft_delete_entry_from_idx (idx : Z) : M world Z :=
  let! me := gets srv in
  exec! assert_ (commit_idx me <? idx) in
  exec! when (idx <=? voting_cfg_change_log_idx me)
    (upd_srv (with_voting_cfg_change_log_idx (-1))) in
  log_delete idx.

Definition raft_append_entry (ety : raft_entry_t) : M world (Z * raft_entry_t) :=
  exec! when (raft_entry_is_voting_cfg_change ety)
    (let! ci := raft_get_current_idx in upd_srv (with_voting_cfg_change_log_idx ci)) in
  log_append_entry ety.

(** ** Receiving appendentries *)

(** The label [out]. *)
Definition recv_ae_out (ae : msg_appendentries_t) (e success current_idx : Z)
    : M world (Z * msg_appendentries_response_t) :=
  let! t := raft_get_current_term in
  let! ci := if success =? 0 then raft_get_current_idx else ret current_idx in
  let! first := int_chk (ae_prev_log_idx ae + 1) in
  ret (e, mk_appendentries_response t success ci first).

(** Where a loop over the message's entries leaves the function or goes on:
    [goto out] with [e], or the next statement with the loop variables. *)
Inductive ae_flow :=
  | GotoOut (e current_idx : Z)
  | Next (i : Z) (ety : list raft_entry_t) (current_idx : Z).

(** Index of entry [i] of the message. *)
Definition ae_index (ae : msg_appendentries_t) (i : Z) : M world Z :=
  let! a := int_chk (ae_prev_log_idx ae + 1) in int_chk (a + i).

(** The first loop: skips the entries the log already has, deletes at the
    first conflict.  [fuel] is the number of rounds left, [n_entries - i]. *)
Fixpoint recv_ae_match (ae : msg_appendentries_t) (fuel : nat) (i : Z)
    (ety : list raft_entry_t) (current_idx : Z) : M world ae_flow :=
  match fuel with
  | O => ret (Next i ety current_idx)
  | S fuel' =>
      let! ety_index := ae_index ae i in
      let! existing_ety := raft_get_entry_from_idx ety_index in
      match existing_ety with
      | None => ret (Next i ety current_idx)
      | Some _ =>
          let! x := entry_get existing_ety in
          match ety with
          | [] => raise NullDeref
          | y :: rest =>
              let! me := gets srv in
              if negb (ety_term x =? ety_term y) && (commit_idx me <? ety_index) then
                let! e := raft_delete_entry_from_idx ety_index in
                ret (if truth e then GotoOut e current_idx else Next i ety current_idx)
              else recv_ae_match ae fuel' (i + 1) rest ety_index
          end
      end
  end.

(** The second loop: appends the remaining entries. *)
Fixpoint recv_ae_append (ae : msg_appendentries_t) (fuel : nat) (i : Z)
    (ety : list raft_entry_t) (current_idx : Z) : M world ae_flow :=
  match fuel with
  | O => ret (Next i ety current_idx)
  | S fuel' =>
      match ety with
      | [] => ret (GotoOut 0 current_idx)
      | y :: rest =>
          let! (e, _) := raft_append_entry y in
          if truth e then ret (GotoOut e current_idx)
          else
            let! ety_index := ae_index ae i in
            recv_ae_append ae fuel' (i + 1) rest ety_index
      end
  end.

(** Step 4: the commit index follows the leader's. *)
Definition recv_ae_commit (ae : msg_appendentries_t) : M world unit :=
  let! commit := raft_get_commit_idx in
  when (commit <? ae_leader_commit ae)
    (let! ci := raft_get_current_idx in
     raft_set_commit_idx (c_min (c_max ci 1) (ae_leader_commit ae))).

(** Step 3 and 4. *)
Definition recv_ae_entries (ae : msg_appendentries_t)
    : M world (Z * msg_appendentries_response_t) :=
  let! f := recv_ae_match ae (Z.to_nat (ae_n_entries ae)) 0 (ae_entries ae)
              (ae_prev_log_idx ae) in
  match f with
  | GotoOut e cur => recv_ae_out ae e 1 cur
  | Next i ety cur =>
      let! f := recv_ae_append ae (Z.to_nat (ae_n_entries ae - i)) i ety cur in
      match f with
      | GotoOut e cur => recv_ae_out ae e 1 cur
      | Next _ _ cur => exec! recv_ae_commit ae in recv_ae_out ae 0 1 cur
      end
  end.

(** Step 2: the log must have the entry before the new ones.  The terms are
    compared as [unsigned int]. *)
Definition recv_ae_prev (p : ptr) (ae : msg_appendentries_t)
    : M world (Z * msg_appendentries_response_t) :=
  exec! upd_srv (with_current_leader p) in
  exec! upd_srv (with_timeout_elapsed 0) in
  if 0 <? ae_prev_log_idx ae then
    let! q := raft_get_entry_from_idx (ae_prev_log_idx ae) in
    match q with
    | None => exec! log_msg p in recv_ae_out ae 0 0 0
    | Some _ =>
        let! ety := entry_get q in
        if negb (ety_term ety =? to_uint (ae_prev_log_term ae)) then
          let! _ := raft_get_current_idx in
          exec! log_msg p in
          let! next := int_chk (ae_leader_commit ae + 1) in
          let! e := raft_delete_entry_from_idx (c_max (ae_prev_log_idx ae) next) in
          recv_ae_out ae e 0 0
        else recv_ae_entries ae
    end
  else recv_ae_entries ae.

Definition raft_recv_appendentries (p : ptr) (ae : msg_appendentries_t)
    : M world (Z * msg_appendentries_response_t) :=
  exec! when (0 <? ae_n_entries ae)
    (let! _ := raft_get_current_idx in log_msg p) in
  let! candidate := raft_is_candidate in
  let! ct := raft_get_current_term in
  if candidate && (ct =? ae_term ae) then
    exec! raft_become_follower in recv_ae_prev p ae
  else if ct <? ae_term ae then
    let! e := raft_set_current_term (ae_term ae) in
    if truth e then recv_ae_out ae e 0 0
    else exec! raft_become_follower in recv_ae_prev p ae
  else if ae_term ae <? ct then
    exec! log_msg p in recv_ae_out ae 0 0 0
  else recv_ae_prev p ae.

(** ** Receiving appendentries responses *)

(** Whether node [a] counts towards the majority for [point]. *)
Definition replicates (me : raft_server_private_t) (point : Z) (a : addr) : M world bool :=
  if is_self_ptr me a then ret false
  else
    let! act := raft_node_is_active (Some a) in
    if negb act then ret false
    else
      let! voting := raft_node_is_voting (Some a) in
      if negb voting then ret false
      else let! m := raft_node_get_match_idx (Some a) in ret (point <=? m).

(** "Update commit idx"; the terms are compared as [unsigned int]. *)
Definition update_commit (point : Z) : M world unit :=
  when (truth point)
    (let! q := raft_get_entry_from_idx point in
     let! commit := raft_get_commit_idx in
     when (commit <? point)
       (let! ety := entry_get q in
        let! me := gets srv in
        when (ety_term ety =? to_uint (current_term me))
          (let! votes := count_from 1 (nodes_list me) (replicates me point) in
           let! n := raft_get_num_voting_nodes in
           when (Z.quot n 2 <? votes) (raft_set_commit_idx point)))).

(** A non-voting node that caught up is reported to the user, once. *)
Definition check_sufficient_logs (p : ptr) (r : msg_appendentries_response_t)
    : M world unit :=
  let! voting := raft_node_is_voting p in
  if voting : bool then ret tt
  else
    let! changing := raft_voting_change_is_in_progress in
    if changing : bool then ret tt
    else
      let! ci := raft_get_current_idx in
      let! next := int_chk (aer_current_idx r + 1) in
      if negb (ci <=? next) then ret tt
      else
        let! committed := raft_node_is_voting_committed p in
        if committed : bool then ret tt
        else
          let! me := gets srv in
          match node_has_sufficient_logs (cb me) with
          | None => ret tt
          | Some f =>
              let! already := raft_node_has_sufficient_logs p in
              if already : bool then ret tt
              else
                let! e := call_node f p in
                when (e =? 0) (raft_node_set_has_sufficient_logs p)
          end.

Definition recv_aer_success (p : ptr) (r : msg_appendentries_response_t) (match_idx : Z)
    : M world Z :=
  if aer_current_idx r <=? match_idx then ret 0
  else
    let! ci := raft_get_current_idx in
    exec! assert_ (aer_current_idx r <=? ci) in
    let! next := int_chk (aer_current_idx r + 1) in
    exec! raft_node_set_next_idx p next in
    exec! raft_node_set_match_idx p (aer_current_idx r) in
    exec! check_sufficient_logs p r in
    exec! update_commit (aer_current_idx r) in
    let! next := raft_node_get_next_idx p in
    let! q := raft_get_entry_from_idx next in
    exec! when (bool_decide (is_Some q))
      (let! _ := raft_send_appendentries p in ret tt) in
    ret 0.

Definition recv_aer_failure (p : ptr) (r : msg_appendentries_response_t) (match_idx : Z)
    : M world Z :=
  let! next_idx := raft_node_get_next_idx p in
  exec! assert_ (0 <? next_idx) in
  let! prev := int_chk (next_idx - 1) in
  exec! assert_ (match_idx <=? prev) in
  if match_idx =? prev then ret 0
  else
    exec! (if aer_current_idx r <? prev then
             let! a := int_chk (aer_current_idx r + 1) in
             let! b := raft_get_current_idx in
             raft_node_set_next_idx p (c_min a b)
           else raft_node_set_next_idx p prev) in
    let! _ := raft_send_appendentries p in
    ret 0.

Definition raft_recv_appendentries_response (p : ptr) (r : msg_appendentries_response_t)
    : M world Z :=
  let! _ := raft_get_current_idx in
  exec! log_msg p in
  let! leader := raft_is_leader in
  if negb leader then ret RAFT_ERR_NOT_LEADER
  else
    let! ct := raft_get_current_term in
    if ct <? aer_term r then
      let! e := raft_set_current_term (aer_term r) in
      if truth e then ret e
      else
        exec! raft_become_follower in
        exec! upd_srv (with_current_leader None) in
        ret 0
    else if negb (ct =? aer_term r) then ret 0
    else
      let! match_idx := raft_node_get_match_idx p in
      if 0 =? aer_success r then recv_aer_failure p r match_idx
      else recv_aer_success p r match_idx.

(** ** Entries from clients *)

(** Sends the new entry to every other active voting node that is waiting
    for it. *)
Definition send_new_entry : M world unit :=
  let! me := gets srv in
  foreach (nodes_list me) (fun a =>
    if is_self_ptr me a then ret tt
    else
      let! act := raft_node_is_active (Some a) in
      when act
        (let! voting := raft_node_is_voting (Some a) in
         when voting
           (let! next_idx := raft_node_get_next_idx (Some a) in
            let! ci := raft_get_current_idx in
            when (next_idx =? ci)
              (let! _ := raft_send_appendentries (Some a) in ret tt)))).

(** Returns the result, the caller's entry and the response, which is written
    on success only. *)
Definition raft_recv_entry (ety : raft_entry_t)
    : M world (Z * raft_entry_t * option msg_entry_response_t) :=
  let! changing := raft_voting_change_is_in_progress in
  let! snapshot := raft_snapshot_is_in_progress in
  if raft_entry_is_voting_cfg_change ety && changing
  then ret (RAFT_ERR_ONE_VOTING_CHANGE_ONLY, ety, None)
  else if raft_entry_is_voting_cfg_change ety && snapshot
  then ret (RAFT_ERR_SNAPSHOT_IN_PROGRESS, ety, None)
  else
    let! leader := raft_is_leader in
    if negb leader then ret (RAFT_ERR_NOT_LEADER, ety, None)
    else
      let! ci := raft_get_current_idx in
      let! _ := int_chk (ci + 1) in
      exec! log_msg None in
      let! me := gets srv in
      let! (e, ety) := raft_append_entry (with_ety_term (to_uint (current_term me)) ety) in
      if truth e then ret (e, ety, None)
      else
        exec! send_new_entry in
        let! n := raft_get_num_voting_nodes in
        exec! when (1 =? n)
          (let! ci := raft_get_current_idx in raft_set_commit_idx ci) in
        let! idx := raft_get_current_idx in
        let! me := gets srv in
        let r := mk_entry_response (ety_id ety) (current_term me) idx in
        exec! when (raft_entry_is_voting_cfg_change ety)
          (let! ci := raft_get_current_idx in upd_srv (with_voting_cfg_change_log_idx ci)) in
        ret (0, ety, Some r).

(** [r->term != ety->term] is a comparison of [unsigned int]. *)
Definition raft_msg_entry_response_committed (r : msg_entry_response_t) : M world Z :=
  let! p := raft_get_entry_from_idx (er_idx r) in
  match p with
  | None => ret 0
  | Some _ =>
      let! ety := entry_get p in
      if negb (to_uint (er_term r) =? ety_term ety) then ret (-1)
      else let! commit := raft_get_commit_idx in ret (of_bool (er_idx r <=? commit))
  end.

(** ** Applying entries *)

(** The effect of a committed configuration change. *)
Definition apply_cfg_change (ety : raft_entry_t) (node_id : Z) (p : ptr) : M world unit :=
  if ety_type ety =? RAFT_LOGTYPE_ADD_NODE then
    exec! raft_node_set_addition_committed p true in
    exec! raft_node_set_voting_committed p true in
    exec! raft_node_set_has_sufficient_logs p in
    let! self := raft_get_nodeid in
    when (node_id =? self) (upd_srv (with_connected RAFT_NODE_STATUS_CONNECTED))
  else if ety_type ety =? RAFT_LOGTYPE_ADD_NONVOTING_NODE then
    raft_node_set_addition_committed p true
  else if ety_type ety =? RAFT_LOGTYPE_DEMOTE_NODE then
    when (bool_decide (is_Some p)) (raft_node_set_voting_committed p false)
  else if ety_type ety =? RAFT_LOGTYPE_REMOVE_NODE then
    when (bool_decide (is_Some p)) (raft_remove_node p)
  else ret tt.

Definition raft_apply_entry : M world Z :=
  let! snapshot := raft_snapshot_is_in_progress in
  if snapshot : bool then ret (-1)
  else
    let! me := gets srv in
    if last_applied_idx me =? commit_idx me then ret (-1)
    else
      let! log_idx := int_chk (last_applied_idx me + 1) in
      let! p := raft_get_entry_from_idx log_idx in
      match p with
      | None => ret (-1)
      | Some _ =>
          let! ety := entry_get p in
          exec! log_msg None in
          exec! upd_srv (with_last_applied_idx log_idx) in
          let! e := match applylog (cb me) with
                    | Some f => call (fun u => f u ety (log_idx - 1))
                    | None => ret 0
                    end in
          if RAFT_ERR_SHUTDOWN =? e then ret RAFT_ERR_SHUTDOWN
          else
            exec! when (log_idx =? voting_cfg_change_log_idx me)
              (upd_srv (with_voting_cfg_change_log_idx (-1))) in
            if negb (raft_entry_is_cfg_change ety) then ret 0
            else
              let! node_id := call_log_get_node_id ety log_idx in
              let! node := raft_get_node node_id in
              exec! apply_cfg_change ety node_id node in
              ret 0
      end.

(** Each round that goes on advances [last_applied_idx], so the distance to
    the commit index bounds the number of rounds. *)
Fixpoint apply_all_loop (fuel : nat) : M world Z :=
  let! la := raft_get_last_applied_idx in
  let! commit := raft_get_commit_idx in
  if la <? commit then
    match fuel with
    | O => raise OutOfFuel
    | S fuel' =>
        let! e := raft_apply_entry in
        if truth e then ret e else apply_all_loop fuel'
    end
  else ret 0.

Definition raft_apply_all : M world Z :=
  let! snapshot := raft_snapshot_is_in_progress in
  if snapshot : bool then ret 0
  else
    let! la := raft_get_last_applied_idx in
    let! commit := raft_get_commit_idx in
    apply_all_loop (Z.to_nat (commit - la)).

(** ** Time *)

Definition raft_periodic (msec_since_last_period : Z) : M world Z :=
  let! me := gets srv in
  let! t := int_chk (timeout_elapsed me + msec_since_last_period) in
  exec! upd_srv (with_timeout_elapsed t) in
  let! n := raft_get_num_voting_nodes in
  exec! when (1 =? n)
    (let! my := raft_get_my_node in
     let! voting := raft_node_is_voting my in
     when voting
       (let! leader := raft_is_leader in when (negb leader) raft_become_leader)) in
  let! me := gets srv in
  let! e :=
    if bool_decide (state me = RAFT_STATE_LEADER) then
      exec! when (request_timeout me <=? timeout_elapsed me)
        (let! _ := raft_send_appendentries_all in ret tt) in
      ret 0
    else if (election_timeout_rand me <=? timeout_elapsed me)
            && negb (truth (snapshot_in_progress me)) then
      let! n := raft_get_num_voting_nodes in
      if 1 <? n then
        let! my := raft_get_my_node in
        let! voting := raft_node_is_voting my in
        if voting : bool then raft_election_start else ret 0
      else ret 0
    else ret 0 in
  if truth e then ret e
  else
    let! la := raft_get_last_applied_idx in
    let! commit := raft_get_commit_idx in
    let! snapshot := raft_snapshot_is_in_progress in
    if (la <? commit) && negb snapshot then
      let! e := raft_apply_entry in
      ret (if negb (-1 =? e) then e else 0)
    else ret 0.
End Replication.
