(* ===== verification/Wire.v ===== *)
(** * Wire format: app/proto.h and the messages of app/main.c

    The message types and the bytes of the messages as the default target lays
    them out: the MSP430 is little-endian, [int], [unsigned short] and pointers
    have two bytes, and structures have no padding.  A byte is a [Z] between 0
    and 255. *)
From stdpp Require Import strings.
From S2P Require Import Prelude Contiki Types.

#[local] Existing Instance sky.

(** ** Message types *)

Inductive peer_message_type_e :=
  | MSG_HANDSHAKE | MSG_HANDSHAKE_RESPONSE | MSG_LEAVE | MSG_LEAVE_RESPONSE
  | MSG_REQUESTVOTE | MSG_REQUESTVOTE_RESPONSE
  | MSG_APPENDENTRIES | MSG_APPENDENTRIES_RESPONSE
  | MSG_CLIENT | MSG_CLIENT_RESPONSE.
#[export] Instance peer_message_type_eq_dec : EqDecision peer_message_type_e.
Proof. solve_decision. Defined.

(** The enumerators in order: the value of each is its position. *)
Definition peer_message_types : list peer_message_type_e :=
  [MSG_HANDSHAKE; MSG_HANDSHAKE_RESPONSE; MSG_LEAVE; MSG_LEAVE_RESPONSE;
   MSG_REQUESTVOTE; MSG_REQUESTVOTE_RESPONSE; MSG_APPENDENTRIES;
   MSG_APPENDENTRIES_RESPONSE; MSG_CLIENT; MSG_CLIENT_RESPONSE].

Definition message_code (t : peer_message_type_e) : Z :=
  match t with
  | MSG_HANDSHAKE => 0 | MSG_HANDSHAKE_RESPONSE => 1
  | MSG_LEAVE => 2 | MSG_LEAVE_RESPONSE => 3
  | MSG_REQUESTVOTE => 4 | MSG_REQUESTVOTE_RESPONSE => 5
  | MSG_APPENDENTRIES => 6 | MSG_APPENDENTRIES_RESPONSE => 7
  | MSG_CLIENT => 8 | MSG_CLIENT_RESPONSE => 9
  end.

(** The case a [switch] on a value of the type selects. *)
Definition message_of_code (z : Z) : option peer_message_type_e :=
  List.find (fun t => message_code t =? z) peer_message_types.

Definition get_peer_message_type (pmte : Z) : string :=
  match message_of_code pmte with
  | Some MSG_HANDSHAKE => "MSG_HANDSHAKE"
  | Some MSG_HANDSHAKE_RESPONSE => "MSG_HANDSHAKE_RESPONSE"
  | Some MSG_LEAVE => "MSG_LEAVE"
  | Some MSG_LEAVE_RESPONSE => "MSG_LEAVE_RESPONSE"
  | Some MSG_REQUESTVOTE => "MSG_REQUESTVOTE"
  | Some MSG_REQUESTVOTE_RESPONSE => "MSG_REQUESTVOTE_RESPONSE"
  | Some MSG_APPENDENTRIES => "MSG_APPENDENTRIES"
  | Some MSG_APPENDENTRIES_RESPONSE => "MSG_APPENDENTRIES_RESPONSE"
  | Some MSG_CLIENT => "MSG_CLIENT"
  | Some MSG_CLIENT_RESPONSE => "MSG_CLIENT_RESPONSE"
  | None => "UNKNOWN"
  end%string.

Lemma message_of_code_code t : message_of_code (message_code t) = Some t.
Proof. by destruct t. Qed.

(** ** Integers in memory *)

(** The two bytes of an [int] or [unsigned] value. *)
Definition put_int (z : Z) : list Z := [to_uint z mod 256; to_uint z / 256].

(** The [unsigned] and the [int] stored at offset [k]. *)
Definition uint_at (bs : list Z) (k : nat) : Z := nth k bs 0 + 256 * nth (S k) bs 0.
Definition int_at (bs : list Z) (k : nat) : Z := to_int (uint_at bs k).

(** ** Structures in memory *)

Definition encode_requestvote (m : msg_requestvote_t) : list Z :=
  put_int (rv_term m) ++ put_int (rv_candidate_id m) ++ put_int (rv_last_log_idx m)
  ++ put_int (rv_last_log_term m).
Definition decode_requestvote (bs : list Z) : msg_requestvote_t :=
  mk_requestvote (int_at bs 0) (int_at bs 2) (int_at bs 4) (int_at bs 6).

Definition encode_requestvote_response (m : msg_requestvote_response_t) : list Z :=
  put_int (rvr_term m) ++ put_int (rvr_vote_granted m).
Definition decode_requestvote_response (bs : list Z) : msg_requestvote_response_t :=
  mk_requestvote_response (int_at bs 0) (int_at bs 2).

(** The structure up to its last member, the pointer [entries]. *)
Definition encode_appendentries (m : msg_appendentries_t) : list Z :=
  put_int (ae_term m) ++ put_int (ae_prev_log_idx m) ++ put_int (ae_prev_log_term m)
  ++ put_int (ae_leader_commit m) ++ put_int (ae_n_entries m).
Definition decode_appendentries (bs : list Z) (entries : list raft_entry_t)
    : msg_appendentries_t :=
  mk_appendentries (int_at bs 0) (int_at bs 2) (int_at bs 4) (int_at bs 6) (int_at bs 8)
    entries.

Definition encode_appendentries_response (m : msg_appendentries_response_t) : list Z :=
  put_int (aer_term m) ++ put_int (aer_success m) ++ put_int (aer_current_idx m)
  ++ put_int (aer_first_idx m).
Definition decode_appendentries_response (bs : list Z) : msg_appendentries_response_t :=
  mk_appendentries_response (int_at bs 0) (int_at bs 2) (int_at bs 4) (int_at bs 6).

(** An entry, its link [next] first. *)
Definition encode_entry (next : Z) (e : raft_entry_t) : list Z :=
  put_int next ++ put_int (ety_term e) ++ put_int (ety_idx e) ++ put_int (ety_id e)
  ++ put_int (ety_type e) ++ [buf0 (ety_data e) mod 256; buf1 (ety_data e) mod 256].
Definition decode_entry (bs : list Z) : Z * raft_entry_t :=
  (uint_at bs 0,
   mk_entry (uint_at bs 2) (uint_at bs 4) (uint_at bs 6) (int_at bs 8)
     (mk_data (nth 10 bs 0) (nth 11 bs 0))).

(** [sizeof] of the structures. *)
Definition sizeof_short : nat := 2.
Definition sizeof_ptr : nat := 2.
Definition sizeof_requestvote : nat := 8.
Definition sizeof_requestvote_response : nat := 4.
Definition sizeof_appendentries : nat := 12.
Definition sizeof_appendentries_response : nat := 8.
Definition sizeof_entry : nat := 12.
Definition sizeof_client_message : nat := 2.

(** ** Decoding is the inverse of encoding *)

(** The values of the fields are representable. *)
Definition int16 (z : Z) : Prop := int_ok z = true.
Definition uint16 (z : Z) : Prop := 0 <= z < 65536.
Definition uint8 (z : Z) : Prop := 0 <= z < 256.
Definition requestvote16 (m : msg_requestvote_t) : Prop :=
  int16 (rv_term m) /\ int16 (rv_candidate_id m) /\ int16 (rv_last_log_idx m)
  /\ int16 (rv_last_log_term m).
Definition requestvote_response16 (m : msg_requestvote_response_t) : Prop :=
  int16 (rvr_term m) /\ int16 (rvr_vote_granted m).
Definition appendentries16 (m : msg_appendentries_t) : Prop :=
  int16 (ae_term m) /\ int16 (ae_prev_log_idx m) /\ int16 (ae_prev_log_term m)
  /\ int16 (ae_leader_commit m) /\ int16 (ae_n_entries m).
Definition appendentries_response16 (m : msg_appendentries_response_t) : Prop :=
  int16 (aer_term m) /\ int16 (aer_success m) /\ int16 (aer_current_idx m)
  /\ int16 (aer_first_idx m).
Definition entry16 (e : raft_entry_t) : Prop :=
  uint16 (ety_term e) /\ uint16 (ety_idx e) /\ uint16 (ety_id e) /\ int16 (ety_type e)
  /\ uint8 (buf0 (ety_data e)) /\ uint8 (buf1 (ety_data e)).

Lemma to_uint_range z : 0 <= to_uint z < 65536.
Proof. unfold to_uint. cbn. apply Z.mod_pos_bound. lia. Qed.

Lemma bytes_of_uint z : to_uint z mod 256 + 256 * (to_uint z / 256) = to_uint z.
Proof. pose proof (Z.div_mod (to_uint z) 256). lia. Qed.

Lemma uint_at_put z bs : uint_at (put_int z ++ bs) 0 = to_uint z.
Proof. apply bytes_of_uint. Qed.

Lemma uint16_to_uint z : uint16 z -> to_uint z = z.
Proof. intros Hz. unfold to_uint. cbn. by apply Z.mod_small. Qed.

Lemma int16_to_int z : int16 z -> to_int (to_uint z) = z.
Proof.
  unfold int16. rewrite int_ok_iff. change INT_MIN with (-32768). change INT_MAX with 32767.
  intros Hz. unfold to_int, to_uint. change (2 ^ int_bits) with 65536.
  change (2 ^ (int_bits - 1)) with 32768. rewrite Z.mod_mod by lia.
  destruct (decide (0 <= z)).
  - rewrite Z.mod_small by lia. destruct (Z.ltb_spec z 32768); lia.
  - rewrite <- (Z.mod_add z 1 65536), Z.mod_small by lia.
    destruct (Z.ltb_spec (z + 1 * 65536) 32768); lia.
Qed.

(** Evaluates a decoder on the bytes of an encoder. *)
Ltac wire_simpl :=
  repeat first
    [ progress cbn [nth app put_int]
    | progress unfold int_at, uint_at
    | rewrite bytes_of_uint
    | rewrite int16_to_int by done
    | rewrite uint16_to_uint by done ].

Lemma requestvote_roundtrip m : requestvote16 m -> decode_requestvote (encode_requestvote m) = m.
Proof.
  destruct m as [t c i lt]. intros (? & ? & ? & ?); cbn in *.
  unfold decode_requestvote, encode_requestvote. cbn [rv_term rv_candidate_id rv_last_log_idx rv_last_log_term].
  by wire_simpl.
Qed.

Lemma requestvote_response_roundtrip m :
  requestvote_response16 m -> decode_requestvote_response (encode_requestvote_response m) = m.
Proof.
  destruct m as [t g]. intros (? & ?); cbn in *.
  unfold decode_requestvote_response, encode_requestvote_response. cbn [rvr_term rvr_vote_granted].
  by wire_simpl.
Qed.

Lemma appendentries_roundtrip m es :
  appendentries16 m ->
  decode_appendentries (encode_appendentries m) es
  = mk_appendentries (ae_term m) (ae_prev_log_idx m) (ae_prev_log_term m) (ae_leader_commit m)
      (ae_n_entries m) es.
Proof.
  destruct m as [t p pt c n es']. intros (? & ? & ? & ? & ?); cbn in *.
  unfold decode_appendentries, encode_appendentries.
  cbn [ae_term ae_prev_log_idx ae_prev_log_term ae_leader_commit ae_n_entries].
  by wire_simpl.
Qed.

Lemma appendentries_response_roundtrip m :
  appendentries_response16 m ->
  decode_appendentries_response (encode_appendentries_response m) = m.
Proof.
  destruct m as [t s c f]. intros (? & ? & ? & ?); cbn in *.
  unfold decode_appendentries_response, encode_appendentries_response.
  cbn [aer_term aer_success aer_current_idx aer_first_idx]. by wire_simpl.
Qed.

Lemma entry_roundtrip next e :
  uint16 next -> entry16 e -> decode_entry (encode_entry next e) = (next, e).
Proof.
  destruct e as [t i d y [b0 b1]]. intros Hn (? & ? & ? & ? & ? & ?); cbn in *.
  unfold decode_entry, encode_entry, uint8 in *. cbn [ety_term ety_idx ety_id ety_type ety_data buf0 buf1].
  wire_simpl. by rewrite !Z.mod_small.
Qed.

Lemma encode_entry_length next e : length (encode_entry next e) = sizeof_entry.
Proof. done. Qed.
