(* ===== verification/App.v ===== *)
(** * The application: app/main.c

    The Contiki program around the library: the raft callbacks that put
    messages on the network, the handlers of the packets that arrive, the client
    and periodic processes, and the start.  The build is the default one
    ([TARGET=sky]).  [PRINT_FN_DBG], [__printf] and [printf] are not modelled. *)
From S2P Require Import Prelude Contiki Types Node Membership Log Server Election Replication.
From S2P Require Import Wire.

#[local] Existing Instance sky.

(** What the program uses of Contiki beside lists, pools and random numbers: the
    packet buffer and the flooding of net/rime, the seed of the generator, the
    constants.  [packetbuf_copyfrom] is given the bytes to send. *)
Class Platform `{C : Contiki} := {
  net : Type;
  PACKETBUF_SIZE : nat;
  packetbuf_copyfrom : list Z -> net -> net;
  netflood_send : Z -> net -> net;
  netflood_open : Z -> Z -> net -> net;
  CLOCK_SECOND : Z;
  random_init : Z -> rng -> rng;
  (** the entries that the memory at an address holds, for an address that
      arrived in a message *)
  entries_at : Z -> list raft_entry_t
}.
Arguments Platform C : clear implicits.

Section App.
Context {C : Contiki} {P : Platform C}.

Definition HEADER_SIZE : nat := 4.
Definition PAYLOAD_SIZE : nat := PACKETBUF_SIZE - HEADER_SIZE.
(** Arguments of [int] parameters. *)
Definition ELECTION_TIMEOUT : Z := to_int (CLOCK_SECOND * 50).
Definition REQUEST_TIMEOUT : Z := to_int (CLOCK_SECOND * 8).
Definition RAFT_PERIODIC_TICK : Z := to_int (CLOCK_SECOND * 4).

(** ** State

    The static variables of the program, and Contiki's networking. *)
Record app_state := mk_app {
  sv_node_id : Z  (** [sv->node_id] *);
  stage_buffer : list Z  (** [PACKETBUF_SIZE] bytes *);
  netflood_seq : Z;
  netflood : net;
  undefined : bool  (** a callback wrote outside [stage_buffer], read through
    [NULL] or overflowed an [int]; C defines nothing from there on *)
}.

Definition with_sv_node_id (v : Z) (s : app_state) : app_state :=
  mk_app v (stage_buffer s) (netflood_seq s) (netflood s) (undefined s).
Definition with_stage_buffer (v : list Z) (s : app_state) : app_state :=
  mk_app (sv_node_id s) v (netflood_seq s) (netflood s) (undefined s).
Definition with_netflood_seq (v : Z) (s : app_state) : app_state :=
  mk_app (sv_node_id s) (stage_buffer s) v (netflood s) (undefined s).
Definition with_netflood (v : net) (s : app_state) : app_state :=
  mk_app (sv_node_id s) (stage_buffer s) (netflood_seq s) v (undefined s).
Definition mark_undefined (s : app_state) : app_state :=
  mk_app (sv_node_id s) (stage_buffer s) (netflood_seq s) (netflood s) true.

(** The program registers [NULL] as [user_data]: its callbacks work on the
    static variables. *)
#[export] Instance app_user : User := {| udata := app_state |}.

(** ** Sending *)

(** [memset(stage_buffer, 0, PACKETBUF_SIZE)] *)
Definition memset_stage (s : app_state) : app_state :=
  with_stage_buffer (replicate PACKETBUF_SIZE 0) s.

(** [memcpy(stage_buffer + off, ...)] of the bytes [bs] *)
Definition store (off : nat) (bs : list Z) (s : app_state) : app_state :=
  if decide (off + length bs <= length (stage_buffer s))%nat
  then with_stage_buffer
         (take off (stage_buffer s) ++ bs ++ drop (off + length bs) (stage_buffer s)) s
  else mark_undefined s.

(** [send_data(stage_buffer, len, nodeid)] *)
Definition send_data (len : nat) (nodeid : Z) (s : app_state) : app_state :=
  let s := store (2 * sizeof_short) (take len (stage_buffer s)) s in
  let s := store 0 (put_int nodeid) s in
  let s := store sizeof_short (put_int (sv_node_id s)) s in
  let len := (len + 2 * sizeof_short)%nat in
  let s := with_netflood (packetbuf_copyfrom (take len (stage_buffer s)) (netflood s)) s in
  let s := with_netflood (netflood_send (netflood_seq s mod 256) (netflood s)) s in
  let s := with_netflood_seq (netflood_seq s + 1) s in
  if int_ok (netflood_seq s) then s else mark_undefined s.

(** The sequence every sender but one goes through: the type, then the message. *)
Definition send_message (t : peer_message_type_e) (bs : list Z) (nodeid : Z) (s : app_state)
    : app_state :=
  let s := memset_stage s in
  let s := store 0 [Z.land 255 (message_code t)] s in
  let s := store 1 bs s in
  send_data (1 + length bs) nodeid s.

(** ** Raft callbacks *)

Definition app_send_requestvote (u : app_state) (node : raft_node_private_t)
    (m : msg_requestvote_t) : Z * app_state :=
  (0, send_message MSG_REQUESTVOTE (encode_requestvote m) (id node) u).

(** The loop that copies the entries: [n] rounds left, writing at [off].  The
    link of each copy is overwritten with zeros; an entry is copied while the
    next copy would end before the end of the buffer. *)
Fixpoint stage_entries (n : nat) (off : nat) (etys : list raft_entry_t) (s : app_state)
    : nat * app_state :=
  match n, etys with
  | O, _ => (off, s)
  | S _, [] => (off, mark_undefined s)
  | S n', ety :: rest =>
      let s := store off (encode_entry 0 ety) s in
      let off := (off + sizeof_entry)%nat in
      match rest with
      | [] => (off, s)
      | _ =>
          if decide (PACKETBUF_SIZE <= off + sizeof_entry)%nat then (off, s)
          else stage_entries n' off rest s
      end
  end.

(** The structure is copied with its pointer [entries], whose bytes (here 0) the
    entries or the header overwrite before the packet leaves. *)
Definition app_send_appendentries (u : app_state) (node : raft_node_private_t)
    (m : msg_appendentries_t) : Z * app_state :=
  let s := memset_stage u in
  let s := store 0 [Z.land 255 (message_code MSG_APPENDENTRIES)] s in
  let s := store 1 (encode_appendentries m ++ put_int 0) s in
  let off := (1 + sizeof_appendentries - sizeof_ptr)%nat in
  let '(off, s) := stage_entries (Z.to_nat (ae_n_entries m)) off (ae_entries m) s in
  (0, send_data off (id node) s).

Definition app_applylog (u : app_state) (entry : raft_entry_t) (entry_idx : Z)
    : Z * app_state := (0, u).
Definition app_persist_vote (u : app_state) (voted_for : Z) : Z * app_state := (0, u).
Definition app_persist_term (u : app_state) (term vote : Z) : Z * app_state := (0, u).
Definition app_logentry_offer (u : app_state) (ety : raft_entry_t) (ety_idx : Z)
    : Z * app_state := (0, u).
Definition app_logentry_poll (u : app_state) (entry : raft_entry_t) (ety_idx : Z)
    : Z * app_state := (-1, u).
Definition app_logentry_pop (u : app_state) (entry : raft_entry_t) (ety_idx : Z)
    : Z * app_state := (-1, u).
Definition app_log_get_node_id (u : app_state) (entry : raft_entry_t) (entry_idx : Z)
    : Z * app_state :=
  (Z.land (buf0 (ety_data entry)) 255
   + Z.land (Z.shiftr (buf1 (ety_data entry)) 8) 255, u).
Definition app_node_has_sufficient_logs (u : app_state) (node : raft_node_private_t)
    : Z * app_state := (-1, u).
(** Prints at a level that is disabled. *)
Definition app_debug (u : app_state) (node : ptr) : app_state := u.

Definition raft_funcs : raft_cbs_t := {|
  send_requestvote := Some app_send_requestvote;
  send_appendentries := Some app_send_appendentries;
  send_snapshot := None;
  applylog := Some app_applylog;
  persist_vote := Some app_persist_vote;
  persist_term := Some app_persist_term;
  log_offer := Some app_logentry_offer;
  log_poll_cb := Some app_logentry_poll;
  log_pop := Some app_logentry_pop;
  log_get_node_id := Some app_log_get_node_id;
  node_has_sufficient_logs := Some app_node_has_sufficient_logs;
  log_message := Some app_debug
|}.

(** ** Receiving

    [mem] is the memory that can be read from [packetbuf_dataptr()] on.  The
    sender's id, an [unsigned short], is converted to the [int] parameter of
    [raft_get_node]. *)
Definition load (mem : list Z) (off n : nat) : M world (list Z) :=
  if decide (off + n <= length mem)%nat then ret (take n (drop off mem)) else raise WildDeref.

Definition update_app (f : app_state -> app_state) : M world unit :=
  modify (fun w => with_user_data (f (user_data w)) w).

(** Copies [n] entries from [off] on into [msg_ae_entries[PAYLOAD_SIZE]]; [i] are
    copied already. *)
Fixpoint load_entries (mem : list Z) (n i off : nat) : M world (list (Z * raft_entry_t)) :=
  match n with
  | O => ret []
  | S n' =>
      exec! if decide (sizeof_entry * (i + 1) <= PAYLOAD_SIZE)%nat then ret tt
            else raise WildDeref in
      let! bs := load mem off sizeof_entry in
      let! rest := load_entries mem n' (i + 1) (off + sizeof_entry) in
      ret (decode_entry bs :: rest)
  end.

(** The entries reachable from the first one through [next]. *)
Definition wire_chain (l : list (Z * raft_entry_t)) : list raft_entry_t :=
  match l with
  | [] => []
  | (next, e) :: _ => e :: (if next =? 0 then [] else entries_at next)
  end.

Definition answer_appendentries (node : ptr) (sender : Z) (m : msg_appendentries_t)
    : M world unit :=
  let! (e, r) := raft_recv_appendentries node m in
  exec! assert_ (e =? 0) in
  update_app
    (send_message MSG_APPENDENTRIES_RESPONSE (encode_appendentries_response r) sender).

Definition handle_msg_appendentries (mem : list Z) (off : nat) (sender : Z) : M world unit :=
  let! node := raft_get_node (to_int sender) in
  let! h := load mem (off + 1) (sizeof_appendentries - sizeof_ptr) in
  let n := ae_n_entries (decode_appendentries h []) in
  let! l := load_entries mem (Z.to_nat n) 0 (off + 1 + (sizeof_appendentries - sizeof_ptr)) in
  answer_appendentries node sender (decode_appendentries h (wire_chain l)).

Definition handle_msg_appendentries_response (mem : list Z) (off : nat) (sender : Z)
    : M world unit :=
  let! node := raft_get_node (to_int sender) in
  match node with
  | None => ret tt
  | Some _ =>
      let! bs := load mem (off + 1) sizeof_appendentries_response in
      let! _ := raft_recv_appendentries_response node (decode_appendentries_response bs) in
      ret tt
  end.

Definition answer_requestvote (node : ptr) (sender : Z) (m : msg_requestvote_t)
    : M world unit :=
  let! (e, r) := raft_recv_requestvote node m in
  exec! assert_ (e =? 0) in
  update_app (send_message MSG_REQUESTVOTE_RESPONSE (encode_requestvote_response r) sender).

Definition handle_msg_requestvote (mem : list Z) (off : nat) (sender : Z) : M world unit :=
  let! node := raft_get_node (to_int sender) in
  let! bs := load mem (off + 1) sizeof_requestvote in
  answer_requestvote node sender (decode_requestvote bs).

Definition count_vote (node : ptr) (m : msg_requestvote_response_t) : M world unit :=
  let! e := raft_recv_requestvote_response node m in
  let! _ := raft_is_leader in
  assert_ (e =? 0).

Definition handle_msg_requestvote_response (mem : list Z) (off : nat) (sender : Z)
    : M world unit :=
  let! node := raft_get_node (to_int sender) in
  let! bs := load mem (off + 1) sizeof_requestvote_response in
  count_vote node (decode_requestvote_response bs).

(** [random_rand()] *)
Definition next_random : M world Z :=
  let! g := gets rand_state in
  let '(r, g') := random_rand g in
  exec! modify (with_rand_state g') in ret r.

(** The entry of a client: everything but its id and its data is zero. *)
Definition client_entry (id : Z) (bs : list Z) : raft_entry_t :=
  mk_entry 0 0 id 0 (mk_data (nth 0 bs 0) (nth 1 bs 0)).

Definition handle_msg_client (mem : list Z) (off : nat) (sender : Z) : M world unit :=
  let! r := next_random in
  let! bs := load mem (off + 1) sizeof_client_message in
  let! _ := raft_recv_entry (client_entry r bs) in
  ret tt.

Definition handle_msg_client_response (mem : list Z) (off : nat) (sender : Z)
    : M world unit := ret tt.

(** The [switch] on the type of the message. *)
Definition dispatch (msgtype : Z) (mem : list Z) (off : nat) (sender : Z) : M world unit :=
  match message_of_code msgtype with
  | Some MSG_APPENDENTRIES => handle_msg_appendentries mem off sender
  | Some MSG_APPENDENTRIES_RESPONSE => handle_msg_appendentries_response mem off sender
  | Some MSG_REQUESTVOTE => handle_msg_requestvote mem off sender
  | Some MSG_REQUESTVOTE_RESPONSE => handle_msg_requestvote_response mem off sender
  | Some MSG_CLIENT => handle_msg_client mem off sender
  | Some MSG_CLIENT_RESPONSE => handle_msg_client_response mem off sender
  | Some (MSG_HANDSHAKE | MSG_HANDSHAKE_RESPONSE | MSG_LEAVE | MSG_LEAVE_RESPONSE)
  | None => ret tt
  end.

Definition recv (mem : list Z) : M world Z :=
  let! h := load mem 0 sizeof_short in
  let! u := gets user_data in
  if negb (sv_node_id u =? uint_at h 0) then ret 1
  else
    let! s := load mem sizeof_short sizeof_short in
    let sender := uint_at s 0 in
    let off := (2 * sizeof_short)%nat in
    let! t := load mem off 1 in
    exec! dispatch (nth 0 t 0) mem off sender in
    ret 1.
End App.

(** [leader_node_id == -1] for an [unsigned short]: it is promoted to [int] when
    [int] is wider than 16 bits; otherwise both sides are [unsigned int]. *)
Definition no_leader {T : CTarget} (leader_node_id : Z) : bool :=
  if 16 <? int_bits then leader_node_id =? -1 else to_uint leader_node_id =? to_uint (-1).

Section Processes.
Context {C : Contiki} {P : Platform C}.

Definition client_new_message : M world unit :=
  let! r := next_random in
  let msg := put_int (Z.rem r 10) in
  let! leader := raft_get_current_leader in
  let leader_node_id := to_uint leader in
  if no_leader leader_node_id then ret tt
  else
    exec! update_app memset_stage in
    exec! update_app (store 0 [Z.land 255 (message_code MSG_CLIENT)]) in
    exec! update_app (store 1 msg) in
    let! u := gets user_data in
    if negb (leader_node_id =? sv_node_id u)
    then update_app (send_data (1 + sizeof_client_message) leader_node_id)
    else handle_msg_client (stage_buffer u) 0 leader_node_id.

(** One round of [client_process] and one of [raft_periodic_process], when
    their timers expire. *)
Definition client_process : M world unit :=
  let! r := next_random in
  when (Z.rem r 5 =? 0) client_new_message.

Definition raft_periodic_process : M world unit :=
  let! _ := raft_periodic RAFT_PERIODIC_TICK in ret tt.

Definition main_process (node_id : Z) : M world unit :=
  exec! update_app (with_sv_node_id (to_uint node_id)) in
  exec! modify (fun w => with_rand_state (random_init node_id (rand_state w)) w) in
  exec! raft_new in
  let! u := gets user_data in
  exec! raft_set_callbacks raft_funcs u in
  exec! raft_set_election_timeout ELECTION_TIMEOUT in
  exec! raft_set_request_timeout REQUEST_TIMEOUT in
  let! _ := raft_add_node (to_int (to_uint node_id)) true in
  exec! foreach [1; 2; 3; 4; 5] (fun i =>
    if i =? to_uint node_id then ret tt
    else let! _ := raft_add_node i false in ret tt) in
  let! r := next_random in
  exec! update_app (with_netflood_seq (to_int r)) in
  update_app (fun u => with_netflood (netflood_open (to_int (CLOCK_SECOND * 2)) 132 (netflood u)) u).
End Processes.
