(* ===== verification/Sim.v ===== *)
(** * A concrete platform

    Instances of the parameters of the model, to run it on examples: the MSP430
    target, the simulated Contiki of [Contiki.v], and a user whose callbacks
    record what they are given. *)
From S2P Require Import Prelude Contiki Types Node Membership Log Server Election Replication.

#[export] Existing Instance sky.
#[export] Existing Instance sim_contiki.

(** What the callbacks of the simulated user record. *)
Inductive sim_event :=
  | EvRequestVote (to : Z) (m : msg_requestvote_t)
  | EvAppendEntries (to : Z) (m : msg_appendentries_t)
  | EvApply (idx : Z) (e : raft_entry_t)
  | EvPersistVote (vote : Z)
  | EvPersistTerm (term vote : Z)
  | EvOffer (idx : Z) (e : raft_entry_t)
  | EvPop (idx : Z) (e : raft_entry_t).

#[export] Instance sim_user : User := {| udata := list sim_event |}.

Definition sim_record (e : sim_event) (u : list sim_event) : Z * list sim_event :=
  (0, u ++ [e]).

(** The node a configuration entry is about is in the first byte of its data,
    as in app/main.c. *)
Definition sim_cbs : raft_cbs_t := {|
  send_requestvote := Some (fun u n m => sim_record (EvRequestVote (id n) m) u);
  send_appendentries := Some (fun u n m => sim_record (EvAppendEntries (id n) m) u);
  send_snapshot := None;
  applylog := Some (fun u e i => sim_record (EvApply i e) u);
  persist_vote := Some (fun u v => sim_record (EvPersistVote v) u);
  persist_term := Some (fun u t v => sim_record (EvPersistTerm t v) u);
  log_offer := Some (fun u e i => sim_record (EvOffer i e) u);
  log_poll_cb := None;
  log_pop := Some (fun u e i => sim_record (EvPop i e) u);
  log_get_node_id := Some (fun u e i => (buf0 (ety_data e), u));
  node_has_sufficient_logs := None;
  log_message := None
|}.

(** Memory before any call. *)
Definition sim_boot : world :=
  mk_world zero_server zero_log ∅ (MEMB MAX_ENTRIES) ∅ (MEMB MAX_NODES) 0 [].

(** The start of app/main.c: a new server with its own node [self] first, then
    the others. *)
Definition sim_start (cbs : raft_cbs_t) (self : Z) (others : list Z) : M world unit :=
  exec! raft_new in
  exec! raft_set_callbacks cbs [] in
  let! _ := raft_add_node self true in
  foreach others (fun i => let! _ := raft_add_node i false in ret tt).

(** The state after a run, the initial one if the run goes wrong. *)
Definition run_world {A} (m : M world A) (w : world) : world :=
  match m w with Ok _ w' => w' | Fault _ => w end.

Definition run_value {A} (m : M world A) (w : world) : option A :=
  match m w with Ok a _ => Some a | Fault _ => None end.

Definition run_fault {A} (m : M world A) (w : world) : option fault :=
  match m w with Ok _ _ => None | Fault f => Some f end.

Lemma run_ok {A} (m : M world A) w v :
  run_value m w = Some v -> m w = Ok v (run_world m w).
Proof. unfold run_value, run_world. destruct (m w); by intros [= ->]. Qed.

(** A server of a three-node cluster, as a follower of term 0. *)
Definition sim3 : world := run_world (sim_start sim_cbs 1 [2; 3]) sim_boot.

(** An entry of application data. *)
Definition sim_entry (t i : Z) : raft_entry_t :=
  mk_entry t 0 i RAFT_LOGTYPE_NORMAL (mk_data 0 0).
