(* ===== verification/NodeFacts.v ===== *)
(** * Properties of peers (raft_node.c)

    The [flags] word of a node implements six independent booleans: [peer] is
    that abstract view and [node_ops_refine_peer] shows every operation acts on
    the view as its name says, and on nothing else. *)
From S2P Require Import Prelude Contiki Types Node Sim.

(** ** The abstract view of a node *)

Record peer := mk_peer {
  peer_voted_for_me : bool;
  peer_voting : bool;
  peer_sufficient_logs : bool;
  peer_active : bool;
  peer_voting_committed : bool;
  peer_addition_committed : bool
}.

Definition peer_of (n : raft_node_private_t) : peer :=
  mk_peer (Node.has_vote_for_me n) (Node.is_voting n) (Node.has_sufficient_logs n)
    (Node.is_active n) (Node.is_voting_committed n) (Node.is_addition_committed n).

(** ** Bits *)

Lemma has_flag_bit j n : 0 <= j -> Node.has_flag (Z.shiftl 1 j) n = Z.testbit (flags n) j.
Proof.
  intros Hj. unfold Node.has_flag. rewrite Z.shiftl_1_l.
  destruct (Z.testbit (flags n) j) eqn:Hb.
  - apply negb_true_iff, Z.eqb_neq. intros H0.
    apply (f_equal (fun z => Z.testbit z j)) in H0.
    by rewrite Z.land_spec, Hb, Z.pow2_bits_true, Z.bits_0 in H0.
  - apply negb_false_iff, Z.eqb_eq, Z.bits_inj_0. intros k.
    rewrite Z.land_spec. destruct (decide (k = j)) as [->|Hk]; [by rewrite Hb|].
    rewrite Z.pow2_bits_false by done. apply andb_false_r.
Qed.

Lemma has_set_flag i j n : 0 <= i -> 0 <= j ->
  Node.has_flag (Z.shiftl 1 j) (Node.set_flag (Z.shiftl 1 i) n)
  = (i =? j) || Node.has_flag (Z.shiftl 1 j) n.
Proof.
  intros Hi Hj. rewrite !has_flag_bit by done. cbn. rewrite Z.lor_spec, Z.shiftl_1_l.
  rewrite Z.pow2_bits_eqb by done. apply orb_comm.
Qed.

Lemma has_clear_flag i j n : 0 <= i -> 0 <= j ->
  Node.has_flag (Z.shiftl 1 j) (Node.clear_flag (Z.shiftl 1 i) n)
  = negb (i =? j) && Node.has_flag (Z.shiftl 1 j) n.
Proof.
  intros Hi Hj. rewrite !has_flag_bit by done. cbn.
  rewrite Z.land_spec, Z.lnot_spec, Z.shiftl_1_l, Z.pow2_bits_eqb by done. apply andb_comm.
Qed.

Create Rewrite HintDb flags.
#[export] Hint Rewrite has_set_flag has_clear_flag using lia : flags.

(** Evaluates the six tests on a node whose flags were changed. *)
Ltac flags_solve :=
  unfold peer_of, Node.vote_for_me, Node.has_vote_for_me, Node.is_voting,
    Node.has_sufficient_logs, Node.set_has_sufficient_logs, Node.set_active, Node.is_active,
    Node.set_voting_committed, Node.is_voting_committed, Node.set_addition_committed,
    Node.is_addition_committed, RAFT_NODE_VOTED_FOR_ME, RAFT_NODE_VOTING,
    RAFT_NODE_HAS_SUFFICIENT_LOG, RAFT_NODE_INACTIVE, RAFT_NODE_VOTING_COMMITTED,
    RAFT_NODE_ADDITION_COMMITTED in *;
  autorewrite with flags; cbn [Z.eqb Pos.eqb negb orb andb];
  rewrite ?andb_true_l, ?orb_false_l.

(** Each flag operation of a node sets the boolean it is named after and
    leaves the five others, the indices and the id of the node as they were. *)
Theorem node_ops_refine_peer (n : raft_node_private_t) (b : bool) :
  let p := peer_of n in
  let same n' := next_idx n' = next_idx n /\ match_idx n' = match_idx n /\ id n' = id n in
  (peer_of (Node.vote_for_me b n)
     = mk_peer b (peer_voting p) (peer_sufficient_logs p) (peer_active p)
         (peer_voting_committed p) (peer_addition_committed p)
   /\ same (Node.vote_for_me b n))
  /\ (peer_of (Node.set_active b n)
     = mk_peer (peer_voted_for_me p) (peer_voting p) (peer_sufficient_logs p) b
         (peer_voting_committed p) (peer_addition_committed p)
   /\ same (Node.set_active b n))
  /\ (peer_of (Node.set_has_sufficient_logs n)
     = mk_peer (peer_voted_for_me p) (peer_voting p) true (peer_active p)
         (peer_voting_committed p) (peer_addition_committed p)
   /\ same (Node.set_has_sufficient_logs n))
  /\ (peer_of (Node.set_voting_committed b n)
     = mk_peer (peer_voted_for_me p) (peer_voting p) (peer_sufficient_logs p)
         (peer_active p) b (peer_addition_committed p)
   /\ same (Node.set_voting_committed b n))
  /\ (peer_of (Node.set_addition_committed b n)
     = mk_peer (peer_voted_for_me p) (peer_voting p) (peer_sufficient_logs p)
         (peer_active p) (peer_voting_committed p) b
   /\ same (Node.set_addition_committed b n))
  /\ match Node.set_voting b n with
     | Some n' =>
         peer_voting p = negb b /\
         peer_of n'
         = mk_peer (peer_voted_for_me p) b (peer_sufficient_logs p) (peer_active p)
             (peer_voting_committed p) (peer_addition_committed p)
         /\ same n'
     | None => peer_voting p = b
     end.
Proof.
  cbv zeta. split_and!.
  all: lazymatch goal with
       | |- match _ with _ => _ end => idtac
       | _ => try (by destruct b); destruct b; cbn -[Z.shiftl]; flags_solve; reflexivity
       end.
  unfold Node.set_voting. change (peer_voting (peer_of n)) with (Node.is_voting n).
  destruct b, (Node.is_voting n) eqn:Hv; cbn -[Z.shiftl Node.is_voting]; try done.
  all: split_and!; try done; flags_solve; reflexivity.
Qed.
