(* ===== verification/Frames.v ===== *)
(** * What each operation leaves unchanged

    An operation is described by the groups of state it may write.  [IgnUser f]
    and its siblings say that an observation [f] of the state does not depend on
    a group; the lemma of an operation says it keeps ([keeps (same f)]) every
    observation that ignores the groups it writes.  The lemmas are in the hint
    database [keeps], which [keeps_solve] uses. *)
From S2P Require Import Prelude Contiki Types Node Membership Log Server Election Replication.

Section Updates.
Context {C : Contiki} {U : User}.
Lemma bind_upd_srv_l {B} g (k : unit -> M world B) w :
  bind (upd_srv g) k w = k tt (with_srv (g (srv w)) w).
Proof. done. Qed.
Lemma bind_upd_lg_l {B} g (k : unit -> M world B) w :
  bind (upd_lg g) k w = k tt (with_lg (g (lg w)) w).
Proof. done. Qed.
End Updates.
#[export] Hint Rewrite @bind_upd_srv_l @bind_upd_lg_l : monad.

Section Groups.
Context {C : Contiki} {U : User} {X : Type} (f : world -> X).

Definition ign_srv (g : raft_server_private_t -> raft_server_private_t) : Prop :=
  forall w, f (with_srv (g (srv w)) w) = f w.

(** The data behind [user_data]. *)
Class IgnUser : Prop := ign_user : forall v w, f (with_user_data v w) = f w.
(** The contents of node blocks. *)
Class IgnNodeHeap : Prop := ign_node_heap : forall v w, f (with_node_heap v w) = f w.
(** The list of nodes, the pool of nodes. *)
Class IgnNodes : Prop := {
  ign_nodes_mem v w : f (with_raft_nodes_mem v w) = f w;
  ign_nodes_list g : ign_srv (fun s => with_nodes_list (g s) s);
  ign_num_nodes v : ign_srv (with_num_nodes v);
  ign_node v : ign_srv (with_node v)
}.
(** The log, the pool of entries and their contents. *)
Class IgnLog : Prop := {
  ign_lg g w : f (with_lg (g (lg w)) w) = f w;
  ign_entry_heap v w : f (with_entry_heap v w) = f w;
  ign_entries_mem v w : f (with_raft_entries_mem v w) = f w
}.
(** The timers and the random generator. *)
Class IgnTimer : Prop := {
  ign_rand v w : f (with_rand_state v w) = f w;
  ign_timeout_elapsed v : ign_srv (with_timeout_elapsed v);
  ign_timeout_rand v : ign_srv (with_election_timeout_rand v)
}.
(** The role of the server and the leader it knows. *)
Class IgnRole : Prop := {
  ign_state v : ign_srv (with_state v);
  ign_leader g : ign_srv (fun s => with_current_leader (g s) s)
}.
(** The persistent term and vote. *)
Class IgnTerm : Prop := {
  ign_term v t : ign_srv (fun s => with_voted_for v (with_current_term t s));
  ign_vote v : ign_srv (with_voted_for v)
}.
Class IgnCommit : Prop := ign_commit v : ign_srv (with_commit_idx v).
Class IgnApplied : Prop := ign_applied v : ign_srv (with_last_applied_idx v).
(** The progress of configuration changes. *)
Class IgnCfg : Prop := {
  ign_cfg v : ign_srv (with_voting_cfg_change_log_idx v);
  ign_connected v : ign_srv (with_connected v)
}.
End Groups.

(** Concrete observations compute. *)
#[export] Hint Extern 5 (IgnUser _) => (intros ? ?; reflexivity) : typeclass_instances.
#[export] Hint Extern 5 (IgnNodeHeap _) => (intros ? ?; reflexivity) : typeclass_instances.
#[export] Hint Extern 5 (IgnNodes _) => (split; intros; try intros ?; reflexivity) : typeclass_instances.
#[export] Hint Extern 5 (IgnLog _) => (split; intros; reflexivity) : typeclass_instances.
#[export] Hint Extern 5 (IgnTimer _) => (split; intros; try intros ?; reflexivity) : typeclass_instances.
#[export] Hint Extern 5 (IgnRole _) => (split; intros; intros ?; reflexivity) : typeclass_instances.
#[export] Hint Extern 5 (IgnTerm _) => (split; intros; intros ?; reflexivity) : typeclass_instances.
#[export] Hint Extern 5 (IgnCommit _) => (intros ? ?; reflexivity) : typeclass_instances.
#[export] Hint Extern 5 (IgnApplied _) => (intros ? ?; reflexivity) : typeclass_instances.
#[export] Hint Extern 5 (IgnCfg _) => (split; intros; intros ?; reflexivity) : typeclass_instances.

(** A write to an ignored group. *)
Ltac keeps_write :=
  match goal with
  | |- keeps (same _) (upd_srv _) => apply keeps_same_modify; intros ?
  | |- keeps (same _) (upd_lg _) => apply keeps_same_modify; intros ?
  | |- keeps (same _) (modify _) => apply keeps_same_modify; intros ?
  end;
  first [ apply ign_user | apply ign_node_heap | apply ign_nodes_mem | apply ign_entry_heap
        | apply ign_entries_mem | apply ign_rand | apply ign_term | apply ign_vote
        | apply ign_commit | apply ign_applied | apply ign_cfg | apply ign_connected
        | apply ign_state | apply (ign_leader _ (fun _ => _)) | apply (ign_leader _ node)
        | apply ign_timeout_elapsed | apply ign_timeout_rand
        | apply ign_num_nodes | apply ign_node
        | apply (ign_nodes_list _ (fun s => list_add (nodes_list s) _))
        | apply (ign_nodes_list _ (fun _ => _))
        | apply (ign_lg _ (fun l => _)) ];
  apply _.
#[export] Hint Extern 1 (keeps (same _) (modify _)) => keeps_write : keeps.
#[export] Hint Extern 1 (keeps (same _) (upd_srv _)) => keeps_write : keeps.
#[export] Hint Extern 1 (keeps (same _) (upd_lg _)) => keeps_write : keeps.

(** ** Reading *)
Section Readers.
Context {T : CTarget} {C : Contiki} {U : User}.

Lemma node_get_ro p : readonly (node_get p).
Proof. unfold node_get. keeps_solve. Qed.
Lemma node_read_ro {A} (g : _ -> A) p : readonly (node_read g p).
Proof. pose proof node_get_ro. unfold node_read. keeps_solve. Qed.
Lemma entry_get_ro p : readonly (entry_get p).
Proof. unfold entry_get. keeps_solve. Qed.
Lemma non_null_ro {A} (o : option A) : readonly (non_null o : M world A).
Proof. unfold non_null. keeps_solve. Qed.
Lemma deref_static_ro p : readonly (deref_static p).
Proof. unfold deref_static. keeps_solve. Qed.
End Readers.
#[export] Hint Resolve node_get_ro node_read_ro entry_get_ro non_null_ro deref_static_ro
  : keeps.

(** ** Operations, by the groups they write *)
Section Ops.
Context {T : CTarget} {C : Contiki} {U : User} {X : Type} (f : world -> X).

Ltac go := keeps_solve; eauto with keeps.

Lemma raft_get_nodeid_ro : readonly raft_get_nodeid.
Proof. unfold raft_get_nodeid, raft_node_get_id. keeps_solve. Qed.
Hint Resolve raft_get_nodeid_ro : keeps.
Lemma raft_get_num_voting_nodes_ro : readonly raft_get_num_voting_nodes.
Proof.
  unfold raft_get_num_voting_nodes, raft_node_is_active, raft_node_is_voting. keeps_solve.
Qed.
Lemma raft_get_node_ro i : readonly (raft_get_node i).
Proof. unfold raft_get_node, raft_node_get_id. keeps_solve. Qed.
Lemma raft_get_my_node_ro : readonly raft_get_my_node.
Proof. unfold raft_get_my_node, raft_node_get_id. keeps_solve. Qed.
Lemma raft_get_nvotes_for_me_ro : readonly raft_get_nvotes_for_me.
Proof.
  unfold raft_get_nvotes_for_me, raft_node_is_active, raft_node_is_voting,
    raft_node_has_vote_for_me. keeps_solve.
Qed.
Lemma log_count_ro : readonly log_count.
Proof. unfold log_count. keeps_solve. Qed.
Hint Resolve log_count_ro : keeps.
Lemma log_get_current_idx_ro : readonly log_get_current_idx.
Proof. unfold log_get_current_idx. keeps_solve. Qed.
Lemma log_find_ro i : readonly (log_find i).
Proof. unfold log_find. keeps_solve. Qed.
Hint Resolve log_find_ro : keeps.
Lemma log_get_at_idx_ro i : readonly (log_get_at_idx i).
Proof. unfold log_get_at_idx. keeps_solve. Qed.
Lemma log_get_from_idx_ro i : readonly (log_get_from_idx i).
Proof. unfold log_get_from_idx. keeps_solve. Qed.
Lemma read_entries_ro l : readonly (read_entries l).
Proof. induction l; cbn; keeps_solve. Qed.
Hint Resolve read_entries_ro : keeps.
Lemma log_chain_ro p : readonly (log_chain p).
Proof. unfold log_chain. keeps_solve. Qed.
Hint Resolve log_get_current_idx_ro log_get_at_idx_ro log_get_from_idx_ro log_chain_ro : keeps.
Lemma raft_get_last_log_term_ro : readonly raft_get_last_log_term.
Proof.
  unfold raft_get_last_log_term, raft_get_current_idx, raft_get_entry_from_idx. keeps_solve.
Qed.
Lemma prev_log_ro i : readonly (prev_log i).
Proof. unfold prev_log, raft_get_entry_from_idx. keeps_solve. Qed.
Hint Resolve raft_get_num_voting_nodes_ro raft_get_node_ro raft_get_my_node_ro
  raft_get_nvotes_for_me_ro raft_get_last_log_term_ro prev_log_ro : keeps.
Lemma should_grant_vote_ro vr : readonly (should_grant_vote vr).
Proof.
  unfold should_grant_vote, raft_node_is_voting, raft_get_current_term, raft_already_voted,
    raft_get_current_idx, raft_get_entry_from_idx. keeps_solve.
Qed.

Lemma raft_is_leader_ro : readonly raft_is_leader.
Proof. unfold raft_is_leader, raft_get_state. keeps_solve. Qed.
Lemma raft_is_candidate_ro : readonly raft_is_candidate.
Proof. unfold raft_is_candidate, raft_get_state. keeps_solve. Qed.

Section User.
Context `{!IgnUser f}.

Lemma call_keeps g : keeps (same f) (call g).
Proof. unfold call. keeps_solve. Qed.
Hint Resolve call_keeps : keeps.
Lemma call_node_keeps g p : keeps (same f) (call_node g p).
Proof. unfold call_node. keeps_solve. Qed.
Lemma log_msg_keeps p : keeps (same f) (log_msg p).
Proof. unfold log_msg. keeps_solve. Qed.
Lemma call_log_get_node_id_keeps e i : keeps (same f) (call_log_get_node_id e i).
Proof. unfold call_log_get_node_id. keeps_solve. Qed.
Hint Resolve call_node_keeps log_msg_keeps : keeps.
Lemma raft_send_requestvote_keeps p : keeps (same f) (raft_send_requestvote p).
Proof. unfold raft_send_requestvote, raft_node_get_id, raft_get_current_idx. keeps_solve. Qed.
Lemma raft_send_appendentries_keeps p : keeps (same f) (raft_send_appendentries p).
Proof.
  unfold raft_send_appendentries, raft_node_get_id, raft_node_get_next_idx,
    raft_get_current_idx, raft_get_entries_from_idx. keeps_solve.
Qed.
Hint Resolve raft_send_requestvote_keeps raft_send_appendentries_keeps : keeps.
Lemma request_votes_keeps : keeps (same f) request_votes.
Proof. unfold request_votes, raft_node_is_active, raft_node_is_voting. keeps_solve. Qed.
Lemma recv_requestvote_done_keeps p e v : keeps (same f) (recv_requestvote_done p e v).
Proof. unfold recv_requestvote_done, raft_node_get_id, raft_get_current_term. keeps_solve. Qed.
Lemma send_new_entry_keeps : keeps (same f) send_new_entry.
Proof.
  unfold send_new_entry, raft_node_is_active, raft_node_is_voting, raft_node_get_next_idx,
    raft_get_current_idx. keeps_solve.
Qed.
End User.
End Ops.
#[export] Hint Resolve raft_get_nodeid_ro log_count_ro log_find_ro log_get_current_idx_ro
  log_get_at_idx_ro log_get_from_idx_ro log_chain_ro raft_get_num_voting_nodes_ro
  raft_get_node_ro raft_get_my_node_ro raft_get_nvotes_for_me_ro raft_get_last_log_term_ro
  prev_log_ro should_grant_vote_ro raft_is_leader_ro raft_is_candidate_ro call_keeps call_node_keeps log_msg_keeps
  call_log_get_node_id_keeps raft_send_requestvote_keeps raft_send_appendentries_keeps
  request_votes_keeps recv_requestvote_done_keeps send_new_entry_keeps : keeps.

(** Accessors that are a single read. *)
Ltac unfold_accessors :=
  unfold raft_node_get_id, raft_node_get_next_idx, raft_node_get_match_idx,
    raft_node_is_active, raft_node_is_voting, raft_node_has_sufficient_logs,
    raft_node_is_voting_committed, raft_node_has_vote_for_me, raft_get_current_idx,
    raft_get_entry_from_idx, raft_get_entries_from_idx, raft_get_current_term,
    raft_already_voted, raft_get_commit_idx, raft_get_last_applied_idx,
    raft_snapshot_is_in_progress, raft_voting_change_is_in_progress, raft_is_leader,
    raft_is_candidate, raft_is_follower, raft_get_state, raft_get_udata.

(** ** Operations that write *)
Section Writers.
Context {T : CTarget} {C : Contiki} {U : User} {X : Type} (f : world -> X).

Section NodeHeap.
Context `{!IgnNodeHeap f}.
Lemma node_put_keeps p n : keeps (same f) (node_put p n).
Proof. unfold node_put. keeps_solve. Qed.
Hint Resolve node_put_keeps : keeps.
Lemma node_write_keeps g p : keeps (same f) (node_write g p).
Proof. unfold node_write. keeps_solve. Qed.
Lemma raft_node_set_voting_keeps p b : keeps (same f) (raft_node_set_voting p b).
Proof. unfold raft_node_set_voting. keeps_solve. Qed.
Hint Resolve node_write_keeps : keeps.
Lemma clear_votes_keeps : keeps (same f) clear_votes.
Proof. unfold clear_votes, raft_node_vote_for_me. keeps_solve. Qed.
Lemma check_sufficient_logs_keeps `{!IgnUser f} p r :
  keeps (same f) (check_sufficient_logs p r).
Proof.
  unfold check_sufficient_logs, raft_node_set_has_sufficient_logs. unfold_accessors.
  keeps_solve.
Qed.
End NodeHeap.
Hint Resolve node_put_keeps node_write_keeps raft_node_set_voting_keeps clear_votes_keeps
  check_sufficient_logs_keeps : keeps.

Section Nodes.
Context `{!IgnNodeHeap f, !IgnNodes f}.
Lemma raft_node_new_keeps i : keeps (same f) (raft_node_new i).
Proof. unfold raft_node_new. keeps_solve. Qed.
Lemma raft_node_free_keeps p : keeps (same f) (raft_node_free p).
Proof. apply keeps_same_modify. intros w. apply ign_nodes_mem. apply _. Qed.
Hint Resolve raft_node_new_keeps raft_node_free_keeps : keeps.
Lemma raft_add_node_keeps i b : keeps (same f) (raft_add_node i b).
Proof. unfold raft_add_node. unfold_accessors. keeps_solve. Qed.
Hint Resolve raft_add_node_keeps : keeps.
Lemma raft_add_non_voting_node_keeps i b : keeps (same f) (raft_add_non_voting_node i b).
Proof. unfold raft_add_non_voting_node. keeps_solve. Qed.
Lemma raft_remove_node_keeps p : keeps (same f) (raft_remove_node p).
Proof. unfold raft_remove_node. keeps_solve. Qed.
Hint Resolve raft_add_non_voting_node_keeps raft_remove_node_keeps : keeps.
Context `{!IgnUser f}.
Lemma raft_offer_log_keeps p i : keeps (same f) (raft_offer_log p i).
Proof.
  unfold raft_offer_log, raft_node_set_active. unfold_accessors. keeps_solve.
Qed.
Lemma raft_pop_log_keeps p i : keeps (same f) (raft_pop_log p i).
Proof.
  unfold raft_pop_log, raft_node_set_active. unfold_accessors. keeps_solve.
Qed.
End Nodes.
Hint Resolve raft_add_node_keeps raft_remove_node_keeps raft_offer_log_keeps
  raft_pop_log_keeps : keeps.

Section Log.
Context `{!IgnLog f}.
Lemma log_make_room_keeps : keeps (same f) log_make_room.
Proof. unfold log_make_room. keeps_solve. Qed.
Hint Resolve log_make_room_keeps : keeps.
Context `{!IgnNodeHeap f, !IgnNodes f, !IgnUser f}.
Lemma log_notify_offer_keeps a e i : keeps (same f) (log_notify_offer a e i).
Proof. unfold log_notify_offer. unfold_accessors. keeps_solve. Qed.
Hint Resolve log_notify_offer_keeps : keeps.
Lemma log_append_entry_keeps e : keeps (same f) (log_append_entry e).
Proof. unfold log_append_entry. unfold_accessors. keeps_solve. Qed.
Lemma log_delete_keeps i : keeps (same f) (log_delete i).
Proof. unfold log_delete. unfold_accessors. keeps_solve. Qed.
Hint Resolve log_append_entry_keeps log_delete_keeps : keeps.
Context `{!IgnCfg f}.
Lemma raft_append_entry_keeps e : keeps (same f) (raft_append_entry e).
Proof. unfold raft_append_entry. unfold_accessors. keeps_solve. Qed.
Lemma raft_delete_entry_from_idx_keeps i : keeps (same f) (raft_delete_entry_from_idx i).
Proof. unfold raft_delete_entry_from_idx. keeps_solve. Qed.
End Log.
End Writers.
#[export] Hint Resolve node_put_keeps node_write_keeps raft_node_set_voting_keeps
  clear_votes_keeps check_sufficient_logs_keeps raft_node_new_keeps raft_node_free_keeps
  raft_add_node_keeps raft_add_non_voting_node_keeps raft_remove_node_keeps
  raft_offer_log_keeps raft_pop_log_keeps log_make_room_keeps log_notify_offer_keeps log_append_entry_keeps
  log_delete_keeps raft_append_entry_keeps raft_delete_entry_from_idx_keeps : keeps.

(** ** The protocol *)
Section Protocol.
Context {T : CTarget} {C : Contiki} {U : User} {X : Type} (f : world -> X).
Context `{!IgnUser f}.

Lemma raft_set_state_keeps `{!IgnRole f} st : keeps (same f) (raft_set_state st).
Proof. unfold raft_set_state. keeps_solve. Qed.
Lemma random_timeout_ro t r : readonly (random_timeout t r).
Proof. unfold random_timeout. keeps_solve. Qed.
Hint Resolve raft_set_state_keeps random_timeout_ro : keeps.
Lemma raft_randomize_election_timeout_keeps `{!IgnTimer f} :
  keeps (same f) raft_randomize_election_timeout.
Proof. unfold raft_randomize_election_timeout. keeps_solve. Qed.
Lemma raft_set_current_term_keeps `{!IgnTerm f} t : keeps (same f) (raft_set_current_term t).
Proof. unfold raft_set_current_term. keeps_solve. Qed.
Lemma raft_vote_for_nodeid_keeps `{!IgnTerm f} i : keeps (same f) (raft_vote_for_nodeid i).
Proof. unfold raft_vote_for_nodeid. keeps_solve. Qed.
Hint Resolve raft_randomize_election_timeout_keeps raft_set_current_term_keeps
  raft_vote_for_nodeid_keeps : keeps.
Lemma raft_vote_keeps `{!IgnTerm f} p : keeps (same f) (raft_vote p).
Proof. unfold raft_vote. unfold_accessors. keeps_solve. Qed.
Lemma raft_set_commit_idx_keeps `{!IgnCommit f} i : keeps (same f) (raft_set_commit_idx i).
Proof. unfold raft_set_commit_idx. unfold_accessors. keeps_solve. Qed.
Hint Resolve raft_vote_keeps raft_set_commit_idx_keeps : keeps.

Lemma raft_become_follower_keeps `{!IgnRole f, !IgnTimer f} :
  keeps (same f) raft_become_follower.
Proof. unfold raft_become_follower. keeps_solve. Qed.
Lemma raft_become_leader_keeps `{!IgnRole f, !IgnTimer f, !IgnNodeHeap f} :
  keeps (same f) raft_become_leader.
Proof.
  unfold raft_become_leader, raft_node_set_next_idx, raft_node_set_match_idx.
  unfold_accessors. keeps_solve.
Qed.
Lemma raft_become_candidate_keeps `{!IgnRole f, !IgnTimer f, !IgnNodeHeap f, !IgnTerm f} :
  keeps (same f) raft_become_candidate.
Proof. unfold raft_become_candidate. unfold_accessors. keeps_solve. Qed.
Hint Resolve raft_become_follower_keeps raft_become_leader_keeps
  raft_become_candidate_keeps : keeps.
Lemma raft_election_start_keeps `{!IgnRole f, !IgnTimer f, !IgnNodeHeap f, !IgnTerm f} :
  keeps (same f) raft_election_start.
Proof. unfold raft_election_start. unfold_accessors. keeps_solve. Qed.
Lemma raft_send_appendentries_all_keeps `{!IgnTimer f} :
  keeps (same f) raft_send_appendentries_all.
Proof. unfold raft_send_appendentries_all. unfold_accessors. keeps_solve. Qed.
Lemma recv_requestvote_decide_keeps `{!IgnRole f, !IgnTimer f, !IgnTerm f} p vr :
  keeps (same f) (recv_requestvote_decide p vr).
Proof. unfold recv_requestvote_decide. unfold_accessors. keeps_solve. Qed.
Hint Resolve raft_election_start_keeps raft_send_appendentries_all_keeps
  recv_requestvote_decide_keeps : keeps.
Lemma raft_recv_requestvote_keeps `{!IgnRole f, !IgnTimer f, !IgnTerm f} p vr :
  keeps (same f) (raft_recv_requestvote p vr).
Proof. unfold raft_recv_requestvote. unfold_accessors. keeps_solve. Qed.
Lemma raft_recv_requestvote_response_keeps
    `{!IgnRole f, !IgnTimer f, !IgnTerm f, !IgnNodeHeap f} p r :
  keeps (same f) (raft_recv_requestvote_response p r).
Proof.
  unfold raft_recv_requestvote_response, raft_node_vote_for_me. unfold_accessors.
  keeps_solve.
Qed.

Lemma update_commit_keeps `{!IgnCommit f} i : keeps (same f) (update_commit i).
Proof. unfold update_commit, replicates. unfold_accessors. keeps_solve. Qed.
Hint Resolve update_commit_keeps : keeps.
Lemma raft_recv_appendentries_response_keeps
    `{!IgnRole f, !IgnTimer f, !IgnTerm f, !IgnNodeHeap f, !IgnCommit f} p r :
  keeps (same f) (raft_recv_appendentries_response p r).
Proof.
  unfold raft_recv_appendentries_response, recv_aer_success, recv_aer_failure,
    raft_node_set_next_idx, raft_node_set_match_idx. unfold_accessors. keeps_solve.
Qed.

Lemma recv_ae_commit_keeps `{!IgnCommit f} ae : keeps (same f) (recv_ae_commit ae).
Proof. unfold recv_ae_commit. unfold_accessors. keeps_solve. Qed.
Lemma recv_ae_out_ro ae e s c : readonly (recv_ae_out ae e s c).
Proof. unfold recv_ae_out. unfold_accessors. keeps_solve. Qed.
Lemma ae_index_ro ae i : readonly (ae_index ae i : M world Z).
Proof. unfold ae_index. keeps_solve. Qed.
Hint Resolve recv_ae_commit_keeps recv_ae_out_ro ae_index_ro : keeps.

Section Cfg.
Context `{!IgnLog f, !IgnNodeHeap f, !IgnNodes f, !IgnCfg f}.
Lemma recv_ae_match_keeps ae n i es c : keeps (same f) (recv_ae_match ae n i es c).
Proof.
  revert i es c. induction n as [|n IH]; intros i es c; cbn; unfold_accessors; keeps_solve.
Qed.
Lemma recv_ae_append_keeps ae n i es c : keeps (same f) (recv_ae_append ae n i es c).
Proof. revert i es c. induction n as [|n IH]; intros i es c; cbn; keeps_solve. Qed.
Hint Resolve recv_ae_match_keeps recv_ae_append_keeps : keeps.
Context `{!IgnCommit f}.
Lemma recv_ae_entries_keeps ae : keeps (same f) (recv_ae_entries ae).
Proof. unfold recv_ae_entries. keeps_solve. Qed.
Hint Resolve recv_ae_entries_keeps : keeps.
Lemma raft_recv_entry_keeps e : keeps (same f) (raft_recv_entry e).
Proof. unfold raft_recv_entry. unfold_accessors. keeps_solve. Qed.
Context `{!IgnRole f, !IgnTimer f}.
Lemma recv_ae_prev_keeps p ae : keeps (same f) (recv_ae_prev p ae).
Proof. unfold recv_ae_prev. unfold_accessors. keeps_solve. Qed.
Hint Resolve recv_ae_prev_keeps : keeps.
Lemma raft_recv_appendentries_keeps `{!IgnTerm f} p ae :
  keeps (same f) (raft_recv_appendentries p ae).
Proof. unfold raft_recv_appendentries. unfold_accessors. keeps_solve. Qed.
End Cfg.

Section Apply.
Context `{!IgnNodeHeap f, !IgnNodes f, !IgnCfg f}.
Lemma apply_cfg_change_keeps e i p : keeps (same f) (apply_cfg_change e i p).
Proof.
  unfold apply_cfg_change, raft_node_set_addition_committed,
    raft_node_set_voting_committed, raft_node_set_has_sufficient_logs. keeps_solve.
Qed.
Hint Resolve apply_cfg_change_keeps : keeps.
Context `{!IgnApplied f}.
Lemma raft_apply_entry_keeps : keeps (same f) raft_apply_entry.
Proof. unfold raft_apply_entry. unfold_accessors. keeps_solve. Qed.
Hint Resolve raft_apply_entry_keeps : keeps.
Lemma apply_all_loop_keeps n : keeps (same f) (apply_all_loop n).
Proof. induction n as [|n IH]; cbn; unfold_accessors; keeps_solve. Qed.
Hint Resolve apply_all_loop_keeps : keeps.
Lemma raft_apply_all_keeps : keeps (same f) raft_apply_all.
Proof. unfold raft_apply_all. unfold_accessors. keeps_solve. Qed.
Lemma raft_periodic_keeps `{!IgnRole f, !IgnTimer f, !IgnTerm f} n :
  keeps (same f) (raft_periodic n).
Proof. unfold raft_periodic. unfold_accessors. keeps_solve. Qed.
End Apply.
End Protocol.
#[export] Hint Resolve raft_set_state_keeps random_timeout_ro
  raft_randomize_election_timeout_keeps raft_set_current_term_keeps raft_vote_for_nodeid_keeps
  raft_vote_keeps raft_set_commit_idx_keeps raft_become_follower_keeps
  raft_become_leader_keeps raft_become_candidate_keeps raft_election_start_keeps
  raft_send_appendentries_all_keeps recv_requestvote_decide_keeps raft_recv_requestvote_keeps
  raft_recv_requestvote_response_keeps update_commit_keeps
  raft_recv_appendentries_response_keeps recv_ae_commit_keeps recv_ae_out_ro ae_index_ro
  recv_ae_match_keeps recv_ae_append_keeps recv_ae_entries_keeps raft_recv_entry_keeps
  recv_ae_prev_keeps raft_recv_appendentries_keeps apply_cfg_change_keeps
  raft_apply_entry_keeps apply_all_loop_keeps raft_apply_all_keeps raft_periodic_keeps : keeps.
