(* ===== verification/History.v ===== *)
(** * The history of a server: what never goes backwards

    [raft_op] is the interface through which an application drives a server:
    the functions of raft.h that handle messages, entries and time.  [hist]
    relates two states of a server when the second can come after the first:
    the term, the commit index and the applied index do not decrease, the
    applied index stays within the commit index, and within a term a vote that
    was cast is not changed.  Every operation, and so every run, respects it. *)
From S2P Require Import Prelude Contiki Types Node Membership Log Server Election Replication.
From S2P Require Import Sim Frames.

Section Interface.
Context {T : CTarget} {C : Contiki} {U : User}.

(** ** The interface *)
Inductive raft_op :=
  | OpPeriodic (msec : Z)
  | OpRecvAppendentries (node : ptr) (ae : msg_appendentries_t)
  | OpRecvAppendentriesResponse (node : ptr) (r : msg_appendentries_response_t)
  | OpRecvRequestvote (node : ptr) (vr : msg_requestvote_t)
  | OpRecvRequestvoteResponse (node : ptr) (r : msg_requestvote_response_t)
  | OpRecvEntry (ety : raft_entry_t)
  | OpApplyAll.

Definition run_op (o : raft_op) : M world unit :=
  match o with
  | OpPeriodic n => let! _ := raft_periodic n in ret tt
  | OpRecvAppendentries p ae => let! _ := raft_recv_appendentries p ae in ret tt
  | OpRecvAppendentriesResponse p r =>
      let! _ := raft_recv_appendentries_response p r in ret tt
  | OpRecvRequestvote p vr => let! _ := raft_recv_requestvote p vr in ret tt
  | OpRecvRequestvoteResponse p r =>
      let! _ := raft_recv_requestvote_response p r in ret tt
  | OpRecvEntry e => let! _ := raft_recv_entry e in ret tt
  | OpApplyAll => let! _ := raft_apply_all in ret tt
  end.

Definition run_ops (os : list raft_op) : M world unit := foreach os run_op.
End Interface.

Section History.
Context {T : CTarget} {C : Contiki} {U : User}.

Definition term_of (w : world) : Z := current_term (srv w).
Definition vote_of (w : world) : Z := voted_for (srv w).
Definition commit_of (w : world) : Z := commit_idx (srv w).
Definition applied_of (w : world) : Z := last_applied_idx (srv w).

Definition hist_of (w : world) : Z * Z * Z * Z :=
  (term_of w, vote_of w, commit_of w, applied_of w).

(** Everything but the vote. *)
Definition hist_base (w w' : world) : Prop :=
  term_of w <= term_of w' /\ commit_of w <= commit_of w' /\
  applied_of w <= applied_of w' /\
  (applied_of w <= commit_of w -> applied_of w' <= commit_of w').

Definition hist (w w' : world) : Prop :=
  hist_base w w' /\
  (term_of w = term_of w' -> vote_of w <> -1 -> vote_of w' = vote_of w).

#[export] Instance hist_base_preorder : PreOrder hist_base.
Proof.
  split; [intros w; unfold hist_base; lia|].
  intros w1 w2 w3. unfold hist_base. lia.
Qed.
#[export] Instance hist_preorder : PreOrder hist.
Proof.
  split; [intros w; split; [reflexivity|done]|].
  intros w1 w2 w3 [H1 V1] [H2 V2]. split; [by transitivity w2|].
  intros Ht Hv. unfold hist_base in *.
  rewrite <- (V1 ltac:(lia) Hv). apply V2; [lia|]. rewrite V1; [done|lia|done].
Qed.

(** Passing to a later term frees the vote. *)
Lemma hist_new_term w w' : hist_base w w' -> term_of w < term_of w' -> hist w w'.
Proof. intros H Ht. split; [done|lia]. Qed.

Lemma hist_of_hist w w' : same hist_of w w' -> hist w w'.
Proof.
  unfold same, hist_of. intros [= H1 H2 H3 H4]. split; [unfold hist_base; lia|congruence].
Qed.

Lemma keeps_hist_of {A} (m : M world A) : keeps (same hist_of) m -> keeps hist m.
Proof. intros H w a w' Hm. apply hist_of_hist. by eapply H. Qed.
Lemma keeps_hist_of_base {A} (m : M world A) : keeps (same hist_of) m -> keeps hist_base m.
Proof. intros H w a w' Hm. eapply hist_of_hist, H, Hm. Qed.
End History.

#[export] Hint Extern 3 (keeps hist _) => (apply keeps_hist_of; solve [eauto 3 with keeps typeclass_instances]) : keeps.
#[export] Hint Extern 3 (keeps hist_base _) =>
  (apply keeps_hist_of_base; solve [eauto 3 with keeps typeclass_instances]) : keeps.

(** ** The operations that write the history *)
Section HistoryOps.
Context {T : CTarget} {C : Contiki} {U : User}.

(** Persist first: the term changes after the callback accepted it. *)
Lemma raft_set_current_term_spec t w e w' :
  raft_set_current_term t w = Ok e w' ->
  if decide (e = 0)
  then commit_of w' = commit_of w /\ applied_of w' = applied_of w /\
       if decide (term_of w < t) then term_of w' = t /\ vote_of w' = -1
       else term_of w' = term_of w /\ vote_of w' = vote_of w
  else hist_of w' = hist_of w.
Proof.
  intros H. unfold raft_set_current_term in H. run_simp H.
  destruct (Z.ltb_spec (current_term (srv w)) t) as [Hlt|Hge].
  - run_bind H as r w1 H1.
    run_keeps H1 (same hist_of) as Hw1.
    unfold truth in H. destruct (Z.eqb_spec r 0) as [->|Hr]; cbn [negb] in H; run_simp H;
      run_ret H; unfold hist_of, term_of, vote_of, commit_of, applied_of in *;
      injection Hw1; intros; cbn.
    + rewrite decide_True by done. case_decide; done.
    + rewrite decide_False by done. congruence.
  - run_ret H. rewrite decide_True by done. unfold term_of.
    rewrite decide_False by lia. done.
Qed.

Lemma raft_set_current_term_hist t : keeps hist (raft_set_current_term t).
Proof.
  intros w e w' H%raft_set_current_term_spec. destruct (decide (e = 0)).
  - destruct H as (H1 & H2 & H3). case_decide; destruct H3 as [H3 H4].
    + apply hist_new_term; [unfold hist_base; lia|lia].
    + apply hist_of_hist. unfold same, hist_of. congruence.
  - by apply hist_of_hist.
Qed.

Lemma raft_vote_for_nodeid_spec i w e w' :
  raft_vote_for_nodeid i w = Ok e w' ->
  term_of w' = term_of w /\ commit_of w' = commit_of w /\ applied_of w' = applied_of w /\
  vote_of w' = if decide (e = 0) then i else vote_of w.
Proof.
  intros H. unfold raft_vote_for_nodeid in H. run_simp H. run_bind H as r w1 H1.
  run_keeps H1 (same hist_of) as Hw1.
  unfold truth in H. destruct (Z.eqb_spec r 0) as [->|Hr]; cbn [negb] in H; run_simp H;
    run_ret H; unfold hist_of, term_of, vote_of, commit_of, applied_of in *;
    injection Hw1; intros; cbn.
  - by rewrite decide_True.
  - by rewrite decide_False.
Qed.

Lemma raft_vote_for_nodeid_base i : keeps hist_base (raft_vote_for_nodeid i).
Proof.
  intros w e w' (H1 & H2 & H3 & _)%raft_vote_for_nodeid_spec. unfold hist_base. lia.
Qed.

Lemma raft_set_commit_idx_spec i w u w' :
  raft_set_commit_idx i w = Ok u w' ->
  commit_of w <= i /\ w' = with_srv (with_commit_idx i (srv w)) w.
Proof.
  intros H. unfold raft_set_commit_idx in H. run_simp H.
  destruct (Z.leb_spec (commit_idx (srv w)) i); [|done].
  run_bind H as ci w2 H2. apply log_get_current_idx_ro in H2 as <-. run_simp H.
  destruct (i <=? ci); [|done]. by injection H as _ <-.
Qed.

Lemma raft_set_commit_idx_hist i : keeps hist (raft_set_commit_idx i).
Proof.
  intros w u w' [H ->]%raft_set_commit_idx_spec. split; [|done].
  unfold hist_base, term_of, commit_of, applied_of in *. cbn. lia.
Qed.

Hint Resolve raft_set_current_term_hist raft_vote_for_nodeid_base raft_set_commit_idx_hist
  : keeps.

Lemma raft_vote_base p : keeps hist_base (raft_vote p).
Proof. unfold raft_vote. unfold_accessors. keeps_solve. Qed.
Hint Resolve raft_vote_base : keeps.

Lemma raft_become_candidate_hist : keeps hist raft_become_candidate.
Proof.
  intros w e w' H. unfold raft_become_candidate in H. run_bind H as u w1 H1.
  transitivity w1; [by eapply hist_of_hist, (log_msg_keeps hist_of), H1|].
  unfold raft_get_current_term in H. run_simp H. destruct (int_ok _); [|done].
  run_bind H as r w3 H3. unfold truth in H.
  pose proof (raft_set_current_term_hist _ _ _ _ H3) as [Hb _].
  apply raft_set_current_term_spec in H3.
  destruct (Z.eqb_spec r 0) as [->|Hr]; cbn [negb] in H.
  - rewrite decide_True in H3 by done. destruct H3 as (_ & _ & H3).
    rewrite decide_True in H3 by (unfold term_of; lia). destruct H3 as [Ht _].
    run_keeps H hist_base as Hb'.
    apply hist_new_term; [by transitivity w3|].
    unfold hist_base, term_of in *. lia.
  - run_ret H. rewrite decide_False in H3 by done. by apply hist_of_hist.
Qed.
End HistoryOps.
#[export] Hint Resolve raft_set_current_term_hist raft_vote_for_nodeid_base
  raft_set_commit_idx_hist raft_become_candidate_hist : keeps.

(** ** Every operation respects the history *)
Section HistoryRuns.
Context {T : CTarget} {C : Contiki} {U : User}.

(** A vote is granted only by a server that has not voted in the term. *)
Lemma should_grant_vote_free vr w w' :
  should_grant_vote vr w = Ok true w' ->
  w' = w /\ vote_of w = -1 /\ term_of w <= rv_term vr.
Proof.
  intros H. pose proof (should_grant_vote_ro _ _ _ _ H) as <-. split; [done|].
  unfold should_grant_vote in H. run_bind H as my w1 H1. apply raft_get_my_node_ro in H1 as <-.
  run_bind H as b w1 H1. apply node_read_ro in H1 as <-.
  destruct b; cbn [negb] in H; [|done]. unfold raft_get_current_term in H. run_simp H.
  destruct (Z.ltb_spec (rv_term vr) (current_term (srv w))); [done|].
  unfold raft_already_voted in H. run_simp H.
  destruct (Z.eqb_spec (voted_for (srv w)) (-1)); [done|]. done.
Qed.

Lemma recv_requestvote_decide_hist p vr : keeps hist (recv_requestvote_decide p vr).
Proof.
  intros w r w' H. unfold recv_requestvote_decide in H. run_bind H as g w1 H1.
  destruct g.
  - apply should_grant_vote_free in H1 as (-> & Hv & _).
    run_keeps H hist_base as Hb. split; [done|]. by intros _ [].
  - apply should_grant_vote_ro in H1 as <-. run_keeps H hist as Hb. done.
Qed.
Hint Resolve recv_requestvote_decide_hist : keeps.

Lemma raft_recv_requestvote_hist p vr : keeps hist (raft_recv_requestvote p vr).
Proof. unfold raft_recv_requestvote. unfold_accessors. keeps_solve. Qed.

Lemma raft_recv_requestvote_response_hist p r :
  keeps hist (raft_recv_requestvote_response p r).
Proof.
  unfold raft_recv_requestvote_response, raft_node_vote_for_me. unfold_accessors.
  keeps_solve.
Qed.

Lemma update_commit_hist i : keeps hist (update_commit i).
Proof. unfold update_commit, replicates. unfold_accessors. keeps_solve. Qed.
Hint Resolve update_commit_hist : keeps.

Lemma raft_recv_appendentries_response_hist p r :
  keeps hist (raft_recv_appendentries_response p r).
Proof.
  unfold raft_recv_appendentries_response, recv_aer_success, recv_aer_failure,
    raft_node_set_next_idx, raft_node_set_match_idx. unfold_accessors. keeps_solve.
Qed.

Lemma recv_ae_entries_hist ae : keeps hist (recv_ae_entries ae).
Proof. unfold recv_ae_entries, recv_ae_commit. unfold_accessors. keeps_solve. Qed.
Hint Resolve recv_ae_entries_hist : keeps.
Lemma recv_ae_prev_hist p ae : keeps hist (recv_ae_prev p ae).
Proof. unfold recv_ae_prev. unfold_accessors. keeps_solve. Qed.
Hint Resolve recv_ae_prev_hist : keeps.
Lemma raft_recv_appendentries_hist p ae : keeps hist (raft_recv_appendentries p ae).
Proof. unfold raft_recv_appendentries. unfold_accessors. keeps_solve. Qed.

Lemma raft_recv_entry_hist e : keeps hist (raft_recv_entry e).
Proof. unfold raft_recv_entry. unfold_accessors. keeps_solve. Qed.

Lemma raft_apply_entry_hist : keeps hist raft_apply_entry.
Proof.
  intros w e w' H. unfold raft_apply_entry, raft_snapshot_is_in_progress in H. run_simp H.
  destruct (truth _); [run_ret H; reflexivity|]. run_simp H.
  destruct (Z.eqb_spec (last_applied_idx (srv w)) (commit_idx (srv w))) as [|Hne];
    [run_ret H; reflexivity|].
  run_simp H. destruct (int_ok _); [|done].
  run_bind H as q w1 H1. apply log_get_at_idx_ro in H1 as <-.
  destruct q as [a|]; [|run_ret H; reflexivity].
  run_bind H as ety w1 H1. apply entry_get_ro in H1 as <-.
  run_bind H as u w1 H1. run_keeps H1 (same hist_of) as Hw1. run_simp H.
  set (w2 := with_srv _ w1) in H.
  assert (hist w w2) as Hw2.
  { revert Hw1. unfold same, hist_of, hist, hist_base, w2, term_of, vote_of, commit_of,
      applied_of. cbn. intros [= ? ? ? ?]. split; [lia|congruence]. }
  transitivity w2; [done|]. run_keeps H hist as Hb. done.
Qed.
Hint Resolve raft_apply_entry_hist : keeps.

Lemma raft_apply_all_hist : keeps hist raft_apply_all.
Proof.
  unfold raft_apply_all. unfold_accessors. keeps_solve.
  match goal with |- keeps _ (apply_all_loop ?n) => generalize n; intros k end.
  induction k as [|k IH]; cbn; unfold_accessors; keeps_solve.
Qed.

Lemma raft_periodic_hist n : keeps hist (raft_periodic n).
Proof. unfold raft_periodic, raft_election_start. unfold_accessors. keeps_solve. Qed.
End HistoryRuns.
#[export] Hint Resolve recv_requestvote_decide_hist raft_recv_requestvote_hist
  raft_recv_requestvote_response_hist raft_recv_appendentries_response_hist
  raft_recv_appendentries_hist raft_recv_entry_hist raft_apply_all_hist raft_periodic_hist
  : keeps.

(** ** Runs *)
Section Runs.
Context {T : CTarget} {C : Contiki} {U : User}.

Lemma run_op_hist o : keeps hist (run_op o).
Proof. destruct o; cbn; keeps_solve. Qed.

Lemma run_ops_hist os : keeps hist (run_ops os).
Proof. apply keeps_foreach; [apply _|apply run_op_hist]. Qed.

(** C11: along any sequence of calls of the interface, whatever the messages,
    the callbacks and their errors, the term, the commit index and the applied
    index of a server never decrease, the applied index stays within the
    commit index, and a vote cast in a term is not changed during that term. *)
Theorem server_history os w u w' :
  run_ops os w = Ok u w' ->
  term_of w <= term_of w' /\ commit_of w <= commit_of w' /\ applied_of w <= applied_of w' /\
  (applied_of w <= commit_of w -> applied_of w' <= commit_of w') /\
  (term_of w = term_of w' -> vote_of w <> -1 -> vote_of w' = vote_of w).
Proof. intros H. apply run_ops_hist in H as [(? & ? & ? & ?) ?]. done. Qed.

Lemma recv_requestvote_done_spec p e v w e' r w' :
  recv_requestvote_done p e v w = Ok (e', r) w' ->
  e' = e /\ r = mk_requestvote_response (term_of w') v /\ hist_of w' = hist_of w.
Proof.
  intros H. run_keeps H (same hist_of) as Hx. unfold recv_requestvote_done in H.
  unfold raft_get_current_term in H. run_bind H as i w1 H1. run_bind H as u w2 H2.
  run_simp H. by run_ret H.
Qed.

Lemma recv_requestvote_decide_granted p vr w e r w' :
  recv_requestvote_decide p vr w = Ok (e, r) w' -> rvr_vote_granted r = 1 ->
  e = 0 /\ rvr_term r = term_of w' /\ term_of w' = term_of w /\ term_of w <= rv_term vr /\
  vote_of w' = rv_candidate_id vr /\ vote_of w = -1.
Proof.
  intros H Hr. unfold recv_requestvote_decide in H. run_bind H as g w1 Hg. destruct g.
  - apply should_grant_vote_free in Hg as (-> & Hv & Ht).
    run_bind H as l w1 Hl. apply raft_is_leader_ro in Hl as <-.
    run_bind H as c w1 Hc. assert (w1 = w) as ->.
    { destruct l; [by run_ret Hc|by apply raft_is_candidate_ro in Hc]. }
    run_simp H. destruct (negb c); [|done].
    run_bind H as v w1 H1. apply raft_vote_for_nodeid_spec in H1 as (H1 & _ & _ & H2).
    run_simp H. apply recv_requestvote_done_spec in H as (-> & -> & [= H5 H6 _ _]).
    unfold term_of, vote_of in *. cbn in *.
    destruct (Z.eqb_spec v 0) as [->|]; [|done]. rewrite decide_True in H2 by done.
    split_and!; congruence || lia.
  - apply should_grant_vote_ro in Hg as <-.
    destruct p; apply recv_requestvote_done_spec in H as (_ & -> & _); done.
Qed.

(** What a granted vote says of the run that granted it. *)
Lemma raft_recv_requestvote_granted p vr w e r w' :
  raft_recv_requestvote p vr w = Ok (e, r) w' -> rvr_vote_granted r = 1 ->
  e = 0 /\ rvr_term r = term_of w' /\ rv_term vr = term_of w' /\
  vote_of w' = rv_candidate_id vr /\ (term_of w = term_of w' -> vote_of w = -1).
Proof.
  intros H Hr. unfold raft_recv_requestvote in H. run_bind H as q w1 H1.
  assert (w1 = w) as ->. { destruct p; [by run_ret H1|by apply raft_get_node_ro in H1]. }
  unfold raft_get_current_term in H. run_simp H.
  destruct (Z.ltb_spec (current_term (srv w)) (rv_term vr)) as [Hlt|Hge].
  - run_bind H as e1 w1 Ht. apply raft_set_current_term_spec in Ht.
    unfold truth in H. destruct (Z.eqb_spec e1 0) as [->|]; cbn [negb] in H.
    + rewrite decide_True in Ht by done. destruct Ht as (_ & _ & Ht).
      rewrite decide_True in Ht by done. destruct Ht as [Ht _].
      run_bind H as u w2 Hf. run_keeps Hf (same hist_of) as Hf'. run_simp H.
      apply recv_requestvote_decide_granted in H as (-> & H2 & H3 & H4 & H5 & _); [|done].
      injection Hf' as Hf1 _ _ _. unfold term_of in *. cbn in H3, H4.
      split_and!; try done; lia.
    + by apply recv_requestvote_done_spec in H as (_ & -> & _).
  - apply recv_requestvote_decide_granted in H as (-> & H2 & H3 & H4 & H5 & H6); [|done].
    unfold term_of in *. split_and!; try done; lia.
Qed.

(** A server grants at most one vote per term: after it granted its vote
    to a candidate, it grants none in the same term, whatever happens in
    between (the candidate's id is not -1, the value that stands for none). *)
Theorem one_vote_per_term p1 vr1 os p2 vr2 w w1 w2 w3 e1 r1 u e2 r2 :
  raft_recv_requestvote p1 vr1 w = Ok (e1, r1) w1 ->
  run_ops os w1 = Ok u w2 ->
  raft_recv_requestvote p2 vr2 w2 = Ok (e2, r2) w3 ->
  rv_candidate_id vr1 <> -1 ->
  rvr_vote_granted r1 = 1 -> rvr_term r2 = rvr_term r1 ->
  rvr_vote_granted r2 <> 1.
Proof.
  intros H1 H2 H3 Hid Hg1 Ht Hg2.
  apply raft_recv_requestvote_granted in H1 as (_ & Ht1 & _ & Hv1 & _); [|done].
  pose proof (raft_recv_requestvote_hist _ _ _ _ _ H3) as [[Hle _] _].
  apply raft_recv_requestvote_granted in H3 as (_ & Ht2 & _ & Hv2 & Hfree); [|done].
  apply run_ops_hist in H2 as [[Hle' _] Hvs].
  rewrite Hvs in Hfree by (lia || congruence). apply Hid. rewrite <- Hv1. apply Hfree. lia.
Qed.
End Runs.

(** ** Witnesses *)

(** A candidate asks for a vote, the server times out, becomes the leader of the
    next term, takes an entry and commits it. *)
Definition history_ops : list raft_op := [
  OpRecvRequestvote (Some 2%positive) (mk_requestvote 1 2 0 0);
  OpPeriodic 3000;
  OpRecvRequestvoteResponse (Some 2%positive) (mk_requestvote_response 2 1);
  OpRecvEntry (sim_entry 0 7);
  OpRecvAppendentriesResponse (Some 2%positive) (mk_appendentries_response 2 1 1 1);
  OpApplyAll ].

Lemma server_history_witness :
  let w' := run_world (run_ops history_ops) sim3 in
  term_of w' = 2 /\ commit_of w' = 1 /\ applied_of w' = 1 /\
  term_of sim3 <= term_of w' /\ commit_of sim3 <= commit_of w' /\
  applied_of sim3 <= applied_of w' /\
  (applied_of sim3 <= commit_of sim3 -> applied_of w' <= commit_of w') /\
  (term_of sim3 = term_of w' -> vote_of sim3 <> -1 -> vote_of w' = vote_of sim3).
Proof.
  split; [vm_compute; reflexivity|]. split; [vm_compute; reflexivity|].
  split; [vm_compute; reflexivity|].
  apply (server_history history_ops sim3 tt). apply run_ok. vm_compute. reflexivity.
Defined.

Lemma one_vote_per_term_witness :
  let m1 := raft_recv_requestvote (Some 2%positive) (mk_requestvote 1 2 0 0) in
  let m2 := raft_recv_requestvote (Some 3%positive) (mk_requestvote 1 3 0 0) in
  let w1 := run_world m1 sim3 in
  run_value m1 sim3 = Some (0, mk_requestvote_response 1 1) /\
  run_value m2 w1 = Some (0, mk_requestvote_response 1 0) /\ 0 <> 1.
Proof.
  split; [vm_compute; reflexivity|]. split; [vm_compute; reflexivity|].
  eapply (one_vote_per_term (Some 2%positive) (mk_requestvote 1 2 0 0) []
            (Some 3%positive) (mk_requestvote 1 3 0 0) sim3
            _ _ _ 0 (mk_requestvote_response 1 1) tt 0 (mk_requestvote_response 1 0)).
  - apply run_ok. vm_compute. reflexivity.
  - reflexivity.
  - apply run_ok. vm_compute. reflexivity.
  - discriminate.
  - reflexivity.
  - reflexivity.
Defined.
