(* ===== verification/LogFacts.v ===== *)
(** * The log implements an abstract log

    [alog] is the specification of the log: the index of its last entry and the
    entries it still holds, the youngest last.  [log_repr w a] says the memory
    of the library represents [a]: the list and the pool agree, and the entries
    carry consecutive indices that end at the last index.  The operations of
    raft_log.c are shown to implement the operations of [alog]; what they do
    outside it (a failed [log_offer], a deletion in the middle) is stated too. *)
From S2P Require Import Prelude Contiki Types Node Membership Log Server Election Replication.
From S2P Require Import Sim Frames.

(** ** The abstract log *)

Record alog := mk_alog { al_last : Z; al_entries : list raft_entry_t }.

Definition al_first (a : alog) : Z := al_last a - Z.of_nat (length (al_entries a)) + 1.

Definition al_get (a : alog) (idx : Z) : option raft_entry_t :=
  if (al_first a <=? idx) && (idx <=? al_last a)
  then al_entries a !! Z.to_nat (idx - al_first a) else None.

(** The entries from an index on. *)
Definition al_from (a : alog) (idx : Z) : list raft_entry_t :=
  drop (Z.to_nat (idx - al_first a)) (al_entries a).

(** A full log forgets its oldest entry. *)
Definition al_make_room (a : alog) : alog :=
  if decide (length (al_entries a) = MAX_ENTRIES)
  then mk_alog (al_last a) (tail (al_entries a)) else a.

Definition al_append (e : raft_entry_t) (a : alog) : alog :=
  let a := al_make_room a in
  mk_alog (al_last a + 1) (al_entries a ++ [with_ety_idx (al_last a + 1) e]).

Definition al_drop_last (a : alog) : alog :=
  mk_alog (al_last a - 1) (removelast (al_entries a)).

(** ** Representation *)
Section Repr.
Context {T : CTarget} {C : Contiki} {U : User}.

(** The part of memory the log is made of. *)
Definition log_state (w : world) : log_private_t * gmap addr raft_entry_t * memb :=
  (lg w, entry_heap w, raft_entries_mem w).

Record log_repr (w : world) (a : alog) : Prop := {
  lr_last : al_last a = base (lg w) + count (lg w);
  lr_base : 0 <= base (lg w);
  lr_max : al_last a <= INT_MAX;
  lr_len : Z.of_nat (length (al_entries a)) <= count (lg w);
  lr_cap : (length (al_entries a) <= MAX_ENTRIES)%nat;
  lr_nodup : NoDup (entries_list (lg w));
  lr_heap : Forall2 (fun p e => entry_heap w !! p = Some e)
              (entries_list (lg w)) (al_entries a);
  lr_idx : forall i e, al_entries a !! i = Some e -> ety_idx e = al_first a + Z.of_nat i;
  lr_used : memb_used (raft_entries_mem w) = list_to_set (entries_list (lg w));
  lr_num : memb_num (raft_entries_mem w) = MAX_ENTRIES
}.

(** An entry that changes no configuration changes no voting configuration. *)
Lemma normal_not_voting ety : raft_entry_is_cfg_change ety = false ->
  raft_entry_is_voting_cfg_change ety = false.
Proof.
  unfold raft_entry_is_cfg_change, raft_entry_is_voting_cfg_change.
  rewrite !orb_false_iff. tauto.
Qed.

(** It depends on the log's memory only. *)
Lemma log_repr_same w w' a : log_state w' = log_state w -> log_repr w a -> log_repr w' a.
Proof.
  unfold log_state. intros [= H1 H2 H3] []. by constructor; rewrite ?H1, ?H2, ?H3.
Qed.

Lemma log_repr_length w a : log_repr w a ->
  length (entries_list (lg w)) = length (al_entries a).
Proof. intros H. by eapply Forall2_length, lr_heap. Qed.

Lemma log_repr_first w a : log_repr w a -> base (lg w) < al_first a.
Proof. intros []. unfold al_first. lia. Qed.

Lemma log_repr_bound w a : log_repr w a ->
  0 <= base (lg w) + count (lg w) <= INT_MAX /\ 0 <= count (lg w) <= INT_MAX.
Proof. intros []. lia. Qed.

(** An empty log, as [raft_new] makes it. *)
Lemma log_repr_empty w :
  entries_list (lg w) = [] -> count (lg w) = 0 -> base (lg w) = 0 ->
  memb_used (raft_entries_mem w) = ∅ -> memb_num (raft_entries_mem w) = MAX_ENTRIES ->
  log_repr w (mk_alog 0 []).
Proof.
  pose proof INT_MAX_ge. intros H1 H2 H3 H4 H5.
  constructor; rewrite ?H1, ?H2, ?H3; cbn; try done; try lia; try constructor.
Qed.

(** The representation can be checked by computation. *)
#[export] Instance raft_entry_data_eq_dec : EqDecision raft_entry_data_t.
Proof. solve_decision. Defined.
#[export] Instance raft_entry_eq_dec : EqDecision raft_entry_t.
Proof. solve_decision. Defined.

Definition log_reprb (w : world) (a : alog) : bool :=
  (al_last a =? base (lg w) + count (lg w)) && (0 <=? base (lg w)) && (al_last a <=? INT_MAX)
  && (Z.of_nat (length (al_entries a)) <=? count (lg w))
  && (length (al_entries a) <=? MAX_ENTRIES)%nat
  && bool_decide (NoDup (entries_list (lg w)))
  && bool_decide (Forall2 (fun p e => entry_heap w !! p = Some e)
                    (entries_list (lg w)) (al_entries a))
  && bool_decide (imap (fun i e => with_ety_idx (al_first a + Z.of_nat i) e) (al_entries a)
                  = al_entries a)
  && bool_decide (memb_used (raft_entries_mem w) = list_to_set (entries_list (lg w)))
  && (memb_num (raft_entries_mem w) =? MAX_ENTRIES)%nat.

Lemma log_reprb_sound w a : log_reprb w a = true -> log_repr w a.
Proof.
  unfold log_reprb. rewrite !andb_true_iff, !bool_decide_eq_true, !Nat.leb_le, !Nat.eqb_eq,
    !Z.eqb_eq, !Z.leb_le.
  intros (((((((((H1 & H2) & H3) & H4) & H5) & H6) & H7) & H8) & H9) & H10).
  constructor; try done. intros i e He.
  assert (Some (with_ety_idx (al_first a + Z.of_nat i) e) = Some e) as [= Hi].
  { rewrite <- He, <- H8 at 1. rewrite H8. rewrite <- H8. by rewrite list_lookup_imap, He. }
  by rewrite <- Hi.
Qed.
End Repr.

(** ** Searching *)
Section Search.
Context {T : CTarget} {C : Contiki} {U : User}.

(** The position of an index among consecutive indices. *)
Lemma find_consecutive (h : addr -> option raft_entry_t) ps es b idx :
  Forall2 (fun p e => h p = Some e) ps es ->
  (forall i e, es !! i = Some e -> ety_idx e = b + Z.of_nat i) ->
  List.find (fun p => match h p with Some e => ety_idx e =? idx | None => false end) ps
  = if (b <=? idx) && (idx <? b + Z.of_nat (length es)) then ps !! Z.to_nat (idx - b) else None.
Proof.
  intros HF. revert b. induction HF as [|p e ps es Hp HF IH]; intros b Hi; cbn.
  - by destruct (_ && _).
  - rewrite Hp. pose proof (Hi 0%nat e eq_refl) as H0. rewrite H0.
    destruct (Z.eqb_spec (b + Z.of_nat 0) idx) as [<-|Hne].
    + replace (b + Z.of_nat 0 - b) with 0 by lia. cbn.
      destruct (Z.leb_spec b (b + Z.of_nat 0)), (Z.ltb_spec (b + Z.of_nat 0) (b + Z.of_nat (S (length es))));
        cbn; lia || done.
    + rewrite (IH (b + 1)).
      2: { intros i e' He'. rewrite (Hi (S i) e' He'). lia. }
      destruct (Z.leb_spec (b + 1) idx), (Z.leb_spec b idx); cbn; try lia; try done.
      rewrite <- Z.add_assoc. replace (1 + Z.of_nat (length es)) with (Z.of_nat (S (length es))) by lia.
      destruct (idx <? _); [|done].
      by replace (Z.to_nat (idx - b)) with (S (Z.to_nat (idx - (b + 1)))) by lia.
Qed.

(** The pointer the code uses for an entry that may be absent. *)
Definition points_to (w : world) (p : ptr) (o : option raft_entry_t) : Prop :=
  match o with
  | Some e => exists x, p = Some x /\ entry_heap w !! x = Some e
  | None => p = None
  end.

(** [log_find] searches a list whose blocks hold entries. *)
Definition entry_at (w : world) (idx : Z) (p : addr) : bool :=
  match entry_heap w !! p with Some e => ety_idx e =? idx | None => false end.

Lemma log_find_heap w es idx : 0 <= idx <= INT_MAX ->
  Forall2 (fun p e => entry_heap w !! p = Some e) (entries_list (lg w)) es ->
  log_find idx w = Ok (List.find (entry_at w idx) (entries_list (lg w))) w.
Proof.
  intros Hidx HF. unfold log_find. rewrite bind_gets_l. apply find_first_pure.
  intros p Hp. apply list_elem_of_lookup in Hp as [i Hi].
  destruct (Forall2_lookup_l _ _ _ _ _ HF Hi) as (e & _ & He).
  unfold entry_at, bind, entry_get, gets. cbn. by rewrite He, to_uint_small.
Qed.

(** [log_find] returns the entry of that index. *)
Lemma log_find_repr w a idx : log_repr w a -> 0 <= idx <= INT_MAX ->
  exists p, log_find idx w = Ok p w /\ 
    p = (if (al_first a <=? idx) && (idx <=? al_last a)
         then entries_list (lg w) !! Z.to_nat (idx - al_first a) else None) /\
    points_to w p (al_get a idx).
Proof.
  intros R Hidx. eexists. split; [|split; [reflexivity|]].
  - rewrite (log_find_heap _ _ _ Hidx (lr_heap _ _ R)).
    unfold entry_at. rewrite (find_consecutive _ _ _ _ _ (lr_heap _ _ R) (lr_idx _ _ R)).
    do 2 f_equal. unfold al_first at 2. destruct (Z.leb_spec idx (al_last a)),
      (Z.ltb_spec idx (al_last a - Z.of_nat (length (al_entries a)) + 1 + Z.of_nat (length (al_entries a))));
      done || lia.
  - unfold al_get. destruct (_ && _) eqn:Hr; [|done].
    apply andb_true_iff in Hr as [H1%Z.leb_le H2%Z.leb_le].
    destruct (lookup_lt_is_Some_2 (al_entries a) (Z.to_nat (idx - al_first a))) as [e He].
    { unfold al_first in *. lia. }
    destruct (Forall2_lookup_r _ _ _ _ _ (lr_heap _ _ R) He) as (p & Hp & Hh).
    rewrite Hp, He. by exists p.
Qed.
End Search.

(** ** Reading operations *)
Section Reading.
Context {T : CTarget} {C : Contiki} {L : ContikiLaws C} {U : User}.

Lemma log_get_current_idx_repr w a : log_repr w a ->
  log_get_current_idx w = Ok (al_last a) w.
Proof.
  intros R. pose proof (log_repr_bound _ _ R). unfold log_get_current_idx, log_count.
  rewrite !bind_gets_l. unfold int_chk. rewrite int_ok_nonneg by lia.
  unfold ret. f_equal. rewrite (lr_last _ _ R). lia.
Qed.

Lemma log_get_at_idx_ok w a idx :
  log_repr w a -> INT_MIN <= idx <= INT_MAX ->
  exists p, log_get_at_idx idx w = Ok p w /\ points_to w p (al_get a idx).
Proof.
  intros R Hidx. pose proof (log_repr_bound _ _ R). pose proof (log_repr_first _ _ R).
  pose proof (lr_base _ _ R). pose proof (lr_last _ _ R).
  assert (forall P : Prop, idx <= base (lg w) \/ al_last a < idx ->
    points_to w None (al_get a idx)) as Hout.
  { intros _ [Hi|Hi]; unfold al_get.
    - destruct (Z.leb_spec (al_first a) idx); [lia|done].
    - destruct (Z.leb_spec idx (al_last a)); [lia|]. by rewrite andb_false_r. }
  unfold log_get_at_idx. rewrite bind_gets_l.
  destruct (Z.eqb_spec idx 0); [exists None; split; [done|apply (Hout True); lia]|].
  destruct (Z.leb_spec idx (base (lg w))); [exists None; split; [done|apply (Hout True); lia]|].
  rewrite bind_int_chk_l, int_ok_nonneg by lia.
  destruct (Z.ltb_spec (base (lg w) + count (lg w)) idx);
    [exists None; split; [done|apply (Hout True); lia]|].
  destruct (log_find_repr w a idx R ltac:(lia)) as (p & Hf & _ & Hg). by exists p.
Qed.

Lemma entry_get_ok w p e : entry_heap w !! p = Some e -> entry_get (Some p) w = Ok e w.
Proof. intros H. unfold entry_get. rewrite bind_gets_l. by rewrite H. Qed.

Lemma suffix_from_lookup (ps : list addr) k p :
  NoDup ps -> ps !! k = Some p -> suffix_from p ps = drop k ps.
Proof.
  revert k. induction ps as [|q ps IH]; intros k Hnd Hk; [done|].
  apply NoDup_cons in Hnd as [Hq Hnd]. cbn. case_decide as Hqp.
  - subst. destruct k as [|k]; [done|]. cbn in Hk. exfalso. apply Hq.
    apply list_elem_of_lookup. eauto.
  - destruct k as [|k]; [cbn in Hk; congruence|]. by apply IH.
Qed.

Lemma log_chain_repr w a k p : log_repr w a -> entries_list (lg w) !! k = Some p ->
  log_chain (Some p) w = Ok (drop k (al_entries a)) w.
Proof.
  intros R Hk. unfold log_chain. rewrite bind_gets_l.
  rewrite (suffix_from_lookup _ _ _ (lr_nodup _ _ R) Hk).
  assert (Forall2 (fun p e => entry_heap w !! p = Some e)
    (drop k (entries_list (lg w))) (drop k (al_entries a))) as HF.
  { apply Forall2_drop, lr_heap, R. }
  induction HF as [|q e qs es Hq HF IH]; [done|].
  cbn [read_entries]. rewrite (bind_ok_l _ _ _ _ _ (entry_get_ok _ _ _ Hq)).
  by rewrite (bind_ok_l _ _ _ _ _ IH).
Qed.

(** C31: the readers of the log implement the abstract log, without changing
    it: the current index is the last one; [log_get_at_idx] returns the entry
    held at an index, and NULL exactly when there is none, for every [int];
    [log_peektail] returns the youngest entry held, NULL when there is none. *)
Theorem log_read_refines w a :
  log_repr w a ->
  log_get_current_idx w = Ok (al_last a) w /\
  (forall idx, INT_MIN <= idx <= INT_MAX ->
    exists p, log_get_at_idx idx w = Ok p w /\ points_to w p (al_get a idx)) /\
  exists p, log_peektail w = Ok p w /\ points_to w p (last (al_entries a)).
Proof.
  intros R. split; [by apply log_get_current_idx_repr|].
  split; [intros idx; by apply log_get_at_idx_ok|].
  pose proof (lr_len _ _ R) as Hlen. pose proof (log_repr_length _ _ R) as Hl.
  unfold log_peektail. rewrite bind_gets_l, list_tail_spec.
  destruct (Z.eqb_spec 0 (count (lg w))) as [H0|H0].
  { exists None. split; [done|]. destruct (al_entries a); [done|]. cbn in Hlen. lia. }
  eexists. split; [reflexivity|]. rewrite !last_lookup, Hl.
  destruct (al_entries a !! pred _) as [e|] eqn:He.
  - destruct (Forall2_lookup_r _ _ _ _ _ (lr_heap _ _ R) He) as (p & -> & Hp). by exists p.
  - apply lookup_ge_None in He. by rewrite (lookup_ge_None_2 (entries_list (lg w))) by lia.
Qed.

(** [log_get_from_idx] returns the entry at an index the log holds
    together with the number of entries from there to the end, which is the
    length of the chain of [next] links that starts at it; past the end it
    returns NULL and 0; for an index whose entry was evicted it reads through a
    null pointer. *)
Lemma log_get_from_idx_ok w a idx :
  log_repr w a -> base (lg w) < idx <= INT_MAX ->
  if al_last a <? idx then log_get_from_idx idx w = Ok (None, 0) w
  else if idx <? al_first a then log_get_from_idx idx w = Fault NullDeref
  else exists p,
    log_get_from_idx idx w = Ok (Some p, Z.of_nat (length (al_from a idx))) w /\
    points_to w (Some p) (al_get a idx) /\
    forall w1, log_state w1 = log_state w -> log_chain (Some p) w1 = Ok (al_from a idx) w1.
Proof.
  intros R Hidx. pose proof (log_repr_bound _ _ R). pose proof (log_repr_first _ _ R).
  pose proof (lr_base _ _ R). pose proof (lr_last _ _ R). pose proof (lr_max _ _ R).
  unfold log_get_from_idx. rewrite bind_gets_l, bind_int_chk_l, int_ok_nonneg by lia.
  rewrite bind_assert_l. destruct (Z.leb_spec 0 (idx - 1)); [|lia].
  rewrite bind_int_chk_l, int_ok_nonneg by lia.
  destruct (Z.ltb_spec (base (lg w) + count (lg w)) idx), (Z.ltb_spec (al_last a) idx);
    try lia; [done|]. destruct (Z.ltb_spec idx (base (lg w))); [lia|]. cbn [orb].
  destruct (log_find_repr w a idx R ltac:(lia)) as (p & Hf & Hp & Hg).
  rewrite (bind_ok_l _ _ _ _ _ Hf), list_tail_spec.
  destruct (Z.ltb_spec idx (al_first a)) as [Hev|Hin].
  - rewrite Hp. destruct (Z.leb_spec (al_first a) idx); [lia|]. cbn [andb].
    destruct (last (entries_list (lg w))) as [pl|] eqn:Hl; [|done].
    apply last_Some_elem_of in Hl. apply list_elem_of_lookup in Hl as [i Hi].
    destruct (Forall2_lookup_l _ _ _ _ _ (lr_heap _ _ R) Hi) as (e & _ & Hh).
    by rewrite (bind_ok_l _ _ _ _ _ (entry_get_ok _ _ _ Hh)).
  - destruct (Z.leb_spec (al_first a) idx), (Z.leb_spec idx (al_last a)); try lia.
    cbn [andb] in Hp. set (k := Z.to_nat (idx - al_first a)) in *.
    assert (k < length (al_entries a))%nat as Hk by (unfold al_first in *; lia).
    pose proof (log_repr_length _ _ R) as Hlen.
    destruct (lookup_lt_is_Some_2 (entries_list (lg w)) k) as [q Hq]; [lia|].
    rewrite Hq in Hp. subst p. exists q. split; [|split; [done|]].
    2: { intros w1 Hs. apply log_chain_repr; [by eapply log_repr_same|].
         by injection Hs as -> _ _. }
    destruct (lookup_lt_is_Some_2 (al_entries a) (length (al_entries a) - 1)) as [el Hel]; [lia|].
    destruct (Forall2_lookup_r _ _ _ _ _ (lr_heap _ _ R) Hel) as (pl & Hpl & Hhl).
    rewrite last_lookup, Hlen. replace (pred _) with (length (al_entries a) - 1)%nat by lia.
    rewrite Hpl, (bind_ok_l _ _ _ _ _ (entry_get_ok _ _ _ Hhl)).
    destruct (lookup_lt_is_Some_2 (al_entries a) k Hk) as [e He].
    destruct (Forall2_lookup_r _ _ _ _ _ (lr_heap _ _ R) He) as (q' & Hq' & Hhq).
    assert (q' = q) as -> by congruence.
    rewrite (bind_ok_l _ _ _ _ _ (entry_get_ok _ _ _ Hhq)). unfold ret. do 2 f_equal.
    rewrite (lr_idx _ _ R _ _ Hel), (lr_idx _ _ R _ _ He).
    unfold al_from. fold k. rewrite length_drop. pose proof (lr_len _ _ R).
    set (n := length (al_entries a)) in *.
    replace (_ - _) with (Z.of_nat (n - 1 - k)) by lia.
    rewrite (to_uint_small (Z.of_nat (n - 1 - k))) by lia.
    rewrite (to_uint_small (_ + 1)) by lia. rewrite to_int_small; lia.
Qed.
End Reading.

(** ** Appending *)
Section Appending.
Context {T : CTarget} {C : Contiki} {L : ContikiLaws C} {U : User}.

(** Everything outside the log. *)
Definition rest_of (w : world) :=
  (srv w, node_heap w, raft_nodes_mem w, rand_state w, user_data w).

Lemma log_make_room_repr w a : log_repr w a ->
  exists w1, log_make_room w = Ok tt w1 /\ log_repr w1 (al_make_room a) /\
    (length (al_entries (al_make_room a)) < MAX_ENTRIES)%nat /\
    rest_of w1 = rest_of w /\ entry_heap w1 = entry_heap w /\
    exists l, lg w1 = with_entries_list l (lg w).
Proof.
  intros R. pose proof (log_repr_length _ _ R) as Hlen. unfold log_make_room, al_make_room.
  rewrite bind_gets_l, list_length_spec, Hlen. pose proof (lr_cap _ _ R).
  case_decide as Hfull.
  2: { unfold when. destruct (Z.eqb_spec (Z.of_nat (length (al_entries a))) (Z.of_nat MAX_ENTRIES)); [lia|].
       exists w. split_and!; try done; [lia|]. by exists (entries_list (lg w)); destruct (lg w). }
  rewrite Hfull, Z.eqb_refl. cbn [when].
  pose proof (lr_heap _ _ R) as HF. pose proof (lr_nodup _ _ R) as Hnd.
  pose proof (lr_used _ _ R) as Hu. pose proof (lr_idx _ _ R) as Hi.
  destruct (entries_list (lg w)) as [|p ps] eqn:Hps; [by rewrite <- Hlen in Hfull|].
  rewrite list_pop_cons. cbn zeta iota.
  apply Forall2_cons_inv_l in HF as (e & es & He & HF & Hes). rewrite Hes in *.
  eexists. split; [reflexivity|]. cbn in Hfull.
  apply NoDup_cons in Hnd as [Hp Hnd].
  destruct (memb_free_spec (raft_entries_mem w) p) as [Hu' Hn']; [rewrite Hu; set_solver +|].
  split; [|split; [cbn; lia|split_and!; try done; by eexists]].
  destruct R. constructor; cbn in *; rewrite ?Hes in *; cbn in *; try done; try lia.
  - intros i e' He'. rewrite (Hi (S i) e' He'). unfold al_first. rewrite Hes. cbn. lia.
  - rewrite Hu', Hu. apply leibniz_equiv. set_solver +Hp.
Qed.

Lemma al_make_room_last a : al_last (al_make_room a) = al_last a.
Proof. unfold al_make_room. by case_decide. Qed.

Lemma heap_insert_fresh (h : gmap addr raft_entry_t) ps es p e :
  p ∉ ps -> Forall2 (fun q e => h !! q = Some e) ps es ->
  Forall2 (fun q e' => <[p := e]> h !! q = Some e') ps es.
Proof.
  intros Hp HF. induction HF as [|q e' ps es Hq HF IH]; constructor.
  - rewrite lookup_insert_ne; [done|]. intros ->. apply Hp. left.
  - apply IH. intros ?. apply Hp. by right.
Qed.

Lemma al_append_idx e a : (forall i e', al_entries (al_make_room a) !! i = Some e' ->
    ety_idx e' = al_first (al_make_room a) + Z.of_nat i) ->
  forall i e', al_entries (al_append e a) !! i = Some e' ->
    ety_idx e' = al_first (al_append e a) + Z.of_nat i.
Proof.
  intros H i e' Hi. unfold al_append, al_first in *. rewrite al_make_room_last in *.
  cbn in *. rewrite length_app. cbn. apply lookup_app_Some in Hi as [Hi|[Hlen Hi]].
  - rewrite (H _ _ Hi). lia.
  - apply list_lookup_singleton_Some in Hi as [Hi <-]. cbn. lia.
Qed.

(** Up to the notifications, an append stores the entry and links it; the
    count is increased after them, and then the log represents the result. *)
Lemma log_append_entry_store ety w a : log_repr w a -> al_last a < INT_MAX ->
  exists p w1,
    let ety' := with_ety_idx (al_last a + 1) ety in
    log_append_entry ety w =
      (let! e := log_notify_offer p ety' (al_last a + 1) in
       if truth e then ret (e, ety')
       else
         let! c := gets (fun w => count (lg w)) in
         let! c' := int_chk (c + 1) in
         exec! upd_lg (with_count c') in ret (0, ety')) w1 /\
    rest_of w1 = rest_of w /\ entry_heap w1 !! p = Some ety' /\
    count (lg w1) = count (lg w) /\ base (lg w1) = base (lg w) /\
    log_cb (lg w1) = log_cb (lg w) /\ log_raft (lg w1) = log_raft (lg w) /\
    (exists ps, entries_list (lg w1) = ps ++ [p]) /\
    forall w2, log_state w2 = log_state w1 ->
      log_repr (with_lg (with_count (count (lg w) + 1) (lg w2)) w2) (al_append ety a).
Proof.
  intros R Hmax. pose proof (log_repr_bound _ _ R) as [Hb1 Hb2].
  pose proof (lr_last _ _ R) as Hlast.
  destruct (log_make_room_repr w a R) as (w0 & Hroom & R0 & Hlen & Hrest & Hheap & l & Hl).
  pose proof (log_repr_length _ _ R0) as Hlen0.
  destruct (memb_alloc_room (raft_entries_mem w0)) as (p & pool & Ha & Hp & Hu & Hn).
  { rewrite (lr_used _ _ R0), size_list_to_set, (lr_num _ _ R0) by apply (lr_nodup _ _ R0). lia. }
  exists p. eexists. cbn zeta. split.
  { unfold log_append_entry. rewrite bind_gets_l, !bind_int_chk_l.
    rewrite !int_ok_nonneg by lia. rewrite to_uint_small by lia.
    rewrite (bind_ok_l _ _ _ _ _ Hroom), bind_gets_l, Ha. cbn zeta iota.
    rewrite bind_modify_l, bind_modify_l, bind_upd_lg_l. rewrite <- Hlast. reflexivity. }
  assert (p ∉ entries_list (lg w0)) as Hfresh.
  { rewrite (lr_used _ _ R0) in Hp. set_solver +Hp. }
  rewrite (lr_used _ _ R0) in Hu.
  assert (al_last (al_make_room a) = base (lg w0) + count (lg w0)) as Hlast0 by apply R0.
  rewrite al_make_room_last in Hlast0.
  split_and!; cbn; rewrite ?Hl; try done.
  - by apply lookup_insert_eq.
  - rewrite list_add_fresh; [by eexists|]. by rewrite Hl in Hfresh.
  - intros w2 [= H1 H2 H3]. rewrite H1. cbn in *. destruct R0.
    constructor; cbn; rewrite ?H1, ?H2, ?H3; cbn; rewrite ?Hl in *; cbn in *;
      rewrite ?list_add_fresh, ?length_app by done; cbn; try lia.
    + apply NoDup_app. split_and!; [done| |apply NoDup_singleton].
      intros x Hx ->%list_elem_of_singleton. done.
    + apply Forall2_app; [by apply heap_insert_fresh|]. rewrite al_make_room_last.
      constructor; [apply lookup_insert_eq|constructor].
    + by apply al_append_idx.
    + rewrite Hu, list_to_set_app_L. apply leibniz_equiv. cbn. set_solver +.
Qed.

(** Whatever the entry and the callbacks, an append that returns 0 appended. *)
Lemma log_append_entry_ok ety w a e ety' w' :
  log_repr w a -> al_last a < INT_MAX -> log_append_entry ety w = Ok (e, ety') w' ->
  ety' = with_ety_idx (al_last a + 1) ety /\ (e = 0 -> log_repr w' (al_append ety a)).
Proof.
  intros R Hmax H. pose proof (log_repr_bound _ _ R).
  destruct (log_append_entry_store ety w a R Hmax)
    as (p & w1 & Heq & _ & _ & Hc & _ & _ & _ & _ & Hw2).
  rewrite Heq in H. clear Heq. run_bind H as r w2 Hn. run_keeps Hn (same log_state) as Hs.
  assert (count (lg w2) = count (lg w)) as Hc2 by (injection Hs as ->; done).
  unfold truth in H. destruct (Z.eqb_spec r 0); cbn [negb] in H.
  - run_simp H. rewrite Hc2 in H. destruct (int_ok _); [|done]. run_simp H. run_ret H.
    split; [done|]. intros _. by apply Hw2.
  - run_ret H. by split.
Qed.

(** What the [log_offer] callback answers, 0 when it is not set. *)
Definition offer_answer (w : world) (ety : raft_entry_t) (idx : Z) : Z :=
  match log_cb (lg w), log_offer (cb (srv w)) with
  | SServer, Some f => fst (f (user_data w) ety idx)
  | _, _ => 0
  end.

(** What offering an entry does to the user's data. *)
Definition offered (w : world) (ety : raft_entry_t) (idx : Z) (u : udata) : udata :=
  match log_cb (lg w), log_offer (cb (srv w)) with
  | SServer, Some f => snd (f u ety idx)
  | _, _ => u
  end.

Lemma log_notify_offer_normal p ety idx w :
  raft_entry_is_cfg_change ety = false -> entry_heap w !! p = Some ety ->
  (log_cb (lg w) = SServer -> log_raft (lg w) = SServer) ->
  log_notify_offer p ety idx w
  = Ok (offer_answer w ety idx) (with_user_data (offered w ety idx (user_data w)) w).
Proof.
  intros Hcfg Hp Hraft. unfold log_notify_offer, offer_answer, offered. rewrite !bind_gets_l.
  assert (w = with_user_data (user_data w) w) as Hw by by destruct w.
  destruct (log_cb (lg w)) eqn:Hcb; [by rewrite <- Hw|].
  destruct (log_offer (cb (srv w))) as [f|]; [|by rewrite <- Hw].
  rewrite Hraft by done. unfold raft_get_udata, deref_static. rewrite bind_ret_l. unfold call. rewrite bind_assoc, bind_gets_l.
  cbv zeta. rewrite bind_assoc, bind_modify_l, bind_ret_l.
  unfold truth. destruct (Z.eqb_spec (fst (f (user_data w) ety idx)) 0) as [->|Hne]; cbn [negb]; [|done].
  unfold raft_offer_log. rewrite bind_assoc.
  erewrite bind_ok_l; [|apply entry_get_ok, Hp]. rewrite Hcfg. reflexivity.
Qed.

(** What is needed to append an application entry. *)
Definition offers_accept (w : world) : Prop :=
  (log_cb (lg w) = SServer -> log_raft (lg w) = SServer) /\
  forall f, log_offer (cb (srv w)) = Some f -> forall u e i, fst (f u e i) = 0.

(** Everything outside the log and the user's data, and the log's settings. *)
Definition outside_log (w : world) :=
  (srv w, node_heap w, raft_nodes_mem w, rand_state w, base (lg w), log_cb (lg w), log_raft (lg w)).

Lemma offers_accept_same w w' : outside_log w' = outside_log w -> offers_accept w -> offers_accept w'.
Proof. unfold outside_log, offers_accept. intros [= -> _ _ _ _ -> ->]. done. Qed.

(** Appending an application entry implements the append of the abstract log:
    no memory is exhausted (a full log forgets its oldest entry), the entry
    gets the next index, and 0 is returned. *)
Lemma log_append_entry_run ety w a :
  log_repr w a -> al_last a < INT_MAX -> raft_entry_is_cfg_change ety = false ->
  offers_accept w ->
  exists w', log_append_entry ety w = Ok (0, with_ety_idx (al_last a + 1) ety) w' /\
    log_repr w' (al_append ety a) /\ outside_log w' = outside_log w /\
    user_data w' = offered w (with_ety_idx (al_last a + 1) ety) (al_last a + 1) (user_data w).
Proof.
  intros R Hmax Hcfg [Hraft Hok]. pose proof (log_repr_bound _ _ R). pose proof (lr_last _ _ R).
  pose proof (lr_base _ _ R).
  destruct (log_append_entry_store ety w a R Hmax)
    as (p & w1 & Heq & Hrest & Hp & Hc & Hb & Hcb & Hr & _ & Hw2).
  pose proof (log_notify_offer_normal p (with_ety_idx (al_last a + 1) ety) (al_last a + 1) w1
    Hcfg Hp ltac:(by rewrite Hcb, Hr)) as Hn. set (u := offered w1 _ _ _) in Hn.
  unfold rest_of in Hrest. injection Hrest as Hsrv Hnh Hnm Hrand Hud.
  replace (offer_answer w1 _ _) with 0 in Hn.
  2: { unfold offer_answer. rewrite Hcb, Hsrv. destruct (log_cb (lg w)); [done|].
       destruct (log_offer (cb (srv w))) as [f|] eqn:Hf; [|done]. by rewrite (Hok f eq_refl). }
  eexists. split; [|split; [|split]].
  - rewrite Heq, (bind_ok_l _ _ _ _ _ Hn). cbn [truth Z.eqb negb].
    rewrite bind_gets_l, bind_int_chk_l. cbn [lg with_user_data].
    rewrite Hc, int_ok_nonneg by lia. by rewrite bind_upd_lg_l.
  - by apply (Hw2 (with_user_data u w1)).
  - unfold outside_log. cbn. by rewrite Hsrv, Hnh, Hnm, Hrand, Hb, Hcb, Hr.
  - cbn. unfold u, offered. by rewrite Hcb, Hsrv, Hud.
Qed.

(** The entries [es] are offered in turn, from the index after [last] on. *)
Fixpoint offers (w : world) (last : Z) (es : list raft_entry_t) (u : udata) : udata :=
  match es with
  | [] => u
  | e :: es' => offers w (last + 1) es' (offered w (with_ety_idx (last + 1) e) (last + 1) u)
  end.

Lemma offers_same_cb w w' last es u : log_cb (lg w') = log_cb (lg w) -> cb (srv w') = cb (srv w) ->
  offers w' last es u = offers w last es u.
Proof.
  intros H1 H2. revert last u. induction es as [|e es IH]; intros last u; [done|]. cbn [offers]. rewrite IH.
  f_equal. unfold offered. by rewrite H1, H2.
Qed.

Lemma offers_same w w' last es u : outside_log w' = outside_log w ->
  offers w' last es u = offers w last es u.
Proof. unfold outside_log. intros H. apply offers_same_cb; congruence. Qed.

Lemma al_append_last e a : al_last (al_append e a) = al_last a + 1.
Proof. unfold al_append. cbn. by rewrite al_make_room_last. Qed.

Lemma al_append_length e a : (length (al_entries a) <= MAX_ENTRIES)%nat ->
  length (al_entries (al_append e a)) = Nat.min MAX_ENTRIES (S (length (al_entries a))).
Proof.
  intros H. unfold al_append, al_make_room. cbn [al_entries]. rewrite length_app. cbn [length].
  case_decide as Hd; [|lia]. cbn [al_entries].
  destruct (al_entries a) as [|x l]; [by rewrite <- Hd in *|]. cbn [tail length] in *. lia.
Qed.

(** The new entry is the last one. *)
Lemma al_append_get e a : al_get (al_append e a) (al_last a + 1) = Some (with_ety_idx (al_last a + 1) e).
Proof.
  unfold al_get, al_append, al_first. rewrite al_make_room_last. cbn.
  rewrite length_app. cbn. destruct (Z.leb_spec (al_last a + 1) (al_last a + 1)); [|lia].
  destruct (Z.leb_spec (al_last a + 1 - Z.of_nat (length (al_entries (al_make_room a)) + 1) + 1)
    (al_last a + 1)); [|lia]. cbn [andb].
  rewrite lookup_app_r by lia. by replace (_ - _)%nat with 0%nat by lia.
Qed.

(** Appending a sequence of entries. *)
Definition al_appends (es : list raft_entry_t) (a : alog) : alog :=
  foldl (fun a e => al_append e a) a es.

Lemma al_appends_last es a : al_last (al_appends es a) = al_last a + Z.of_nat (length es).
Proof.
  unfold al_appends. revert a. induction es as [|e es IH]; intros a; cbn; [lia|].
  rewrite IH, al_append_last. lia.
Qed.

Lemma al_appends_length es a : (length (al_entries a) <= MAX_ENTRIES)%nat ->
  length (al_entries (al_appends es a)) = Nat.min MAX_ENTRIES (length (al_entries a) + length es).
Proof.
  unfold al_appends. revert a. induction es as [|e es IH]; intros a Ha; cbn [foldl length]; [lia|].
  rewrite IH; rewrite al_append_length by done; lia.
Qed.

(** Appending keeps the other entries, except the oldest of a full log. *)
Lemma al_append_get_old e a idx : (length (al_entries a) <= MAX_ENTRIES)%nat ->
  al_first (al_append e a) <= idx <= al_last a -> al_get (al_append e a) idx = al_get a idx.
Proof.
  intros Ha [H1 H2].
  assert (al_first a <= al_first (al_append e a)) as Hf.
  { unfold al_first. rewrite al_append_length, al_append_last by done. lia. }
  unfold al_get. rewrite al_append_last.
  destruct (Z.leb_spec (al_first (al_append e a)) idx); [|lia].
  destruct (Z.leb_spec idx (al_last a + 1)); [|lia].
  destruct (Z.leb_spec (al_first a) idx); [|lia]. destruct (Z.leb_spec idx (al_last a)); [|lia].
  cbn [andb]. revert H1. unfold al_first. rewrite al_append_length, al_append_last by done.
  unfold al_append, al_make_room. intros H1. case_decide as Hfull; cbn [al_entries].
  - destruct (al_entries a) as [|x l] eqn:Hl; [by rewrite <- Hfull in *|].
    cbn [tail length] in *. rewrite lookup_app_l by lia.
    by replace (Z.to_nat (idx - (al_last a - Z.of_nat (S (length l)) + 1)))
      with (S (Z.to_nat (idx - (al_last a + 1 - Z.of_nat (MAX_ENTRIES `min` S (S (length l))) + 1)))) by lia.
  - rewrite lookup_app_l by lia. f_equal. lia.
Qed.

Lemma al_appends_get es a idx : (length (al_entries a) <= MAX_ENTRIES)%nat ->
  al_first (al_appends es a) <= idx <= al_last (al_appends es a) ->
  al_get (al_appends es a) idx
  = if idx <=? al_last a then al_get a idx
    else with_ety_idx idx <$> es !! Z.to_nat (idx - al_last a - 1).
Proof.
  revert a. induction es as [|e es IH]; intros a Ha Hi.
  - cbn in *. destruct (Z.leb_spec idx (al_last a)); [done|lia].
  - change (al_appends (e :: es) a) with (al_appends es (al_append e a)) in *.
    assert (length (al_entries (al_append e a)) <= MAX_ENTRIES)%nat as Ha'.
    { rewrite al_append_length by done. lia. }
    assert (al_first (al_append e a) <= al_first (al_appends es (al_append e a))) as Hf.
    { unfold al_first. rewrite al_appends_length, al_appends_last by done. lia. }
    rewrite IH by done. rewrite al_append_last.
    destruct (Z.leb_spec idx (al_last a + 1)), (Z.leb_spec idx (al_last a)); try lia.
    + apply al_append_get_old; [done|lia].
    + assert (idx = al_last a + 1) as -> by lia. rewrite al_append_get.
      by replace (al_last a + 1 - al_last a - 1) with 0 by lia.
    + by replace (Z.to_nat (idx - al_last a - 1)) with (S (Z.to_nat (idx - (al_last a + 1) - 1))) by lia.
Qed.

(** C32: appending application entries one after the other, with a [log_offer] that
    answers 0, implements the appends of the abstract log, for any number of
    entries and whatever their ids (an id 0 or one the log already has included):
    each gets the next index and is given to [log_offer] with it, in order, memory is
    never exhausted, and of all entries the log still holds the last fifty. *)
Theorem log_append_entries_refines es w a :
  log_repr w a -> al_last a + Z.of_nat (length es) <= INT_MAX ->
  Forall (fun e => raft_entry_is_cfg_change e = false) es -> offers_accept w ->
  exists w', foreach es (fun e => let! r := log_append_entry e in assert_ (fst r =? 0)) w = Ok tt w' /\
    log_repr w' (al_appends es a) /\
    al_last (al_appends es a) = al_last a + Z.of_nat (length es) /\
    length (al_entries (al_appends es a))
      = Nat.min MAX_ENTRIES (length (al_entries a) + length es) /\
    user_data w' = offers w (al_last a) es (user_data w) /\
    outside_log w' = outside_log w.
Proof.
  intros R Hmax Hcfg Hacc.
  cut (exists w', foreach es (fun e => let! r := log_append_entry e in assert_ (fst r =? 0)) w
    = Ok tt w' /\ log_repr w' (al_appends es a) /\
    user_data w' = offers w (al_last a) es (user_data w) /\ outside_log w' = outside_log w).
  { intros (w' & ? & ? & ? & ?). exists w'.
    split_and!; try done; [apply al_appends_last|apply al_appends_length, (lr_cap _ _ R)]. }
  revert w a R Hmax Hacc. induction Hcfg as [|e es Hcfg _ IH]; intros w a R Hmax Hacc.
  - by exists w.
  - cbn [length] in Hmax. destruct (log_append_entry_run e w a R ltac:(lia) Hcfg Hacc)
      as (w1 & H1 & R1 & O1 & U1).
    cbn [foreach]. rewrite bind_assoc, (bind_ok_l _ _ _ _ _ H1). cbn [fst]. rewrite bind_assert_l.
    cbn [Z.eqb]. destruct (IH w1 (al_append e a) R1) as (w2 & H2 & R2 & U2 & O2).
    { rewrite al_append_last. lia. }
    { by eapply offers_accept_same. }
    exists w2. split; [exact H2|]. split; [done|]. split; [|congruence].
    by rewrite U2, U1, al_append_last, (offers_same w w1).
Qed.

(** When [log_offer] refuses an entry, [log_append_entry] returns its error
    but leaves the entry linked at the end of the list, with its block in use
    and an index past the last one: the count and the list disagree. *)
Theorem log_append_entry_refused ety w a :
  log_repr w a -> al_last a < INT_MAX -> raft_entry_is_cfg_change ety = false ->
  (log_cb (lg w) = SServer -> log_raft (lg w) = SServer) ->
  let ety' := with_ety_idx (al_last a + 1) ety in
  offer_answer w ety' (al_last a + 1) <> 0 ->
  exists w' ps p,
    log_append_entry ety w = Ok (offer_answer w ety' (al_last a + 1), ety') w' /\
    base (lg w') + count (lg w') = al_last a /\
    entries_list (lg w') = ps ++ [p] /\ entry_heap w' !! p = Some ety' /\
    log_get_at_idx (al_last a + 1) w' = Ok None w'.
Proof.
  intros R Hmax Hcfg Hraft ety' Hbad. pose proof (log_repr_bound _ _ R).
  pose proof (lr_last _ _ R) as Hlast. pose proof (lr_base _ _ R).
  destruct (log_append_entry_store ety w a R Hmax)
    as (p & w1 & Heq & Hrest & Hp & Hc & Hb & Hcb & Hr & [ps Hps] & _).
  pose proof (log_notify_offer_normal p ety' (al_last a + 1) w1 Hcfg Hp ltac:(by rewrite Hcb, Hr)) as Hn.
  set (u := offered w1 _ _ _) in Hn.
  unfold rest_of in Hrest. injection Hrest as Hsrv _ _ _ Hud.
  replace (offer_answer w1 _ _) with (offer_answer w ety' (al_last a + 1)) in Hn.
  2: { unfold offer_answer. by rewrite Hcb, Hsrv, Hud. }
  exists (with_user_data u w1), ps, p. cbn [lg entry_heap with_user_data]. split_and!.
  - rewrite Heq. fold ety'. rewrite (bind_ok_l _ _ _ _ _ Hn).
    unfold truth. by destruct (Z.eqb_spec (offer_answer w ety' (al_last a + 1)) 0).
  - lia.
  - done.
  - done.
  - unfold log_get_at_idx. rewrite bind_gets_l. cbn [lg with_user_data]. rewrite Hc, Hb.
    destruct (Z.eqb_spec (al_last a + 1) 0); [done|].
    destruct (Z.leb_spec (al_last a + 1) (base (lg w))); [done|].
    rewrite bind_int_chk_l, int_ok_nonneg by lia.
    by destruct (Z.ltb_spec (base (lg w) + count (lg w)) (al_last a + 1)); [|lia].
Qed.
End Appending.

(** ** Deleting *)
Section Deleting.
Context {T : CTarget} {C : Contiki} {L : ContikiLaws C} {U : User}.

(** What a deletion does to the log's memory: one item is unlinked and its
    block freed. *)
Definition unlink (p : addr) (w : world) : world :=
  with_raft_entries_mem (memb_free (raft_entries_mem w) (Some p))
    (with_lg (with_entries_list (list_remove (entries_list (lg w)) (Some p))
               (with_count (count (lg w) - 1) (lg w))) w).

Lemma unlink_state w w' p : log_state w' = log_state w ->
  log_state (unlink p w') = log_state (unlink p w).
Proof. unfold log_state, unlink. cbn. intros [= H1 H2 H3]. by rewrite H1, H2, H3. Qed.

(** Where an index of the abstract log is in the list. *)
Lemma log_repr_get w a idx ety : log_repr w a -> al_get a idx = Some ety ->
  exists ps1 p ps2 es1 es2,
    entries_list (lg w) = ps1 ++ p :: ps2 /\ al_entries a = es1 ++ ety :: es2 /\
    length ps1 = length es1 /\ length ps2 = length es2 /\ entry_heap w !! p = Some ety /\
    idx = al_first a + Z.of_nat (length es1) /\ base (lg w) < idx <= al_last a.
Proof.
  intros R Hg. pose proof (log_repr_first _ _ R). unfold al_get in Hg.
  destruct (Z.leb_spec (al_first a) idx), (Z.leb_spec idx (al_last a)); try done.
  cbn [andb] in Hg. pose proof (log_repr_length _ _ R) as Hlen.
  destruct (Forall2_lookup_r _ _ _ _ _ (lr_heap _ _ R) Hg) as (p & Hp & Hh).
  set (k := Z.to_nat (idx - al_first a)) in *.
  exists (take k (entries_list (lg w))), p, (drop (S k) (entries_list (lg w))),
    (take k (al_entries a)), (drop (S k) (al_entries a)).
  apply lookup_lt_Some in Hg as Hk.
  split_and!; try done; rewrite ?length_take, ?length_drop; try lia.
  - by rewrite take_drop_middle.
  - by rewrite take_drop_middle.
Qed.

Lemma log_repr_fresh w a ps1 p ps2 : log_repr w a ->
  entries_list (lg w) = ps1 ++ p :: ps2 -> (p ∉ ps1) /\ (p ∉ ps2).
Proof.
  intros R Hl. pose proof (lr_nodup _ _ R) as Hnd. rewrite Hl in Hnd.
  apply NoDup_app in Hnd as (_ & H1 & [H2 _]%NoDup_cons). split; [|done].
  intros Hp. apply (H1 p Hp). left.
Qed.

(** A deletion that returns 0 unlinked the entry of that index, whatever the
    entry; a deletion that returns an error left the log as it was. *)
Lemma log_delete_ok idx w a e w' :
  log_repr w a -> base (lg w) < idx <= INT_MAX -> log_delete idx w = Ok e w' ->
  if decide (e = 0)
  then exists k p ety, al_get a idx = Some ety /\ entries_list (lg w) !! k = Some p /\
         idx = al_first a + Z.of_nat k /\ log_state w' = log_state (unlink p w)
  else log_state w' = log_state w.
Proof.
  intros R Hidx H. pose proof (lr_base _ _ R). unfold log_delete in H. run_simp H.
  destruct (Z.eqb_spec 0 idx); [lia|]. destruct (Z.ltb_spec idx (base (lg w))); [lia|].
  destruct (log_find_repr w a idx R ltac:(lia)) as (p & Hf & Hp & Hg).
  rewrite (bind_ok_l _ _ _ _ _ Hf) in H. destruct p as [p|].
  2: { run_ret H. by rewrite decide_False. }
  run_bind H as ety w1 He. apply entry_get_ro in He as Hro. subst w1.
  run_bind H as u w1 H2. apply deref_static_ro in H2 as <-. run_simp H.
  run_bind H as f w1 H2. apply non_null_ro in H2 as <-.
  run_bind H as u' w1 H2. apply deref_static_ro in H2 as <-.
  run_bind H as r w1 H2. run_keeps H2 (same log_state) as Hs1. unfold truth in H.
  destruct (Z.eqb_spec r 0) as [->|Hr]; cbn [negb] in H.
  2: { run_ret H. by rewrite decide_False. }
  run_bind H as u2 w2 H3. run_keeps H3 (same log_state) as Hs2. run_simp H.
  destruct (int_ok _); [|done]. run_simp H. run_ret H. rewrite decide_True by done.
  destruct ((al_first a <=? idx) && (idx <=? al_last a)) eqn:Hr; [|done].
  apply andb_true_iff in Hr as [Hr1%Z.leb_le Hr2%Z.leb_le].
  destruct (al_get a idx) as [e'|]; [|done]. destruct Hg as (x & [= <-] & Hh).
  exists (Z.to_nat (idx - al_first a)), p, e'. split_and!; try done; [lia|].
  change (log_state (unlink p w2) = log_state (unlink p w)).
  apply unlink_state. unfold same in *. congruence.
Qed.

Lemma al_drop_last_snoc a es e : al_entries a = es ++ [e] ->
  al_entries (al_drop_last a) = es.
Proof. intros H. unfold al_drop_last. cbn. by rewrite H, removelast_last. Qed.

(** Unlinking the last entry represents the abstract deletion. *)
Lemma unlink_last w a k p : log_repr w a ->
  entries_list (lg w) !! k = Some p -> al_first a + Z.of_nat k = al_last a ->
  log_repr (unlink p w) (al_drop_last a).
Proof.
  intros R Hk Hlast. pose proof (log_repr_length _ _ R) as Hlen.
  assert (S k = length (al_entries a)) as Hk' by (unfold al_first in *; lia).
  destruct (lookup_lt_is_Some_2 (al_entries a) k ltac:(lia)) as [ety He].
  assert (al_get a (al_last a) = Some ety) as Hg.
  { unfold al_get. destruct (Z.leb_spec (al_first a) (al_last a)); [|lia].
    rewrite Z.leb_refl. cbn. rewrite <- He. f_equal. lia. }
  destruct (log_repr_get w a _ _ R Hg) as (ps1 & q & ps2 & es1 & es2 & Hl & Ha & L1 & L2 & Hh & Hi & _).
  assert (ps2 = []) as ->.
  { destruct ps2; [done|]. exfalso. rewrite Ha, length_app in Hk'. cbn in *.
    unfold al_first in *. lia. }
  destruct es2; [|done].
  assert (q = p) as ->.
  { rewrite Hl, lookup_app_r in Hk by (unfold al_first in *; lia).
    by apply list_lookup_singleton_Some in Hk as [_ ?]. }
  destruct (log_repr_fresh _ _ _ _ _ R Hl) as [Hf _].
  pose proof (al_drop_last_snoc _ _ _ Ha) as Hd.
  destruct (memb_free_spec (raft_entries_mem w) p) as [Hu Hn].
  { rewrite (lr_used _ _ R), Hl. set_solver +. }
  pose proof (lr_nodup _ _ R) as Hnd. pose proof (lr_heap _ _ R) as HF.
  rewrite Hl in Hnd, HF. rewrite Ha in HF. rewrite Ha, length_app in Hlen, Hk'. cbn in Hlen, Hk'.
  apply Forall2_app_inv in HF as [HF _]; [|done]. apply NoDup_app in Hnd as [Hnd _].
  pose proof (lr_cap _ _ R) as Hc. pose proof (lr_len _ _ R) as Hlen'.
  rewrite Ha, length_app in Hc, Hlen'. cbn in Hc, Hlen'.
  assert (al_first (al_drop_last a) = al_first a) as Hfirst.
  { unfold al_first. rewrite Hd, Ha, length_app. cbn. lia. }
  pose proof (lr_max _ _ R). pose proof (lr_last _ _ R). pose proof (lr_base _ _ R).
  constructor; rewrite ?Hd, ?Hfirst; cbn; rewrite ?Hl, ?list_remove_present, ?app_nil_r by done;
    try done; try lia.
  - intros i e He'. apply (lr_idx _ _ R). rewrite Ha. by apply lookup_app_l_Some.
  - rewrite Hu, (lr_used _ _ R), Hl. apply leibniz_equiv. set_solver +Hf.
  - by rewrite Hn, (lr_num _ _ R).
Qed.

(** The [log_pop] callback is set and accepts the entry. *)
Definition pop_accepts (w : world) (ety : raft_entry_t) (idx : Z) : Prop :=
  log_cb (lg w) = SServer /\ log_raft (lg w) = SServer /\
  exists f, log_pop (cb (srv w)) = Some f /\ fst (f (user_data w) ety idx) = 0.

(** What giving an entry to [log_pop] does to the user's data. *)
Definition popped (w : world) (ety : raft_entry_t) (idx : Z) (u : udata) : udata :=
  match log_pop (cb (srv w)) with Some f => snd (f u ety idx) | None => u end.

Lemma log_delete_run w a idx ety :
  log_repr w a -> al_get a idx = Some ety ->
  raft_entry_is_cfg_change ety = false -> pop_accepts w ety idx ->
  exists k p w', entries_list (lg w) !! k = Some p /\ idx = al_first a + Z.of_nat k /\
    log_delete idx w = Ok 0 w' /\ log_state w' = log_state (unlink p w) /\
    outside_log w' = outside_log w /\ user_data w' = popped w ety idx (user_data w).
Proof.
  intros R Hg Hcfg (Hcb & Hraft & f & Hf & Hans).
  pose proof (lr_base _ _ R). pose proof (lr_max _ _ R). pose proof (log_repr_bound _ _ R).
  destruct (log_repr_get w a _ _ R Hg)
    as (ps1 & p & ps2 & es1 & es2 & Hl & Ha & L1 & L2 & Hh & Hi & Hr).
  assert (entries_list (lg w) !! length es1 = Some p) as Hk.
  { rewrite Hl, lookup_app_r by lia. by replace (_ - _)%nat with 0%nat by lia. }
  destruct (log_find_repr w a idx R ltac:(lia)) as (q & Hq & Hq' & _).
  assert (q = Some p) as ->.
  { rewrite Hq'. destruct (Z.leb_spec (al_first a) idx); [|lia].
    destruct (Z.leb_spec idx (al_last a)); [|lia]. cbn [andb]. rewrite <- Hk. f_equal. lia. }
  assert (0 < count (lg w)).
  { pose proof (lr_len _ _ R) as Hc. rewrite Ha, length_app in Hc. cbn in Hc. lia. }
  exists (length es1), p. eexists. split; [done|]. split; [done|].
  unfold log_delete. rewrite bind_gets_l.
  destruct (Z.eqb_spec 0 idx); [lia|]. destruct (Z.ltb_spec idx (base (lg w))); [lia|].
  rewrite (bind_ok_l _ _ _ _ _ Hq), (bind_ok_l _ _ _ _ _ (entry_get_ok _ _ _ Hh)).
  rewrite Hcb, Hraft. unfold raft_get_udata, deref_static.
  rewrite bind_ret_l, bind_gets_l, Hf. unfold non_null. rewrite !bind_ret_l.
  unfold call. rewrite bind_assoc, bind_gets_l. cbv zeta.
  rewrite bind_assoc, bind_modify_l, bind_ret_l, Hans. cbn [truth Z.eqb negb].
  unfold raft_pop_log. rewrite bind_assoc.
  erewrite bind_ok_l; [|apply entry_get_ok, Hh]. rewrite Hcfg. cbn [negb].
  rewrite bind_ret_l, bind_gets_l, bind_int_chk_l, int_ok_nonneg by (cbn; lia).
  rewrite !bind_upd_lg_l, bind_modify_l. split_and!; try reflexivity. unfold popped. by rewrite Hf.
Qed.

(** Deleting the last entry implements the deletion of the abstract log,
    when the user's [log_pop] accepts it. *)
Theorem log_delete_last_refines w a ety :
  log_repr w a -> al_get a (al_last a) = Some ety ->
  raft_entry_is_cfg_change ety = false -> pop_accepts w ety (al_last a) ->
  exists w', log_delete (al_last a) w = Ok 0 w' /\ log_repr w' (al_drop_last a).
Proof.
  intros R Hg Hcfg Hpop.
  destruct (log_delete_run w a _ ety R Hg Hcfg Hpop) as (k & p & w' & Hk & Hi & Hrun & Hs & _ & _).
  exists w'. split; [done|]. eapply log_repr_same; [done|]. by eapply unlink_last.
Qed.

(** Searching the list from which an entry was unlinked. *)
Lemma log_find_unlinked w a idx j ety w' p k :
  log_repr w a -> al_get a idx = Some ety -> entries_list (lg w) !! k = Some p ->
  idx = al_first a + Z.of_nat k -> log_state w' = log_state (unlink p w) ->
  al_first a <= j <= al_last a ->
  exists q, log_find j w' = Ok q w' /\
    (if j =? idx then q = None
     else exists x, q = Some x /\ entry_heap w' !! x = al_get a j).
Proof.
  intros R Hg Hk Hi Hs Hj. pose proof (lr_max _ _ R). pose proof (log_repr_first _ _ R).
  pose proof (lr_base _ _ R).
  destruct (log_repr_get w a _ _ R Hg)
    as (ps1 & q & ps2 & es1 & es2 & Hl & Ha & L1 & L2 & Hh & Hi' & Hr).
  assert (k = length ps1) as -> by lia.
  assert (q = p) as ->. { rewrite Hl, list_lookup_middle in Hk by done. congruence. }
  destruct (log_repr_fresh _ _ _ _ _ R Hl) as [Hf _].
  injection Hs as Hs1 Hs2 Hs3. rewrite Hl, list_remove_present in Hs1 by done.
  pose proof (lr_heap _ _ R) as HF. rewrite Hl, Ha in HF.
  apply Forall2_app_inv in HF as [HF1 HF2]; [|done]. apply Forall2_cons in HF2 as [_ HF2].
  assert (forall i e, es1 !! i = Some e -> ety_idx e = al_first a + Z.of_nat i) as I1.
  { intros i e He. apply (lr_idx _ _ R). rewrite Ha. by apply lookup_app_l_Some. }
  assert (forall i e, es2 !! i = Some e -> ety_idx e = idx + 1 + Z.of_nat i) as I2.
  { intros i e He. rewrite (lr_idx _ _ R (S (length es1) + i)%nat e); [lia|].
    rewrite Ha, lookup_app_r by lia.
    by replace (S (length es1) + i - length es1)%nat with (S i) by lia. }
  assert (length (al_entries a) = length es1 + S (length es2))%nat as Hlen.
  { rewrite Ha, length_app. done. }
  eexists. split.
  { apply (log_find_heap _ (es1 ++ es2)); [lia|]. rewrite Hs1, Hs2. by apply Forall2_app. }
  rewrite Hs1. cbn [entries_list with_entries_list with_count].
  unfold entry_at. rewrite Hs2, list_find_append.
  rewrite (find_consecutive _ _ _ _ _ HF1 I1), (find_consecutive _ _ _ _ _ HF2 I2).
  assert (al_last a = idx + Z.of_nat (length es2)) by (unfold al_first in *; lia).
  assert (forall i ps es (x : nat), Forall2 (fun p e => entry_heap w !! p = Some e) ps es ->
    (i < length es)%nat -> al_entries a !! x = es !! i -> Z.of_nat x = j - al_first a ->
    exists y, ps !! i = Some y /\ entry_heap w !! y = al_get a j) as Hin.
  { intros i ps es x HF Hlt Heq Hx. destruct (lookup_lt_is_Some_2 es i Hlt) as [e He].
    destruct (Forall2_lookup_r _ _ _ _ _ HF He) as (y & Hy & Hy'). exists y. split; [done|].
    rewrite Hy', <- He, <- Heq. unfold al_get. destruct (Z.leb_spec (al_first a) j); [|lia].
    destruct (Z.leb_spec j (al_last a)); [|lia]. cbn. f_equal. lia. }
  destruct (Z.leb_spec (al_first a) j); [|lia].
  destruct (Z.ltb_spec j (al_first a + Z.of_nat (length es1))) as [Hj1|Hj1]; cbn [andb].
  - destruct (Z.eqb_spec j idx); [lia|].
    destruct (Hin (Z.to_nat (j - al_first a)) ps1 es1 (Z.to_nat (j - al_first a)))
      as (y & -> & Hy); [done|lia|rewrite Ha, lookup_app_l; [done|lia]|lia|by exists y].
  - destruct (Z.eqb_spec j idx) as [->|Hne].
    { destruct (Z.leb_spec (idx + 1) idx); [lia|done]. }
    destruct (Z.leb_spec (idx + 1) j); [|lia].
    destruct (Z.ltb_spec j (idx + 1 + Z.of_nat (length es2))); [|lia]. cbn [andb].
    destruct (Hin (Z.to_nat (j - (idx + 1))) ps2 es2 (Z.to_nat (j - al_first a)))
      as (y & -> & Hy); [done|lia| |lia|by exists y].
    rewrite Ha, lookup_app_r by lia.
    by replace (Z.to_nat (j - al_first a) - length es1)%nat
      with (S (Z.to_nat (j - (idx + 1)))) by lia.
Qed.

(** Deleting an entry that is not the last removes it alone.  The log is
    one shorter, so the last entry can no longer be read by its index, the
    index of the deleted entry reads NULL, and every other entry, the ones
    after it included, is still there at its index. *)
Theorem log_delete_keeps_following w a idx ety :
  log_repr w a -> al_get a idx = Some ety -> idx < al_last a ->
  raft_entry_is_cfg_change ety = false -> pop_accepts w ety idx ->
  exists w', log_delete idx w = Ok 0 w' /\
    log_get_current_idx w' = Ok (al_last a - 1) w' /\
    log_get_at_idx (al_last a) w' = Ok None w' /\
    log_get_at_idx idx w' = Ok None w' /\
    forall j, al_first a <= j < al_last a -> j <> idx ->
      exists p, log_get_at_idx j w' = Ok (Some p) w' /\ entry_heap w' !! p = al_get a j.
Proof.
  intros R Hg Hidx Hcfg Hpop. pose proof (log_repr_first _ _ R). pose proof (lr_base _ _ R).
  pose proof (lr_last _ _ R). pose proof (lr_max _ _ R). pose proof (lr_len _ _ R).
  destruct (log_delete_run w a _ ety R Hg Hcfg Hpop) as (k & p & w' & Hk & Hi & Hrun & Hs & _ & _).
  exists w'. split; [done|].
  assert (base (lg w') = base (lg w) /\ count (lg w') = count (lg w) - 1) as [Hb Hc].
  { injection Hs as -> _ _. done. }
  assert (forall j, al_first a <= j -> log_get_at_idx j w'
    = if al_last a - 1 <? j then Ok None w' else log_find j w') as Hat.
  { intros j Hj. unfold log_get_at_idx. rewrite bind_gets_l, Hb, Hc.
    destruct (Z.eqb_spec j 0); [lia|]. destruct (Z.leb_spec j (base (lg w))); [lia|].
    rewrite bind_int_chk_l, int_ok_nonneg by lia.
    replace (base (lg w) + (count (lg w) - 1)) with (al_last a - 1) by lia.
    by destruct (_ <? _). }
  split_and!.
  - unfold log_get_current_idx, log_count. rewrite !bind_gets_l, Hb, Hc. unfold int_chk.
    rewrite int_ok_nonneg by lia. unfold ret. f_equal. lia.
  - rewrite Hat by lia. by destruct (Z.ltb_spec (al_last a - 1) (al_last a)); [|lia].
  - rewrite Hat by lia. destruct (Z.ltb_spec (al_last a - 1) idx); [done|].
    destruct (log_find_unlinked w a idx idx ety w' p k) as (q & -> & Hq); try done; [lia|].
    rewrite Z.eqb_refl in Hq. by subst.
  - intros j Hj Hne. rewrite Hat by lia. destruct (Z.ltb_spec (al_last a - 1) j); [lia|].
    destruct (log_find_unlinked w a idx j ety w' p k) as (q & -> & Hq); try done; [lia|].
    destruct (Z.eqb_spec j idx); [done|]. destruct Hq as (x & -> & Hx). eauto.
Qed.
End Deleting.

(** ** Witnesses *)

(** The log of a follower after three entries of terms 1, 1 and 2. *)
Definition sim_log3 : world :=
  run_world (foreach [sim_entry 1 10; sim_entry 1 11; sim_entry 2 12]
    (fun e => let! _ := log_append_entry e in ret tt)) sim3.

Definition sim_alog3 : alog :=
  mk_alog 3 [with_ety_idx 1 (sim_entry 1 10); with_ety_idx 2 (sim_entry 1 11);
             with_ety_idx 3 (sim_entry 2 12)].

Lemma sim_log3_repr : log_repr sim_log3 sim_alog3.
Proof. apply log_reprb_sound. vm_compute. reflexivity. Qed.

(** 51 entries: the first was evicted. *)
Definition sim_log51 : world :=
  run_world (foreach (seq 0 51) (fun i => let! _ := log_append_entry (sim_entry 1 (Z.of_nat i)) in ret tt))
    sim3.
Definition sim_alog51 : alog :=
  mk_alog 51 (map (fun i => with_ety_idx (Z.of_nat i + 1) (sim_entry 1 (Z.of_nat i))) (seq 1 50)).

Lemma sim_log51_repr : log_repr sim_log51 sim_alog51.
Proof. apply log_reprb_sound. vm_compute. reflexivity. Qed.

Lemma log_read_refines_witness :
  log_repr sim_log3 sim_alog3 /\
  log_get_current_idx sim_log3 = Ok 3 sim_log3 /\
  (forall idx, INT_MIN <= idx <= INT_MAX ->
    exists p, log_get_at_idx idx sim_log3 = Ok p sim_log3 /\
      points_to sim_log3 p (al_get sim_alog3 idx)) /\
  exists p, log_peektail sim_log3 = Ok p sim_log3 /\
    points_to sim_log3 p (last (al_entries sim_alog3)).
Proof.
  split; [exact sim_log3_repr|]. apply (log_read_refines sim_log3 sim_alog3 sim_log3_repr).
Defined.

Lemma sim_accepts w : cb (srv w) = sim_cbs -> log_raft (lg w) = SServer -> offers_accept w.
Proof. intros Hcb Hr. split; [done|]. rewrite Hcb. intros f [= <-]. reflexivity. Qed.

Lemma log_append_entries_refines_witness :
  let es := [sim_entry 2 98; sim_entry 2 99] in
  log_repr sim_log51 sim_alog51 /\
  exists w', foreach es (fun e => let! r := log_append_entry e in assert_ (fst r =? 0)) sim_log51
      = Ok tt w' /\
    log_repr w' (al_appends es sim_alog51) /\
    al_last (al_appends es sim_alog51) = al_last sim_alog51 + 2 /\
    length (al_entries (al_appends es sim_alog51))
      = Nat.min MAX_ENTRIES (length (al_entries sim_alog51) + 2) /\
    user_data w' = offers sim_log51 (al_last sim_alog51) es (user_data sim_log51) /\
    outside_log w' = outside_log sim_log51.
Proof.
  split; [exact sim_log51_repr|].
  apply (log_append_entries_refines [sim_entry 2 98; sim_entry 2 99] sim_log51 sim_alog51).
  - exact sim_log51_repr.
  - vm_compute. discriminate.
  - repeat constructor.
  - apply sim_accepts; reflexivity.
Defined.

(** A user that refuses new entries. *)
Definition sim_refuse : world :=
  run_world (sim_start
    (mk_cbs None None None None None None (Some (fun u e i => (7, u))) None None None None None)
    1 [2; 3]) sim_boot.

Lemma log_append_entry_refused_witness :
  log_repr sim_refuse (mk_alog 0 []) /\
  exists w' ps p,
    log_append_entry (sim_entry 1 10) sim_refuse = Ok (7, with_ety_idx 1 (sim_entry 1 10)) w' /\
    base (lg w') + count (lg w') = 0 /\
    entries_list (lg w') = ps ++ [p] /\ entry_heap w' !! p = Some (with_ety_idx 1 (sim_entry 1 10)) /\
    log_get_at_idx 1 w' = Ok None w'.
Proof.
  assert (log_repr sim_refuse (mk_alog 0 [])) as R.
  { apply log_reprb_sound. vm_compute. reflexivity. }
  split; [exact R|].
  apply (log_append_entry_refused (sim_entry 1 10) sim_refuse (mk_alog 0 []) R).
  - vm_compute. reflexivity.
  - reflexivity.
  - intros _. vm_compute. reflexivity.
  - vm_compute. discriminate.
Defined.

Lemma sim_log3_pops ety idx : pop_accepts sim_log3 ety idx.
Proof. split; [reflexivity|]. split; [reflexivity|]. by eexists. Qed.

Lemma log_delete_last_refines_witness :
  log_repr sim_log3 sim_alog3 /\
  exists w', log_delete 3 sim_log3 = Ok 0 w' /\ log_repr w' (al_drop_last sim_alog3).
Proof.
  split; [exact sim_log3_repr|].
  apply (log_delete_last_refines sim_log3 sim_alog3 (with_ety_idx 3 (sim_entry 2 12))).
  - exact sim_log3_repr.
  - vm_compute. reflexivity.
  - reflexivity.
  - apply sim_log3_pops.
Defined.

Lemma log_delete_keeps_following_witness :
  log_repr sim_log3 sim_alog3 /\
  exists w', log_delete 1 sim_log3 = Ok 0 w' /\
    log_get_current_idx w' = Ok 2 w' /\ log_get_at_idx 3 w' = Ok None w' /\
    log_get_at_idx 1 w' = Ok None w' /\
    forall j, 1 <= j < 3 -> j <> 1 ->
      exists p, log_get_at_idx j w' = Ok (Some p) w' /\ entry_heap w' !! p = al_get sim_alog3 j.
Proof.
  split; [exact sim_log3_repr|].
  apply (log_delete_keeps_following sim_log3 sim_alog3 1 (with_ety_idx 1 (sim_entry 1 10))).
  - exact sim_log3_repr.
  - vm_compute. reflexivity.
  - vm_compute. reflexivity.
  - reflexivity.
  - apply sim_log3_pops.
Defined.
