(* ===== verification/MemberFacts.v ===== *)
(** * Properties of the membership

    [nodes_wf w] says that the list of nodes of a server is in order: its items
    are distinct blocks in use, with distinct ids, and one of them is the server
    itself.  Under it the searches of the list are total and compute the
    functions of the list they are named after. *)
From S2P Require Import Prelude Contiki Types Node Membership Log Server Election Replication.
From S2P Require Import Sim NodeFacts Frames.

(** ** Well-formed lists of nodes *)
Section Wf.
Context {T : CTarget} {C : Contiki} {U : User}.

(** The part of memory the membership is made of. *)
Definition node_state (w : world) :=
  (nodes_list (srv w), num_nodes (srv w), node (srv w), node_heap w, raft_nodes_mem w).

Definition node_id_at (w : world) (a : addr) : option Z := id <$> node_heap w !! a.

Record nodes_wf (w : world) : Prop := {
  nw_nodup : NoDup (nodes_list (srv w));
  nw_heap : forall a, a ∈ nodes_list (srv w) -> is_Some (node_heap w !! a);
  nw_ids : forall a b i, a ∈ nodes_list (srv w) -> b ∈ nodes_list (srv w) ->
    node_id_at w a = Some i -> node_id_at w b = Some i -> a = b;
  nw_num : num_nodes (srv w) = Z.of_nat (length (nodes_list (srv w)));
  nw_used : memb_used (raft_nodes_mem w) = list_to_set (nodes_list (srv w));
  nw_pool : memb_num (raft_nodes_mem w) = MAX_NODES;
  nw_bound : (length (nodes_list (srv w)) <= MAX_NODES)%nat
}.

Lemma nodes_wf_same w w' : node_state w' = node_state w -> nodes_wf w -> nodes_wf w'.
Proof.
  unfold node_state. intros [= H1 H2 H3 H4 H5] [].
  constructor; unfold node_id_at in *; rewrite ?H1, ?H2, ?H3, ?H4, ?H5; done.
Qed.

(** The server's own node is in the list. *)
Definition self_wf (w : world) : Prop :=
  exists a, node (srv w) = Some a /\ a ∈ nodes_list (srv w).

Lemma self_wf_same w w' : node_state w' = node_state w -> self_wf w -> self_wf w'.
Proof. unfold node_state, self_wf. by intros [= -> _ -> _ _]. Qed.

(** A test of the node in a block. *)
Definition node_sat (w : world) (g : raft_node_private_t -> bool) (a : addr) : bool :=
  match node_heap w !! a with Some n => g n | None => false end.

Definition votes_here (n : raft_node_private_t) : bool :=
  Node.is_active n && Node.is_voting n.

(** The active voting nodes of the list, the server included. *)
Definition voting_nodes (w : world) : list addr :=
  List.filter (node_sat w votes_here) (nodes_list (srv w)).

(** Those, the server excluded, whose vote was received. *)
Definition voters_for_me (w : world) : list addr :=
  List.filter (fun a => negb (is_self_ptr (srv w) a)
    && node_sat w (fun n => votes_here n && Node.has_vote_for_me n) a) (nodes_list (srv w)).

Lemma node_get_ok w a n : node_heap w !! a = Some n -> node_get (Some a) w = Ok n w.
Proof. intros H. unfold node_get. rewrite bind_gets_l. by rewrite H. Qed.

Lemma node_read_ok {A} (g : raft_node_private_t -> A) w a n :
  node_heap w !! a = Some n -> node_read g (Some a) w = Ok (g n) w.
Proof. intros H. unfold node_read. by rewrite (bind_ok_l _ _ _ _ _ (node_get_ok _ _ _ H)). Qed.

(** The id of the server, as its node holds it. *)
Definition self_id (w : world) : Z :=
  match node (srv w) with
  | Some a => default (-1) (node_id_at w a)
  | None => -1
  end.

Section Reading.
Context (w : world) (W : nodes_wf w) (Self : self_wf w).

Lemma raft_get_node_ok i :
  raft_get_node i w
  = Ok (List.find (node_sat w (fun n => i =? id n)) (nodes_list (srv w))) w.
Proof.
  unfold raft_get_node. rewrite bind_gets_l. apply find_first_pure.
  intros a Ha. destruct (nw_heap _ W a Ha) as [n Hn]. unfold raft_node_get_id.
  rewrite (bind_ok_l _ _ _ _ _ (node_read_ok _ _ _ _ Hn)). unfold node_sat. by rewrite Hn.
Qed.

(** A node of the list is the one found by its id. *)
Lemma find_by_id a n : a ∈ nodes_list (srv w) -> node_heap w !! a = Some n ->
  List.find (node_sat w (fun m => id n =? id m)) (nodes_list (srv w)) = Some a.
Proof.
  intros Ha Hn. destruct (List.find _ _) as [b|] eqn:Hf.
  - apply List.find_some in Hf as [Hb Hi]. f_equal. unfold node_sat in Hi.
    destruct (node_heap w !! b) as [m|] eqn:Hm; [|done]. apply Z.eqb_eq in Hi.
    apply (nw_ids _ W b a (id n)); unfold node_id_at; rewrite ?Hn, ?Hm; cbn; congruence || done || idtac.
    by apply list_elem_of_In.
  - eapply List.find_none in Hf; [|by apply list_elem_of_In].
    unfold node_sat in Hf. rewrite Hn in Hf. by rewrite Z.eqb_refl in Hf.
Qed.

Lemma raft_get_nodeid_ok : raft_get_nodeid w = Ok (self_id w) w.
Proof.
  destruct Self as (a & Ha & Hin). destruct (nw_heap _ W a Hin) as [n Hn].
  unfold raft_get_nodeid, self_id, node_id_at. rewrite bind_gets_l, Ha, Hn.
  by apply (node_read_ok Node.get_id).
Qed.

Lemma raft_get_num_voting_nodes_ok :
  raft_get_num_voting_nodes w = Ok (Z.of_nat (length (voting_nodes w))) w.
Proof.
  unfold raft_get_num_voting_nodes. rewrite bind_gets_l.
  rewrite (count_from_pure (node_sat w votes_here)); [done|].
  intros a Ha. destruct (nw_heap _ W a Ha) as [n Hn].
  unfold raft_node_is_active, raft_node_is_voting.
  rewrite (bind_ok_l _ _ _ _ _ (node_read_ok _ _ _ _ Hn)).
  unfold node_sat, votes_here. rewrite Hn.
  destruct (Node.is_active n); cbn [andb]; [by apply node_read_ok|done].
Qed.

Lemma raft_get_my_node_ok : raft_get_my_node w = Ok (node (srv w)) w.
Proof.
  destruct Self as (s & Hs & Hin). destruct (nw_heap _ W s Hin) as [ns Hns].
  unfold raft_get_my_node. rewrite bind_gets_l.
  rewrite (find_first_pure (node_sat w (fun m => id ns =? id m))).
  { by rewrite (find_by_id s ns), Hs. }
  intros a Ha. destruct (nw_heap _ W a Ha) as [n Hn].
  rewrite (bind_ok_l _ _ _ _ _ raft_get_nodeid_ok). unfold raft_node_get_id.
  rewrite (bind_ok_l _ _ _ _ _ (node_read_ok _ _ _ _ Hn)).
  unfold node_sat, self_id, node_id_at. by rewrite Hn, Hs, Hns.
Qed.

Lemma raft_get_nvotes_for_me_ok :
  raft_get_nvotes_for_me w
  = Ok (Z.of_nat (length (voters_for_me w)) + if voted_for (srv w) =? self_id w then 1 else 0) w.
Proof.
  unfold raft_get_nvotes_for_me. rewrite bind_gets_l.
  erewrite bind_ok_l.
  2: { apply (count_from_pure (fun a => negb (is_self_ptr (srv w) a)
         && node_sat w (fun n => votes_here n && Node.has_vote_for_me n) a)).
       intros a Ha. destruct (nw_heap _ W a Ha) as [n Hn].
       unfold raft_node_is_active, raft_node_is_voting, raft_node_has_vote_for_me.
       unfold node_sat, votes_here. rewrite Hn.
       destruct (is_self_ptr (srv w) a); [done|].
       rewrite (bind_ok_l _ _ _ _ _ (node_read_ok _ _ _ _ Hn)).
       destruct (Node.is_active n); [|done]. cbn [negb andb].
       rewrite (bind_ok_l _ _ _ _ _ (node_read_ok _ _ _ _ Hn)).
       destruct (Node.is_voting n); cbn [negb andb]; [by apply node_read_ok|done]. }
  rewrite (bind_ok_l _ _ _ _ _ raft_get_nodeid_ok). cbn [Z.add]. unfold voters_for_me, ret.
  by destruct (_ =? _); rewrite ?Z.add_0_r.
Qed.
End Reading.
End Wf.

(** ** Adding nodes *)
Section Adding.
Context {T : CTarget} {C : Contiki} {L : ContikiLaws C} {U : User}.

Lemma node_put_id w a n n' : node_heap w !! a = Some n -> id n' = id n ->
  forall b, node_id_at (with_node_heap (<[a := n']> (node_heap w)) w) b = node_id_at w b.
Proof.
  intros Hn Hi b. unfold node_id_at. cbn. destruct (decide (b = a)) as [->|Hne].
  - by rewrite lookup_insert_eq, Hn; cbn; rewrite Hi.
  - by rewrite lookup_insert_ne.
Qed.

(** Writing a node without changing its id keeps the list in order. *)
Lemma nodes_wf_ids w w' : nodes_wf w ->
  nodes_list (srv w') = nodes_list (srv w) -> num_nodes (srv w') = num_nodes (srv w) ->
  raft_nodes_mem w' = raft_nodes_mem w ->
  (forall a, node_id_at w' a = node_id_at w a) -> nodes_wf w'.
Proof.
  intros [] H1 H2 H3 H4. constructor; rewrite ?H1, ?H2, ?H3; try done.
  - intros a Ha. pose proof (H4 a) as Hi. destruct (nw_heap0 a Ha) as [n Hn].
    unfold node_id_at in Hi. rewrite Hn in Hi. destruct (node_heap w' !! a); [by eexists|done].
  - intros a b i. rewrite !H4. apply nw_ids0.
Qed.

Lemma raft_node_new_ok w i : nodes_wf w ->
  if decide (length (nodes_list (srv w)) = MAX_NODES)
  then raft_node_new i w = Ok None w
  else exists a pool, (a ∉ nodes_list (srv w)) /\
    memb_used pool = list_to_set (nodes_list (srv w) ++ [a]) /\ memb_num pool = MAX_NODES /\
    raft_node_new i w = Ok (Some a)
      (with_node_heap (<[a := Node.init i]> (node_heap w)) (with_raft_nodes_mem pool w)).
Proof.
  intros W. assert (stdpp.base.size (memb_used (raft_nodes_mem w)) = length (nodes_list (srv w))) as Hs.
  { by rewrite (nw_used _ W), size_list_to_set by apply (nw_nodup _ W). }
  unfold raft_node_new. rewrite bind_gets_l. case_decide as Hfull.
  - rewrite memb_alloc_full by (rewrite (nw_pool _ W), Hs; done). destruct w. reflexivity.
  - destruct (memb_alloc_cases (raft_nodes_mem w)) as [[_ Hc]|(a & pool & Ha & Hf & Hu & Hn & _)].
    { rewrite Hs, (nw_pool _ W). apply (nw_bound _ W). }
    { rewrite Hs, (nw_pool _ W) in Hc. congruence. }
    exists a, pool. rewrite Ha. rewrite (nw_used _ W) in Hu, Hf. split_and!.
    + set_solver +Hf.
    + rewrite Hu, list_to_set_app_L. apply leibniz_equiv. cbn. set_solver +.
    + by rewrite Hn, (nw_pool _ W).
    + reflexivity.
Qed.

(** *** The list of members *)
Definition members_of (h : gmap addr raft_node_private_t) (l : list addr) :=
  omap (fun a => h !! a) l.
Definition members (w : world) : list raft_node_private_t :=
  members_of (node_heap w) (nodes_list (srv w)).

Lemma members_find w g l : (forall a, a ∈ l -> is_Some (node_heap w !! a)) ->
  match List.find (node_sat w g) l with
  | Some a => exists n, a ∈ l /\ node_heap w !! a = Some n /\
                List.find g (members_of (node_heap w) l) = Some n
  | None => List.find g (members_of (node_heap w) l) = None
  end.
Proof.
  unfold members_of. induction l as [|a l IH]; intros Hl; [done|]. cbn.
  destruct (Hl a ltac:(left)) as [n Hn]. unfold node_sat at 1. rewrite Hn. cbn.
  destruct (g n); [exists n; split_and!; [left|done|done]|].
  specialize (IH (fun b Hb => Hl b ltac:(by right))).
  destruct (List.find (node_sat w g) l) as [b|]; [|done].
  destruct IH as (m & Hb & Hm & Hf). exists m. split_and!; [by right|done|done].
Qed.

Lemma members_length w : nodes_wf w -> length (members w) = length (nodes_list (srv w)).
Proof.
  intros W. pose proof (nw_heap _ W) as H. unfold members, members_of.
  induction (nodes_list (srv w)) as [|a l IH]; [done|]. cbn.
  destruct (H a ltac:(left)) as [n ->]. cbn. f_equal. apply IH. intros b Hb. apply H. by right.
Qed.

(** The ids of the members are distinct. *)
Lemma members_ids w : nodes_wf w -> NoDup (map id (members w)).
Proof.
  intros W. pose proof (nw_heap _ W) as Hh. pose proof (nw_ids _ W) as Hi.
  pose proof (nw_nodup _ W) as Hnd. unfold members, members_of.
  revert Hh Hi Hnd. generalize (nodes_list (srv w)) as l. intros l.
  induction l as [|a l IH]; intros Hh Hi Hnd; [constructor|]. apply NoDup_cons in Hnd as [Ha Hnd].
  cbn. destruct (Hh a ltac:(left)) as [n Hn]. rewrite Hn. cbn. apply NoDup_cons. split.
  - intros (m & Hm1 & (b & Hb & Hm2)%list_elem_of_omap)%list_elem_of_fmap.
    apply Ha. replace a with b; [done|]. apply (Hi b a (id n)); [by right|left| |];
      unfold node_id_at; rewrite ?Hm2, ?Hn; cbn; congruence.
  - apply IH; [intros b Hb; apply Hh; by right| |done].
    intros b c i Hb Hc. apply Hi; by right.
Qed.

Lemma members_write h l a n n' g : NoDup l -> h !! a = Some n ->
  (forall b m, b ∈ l -> h !! b = Some m -> g m = if decide (b = a) then n' else m) ->
  members_of (<[a := n']> h) l = map g (members_of h l).
Proof.
  intros Hnd Hn. unfold members_of. induction l as [|b l IH]; intros Hg; [done|].
  apply NoDup_cons in Hnd as [Hb Hnd]. cbn.
  assert (omap (fun a0 => <[a:=n']> h !! a0) l = map g (omap (fun a0 => h !! a0) l)) as IH'.
  { apply IH; [done|]. intros c m Hc. apply Hg. by right. }
  destruct (decide (b = a)) as [->|Hne].
  - rewrite lookup_insert_eq, Hn. cbn. rewrite (Hg a n) by (done || left).
    rewrite decide_True by done. by f_equal.
  - rewrite lookup_insert_ne by done. destruct (h !! b) as [m|] eqn:Hm; [|done]. cbn.
    rewrite (Hg b m) by (done || left). rewrite decide_False by done. by f_equal.
Qed.

Lemma members_fresh h l a n : a ∉ l -> members_of (<[a := n]> h) l = members_of h l.
Proof.
  intros Ha. unfold members_of. induction l as [|b l IH]; [done|]. cbn.
  rewrite lookup_insert_ne by set_solver. rewrite IH by set_solver. done.
Qed.

Lemma members_app h l1 l2 : members_of h (l1 ++ l2) = (members_of h l1 ++ members_of h l2).
Proof. apply omap_app. Qed.

(** The specification of [raft_add_node]: a new id is appended as a voting
    node while there is room, a non-voting node is promoted. *)
Definition add_member (i : Z) (ms : list raft_node_private_t)
    : option (list raft_node_private_t) :=
  match List.find (fun n => i =? id n) ms with
  | Some n =>
      if Node.is_voting n then None
      else Some (map (fun m => if i =? id m then Node.set_flag RAFT_NODE_VOTING m else m) ms)
  | None =>
      if decide (length ms = MAX_NODES) then None else Some (ms ++ [Node.init i])
  end.

Lemma members_snoc w a n : (a ∉ nodes_list (srv w)) ->
  members_of (<[a := n]> (node_heap w)) (nodes_list (srv w) ++ [a]) = (members w ++ [n]).
Proof.
  intros Ha. rewrite members_app, members_fresh by done. unfold members_of at 2. cbn.
  by rewrite lookup_insert_eq.
Qed.

(** The list with a new node is in order. *)
Lemma nodes_wf_add w w' i a : nodes_wf w -> (a ∉ nodes_list (srv w)) ->
  List.find (fun n => i =? id n) (members w) = None ->
  nodes_list (srv w') = (nodes_list (srv w) ++ [a]) -> num_nodes (srv w') = num_nodes (srv w) + 1 ->
  node_heap w' = <[a := Node.init i]> (node_heap w) ->
  memb_used (raft_nodes_mem w') = list_to_set (nodes_list (srv w) ++ [a]) ->
  memb_num (raft_nodes_mem w') = MAX_NODES ->
  (length (nodes_list (srv w)) < MAX_NODES)%nat -> nodes_wf w'.
Proof.
  intros [] Ha Hfind H1 H2 H3 H4 H5 H6.
  assert (forall b, b ∈ nodes_list (srv w) -> node_id_at w' b = node_id_at w b /\
            node_id_at w b <> Some i) as Hid.
  { intros b Hb. destruct (nw_heap0 b Hb) as [n Hn]. unfold node_id_at.
    rewrite H3, lookup_insert_ne by (intros ->; done). split; [done|]. rewrite Hn. intros [= Hi].
    eapply List.find_none in Hfind; [|apply list_elem_of_In, list_elem_of_omap; by exists b].
    by rewrite Hi, Z.eqb_refl in Hfind. }
  assert (node_id_at w' a = Some i) as Hida.
  { unfold node_id_at. by rewrite H3, lookup_insert_eq. }
  constructor; rewrite ?H1, ?H2, ?H4, ?H5, ?length_app; cbn; try done; try lia.
  - apply NoDup_app. split_and!; [done| |apply NoDup_singleton].
    intros x Hx ->%list_elem_of_singleton. done.
  - intros b [Hb| ->%list_elem_of_singleton]%elem_of_app; rewrite H3.
    + rewrite lookup_insert_ne by (intros ->; done). by apply nw_heap0.
    + rewrite lookup_insert_eq. by eexists.
  - intros b c j [Hb| ->%list_elem_of_singleton]%elem_of_app
      [Hc| ->%list_elem_of_singleton]%elem_of_app; try done.
    + destruct (Hid b Hb) as [-> _], (Hid c Hc) as [-> _]. by apply nw_ids0.
    + destruct (Hid b Hb) as [-> Hne]. rewrite Hida. congruence.
    + destruct (Hid c Hc) as [-> Hne]. rewrite Hida. congruence.
Qed.

Lemma members_promote w a n i : nodes_wf w -> a ∈ nodes_list (srv w) ->
  node_heap w !! a = Some n -> (i =? id n) = true ->
  members_of (<[a := Node.set_flag RAFT_NODE_VOTING n]> (node_heap w)) (nodes_list (srv w))
  = map (fun m => if i =? id m then Node.set_flag RAFT_NODE_VOTING m else m) (members w).
Proof.
  intros W Ha Hn Hi. apply (members_write _ _ _ n); [apply (nw_nodup _ W)|done|].
  intros b m Hb Hm. case_decide as Hba.
  - subst. assert (m = n) as -> by congruence. by rewrite Hi.
  - destruct (Z.eqb_spec i (id m)) as [Him|]; [|done]. exfalso. apply Hba.
    apply Z.eqb_eq in Hi. apply (nw_ids _ W b a i); unfold node_id_at; rewrite ?Hm, ?Hn; cbn; congruence.
Qed.

(** [raft_add_node] implements [add_member]. *)
Lemma raft_add_node_ok w i is_self :
  nodes_wf w ->
  exists p w', raft_add_node i is_self w = Ok p w' /\ nodes_wf w' /\
    (nodes_list (srv w) ⊆ nodes_list (srv w') /\
     (is_self = false -> node (srv w') = node (srv w)) /\
     forall b, b ∈ nodes_list (srv w) -> node_id_at w' b = node_id_at w b) /\
    match add_member i (members w) with
    | None => p = None /\ w' = w
    | Some ms =>
        members w' = ms /\
        exists a n, p = Some a /\ a ∈ nodes_list (srv w') /\ node_heap w' !! a = Some n /\
          id n = i /\ Node.is_voting n = true /\
          (a ∉ nodes_list (srv w) -> is_self = true -> node (srv w') = Some a)
    end.
Proof.
  intros W. pose proof INT_MAX_ge. unfold raft_add_node.
  rewrite (bind_ok_l _ _ _ _ _ (raft_get_node_ok w W i)).
  pose proof (members_find w (fun n => i =? id n) _ (nw_heap _ W)) as Hf. unfold add_member.
  destruct (List.find _ (nodes_list (srv w))) as [a|].
  - destruct Hf as (n & Ha & Hn & Hf). unfold members. rewrite Hf.
    apply List.find_some in Hf as [_ Hi]. unfold raft_node_is_voting.
    rewrite (bind_ok_l _ _ _ _ _ (node_read_ok _ _ _ _ Hn)).
    destruct (Node.is_voting n) eqn:Hv; cbn [negb]; [by exists None, w; split_and!|].
    unfold raft_node_set_voting.
    rewrite bind_assoc, (bind_ok_l _ _ _ _ _ (node_get_ok _ _ _ Hn)).
    unfold Node.set_voting. rewrite Hv. cbn [negb]. unfold node_put. rewrite bind_modify_l.
    eexists _, _. split; [reflexivity|].
    split; [|split; [split_and!; [done..|intros b _; by apply (node_put_id _ _ n)]|split]].
    + eapply nodes_wf_ids; try done. by apply (node_put_id _ _ n).
    + exact (members_promote w a n i W Ha Hn Hi).
    + exists a, (Node.set_flag RAFT_NODE_VOTING n). cbn. rewrite lookup_insert_eq.
      split_and!; try done; [by apply Z.eqb_eq in Hi|].
      unfold Node.is_voting, RAFT_NODE_VOTING. by rewrite NodeFacts.has_set_flag.
  - fold (members w) in Hf. rewrite Hf, members_length by done.
    pose proof (raft_node_new_ok w i W) as Hnew. case_decide as Hfull.
    { rewrite (bind_ok_l _ _ _ _ _ Hnew). by exists None, w; split_and!. }
    destruct Hnew as (a & pool & Ha & Hu & Hn & Hnew).
    rewrite (bind_ok_l _ _ _ _ _ Hnew), bind_upd_srv_l, bind_gets_l, bind_int_chk_l.
    pose proof (nw_bound _ W). unfold MAX_NODES in *. pose proof (nw_num _ W) as Hnum.
    cbn [srv with_srv with_node_heap with_raft_nodes_mem num_nodes with_nodes_list].
    rewrite int_ok_nonneg by lia. rewrite bind_upd_srv_l.
    match goal with |- context [_ ?w2 = Ok _ _] =>
      exists (Some a), (if is_self then with_srv (with_node (Some a) (srv w2)) w2 else w2) end.
    split; [destruct is_self; reflexivity|].
    rewrite list_add_fresh by done. split; [|split; [|split]].
    + eapply (nodes_wf_add w _ i a); try done; try (by destruct is_self). unfold MAX_NODES. lia.
    + split_and!; [destruct is_self; cbn; set_solver +|by destruct is_self|]. intros b Hb.
      unfold node_id_at. destruct is_self; cbn; rewrite lookup_insert_ne by (intros ->; done); done.
    + destruct is_self; by apply members_snoc.
    + exists a, (Node.init i). destruct is_self; cbn; rewrite lookup_insert_eq;
        split_and!; try done; set_solver +.
Qed.

(** The specification of a sequence of additions, the refused ones skipped. *)
Definition add_members (ids : list Z) (ms : list raft_node_private_t) :=
  foldl (fun ms i => default ms (add_member i ms)) ms ids.

Lemma raft_add_nodes_run ids w :
  nodes_wf w ->
  exists w', foreach ids (fun i => let! _ := raft_add_node i false in ret tt) w = Ok tt w' /\
    nodes_wf w' /\ members w' = add_members ids (members w) /\
    nodes_list (srv w) ⊆ nodes_list (srv w') /\ node (srv w') = node (srv w) /\
    (forall b, b ∈ nodes_list (srv w) -> node_id_at w' b = node_id_at w b).
Proof.
  revert w. induction ids as [|i ids IH]; intros w W; [by exists w|].
  destruct (raft_add_node_ok w i false W) as (p & w1 & H1 & W1 & (I1 & N1 & D1) & M1).
  cbn [foreach]. rewrite bind_assoc, (bind_ok_l _ _ _ _ _ H1), bind_ret_l.
  destruct (IH w1 W1) as (w2 & H2 & W2 & M2 & I2 & N2 & D2). exists w2.
  split_and!; try done; [|by etrans|by rewrite N2, N1|intros b Hb; rewrite D2, D1; auto].
  rewrite M2. unfold add_members. cbn [foldl]. f_equal.
  destruct (add_member i (members w)) as [ms|]; cbn; [apply M1|by destruct M1 as [_ ->]].
Qed.

(** C33: any sequence of calls of [raft_add_node], refused ones included, is
    total and implements [add_members]: a new id is appended as an active voting
    node, a non-voting node is promoted, a voting node that is already there and
    an eighth node are refused without effect.  Ids stay unique, at most seven,
    and the bookkeeping of the list and the pool stays in order. *)
Theorem raft_add_nodes_refines ids w :
  nodes_wf w ->
  exists w', foreach ids (fun i => let! _ := raft_add_node i false in ret tt) w = Ok tt w' /\
    nodes_wf w' /\ members w' = add_members ids (members w) /\
    NoDup (map id (members w')) /\ (length (members w') <= MAX_NODES)%nat.
Proof.
  intros W. destruct (raft_add_nodes_run ids w W) as (w' & H & W' & M & _).
  exists w'. split_and!; try done; [by apply members_ids|].
  rewrite members_length by done. apply (nw_bound _ W').
Qed.
End Adding.

(** ** Removing nodes *)
Section Removing.
Context {T : CTarget} {C : Contiki} {L : ContikiLaws C} {U : User}.

Lemma members_remove h l1 a l2 n : NoDup (l1 ++ a :: l2) -> h !! a = Some n ->
  (forall b m, b ∈ l1 ++ a :: l2 -> h !! b = Some m -> id m = id n -> b = a) ->
  members_of h (l1 ++ l2)
  = List.filter (fun m => negb (id n =? id m)) (members_of h (l1 ++ a :: l2)).
Proof.
  intros (H1 & H2 & [H3 _]%NoDup_cons)%NoDup_app Hn Hid. rewrite !members_app, List.filter_app.
  assert (forall l, (a ∉ l) -> (forall b, b ∈ l -> b ∈ l1 ++ a :: l2) ->
    List.filter (fun m => negb (id n =? id m)) (members_of h l) = members_of h l) as Hkeep.
  { unfold members_of. induction l as [|b l IH]; intros Ha Hl; [done|]. cbn.
    apply not_elem_of_cons in Ha as [Hb Ha].
    assert (b ∈ l1 ++ a :: l2) as Hin by (apply Hl; left).
    specialize (IH Ha (fun c Hc => Hl c ltac:(by right))).
    destruct (h !! b) as [m|] eqn:Hm; [|done]. cbn. destruct (Z.eqb_spec (id n) (id m)) as [Hi|].
    - exfalso. apply Hb. symmetry. by apply (Hid b m).
    - cbn. by f_equal. }
  rewrite Hkeep; [|set_solver|set_solver]. f_equal. unfold members_of at 2. cbn. rewrite Hn.
  cbn. rewrite Z.eqb_refl. cbn. symmetry. apply (Hkeep l2); [done|set_solver].
Qed.

Lemma nodes_wf_remove w w' l1 a l2 : nodes_wf w -> nodes_list (srv w) = (l1 ++ a :: l2) ->
  nodes_list (srv w') = (l1 ++ l2) -> num_nodes (srv w') = num_nodes (srv w) - 1 ->
  node_heap w' = node_heap w -> memb_used (raft_nodes_mem w') = memb_used (raft_nodes_mem w) ∖ {[a]} ->
  memb_num (raft_nodes_mem w') = MAX_NODES -> nodes_wf w'.
Proof.
  intros [] Hl H1 H2 H3 H4 H5. rewrite Hl in *.
  assert (forall b, b ∈ l1 ++ l2 -> b ∈ l1 ++ a :: l2) as Hsub by set_solver +.
  rewrite length_app in *. cbn in nw_num0, nw_bound0.
  apply NoDup_app in nw_nodup0 as (N1 & N2 & [N3 N4]%NoDup_cons).
  constructor; rewrite ?H1, ?H2, ?H4, ?H5, ?H3, ?length_app; try done; try lia.
  - apply NoDup_app. split_and!; [done|set_solver +N2|done].
  - eauto.
  - unfold node_id_at in *. rewrite H3. intros b c i Hb Hc. apply nw_ids0; auto.
  - rewrite nw_used0. apply leibniz_equiv. set_solver +N2 N3.
Qed.

Lemma raft_remove_node_run w a n :
  nodes_wf w -> a ∈ nodes_list (srv w) -> node_heap w !! a = Some n ->
  exists w', raft_remove_node (Some a) w = Ok tt w' /\
    num_nodes (srv w') = num_nodes (srv w) - 1 /\ (a ∉ memb_used (raft_nodes_mem w')) /\
    if decide (head (nodes_list (srv w)) = Some a)
    then nodes_list (srv w') = nodes_list (srv w) /\ node_heap w' = node_heap w
    else (nodes_wf w' /\ node (srv w') = node (srv w) /\ node_heap w' = node_heap w /\
          entry_heap w' = entry_heap w /\ cb (srv w') = cb (srv w) /\
          forall b, b ∈ nodes_list (srv w) -> b <> a -> b ∈ nodes_list (srv w')) /\
         members w' = List.filter (fun m => negb (id n =? id m)) (members w).
Proof.
  intros W Ha Hn. pose proof INT_MAX_ge. pose proof (nw_bound _ W) as Hb.
  pose proof (nw_num _ W) as Hnum. pose proof (nw_nodup _ W) as Hnd.
  unfold MAX_NODES in Hb. unfold raft_remove_node. cbn [is_Some].
  rewrite bind_assert_l, bool_decide_eq_true_2, bind_gets_l by by eexists.
  destruct (memb_free_spec (raft_nodes_mem w) a) as [Hu Hm].
  { rewrite (nw_used _ W). by apply elem_of_list_to_set. }
  destruct (nodes_list (srv w)) as [|h rest] eqn:Hl; [by apply not_elem_of_nil in Ha|].
  rewrite bind_upd_srv_l, bind_int_chk_l. cbn [srv with_srv num_nodes with_nodes_list].
  cbn in Hnum, Hb. rewrite int_ok_nonneg by lia. rewrite bind_upd_srv_l.
  eexists. split; [reflexivity|]. cbn. split; [done|]. split; [rewrite Hu; set_solver +|].
  apply NoDup_cons in Hnd as [Hh Hnd].
  case_decide as Hhead; [injection Hhead as ->; by rewrite list_remove_absent|].
  apply elem_of_cons in Ha as [->|(l1 & l2 & ->)%list_elem_of_split]; [done|].
  assert (a ∉ l1) as Hal.
  { apply NoDup_app in Hnd as (_ & Hd & _). intros Hc. apply (Hd a Hc). left. }
  rewrite (list_remove_present l1 a l2 Hal) in *. split; [split_and!|].
  - apply (nodes_wf_remove w _ (h :: l1) a l2); try done; cbn; by rewrite Hm, (nw_pool _ W).
  - done.
  - done.
  - done.
  - done.
  - cbn. set_solver +.
  - unfold members. cbn [srv with_srv nodes_list with_num_nodes with_nodes_list node_heap
      with_raft_nodes_mem]. rewrite Hl.
    apply (members_remove _ (h :: l1) a l2 n); [by apply NoDup_cons|done|].
    intros b m Hbm Hm' Hi. apply (nw_ids _ W b a (id n)); rewrite ?Hl; [done|set_solver +| |];
      unfold node_id_at; rewrite ?Hn, ?Hm'; cbn; congruence.
Qed.

(** [raft_remove_node] removes a node from the list of members and gives
    its block back, except when the node is the first of the list: then the
    block is given back and the count decreased, but the node stays linked. *)
Theorem raft_remove_node_spec w a n :
  nodes_wf w -> a ∈ nodes_list (srv w) -> node_heap w !! a = Some n ->
  exists w', raft_remove_node (Some a) w = Ok tt w' /\
    num_nodes (srv w') = num_nodes (srv w) - 1 /\ (a ∉ memb_used (raft_nodes_mem w')) /\
    if decide (head (nodes_list (srv w)) = Some a)
    then nodes_list (srv w') = nodes_list (srv w)
    else nodes_wf w' /\
         members w' = List.filter (fun m => negb (id n =? id m)) (members w).
Proof.
  intros W Ha Hn. destruct (raft_remove_node_run w a n W Ha Hn) as (w' & H & H1 & H2 & H3).
  exists w'. split_and!; try done. case_decide; [by destruct H3|]. split; apply H3.
Qed.
End Removing.

(** ** Checking by computation, and witnesses *)
Section Computing.
Context {T : CTarget} {C : Contiki} {U : User}.

Definition nodes_wfb (w : world) : bool :=
  bool_decide (NoDup (nodes_list (srv w)))
  && forallb (fun a => bool_decide (is_Some (node_heap w !! a))) (nodes_list (srv w))
  && bool_decide (NoDup (map (node_id_at w) (nodes_list (srv w))))
  && (num_nodes (srv w) =? Z.of_nat (length (nodes_list (srv w))))
  && bool_decide (memb_used (raft_nodes_mem w) = list_to_set (nodes_list (srv w)))
  && (memb_num (raft_nodes_mem w) =? MAX_NODES)%nat
  && (length (nodes_list (srv w)) <=? MAX_NODES)%nat.

Lemma nodes_wfb_sound w : nodes_wfb w = true -> nodes_wf w.
Proof.
  unfold nodes_wfb. rewrite !andb_true_iff, !bool_decide_eq_true, Z.eqb_eq, Nat.eqb_eq, Nat.leb_le.
  intros ((((((H1 & H2) & H3) & H4) & H5) & H6) & H7). constructor; try done.
  - intros a Ha%list_elem_of_In. rewrite forallb_forall in H2. specialize (H2 a Ha).
    by apply bool_decide_eq_true in H2.
  - intros a b i [x Hx]%list_elem_of_lookup [y Hy]%list_elem_of_lookup Ha Hb.
    assert (x = y) as ->; [|congruence].
    eapply NoDup_lookup; [exact H3| |]; rewrite list_lookup_fmap, ?Hx, ?Hy; cbn;
      by rewrite ?Ha, ?Hb.
Qed.
End Computing.

Lemma sim3_nodes_wf : nodes_wf sim3.
Proof. apply nodes_wfb_sound. vm_compute. reflexivity. Qed.

(** Node 2 is there already; nodes 4 to 7 join, node 8 finds no room. *)
Lemma raft_add_nodes_refines_witness :
  nodes_wf sim3 /\
  exists w', foreach [2; 4; 5; 6; 7; 8] (fun i => let! _ := raft_add_node i false in ret tt) sim3
      = Ok tt w' /\
    nodes_wf w' /\ members w' = add_members [2; 4; 5; 6; 7; 8] (members sim3) /\
    NoDup (map id (members w')) /\ (length (members w') <= MAX_NODES)%nat.
Proof.
  split; [exact sim3_nodes_wf|].
  apply (raft_add_nodes_refines [2; 4; 5; 6; 7; 8] sim3 sim3_nodes_wf).
Defined.

(** The server's own node, the first of the list, is removed: its block is
    free and still linked. *)
Lemma raft_remove_node_spec_witness :
  exists w', raft_remove_node (Some 1%positive) sim3 = Ok tt w' /\
    num_nodes (srv w') = 2 /\ (1%positive ∉ memb_used (raft_nodes_mem w')) /\
    nodes_list (srv w') = [1; 2; 3]%positive.
Proof.
  apply (raft_remove_node_spec sim3 1%positive (Node.init 1)).
  - exact sim3_nodes_wf.
  - vm_compute. left.
  - vm_compute. reflexivity.
Defined.
