(* ===== verification/ElectionFacts.v ===== *)
(** * Properties of elections

    Vote counting and quorums, the randomised timeout, the decision to grant a
    vote, and the ways a server changes its role. *)
From S2P Require Import Prelude Contiki Types Node Membership Log Server Election Replication.
From S2P Require Import Sim NodeFacts Frames History LogFacts MemberFacts.

(** ** Quorums *)
Section Quorum.

Lemma quot_half n : 0 <= n -> 2 * Z.quot n 2 <= n < 2 * (Z.quot n 2 + 1).
Proof. intros Hn. rewrite Z.quot_div_nonneg by lia. pose proof (Z.div_mod n 2). pose proof (Z.mod_pos_bound n 2). lia. Qed.

Lemma raft_votes_is_majority_iff n v : 0 <= n ->
  raft_votes_is_majority n v = true <-> v <= n /\ n < 2 * v.
Proof.
  intros Hn. pose proof (quot_half n Hn). unfold raft_votes_is_majority.
  destruct (Z.ltb_spec n v); [split; [done|lia]|]. rewrite Z.leb_le. lia.
Qed.

(** Two sets of voters that [raft_votes_is_majority] accepts as majorities
    of the same voting nodes have a member in common. *)
Theorem raft_votes_is_majority_quorum (voting q1 q2 : gset Z) :
  q1 ⊆ voting -> q2 ⊆ voting ->
  raft_votes_is_majority (Z.of_nat (stdpp.base.size voting)) (Z.of_nat (stdpp.base.size q1)) = true ->
  raft_votes_is_majority (Z.of_nat (stdpp.base.size voting)) (Z.of_nat (stdpp.base.size q2)) = true ->
  exists x, x ∈ q1 ∩ q2.
Proof.
  intros H1 H2 [_ M1]%raft_votes_is_majority_iff [_ M2]%raft_votes_is_majority_iff; try lia.
  destruct (decide (q1 ∩ q2 = ∅)) as [Hd|[x Hx]%set_choose_L]; [|by exists x].
  assert (stdpp.base.size (q1 ∪ q2) <= stdpp.base.size voting)%nat as Hle.
  { apply subseteq_size. set_solver. }
  rewrite size_union in Hle by set_solver. lia.
Qed.
End Quorum.

(** ** The randomised timeout *)
Section Timeout.
Context {T : CTarget} {C : Contiki} {L : ContikiLaws C} {U : User}.

Lemma random_timeout_ok et r (w : world) :
  0 < et -> 2 * et <= INT_MAX + 1 -> 0 <= r <= 65535 ->
  exists t, random_timeout et r w = Ok t w /\ et <= t < 2 * et.
Proof.
  intros H1 H2 H3. unfold random_timeout. destruct (Z.eqb_spec et 0); [lia|].
  destruct (Z.ltb_spec 16 int_bits).
  - pose proof (Z.rem_bound_pos r et). unfold int_chk. rewrite int_ok_nonneg by lia.
    eexists. split; [done|]. lia.
  - rewrite (to_uint_small et) by lia. pose proof (Z.mod_pos_bound r et).
    rewrite to_uint_small, to_int_small by lia. eexists. split; [done|]. lia.
Qed.

Definition timer_ok (w : world) : Prop :=
  0 < election_timeout (srv w) /\ 2 * election_timeout (srv w) <= INT_MAX + 1.

Lemma log_msg_ok p w : exists u, log_msg p w = Ok tt (with_user_data u w).
Proof.
  unfold log_msg. rewrite bind_gets_l. destruct (log_message (cb (srv w))).
  - by eexists.
  - exists (user_data w). by destruct w.
Qed.

Lemma raft_randomize_election_timeout_ok w : timer_ok w ->
  exists w', raft_randomize_election_timeout w = Ok tt w' /\
    election_timeout (srv w) <= election_timeout_rand (srv w') < 2 * election_timeout (srv w).
Proof.
  intros [H1 H2]. unfold raft_randomize_election_timeout. rewrite !bind_gets_l.
  destruct (random_rand (rand_state w)) as [r g] eqn:Hr.
  pose proof (random_rand_range (rand_state w)) as Hrange. rewrite Hr in Hrange.
  rewrite bind_modify_l.
  destruct (random_timeout_ok (election_timeout (srv w)) r (with_rand_state g w))
    as (t & Ht & Hb); try done.
  rewrite (bind_ok_l _ _ _ _ _ Ht), bind_upd_srv_l.
  match goal with |- context [log_msg None ?w1] => destruct (log_msg_ok None w1) as [u Hu] end.
  rewrite Hu. by eexists.
Qed.

Lemma bind_set_follower {B} (k : unit -> M world B) w :
  bind (raft_set_state RAFT_STATE_FOLLOWER) k w
  = k tt (with_srv (with_state RAFT_STATE_FOLLOWER (srv w)) w).
Proof. reflexivity. Qed.

Lemma raft_become_follower_ok w : timer_ok w ->
  exists w', raft_become_follower w = Ok tt w' /\ state (srv w') = RAFT_STATE_FOLLOWER /\
    timeout_elapsed (srv w') = 0 /\
    election_timeout (srv w) <= election_timeout_rand (srv w') < 2 * election_timeout (srv w).
Proof.
  intros Ht. unfold raft_become_follower.
  destruct (log_msg_ok None w) as [u Hu]. rewrite (bind_ok_l _ _ _ _ _ Hu).
  rewrite bind_set_follower.
  match goal with |- context [bind raft_randomize_election_timeout _ ?w1] =>
    destruct (raft_randomize_election_timeout_ok w1 Ht) as (w2 & H2 & Hb) end.
  rewrite (bind_ok_l _ _ _ _ _ H2). eexists. split; [reflexivity|]. cbn.
  run_keeps H2 (same (fun w => state (srv w))) as Hs. split_and!; [exact Hs|done|..]; apply Hb.
Qed.
End Timeout.

(** ** The decision to grant a vote *)
Section Granting.
Context {T : CTarget} {C : Contiki} {L : ContikiLaws C} {U : User}.

(** The term of the last entry, 0 for an empty log. *)
Definition al_last_term (a : alog) : Z :=
  match al_get a (al_last a) with Some e => ety_term e | None => 0 end.

(** The log is empty or still holds its last entry. *)
Definition al_ok (a : alog) : Prop :=
  al_last a = 0 \/ exists e, al_get a (al_last a) = Some e.

(** Raft's comparison of logs (section 5.4.1): the candidate's last entry has
    a later term, or the same term and an index at least as large. *)
Definition up_to_date (a : alog) (vr : msg_requestvote_t) : bool :=
  (al_last a =? 0)
  || (al_last_term a <? to_uint (rv_last_log_term vr))
  || ((to_uint (rv_last_log_term vr) =? al_last_term a) && (al_last a <=? rv_last_log_idx vr)).

(** Whether the server is a voting member, as its own node says. *)
Definition self_voting (w : world) : bool :=
  match node (srv w) with Some s => node_sat w Node.is_voting s | None => false end.

Lemma raft_get_last_entry w a : log_repr w a -> al_last a <> 0 -> al_ok a ->
  exists p e, raft_get_entry_from_idx (al_last a) w = Ok (Some p) w /\
    entry_heap w !! p = Some e /\ ety_term e = al_last_term a.
Proof.
  intros R Hne [|[e He]]; [done|]. pose proof (lr_max _ _ R). pose proof (log_repr_bound _ _ R).
  pose proof (lr_last _ _ R). pose proof INT_MIN_MAX.
  destruct (log_get_at_idx_ok w a (al_last a) R ltac:(lia)) as (p & Hp & Hg).
  rewrite He in Hg. destruct Hg as (x & -> & Hx). exists x, e. split_and!; try done.
  unfold al_last_term. by rewrite He.
Qed.

(** The decision is the conjunction of Raft's conditions. *)
Lemma should_grant_vote_ok w a vr :
  nodes_wf w -> self_wf w -> log_repr w a -> al_ok a ->
  should_grant_vote vr w
  = Ok (self_voting w && (current_term (srv w) <=? rv_term vr)
        && (voted_for (srv w) =? -1) && up_to_date a vr) w.
Proof.
  intros W Self R Hok. unfold should_grant_vote.
  rewrite (bind_ok_l _ _ _ _ _ (raft_get_my_node_ok w W Self)).
  destruct Self as (s & Hs & Hin). destruct (nw_heap _ W s Hin) as [ns Hns].
  unfold self_voting, node_sat. rewrite Hs, Hns.
  unfold raft_node_is_voting. rewrite (bind_ok_l _ _ _ _ _ (node_read_ok _ _ _ _ Hns)).
  destruct (Node.is_voting ns); [|done]. cbn [negb andb].
  unfold raft_get_current_term, raft_already_voted. rewrite bind_gets_l.
  destruct (Z.ltb_spec (rv_term vr) (current_term (srv w))),
    (Z.leb_spec (current_term (srv w)) (rv_term vr)); try lia; [done|]. cbn [andb].
  rewrite bind_gets_l. destruct (voted_for (srv w) =? -1); [|done]. cbn [negb andb].
  unfold raft_get_current_idx.
  rewrite (bind_ok_l _ _ _ _ _ (log_get_current_idx_repr _ _ R)). unfold up_to_date.
  rewrite (Z.eqb_sym 0). destruct (Z.eqb_spec (al_last a) 0) as [|Hne]; [done|]. cbn [orb].
  destruct (raft_get_last_entry w a R Hne Hok) as (p & e & Hp & He & Ht).
  rewrite (bind_ok_l _ _ _ _ _ Hp), (bind_ok_l _ _ _ _ _ (entry_get_ok _ _ _ He)), Ht.
  by destruct (_ <? _).
Qed.

(** The user's functions that store the term and the vote succeed. *)
Definition persists (w : world) : Prop :=
  (forall f, persist_term (cb (srv w)) = Some f -> forall u t v, fst (f u t v) = 0) /\
  (forall f, persist_vote (cb (srv w)) = Some f -> forall u v, fst (f u v) = 0).

Lemma raft_set_current_term_ok w t : persists w ->
  exists w', raft_set_current_term t w = Ok 0 w' /\
    srv w' = (if current_term (srv w) <? t
              then with_voted_for (-1) (with_current_term t (srv w)) else srv w).
Proof.
  intros [Hp _]. unfold raft_set_current_term. rewrite bind_gets_l.
  destruct (_ <? _); [|by eexists].
  destruct (persist_term (cb (srv w))) as [f|] eqn:Hf.
  - unfold call. rewrite bind_assoc, bind_gets_l. cbv zeta. rewrite bind_assoc, bind_modify_l.
    rewrite bind_ret_l, (Hp f eq_refl). by eexists.
  - by eexists.
Qed.

Lemma raft_vote_for_nodeid_ok w i : persists w ->
  exists w', raft_vote_for_nodeid i w = Ok 0 w' /\ srv w' = with_voted_for i (srv w).
Proof.
  intros [_ Hp]. unfold raft_vote_for_nodeid. rewrite bind_gets_l.
  destruct (persist_vote (cb (srv w))) as [f|] eqn:Hf.
  - unfold call. rewrite bind_assoc, bind_gets_l. cbv zeta. rewrite bind_assoc, bind_modify_l.
    rewrite bind_ret_l, (Hp f eq_refl). by eexists.
  - by eexists.
Qed.

Lemma recv_requestvote_done_ok w p n e v : node_heap w !! p = Some n ->
  exists w', recv_requestvote_done (Some p) e v w
    = Ok (e, mk_requestvote_response (current_term (srv w)) v) w' /\ srv w' = srv w.
Proof.
  intros Hn. unfold recv_requestvote_done, raft_node_get_id.
  rewrite (bind_ok_l _ _ _ _ _ (node_read_ok _ _ _ _ Hn)).
  destruct (log_msg_ok (Some p) w) as [u Hu]. rewrite (bind_ok_l _ _ _ _ _ Hu). by eexists.
Qed.

(** A server that has not voted in the term of a request is a follower, so
    that granting is allowed. *)
Definition free_to_vote (w : world) (t : Z) : Prop :=
  current_term (srv w) = t -> voted_for (srv w) = -1 -> state (srv w) = RAFT_STATE_FOLLOWER.

Definition stands_or_leads (w : world) : bool :=
  bool_decide (state (srv w) = RAFT_STATE_CANDIDATE) || bool_decide (state (srv w) = RAFT_STATE_LEADER).

(** The answer of a server that refuses. *)
Definition refusal (p : ptr) : Z :=
  match p with None => RAFT_REQUESTVOTE_ERR_UNKNOWN_NODE | Some _ => 0 end.

Lemma recv_requestvote_decide_ok w a p vr :
  nodes_wf w -> self_wf w -> log_repr w a -> al_ok a -> persists w ->
  rv_term vr <= current_term (srv w) ->
  let granted := self_voting w && (current_term (srv w) <=? rv_term vr)
                 && (voted_for (srv w) =? -1) && up_to_date a vr in
  (granted = true -> stands_or_leads w = false) ->
  exists w', recv_requestvote_decide p vr w
    = recv_requestvote_done p 0 (if granted then 1 else refusal p) w' /\
    node_heap w' = node_heap w /\
    current_term (srv w') = current_term (srv w) /\ state (srv w') = state (srv w) /\
    voted_for (srv w') = if granted then rv_candidate_id vr else voted_for (srv w).
Proof.
  intros W Self R Hok Hp Hle granted Hfree. unfold recv_requestvote_decide.
  rewrite (bind_ok_l _ _ _ _ _ (should_grant_vote_ok w a vr W Self R Hok)). fold granted.
  destruct granted eqn:Hg; [|exists w; by destruct p].
  pose proof (Hfree eq_refl) as [Hc Hl]%orb_false_iff.
  unfold raft_is_leader, raft_is_candidate, raft_get_state.
  rewrite bind_assoc, bind_gets_l, bind_ret_l, Hl.
  rewrite bind_assoc, bind_gets_l, bind_ret_l, Hc, bind_assert_l. cbn [negb].
  destruct (raft_vote_for_nodeid_ok w (rv_candidate_id vr) Hp) as (w1 & Hw1 & Hs).
  run_keeps Hw1 (same node_heap) as Hh.
  rewrite (bind_ok_l _ _ _ _ _ Hw1), !bind_upd_srv_l, Z.eqb_refl.
  eexists. split; [reflexivity|]. cbn. by rewrite Hs.
Qed.

(** A server that would vote and is a leader or a candidate asserts. *)
Lemma recv_requestvote_decide_asserts w a p vr :
  nodes_wf w -> self_wf w -> log_repr w a -> al_ok a ->
  self_voting w && (current_term (srv w) <=? rv_term vr)
    && (voted_for (srv w) =? -1) && up_to_date a vr = true ->
  stands_or_leads w = true ->
  recv_requestvote_decide p vr w = Fault AssertFailed.
Proof.
  intros W Self R Hok Hg Hst. unfold recv_requestvote_decide.
  rewrite (bind_ok_l _ _ _ _ _ (should_grant_vote_ok w a vr W Self R Hok)), Hg.
  unfold raft_is_leader, raft_is_candidate, raft_get_state.
  rewrite bind_assoc, bind_gets_l, bind_ret_l. unfold stands_or_leads in Hst.
  destruct (bool_decide (state (srv w) = RAFT_STATE_LEADER)); [by rewrite bind_ret_l, bind_assert_l|].
  rewrite orb_false_r in Hst. by rewrite bind_assoc, bind_gets_l, bind_ret_l, Hst, bind_assert_l.
Qed.

(** What a vote request does: the later term is adopted first. *)
Definition newer (w : world) (vr : msg_requestvote_t) : bool :=
  current_term (srv w) <? rv_term vr.
Definition grants (w : world) (a : alog) (vr : msg_requestvote_t) : bool :=
  self_voting w && (current_term (srv w) <=? rv_term vr)
  && (newer w vr || (voted_for (srv w) =? -1)) && up_to_date a vr.

(** A server that is to grant its vote in its own term must not stand or lead. *)
Definition may_grant (w : world) (a : alog) (vr : msg_requestvote_t) : bool :=
  negb (grants w a vr) || newer w vr || negb (stands_or_leads w).

Lemma free_may_grant w a vr : free_to_vote w (rv_term vr) -> may_grant w a vr = true.
Proof.
  intros H. unfold may_grant. destruct (grants w a vr) eqn:Hg; [|done].
  destruct (newer w vr) eqn:Hn; [done|]. cbn [negb orb].
  unfold grants in Hg. rewrite Hn in Hg. cbn [orb] in Hg. unfold newer in Hn.
  rewrite !andb_true_iff, Z.eqb_eq, Z.leb_le in Hg. apply Z.ltb_ge in Hn.
  unfold stands_or_leads. by rewrite (H ltac:(lia) ltac:(apply Hg)).
Qed.

(** The log, the members, the commit and applied indices. *)
Definition stable_state (w : world) :=
  (log_state w, node_state w, commit_idx (srv w), last_applied_idx (srv w),
   voting_cfg_change_log_idx (srv w)).

(** The preconditions under which a server runs: its structures are in order
    and the user's functions that store its term and vote succeed. *)
Record server_ok (w : world) (a : alog) : Prop := {
  so_nodes : nodes_wf w;
  so_self : self_wf w;
  so_log : log_repr w a;
  so_last : al_ok a;
  so_timer : timer_ok w;
  so_persists : persists w
}.

(** The settings of a server, which the protocol does not change. *)
Definition settings (w : world) := (cb (srv w), election_timeout (srv w), request_timeout (srv w)).

Lemma server_ok_same w w' a : stable_state w' = stable_state w -> settings w' = settings w ->
  server_ok w a -> server_ok w' a.
Proof.
  unfold stable_state, settings. intros HS HT [].
  assert (log_state w' = log_state w /\ node_state w' = node_state w) as [E1 E2] by (split; congruence).
  assert (cb (srv w') = cb (srv w) /\ election_timeout (srv w') = election_timeout (srv w))
    as [E3 E4] by (split; congruence).
  split; [by eapply nodes_wf_same|by eapply self_wf_same|by eapply log_repr_same|done| |].
  - unfold timer_ok. by rewrite E4.
  - unfold persists. by rewrite E3.
Qed.

(** Up to its label [done], the handler is total. *)
Lemma raft_recv_requestvote_run w a p vr :
  server_ok w a -> may_grant w a vr = true ->
  (p = None -> List.find (node_sat w (fun n => rv_candidate_id vr =? id n))
                 (nodes_list (srv w)) = None) ->
  exists w', raft_recv_requestvote p vr w
    = recv_requestvote_done p 0 (if grants w a vr then 1 else refusal p) w' /\
    node_heap w' = node_heap w /\
    current_term (srv w') = Z.max (current_term (srv w)) (rv_term vr) /\
    state (srv w') = (if newer w vr then RAFT_STATE_FOLLOWER else state (srv w)) /\
    voted_for (srv w') = (if grants w a vr then rv_candidate_id vr
                          else if newer w vr then -1 else voted_for (srv w)).
Proof.
  intros Sok Hmay Hunk. unfold may_grant in Hmay.
  unfold raft_recv_requestvote, raft_get_current_term, grants, newer in *.
  erewrite bind_ok_l.
  2: { instantiate (1 := w). instantiate (1 := p). destruct p; [done|].
       rewrite raft_get_node_ok by apply Sok. by rewrite Hunk. }
  rewrite bind_gets_l.
  destruct (Z.ltb_spec (current_term (srv w)) (rv_term vr)) as [Hlt|Hge].
  2: { destruct Sok. destruct (recv_requestvote_decide_ok w a p vr) as (w4 & H4 & Hh & Ht & Hst & Hv);
         try done. { intros Hg. cbn [orb] in Hmay. rewrite Hg in Hmay. by apply negb_true_iff in Hmay. }
       rewrite H4. exists w4. split_and!; try done. lia. }
  destruct (raft_set_current_term_ok w (rv_term vr) (so_persists _ _ Sok)) as (w1 & H1 & Hs1).
  destruct (Z.ltb_spec (current_term (srv w)) (rv_term vr)); [|lia].
  rewrite (bind_ok_l _ _ _ _ _ H1). cbn [truth Z.eqb negb].
  run_keeps H1 (same stable_state) as K1. run_keeps H1 (same settings) as K1'.
  run_keeps H1 (same node_heap) as K1n.
  destruct (server_ok_same _ _ _ K1 K1' Sok) as [_ _ _ _ Hto _].
  destruct (raft_become_follower_ok w1 Hto) as (w2 & H2 & St2 & _).
  run_keeps H2 (same stable_state) as K2. run_keeps H2 (same settings) as K2'.
  run_keeps H2 (same (fun w => (current_term (srv w), voted_for (srv w)))) as K2t.
  run_keeps H2 (same node_heap) as K2n.
  rewrite (bind_ok_l _ _ _ _ _ H2), bind_upd_srv_l.
  set (w3 := with_srv _ w2).
  assert (server_ok w3 a) as [W3 S3 R3 L3 _ P3].
  { apply (server_ok_same w2); try done. apply (server_ok_same w1); try done.
    by apply (server_ok_same w). }
  unfold same in *. rewrite Hs1 in K2t. injection K2t as Ht2 Hv2. cbn in Ht2, Hv2.
  assert (current_term (srv w3) = rv_term vr /\ voted_for (srv w3) = -1
    /\ state (srv w3) = RAFT_STATE_FOLLOWER /\ node_heap w3 = node_heap w)
    as (Ht3 & Hv3 & Hst3 & Hh3) by (split_and!; cbn; congruence).
  destruct (recv_requestvote_decide_ok w3 a p vr) as (w4 & H4 & Hh & Ht & Hst & Hv); try done.
  { lia. }
  { intros _. unfold stands_or_leads. by rewrite Hst3. }
  assert (self_voting w3 = self_voting w) as Hsv.
  { unfold self_voting, node_sat. rewrite Hh3.
    assert (node (srv w3) = node (srv w)) as ->; [|done].
    unfold stable_state, node_state in K1, K2. cbn. congruence. }
  rewrite Hsv, Ht3, Hv3, Z.leb_refl, Z.eqb_refl in H4, Hv. rewrite H4.
  destruct (Z.leb_spec (current_term (srv w)) (rv_term vr)); [|lia].
  exists w4. split_and!; try done; [congruence|lia|congruence].
Qed.

Lemma raft_recv_requestvote_answers w a p n vr :
  server_ok w a -> node_heap w !! p = Some n -> may_grant w a vr = true ->
  let term' := Z.max (current_term (srv w)) (rv_term vr) in
  exists w', raft_recv_requestvote (Some p) vr w
    = Ok (0, mk_requestvote_response term' (of_bool (grants w a vr))) w' /\
    current_term (srv w') = term' /\
    voted_for (srv w') = (if grants w a vr then rv_candidate_id vr
                          else if newer w vr then -1 else voted_for (srv w)) /\
    state (srv w') = (if newer w vr then RAFT_STATE_FOLLOWER else state (srv w)) /\
    stable_state w' = stable_state w.
Proof.
  intros Sok Hn Hmay term'.
  destruct (raft_recv_requestvote_run w a (Some p) vr Sok Hmay) as (w1 & Hrun & Hh & Ht & Hs & Hv);
    [done|].
  destruct (recv_requestvote_done_ok w1 p n 0 (of_bool (grants w a vr))) as (w2 & Hd & Hs2).
  { by rewrite Hh. }
  assert (raft_recv_requestvote (Some p) vr w
    = Ok (0, mk_requestvote_response term' (of_bool (grants w a vr))) w2) as Hfull.
  { rewrite Hrun. unfold of_bool in Hd. cbn [refusal]. rewrite Hd. by rewrite Ht. }
  exists w2. rewrite Hs2. split_and!; try done. by run_keeps Hfull (same stable_state) as Hk.
Qed.

(** C15: a server whose persist functions answer 0 grants a vote request from a node
    in its memory exactly when its own node has the voting flag, the candidate's term
    is not older, the server has not voted in that term and the candidate's log is up
    to date.  The answer carries the server's term, which is the later of the two;
    a later term makes it a follower and frees its vote.  The log, the members and
    the commit index do not change.  The exception is a leader or candidate that has
    not voted in the term of the request (a lone server that [raft_periodic] made
    leader is one): when it is to grant its vote, an assertion fails. *)
Theorem raft_recv_requestvote_spec w a p n vr :
  server_ok w a -> node_heap w !! p = Some n ->
  let term' := Z.max (current_term (srv w)) (rv_term vr) in
  if may_grant w a vr then
    exists w', raft_recv_requestvote (Some p) vr w
      = Ok (0, mk_requestvote_response term' (of_bool (grants w a vr))) w' /\
      current_term (srv w') = term' /\
      voted_for (srv w') = (if grants w a vr then rv_candidate_id vr
                            else if newer w vr then -1 else voted_for (srv w)) /\
      state (srv w') = (if newer w vr then RAFT_STATE_FOLLOWER else state (srv w)) /\
      stable_state w' = stable_state w
  else raft_recv_requestvote (Some p) vr w = Fault AssertFailed.
Proof.
  intros Sok Hn term'. destruct (may_grant w a vr) eqn:Hm; [by apply (raft_recv_requestvote_answers w a p n)|].
  unfold may_grant in Hm. apply orb_false_iff in Hm as [[Hg%negb_false_iff Hnew]%orb_false_iff Hst].
  apply negb_false_iff in Hst. unfold grants in Hg. rewrite Hnew in Hg. cbn [orb] in Hg.
  unfold raft_recv_requestvote, raft_get_current_term. rewrite bind_ret_l, bind_gets_l.
  unfold newer in Hnew. rewrite Hnew. destruct Sok. by apply (recv_requestvote_decide_asserts w a).
Qed.

(** A vote request from a candidate the server does not know, for which
    the code prepares the answer UNKNOWN_NODE, ends in a read through a null
    pointer: the answer is never sent. *)
Theorem raft_recv_requestvote_unknown w a vr :
  server_ok w a -> free_to_vote w (rv_term vr) ->
  Forall (fun n => id n <> rv_candidate_id vr) (members w) ->
  raft_recv_requestvote None vr w = Fault NullDeref.
Proof.
  intros Sok Hfree Hunk.
  destruct (raft_recv_requestvote_run w a None vr Sok (free_may_grant w a vr Hfree)) as (w1 & Hrun & _).
  - intros _. pose proof (members_find w (fun n => rv_candidate_id vr =? id n) _
      (nw_heap _ (so_nodes _ _ Sok))) as Hf.
    destruct (List.find _ (nodes_list (srv w))) as [x|]; [|done].
    destruct Hf as (n & _ & _ & [Hin%list_elem_of_In Hi%Z.eqb_eq]%List.find_some).
    rewrite Forall_forall in Hunk. by destruct (Hunk n Hin).
  - by rewrite Hrun.
Qed.
End Granting.

(** ** Witnesses *)

Lemma raft_votes_is_majority_quorum_witness :
  exists x : Z, x ∈ ({[1; 2]} : gset Z) ∩ {[2; 3]}.
Proof.
  apply (raft_votes_is_majority_quorum {[1; 2; 3]} {[1; 2]} {[2; 3]}); [set_solver|set_solver| |];
    vm_compute; reflexivity.
Defined.

Lemma sim_persists w : cb (srv w) = sim_cbs -> persists w.
Proof. unfold persists. intros ->. split; intros f [= <-]; reflexivity. Qed.

(** Checking [server_ok] by computation. *)
Section Check.
Context {T : CTarget} {C : Contiki} {U : User}.
Definition server_okb (w : world) (a : alog) : bool :=
  nodes_wfb w
  && match node (srv w) with Some x => bool_decide (x ∈ nodes_list (srv w)) | None => false end
  && log_reprb w a
  && ((al_last a =? 0) || match al_get a (al_last a) with Some _ => true | None => false end)
  && (0 <? election_timeout (srv w)) && (2 * election_timeout (srv w) <=? INT_MAX + 1).

Lemma server_okb_check w a : persists w -> server_okb w a = true -> server_ok w a.
Proof.
  intros Hp. unfold server_okb.
  rewrite !andb_true_iff, orb_true_iff, Z.eqb_eq, Z.ltb_lt, Z.leb_le.
  intros (((((H1 & H2) & H3) & H4) & H5) & H6). split.
  - by apply nodes_wfb_sound.
  - unfold self_wf. destruct (node (srv w)) as [x|]; [|done]. exists x.
    by apply bool_decide_eq_true in H2.
  - by apply log_reprb_sound.
  - destruct H4 as [H4|H4]; [by left|right]. destruct (al_get a (al_last a)); [by eexists|done].
  - by split.
  - done.
Qed.
End Check.

Lemma server_okb_sound w a : cb (srv w) = sim_cbs -> server_okb w a = true -> server_ok w a.
Proof. intros Hcb. by apply server_okb_check, sim_persists. Qed.

Lemma sim3_ok : server_ok sim3 (mk_alog 0 []).
Proof. apply server_okb_sound; vm_compute; reflexivity. Qed.
Lemma sim_log3_ok : server_ok sim_log3 sim_alog3.
Proof. apply server_okb_sound; vm_compute; reflexivity. Qed.

(** Node 2 asks for the vote of a follower with three entries, in term 2. *)
Lemma raft_recv_requestvote_spec_witness :
  let vr := mk_requestvote 2 2 3 2 in
  grants sim_log3 sim_alog3 vr = true /\ newer sim_log3 vr = true /\
  if may_grant sim_log3 sim_alog3 vr then
  exists w', raft_recv_requestvote (Some 2%positive) vr sim_log3
      = Ok (0, mk_requestvote_response (Z.max (current_term (srv sim_log3)) 2)
                 (of_bool (grants sim_log3 sim_alog3 vr))) w' /\
    current_term (srv w') = Z.max (current_term (srv sim_log3)) 2 /\
    voted_for (srv w') = (if grants sim_log3 sim_alog3 vr then 2
                          else if newer sim_log3 vr then -1 else voted_for (srv sim_log3)) /\
    state (srv w') = (if newer sim_log3 vr then RAFT_STATE_FOLLOWER else state (srv sim_log3)) /\
    stable_state w' = stable_state sim_log3
  else raft_recv_requestvote (Some 2%positive) vr sim_log3 = Fault AssertFailed.
Proof.
  split; [vm_compute; reflexivity|]. split; [vm_compute; reflexivity|].
  apply (raft_recv_requestvote_spec sim_log3 sim_alog3 2%positive (Node.init 2)
           (mk_requestvote 2 2 3 2)).
  - exact sim_log3_ok.
  - vm_compute. reflexivity.
Defined.

(** A server whose only peer does not vote: [raft_periodic] makes it leader of its
    term without a vote, and a request of that term makes it assert. *)
Definition sim_lone : world := run_world
  (exec! sim_start sim_cbs 1 [] in
   let! _ := raft_add_non_voting_node 2 false in
   let! _ := raft_periodic 0 in ret tt) sim_boot.

Lemma lone_leader_asserts :
  state (srv sim_lone) = RAFT_STATE_LEADER /\
  raft_recv_requestvote (Some 2%positive) (mk_requestvote 0 2 0 0) sim_lone = Fault AssertFailed.
Proof. split; vm_compute; reflexivity. Qed.

Lemma raft_recv_requestvote_unknown_witness :
  raft_recv_requestvote None (mk_requestvote 1 9 0 0) sim3 = Fault NullDeref.
Proof.
  apply (raft_recv_requestvote_unknown sim3 (mk_alog 0 [])).
  - exact sim3_ok.
  - intros _ _. vm_compute. reflexivity.
  - vm_compute. repeat constructor; discriminate.
Defined.
