(* ===== verification/Roles.v ===== *)
(** * Roles: follower, candidate, leader

    [role_step] is the state machine of roles of the Raft paper (figure 4), and
    [role_transitions] shows that every call of the interface is one of its
    steps.  [election_by_majority] is the accounting of votes behind the step
    from candidate to leader. *)
From S2P Require Import Prelude Contiki Types Node Membership Log Server Election Replication.
From S2P Require Import Sim NodeFacts Frames History LogFacts MemberFacts ElectionFacts.

(** ** Observations that ignore the indices of nodes *)
Section Indices.
Context {T : CTarget} {C : Contiki} {U : User} {X : Type} (f : world -> X).

(** [f] does not depend on the [next_idx] and [match_idx] of nodes. *)
Class IgnIndices : Prop := ign_indices : forall w a n n',
  node_heap w !! a = Some n -> flags n' = flags n -> id n' = id n ->
  f (with_node_heap (<[a := n']> (node_heap w)) w) = f w.

Lemma node_write_indices `{!IgnIndices} g p :
  (forall n, flags (g n) = flags n /\ id (g n) = id n) -> keeps (same f) (node_write g p).
Proof.
  intros Hg w u w' Hw. unfold node_write in Hw. destruct p as [a|]; [|done].
  unfold node_get in Hw. run_simp Hw. destruct (node_heap w !! a) as [n|] eqn:Hn; [|done].
  run_simp Hw. injection Hw as _ <-. destruct (Hg n). by apply (ign_indices w a n).
Qed.

Lemma raft_become_leader_indices `{!IgnUser f, !IgnRole f, !IgnTimer f, !IgnIndices} :
  keeps (same f) raft_become_leader.
Proof.
  assert (forall v p, keeps (same f) (raft_node_set_next_idx p v)) as H1.
  { intros. by apply node_write_indices. }
  assert (forall v p, keeps (same f) (raft_node_set_match_idx p v)) as H2.
  { intros. by apply node_write_indices. }
  unfold raft_become_leader. unfold_accessors. keeps_solve.
Qed.
End Indices.

(** ** Roles *)
Section Roles.
Context {T : CTarget} {C : Contiki} {U : User}.

Definition role (w : world) : raft_state_e := state (srv w).
Definition role_of (w : world) : raft_state_e * Z := (role w, term_of w).

(** Everything the counting of votes depends on. *)
Definition ballot (w : world) :=
  ((fun n => (flags n, id n)) <$> node_heap w, nodes_list (srv w), node (srv w),
   voted_for (srv w), term_of w).

#[export] Instance ballot_indices : IgnIndices ballot.
Proof.
  intros w a n n' Hn H1 H2. unfold ballot. cbn. do 4 f_equal.
  rewrite fmap_insert, H1, H2. apply insert_id. by rewrite lookup_fmap, Hn.
Qed.

(** The step taken by one call of the interface. *)
(** Whether the node with the server's id has the flag of a voting member. *)
Definition own_voting (w : world) : bool :=
  existsb (node_sat w (fun n => (id n =? self_id w) && Node.is_voting n)) (nodes_list (srv w)).

Inductive role_step (w w' : world) : raft_op -> Prop :=
  | role_stays o : role_of w' = role_of w -> role_step w w' o
  | role_follows o :
      role w' = RAFT_STATE_FOLLOWER -> term_of w < term_of w' -> role_step w w' o
  | role_yields p ae :
      role w = RAFT_STATE_CANDIDATE -> role w' = RAFT_STATE_FOLLOWER ->
      term_of w' = term_of w -> ae_term ae = term_of w ->
      role_step w w' (OpRecvAppendentries p ae)
  | role_wins p r :
      role w = RAFT_STATE_CANDIDATE -> role w' = RAFT_STATE_LEADER ->
      term_of w' = term_of w -> rvr_term r = term_of w -> rvr_vote_granted r = 1 ->
      role_step w w' (OpRecvRequestvoteResponse p r)
  | role_alone n :
      role w <> RAFT_STATE_LEADER -> role w' = RAFT_STATE_LEADER ->
      term_of w' = term_of w -> length (voting_nodes w) = 1%nat -> own_voting w = true ->
      role_step w w' (OpPeriodic n)
  | role_stands n :
      role w <> RAFT_STATE_LEADER -> role w' = RAFT_STATE_CANDIDATE ->
      term_of w' = term_of w + 1 ->
      election_timeout_rand (srv w) <= timeout_elapsed (srv w) + n ->
      (1 < length (voting_nodes w))%nat -> own_voting w = true ->
      snapshot_in_progress (srv w) = 0 ->
      role_step w w' (OpPeriodic n).

Lemma raft_set_state_role st w u w' :
  raft_set_state st w = Ok u w' -> role w' = st /\ term_of w' = term_of w.
Proof.
  intros H. run_keeps H (same term_of) as Ht. split; [|done]. unfold raft_set_state in H.
  run_bind H as u1 w1 H1. by injection H as _ <-.
Qed.

Lemma raft_become_follower_role w u w' :
  raft_become_follower w = Ok u w' -> role w' = RAFT_STATE_FOLLOWER /\ term_of w' = term_of w.
Proof.
  intros H. run_keeps H (same term_of) as Ht. split; [|done]. unfold raft_become_follower in H.
  run_bind H as u1 w1 H1. run_bind H as u2 w2 H2. apply raft_set_state_role in H2 as [<- _].
  by run_keeps H (same role) as Hr.
Qed.

Lemma raft_become_leader_role w u w' :
  raft_become_leader w = Ok u w' -> role w' = RAFT_STATE_LEADER /\ term_of w' = term_of w.
Proof.
  intros H. run_keeps H (same term_of) as Ht. split; [|done]. unfold raft_become_leader in H.
  run_bind H as u1 w1 H1. run_bind H as u2 w2 H2. apply raft_set_state_role in H2 as [<- _].
  unfold raft_node_set_next_idx, raft_node_set_match_idx, raft_node_is_active, raft_get_current_idx in H.
  by run_keeps H (same role) as Hr.
Qed.

Lemma raft_vote_for_nodeid_term i : keeps (same term_of) (raft_vote_for_nodeid i).
Proof. by intros w e w' (H & _)%raft_vote_for_nodeid_spec. Qed.
Hint Resolve raft_vote_for_nodeid_term : keeps.
Lemma raft_vote_term p : keeps (same term_of) (raft_vote p).
Proof. unfold raft_vote, raft_node_get_id. keeps_solve. Qed.
Hint Resolve raft_vote_term : keeps.

Lemma raft_become_candidate_role w e w' :
  raft_become_candidate w = Ok e w' ->
  if decide (e = 0) then role w' = RAFT_STATE_CANDIDATE /\ term_of w' = term_of w + 1
  else role_of w' = role_of w.
Proof.
  intros H. unfold raft_become_candidate, raft_get_current_term in H.
  run_bind H as u1 w1 H1. run_keeps H1 (same role_of) as K1. run_simp H.
  destruct (int_ok _); [|done]. run_bind H as r w2 H2.
  run_keeps H2 (same role) as K2. apply raft_set_current_term_spec in H2. unfold truth in H.
  destruct (Z.eqb_spec r 0) as [->|Hr]; cbn [negb] in H.
  - rewrite decide_True in H2 by done. destruct H2 as (_ & _ & H2).
    rewrite decide_True in H2 by (unfold term_of; lia). destruct H2 as [Ht _].
    run_bind H as u3 w3 H3. run_keeps H3 (same term_of) as K3. run_simp H.
    run_bind H as v w4 H4. run_keeps H4 (same term_of) as K4. run_simp H.
    run_bind H as u5 w5 H5. apply raft_set_state_role in H5 as [Hst Ht5].
    assert (e = 0) as ->. { repeat run_bind H as ? ? ?. by run_ret H. }
    run_keeps H (same role_of) as K6.
    rewrite decide_True by done. unfold same, role_of in *. 
    assert (role w' = role w5 /\ term_of w' = term_of w5) as [-> ->] by (split; congruence).
    split; [done|]. unfold term_of in *. cbn in Ht5.
    assert (current_term (srv w1) = current_term (srv w)) by congruence. lia.
  - run_ret H. rewrite decide_False in * by done. unfold same, role_of, hist_of in *. congruence.
Qed.

(** *** Operations that do not change the role or the term *)
Lemma current_leader_role p : keeps (same role_of) (upd_srv (with_current_leader p)).
Proof. by apply keeps_same_modify. Qed.
Lemma raft_vote_for_nodeid_role i : keeps (same role_of) (raft_vote_for_nodeid i).
Proof.
  intros w e w' H. pose proof (raft_vote_for_nodeid_term i w e w' H) as Ht.
  run_keeps H (same role) as Hr. unfold same, role_of in *. congruence.
Qed.
Hint Resolve current_leader_role raft_vote_for_nodeid_role : keeps.
Lemma recv_requestvote_decide_role p vr : keeps (same role_of) (recv_requestvote_decide p vr).
Proof. unfold recv_requestvote_decide, raft_is_leader, raft_is_candidate, raft_get_state. keeps_solve. Qed.
Lemma recv_ae_prev_role p ae : keeps (same role_of) (recv_ae_prev p ae).
Proof. unfold recv_ae_prev. unfold_accessors. keeps_solve. Qed.
Hint Resolve recv_requestvote_decide_role recv_ae_prev_role : keeps.

(** A later term adopted, then the role of follower. *)
Lemma adopt_term_role t w e w' : raft_set_current_term t w = Ok e w' -> term_of w < t ->
  if decide (e = 0) then term_of w' = t else role_of w' = role_of w.
Proof.
  intros H Ht. run_keeps H (same role) as Hr. apply raft_set_current_term_spec in H.
  case_decide.
  - destruct H as (_ & _ & H). rewrite decide_True in H by done. apply H.
  - unfold same, role_of, hist_of in *. congruence.
Qed.

Lemma recv_appendentries_role p ae w r w' :
  raft_recv_appendentries p ae w = Ok r w' -> role_step w w' (OpRecvAppendentries p ae).
Proof.
  intros H. unfold raft_recv_appendentries in H. run_bind H as u w1 H1.
  assert (role_of w1 = role_of w) as K1.
  { unfold raft_get_current_idx in H1. by run_keeps H1 (same role_of) as K. }
  unfold raft_is_candidate, raft_get_state, raft_get_current_term in H. run_simp H.
  injection K1 as R1 T1. unfold role, term_of in R1, T1.
  destruct (bool_decide (state (srv w1) = RAFT_STATE_CANDIDATE)
            && (current_term (srv w1) =? ae_term ae)) eqn:Hc.
  - apply andb_true_iff in Hc as [Hc%bool_decide_eq_true Ht%Z.eqb_eq].
    run_bind H as u2 w2 H2. apply raft_become_follower_role in H2 as [R2 T2].
    run_keeps H (same role_of) as KR3; injection KR3 as R3 T3.
    apply role_yields; unfold role, term_of in *; congruence.
  - destruct (Z.ltb_spec (current_term (srv w1)) (ae_term ae)).
    + run_bind H as e w2 H2. apply adopt_term_role in H2; [|done]. unfold truth in H.
      destruct (Z.eqb_spec e 0) as [->|]; cbn [negb] in H.
      * rewrite decide_True in H2 by done. run_bind H as u3 w3 H3.
        apply raft_become_follower_role in H3 as [R3 T3].
        run_keeps H (same role_of) as KR4; injection KR4 as R4 T4.
        apply role_follows; [congruence|]. unfold term_of in *. lia.
      * rewrite decide_False in H2 by done. run_keeps H (same role_of) as KR4; injection KR4 as R4 T4.
        apply role_stays. unfold role_of, role, term_of in *. congruence.
    + apply role_stays. assert (role_of w' = role_of w1) as [= R4 T4].
      { destruct (ae_term ae <? _); by run_keeps H (same role_of) as K. }
      unfold role_of, role, term_of in *. congruence.
Qed.

Lemma recv_requestvote_role p vr w r w' :
  raft_recv_requestvote p vr w = Ok r w' -> role_step w w' (OpRecvRequestvote p vr).
Proof.
  intros H. unfold raft_recv_requestvote in H. run_bind H as q w1 H1.
  assert (w1 = w) as -> by (destruct p; [by run_ret H1|by apply raft_get_node_ro in H1]).
  unfold raft_get_current_term in H. run_simp H.
  destruct (Z.ltb_spec (current_term (srv w)) (rv_term vr)).
  - run_bind H as e w2 H2. apply adopt_term_role in H2; [|done]. unfold truth in H.
    destruct (Z.eqb_spec e 0) as [->|]; cbn [negb] in H.
    + rewrite decide_True in H2 by done. run_bind H as u3 w3 H3.
      apply raft_become_follower_role in H3 as [R3 T3].
      run_keeps H (same role_of) as KR4; injection KR4 as R4 T4.
      apply role_follows; [congruence|]. unfold term_of in *. lia.
    + rewrite decide_False in H2 by done. run_keeps H (same role_of) as K.
      apply role_stays. congruence.
  - apply role_stays. by run_keeps H (same role_of) as K.
Qed.

Lemma recv_appendentries_response_role p r w e w' :
  raft_recv_appendentries_response p r w = Ok e w' ->
  role_step w w' (OpRecvAppendentriesResponse p r).
Proof.
  intros H. unfold raft_recv_appendentries_response in H. unfold raft_get_current_idx at 1 in H.
  run_bind H as ci w0 H0. apply log_get_current_idx_ro in H0 as <-.
  run_bind H as u w1 H1. run_keeps H1 (same role_of) as KR1; injection KR1 as R1 T1.
  unfold raft_is_leader, raft_get_state, raft_get_current_term in H. run_simp H.
  assert (forall m, keeps (same role_of) (m : M world Z) -> m w1 = Ok e w' ->
    role_step w w' (OpRecvAppendentriesResponse p r)) as Hstay.
  { intros m Hm Hk%Hm. apply role_stays. unfold same, role_of, role, term_of in *. congruence. }
  destruct (negb _); [eapply Hstay, H; keeps_solve|]. run_simp H.
  destruct (Z.ltb_spec (current_term (srv w1)) (aer_term r)).
  - run_bind H as e1 w2 H2. apply adopt_term_role in H2; [|done]. unfold truth in H.
    destruct (Z.eqb_spec e1 0) as [->|]; cbn [negb] in H.
    + rewrite decide_True in H2 by done. run_bind H as u3 w3 H3.
      apply raft_become_follower_role in H3 as [R3 T3]. run_simp H. run_ret H.
      apply role_follows; [done|]. unfold term_of in *. cbn. lia.
    + rewrite decide_False in H2 by done. run_ret H.
      apply role_stays. unfold same, role_of, role, term_of in *. congruence.
  - eapply Hstay, H. unfold recv_aer_failure, recv_aer_success, raft_node_set_next_idx,
      raft_node_set_match_idx. unfold_accessors. keeps_solve.
Qed.

(** *** Votes *)

(** How a response to a vote request is handled, up to the counting. *)
Lemma recv_requestvote_response_cases p r w e w' :
  raft_recv_requestvote_response p r w = Ok e w' ->
  role_step w w' (OpRecvRequestvoteResponse p r) /\
  (role w <> RAFT_STATE_LEADER -> role w' = RAFT_STATE_LEADER ->
   exists w1 votes n w2, when (bool_decide (is_Some p)) (raft_node_vote_for_me p true) w1 = Ok tt w2 /\
     ballot w1 = ballot w /\ node_state w1 = node_state w /\
     raft_get_nvotes_for_me w2 = Ok votes w2 /\ raft_get_num_voting_nodes w2 = Ok n w2 /\
     raft_votes_is_majority n votes = true /\ ballot w' = ballot w2 /\
     nodes_list (srv w2) = nodes_list (srv w1)).
Proof.
  intros H. unfold raft_recv_requestvote_response in H.
  run_bind H as u w1 H1. run_keeps H1 (same role_of) as K1; injection K1 as R1 T1.
  run_keeps H1 (same ballot) as B1. run_keeps H1 (same node_state) as N1.
  unfold raft_is_candidate, raft_get_state, raft_get_current_term in H. run_simp H.
  assert (role_of w1 = role_of w) as RT by (unfold role_of; congruence).
  assert (role_of w' = role_of w1 ->
    role_step w w' (OpRecvRequestvoteResponse p r) /\
    (role w <> RAFT_STATE_LEADER -> role w' = RAFT_STATE_LEADER -> False)) as Hstay.
  { intros Heq. split; [apply role_stays; congruence|].
    unfold role_of in *. intros Hn Hl. apply Hn. congruence. }
  assert (forall A B P : Prop, (A /\ (B -> P -> False)) -> forall Q : Prop, A /\ (B -> P -> Q)) as Hex
    by tauto.
  destruct (bool_decide (state (srv w1) = RAFT_STATE_CANDIDATE)) eqn:Hc; cbn [negb] in H;
    [|run_ret H; by apply Hex, Hstay].
  apply bool_decide_eq_true in Hc.
  destruct (Z.ltb_spec (current_term (srv w1)) (rvr_term r)) as [Hlt|Hge].
  { run_bind H as e1 w2 H2. apply adopt_term_role in H2; [|done]. unfold truth in H.
    destruct (Z.eqb_spec e1 0) as [->|]; cbn [negb] in H.
    - rewrite decide_True in H2 by done. run_bind H as u3 w3 H3.
      apply raft_become_follower_role in H3 as [R3 T3]. run_simp H. run_ret H.
      apply Hex. split; [apply role_follows; [done|]; unfold term_of in *; cbn; lia|].
      intros _ Hl. unfold role in *. cbn in Hl. congruence.
    - rewrite decide_False in H2 by done. run_ret H. by apply Hex, Hstay. }
  destruct (Z.eqb_spec (current_term (srv w1)) (rvr_term r)) as [Ht|]; cbn [negb] in H;
    [|run_ret H; by apply Hex, Hstay].
  destruct (Z.eqb_spec (rvr_vote_granted r) RAFT_REQUESTVOTE_ERR_GRANTED) as [Hg|].
  2: { apply Hex, Hstay. unfold raft_node_is_voting in H. by run_keeps H (same role_of) as K. }
  run_bind H as u2 w2 H2. destruct u2.
  assert (role_of w2 = role_of w1 /\ nodes_list (srv w2) = nodes_list (srv w1)) as [K2 L2].
  { unfold raft_node_vote_for_me in H2.
    split; [by run_keeps H2 (same role_of) as K|by run_keeps H2 (same (fun w => nodes_list (srv w))) as K]. }
  run_bind H as votes w3 H3. apply raft_get_nvotes_for_me_ro in H3 as Hro. subst w3.
  run_bind H as n w3 H4. apply raft_get_num_voting_nodes_ro in H4 as Hro. subst w3.
  destruct (raft_votes_is_majority n votes) eqn:Hm; cbn [when] in H;
    [|run_simp H; run_ret H; by apply Hex, Hstay].
  run_bind H as u5 w5 H5. run_ret H. pose proof H5 as H5'.
  apply raft_become_leader_role in H5 as [R5 T5].
  assert (ballot w' = ballot w2) as B5 by exact (raft_become_leader_indices ballot _ _ _ H5').
  unfold role_of, role, term_of in *. split; [|intros; exists w1, votes, n, w2; split_and!; done].
  apply role_wins; unfold role, term_of; try done; congruence.
Qed.

(** *** What the ballot determines *)
Lemma node_sat_ballot w w' g a : ballot w' = ballot w ->
  (forall n n', flags n' = flags n -> id n' = id n -> g n' = g n) ->
  node_sat w' g a = node_sat w g a.
Proof.
  unfold ballot. intros [= Hh _ _ _ _] Hg. unfold node_sat.
  pose proof (f_equal (lookup a) Hh) as Ha. rewrite !lookup_fmap in Ha.
  destruct (node_heap w' !! a) as [n'|], (node_heap w !! a) as [n|]; try done.
  cbn in Ha. injection Ha as H1 H2. by apply Hg.
Qed.

Lemma votes_here_flags n n' : flags n' = flags n -> votes_here n' = votes_here n.
Proof.
  unfold votes_here, Node.is_active, Node.is_voting, Node.has_flag. by intros ->.
Qed.
Lemma has_vote_flags n n' : flags n' = flags n -> Node.has_vote_for_me n' = Node.has_vote_for_me n.
Proof. unfold Node.has_vote_for_me, Node.has_flag. by intros ->. Qed.

Lemma list_filter_ext {A} (f g : A -> bool) l :
  (forall x, f x = g x) -> List.filter f l = List.filter g l.
Proof. intros H. induction l as [|x l IH]; [done|]. cbn. by rewrite H, IH. Qed.

Lemma ballot_counts w w' : ballot w' = ballot w ->
  voting_nodes w' = voting_nodes w /\ voters_for_me w' = voters_for_me w /\
  self_id w' = self_id w /\ vote_of w' = vote_of w.
Proof.
  intros B. pose proof B as B'. unfold ballot in B'. injection B' as Hh Hl Hn Hv _.
  unfold voting_nodes, voters_for_me, self_id, vote_of, is_self_ptr. rewrite Hl, Hn, Hv.
  split_and!; try done.
  - apply list_filter_ext. intros a. apply (node_sat_ballot _ _ _ _ B). intros. by apply votes_here_flags.
  - apply list_filter_ext. intros a. f_equal. apply (node_sat_ballot _ _ _ _ B).
    intros n n' Hf _. by rewrite (votes_here_flags n n' Hf), (has_vote_flags n n' Hf).
  - destruct (node (srv w)) as [a|]; [|done]. unfold node_id_at.
    pose proof (f_equal (lookup a) Hh) as Ha. rewrite !lookup_fmap in Ha.
    destruct (node_heap w' !! a), (node_heap w !! a); try done. cbn in *. by injection Ha as _ ->.
Qed.

(** Recording one vote. *)
Lemma record_vote_ok p w w' : nodes_wf w -> self_wf w ->
  when (bool_decide (is_Some p)) (raft_node_vote_for_me p true) w = Ok tt w' ->
  nodes_wf w' /\ self_wf w' /\ voting_nodes w' = voting_nodes w /\ vote_of w' = vote_of w /\
  forall a, a ∈ voters_for_me w' -> a ∈ voters_for_me w \/ p = Some a.
Proof.
  intros W S H. destruct p as [b|]; [|injection H as <-; split_and!; auto].
  change (node_write (Node.vote_for_me true) (Some b) w = Ok tt w') in H.
  unfold node_write, node_get in H. run_simp H. destruct (node_heap w !! b) as [n|] eqn:Hn; [|done].
  run_simp H. injection H as <-. set (n' := Node.vote_for_me true n).
  set (w' := with_node_heap _ w).
  assert (forall g, (g n' = g n) -> forall a, node_sat w' g a = node_sat w g a) as Hsat.
  { intros g Hg a. unfold node_sat, w'. cbn. destruct (decide (b = a)) as [<-|Hne].
    - by rewrite lookup_insert_eq, Hn.
    - by rewrite lookup_insert_ne. }
  assert (votes_here n' = votes_here n) as Hvh.
  { unfold votes_here, n'. cbn -[Z.shiftl]. unfold Node.is_active, Node.is_voting,
      RAFT_NODE_INACTIVE, RAFT_NODE_VOTING, RAFT_NODE_VOTED_FOR_ME. by rewrite !has_set_flag. }
  split_and!; try done.
  - apply (nodes_wf_ids w); try done. by apply (node_put_id w b n).
  - apply list_filter_ext. by apply Hsat.
  - intros a Ha. destruct (decide (b = a)) as [->|Hne]; [by right|left].
    unfold voters_for_me in *. apply list_elem_of_In, List.filter_In.
    apply list_elem_of_In, List.filter_In in Ha as [Ha Hf]. split; [done|].
    unfold node_sat, w' in *. cbn in Hf. by rewrite lookup_insert_ne in Hf.
Qed.

(** *** Time *)

(** The node [raft_get_my_node] finds has the server's id. *)
Lemma my_node_voting w my w1 v w2 : raft_get_my_node w = Ok my w1 ->
  raft_node_is_voting my w1 = Ok v w2 -> v = true -> own_voting w = true.
Proof.
  intros H1 H2 ->. pose proof (raft_get_my_node_ro _ _ _ H1) as <-.
  unfold raft_get_my_node in H1. rewrite bind_gets_l in H1. unfold raft_node_is_voting, node_read in H2.
  run_bind H2 as n w3 H3. run_ret H2. destruct my as [p|]; [|done].
  unfold node_get in H3. rewrite bind_gets_l in H3. destruct (node_heap w !! p) as [n'|] eqn:Hn; [|done].
  run_ret H3. unfold own_voting. apply existsb_exists. exists p.
  destruct (find_first_some _ _ _ _ _ H1) as (Hin & w4 & Hp). split; [by apply list_elem_of_In|].
  run_bind Hp as i w5 H5. pose proof (raft_get_nodeid_ro _ _ _ H5) as <-.
  run_bind Hp as k w5 H6. pose proof (node_read_ro _ _ _ _ _ H6) as <-.
  injection Hp as Hik <-. unfold raft_node_get_id in H6. rewrite (node_read_ok _ w4 p n Hn) in H6.
  injection H6 as <-. unfold node_sat. rewrite Hn. apply andb_true_iff. split; [|done].
  apply Z.eqb_eq in Hik as ->. apply Z.eqb_eq. symmetry. unfold raft_get_nodeid in H5.
  rewrite bind_gets_l in H5. unfold self_id, node_id_at. destruct (node (srv w4)) as [s|]; [|by run_ret H5].
  unfold raft_node_get_id, node_read in H5. run_bind H5 as ns w5 H7. run_ret H5. unfold node_get in H7.
  rewrite bind_gets_l in H7. destruct (node_heap w4 !! s); [|done]. by run_ret H7.
Qed.

(** The part of [raft_periodic] before the election timeout is looked at. *)
Definition periodic_alone : M world unit :=
  let! n := raft_get_num_voting_nodes in
  when (1 =? n)
    (let! my := raft_get_my_node in
     let! voting := raft_node_is_voting my in
     when voting
       (let! leader := raft_is_leader in when (negb leader) raft_become_leader)).

Lemma periodic_alone_role w w' : nodes_wf w -> periodic_alone w = Ok tt w' ->
  w' = w \/ (role w <> RAFT_STATE_LEADER /\ length (voting_nodes w) = 1%nat /\
              role w' = RAFT_STATE_LEADER /\ term_of w' = term_of w /\ own_voting w = true).
Proof.
  intros W H. unfold periodic_alone in H.
  rewrite (bind_ok_l _ _ _ _ _ (raft_get_num_voting_nodes_ok w W)) in H.
  destruct (Z.eqb_spec 1 (Z.of_nat (length (voting_nodes w)))); cbn [when] in H;
    [|injection H as <-; by left].
  run_bind H as my w1 H1. run_bind H as v w2 H2. pose proof (my_node_voting w my w1 v w2 H1 H2) as Hv.
  apply raft_get_my_node_ro in H1 as <-. apply node_read_ro in H2 as <-.
  destruct v; cbn [when] in H; [|injection H as <-; by left].
  unfold raft_is_leader, raft_get_state in H. run_simp H.
  destruct (bool_decide (state (srv w) = RAFT_STATE_LEADER)) eqn:Hl; cbn [negb when] in H;
    [injection H as <-; by left|]. apply bool_decide_eq_false in Hl.
  apply raft_become_leader_role in H as [R' T']. right. split_and!; try done; [lia|by apply Hv].
Qed.

Lemma periodic_role n w e w' : nodes_wf w -> raft_periodic n w = Ok e w' ->
  role_step w w' (OpPeriodic n).
Proof.
  intros W H. unfold raft_periodic in H. run_simp H. destruct (int_ok _); [|done]. run_simp H.
  set (w1 := with_srv _ w) in H.
  assert (nodes_wf w1) as W1 by by apply (nodes_wf_same w).
  run_bind H as nv w2 H2. apply raft_get_num_voting_nodes_ro in H2 as Hro. subst w2.
  run_bind H as u w2 H3. destruct u.
  assert (periodic_alone w1 = Ok tt w2) as Ha.
  { unfold periodic_alone. by rewrite (bind_ok_l _ _ _ _ _ H2). }
  apply periodic_alone_role in Ha; [|done]. run_simp H.
  assert (forall m, keeps (same role_of) (m : M world Z) -> m w2 = Ok e w' -> role_of w' = role_of w2)
    as Hk by (intros m Hm Hr; by apply Hm in Hr).
  destruct (bool_decide (state (srv w2) = RAFT_STATE_LEADER)) eqn:Hl.
  { apply bool_decide_eq_true in Hl. apply Hk in H; [|unfold_accessors; keeps_solve].
    unfold role_of in H. injection H as R' T'.
    destruct Ha as [->|(Hn & Hlen & R2 & T2 & Hov)].
    - apply role_stays. unfold role_of. unfold role, term_of, w1 in *. cbn in *. congruence.
    - apply role_alone; try done; [unfold role, term_of in *; congruence|].
      unfold term_of in *. cbn in *. congruence. }
  apply bool_decide_eq_false in Hl.
  destruct Ha as [->|(_ & _ & R2 & _ & _)]; [|done].
  run_bind H as e1 w2 H1.
  assert (role_of w' = role_of w2) as K.
  { destruct (truth e1); [by run_ret H|].
    unfold raft_get_last_applied_idx, raft_get_commit_idx, raft_snapshot_is_in_progress in H.
    by run_keeps H (same role_of) as K. }
  assert (role_of w2 = role_of w1 -> role_step w w' (OpPeriodic n)) as Hstay.
  { intros K2. apply role_stays. unfold role_of, role, term_of, w1 in *. cbn in *. congruence. }
  destruct (_ && _) eqn:Ht in H1; [|run_ret H1; by apply Hstay].
  rewrite (bind_ok_l _ _ _ _ _ (raft_get_num_voting_nodes_ok w1 W1)) in H1.
  destruct (Z.ltb_spec 1 (Z.of_nat (length (voting_nodes w1)))) in H1; [|run_ret H1; by apply Hstay].
  run_bind H1 as my w3 H4. run_bind H1 as v w4 H5. pose proof (my_node_voting w1 my w3 v w4 H4 H5) as Hv.
  apply raft_get_my_node_ro in H4 as <-. apply node_read_ro in H5 as <-.
  destruct v; [|run_ret H1; by apply Hstay].
  unfold raft_election_start, raft_get_current_idx in H1.
  run_bind H1 as ci w3 H4. apply log_get_current_idx_ro in H4 as <-.
  run_bind H1 as u w3 H4. run_keeps H4 (same role_of) as K3.
  apply raft_become_candidate_role in H1. unfold same in *.
  case_decide; [|apply Hstay; congruence]. destruct H1 as [R4 T4].
  unfold role_of in K, K3. injection K as K K'. injection K3 as K3 K3'.
  apply role_stands.
  - exact Hl.
  - congruence.
  - unfold term_of, w1 in *. cbn in *. lia.
  - apply andb_true_iff in Ht as [Ht%Z.leb_le _]. exact Ht.
  - change (voting_nodes w) with (voting_nodes w1). lia.
  - by apply Hv.
  - apply andb_true_iff in Ht as [_ Ht]. unfold truth in Ht. cbn in Ht.
    rewrite negb_involutive in Ht. by apply Z.eqb_eq in Ht.
Qed.
End Roles.

Section RoleTheorems.
Context {T : CTarget} {C : Contiki} {U : User}.

Lemma role_transitions_run o w u w' :
  nodes_wf w -> run_op o w = Ok u w' -> role_step w w' o.
Proof.
  intros W H. destruct o; cbn in H; run_bind H as rv w1 H1; run_ret H.
  - by eapply periodic_role.
  - by eapply recv_appendentries_role.
  - by eapply recv_appendentries_response_role.
  - by eapply recv_requestvote_role.
  - by eapply recv_requestvote_response_cases.
  - apply role_stays. by run_keeps H1 (same role_of) as K.
  - apply role_stays. by run_keeps H1 (same role_of) as K.
Qed.

(** C17: every call of the interface that ends takes a step of Raft's role machine.
    The role and term stay, or the server becomes a follower of a later term; a
    candidate yields to a leader of its own term; a candidate whose vote
    request was granted in its own term wins; when exactly one active voting node
    is in the list, [raft_periodic] makes a server leader whose own node has the
    voting flag; and a server that is not the leader stands for the next term only
    in [raft_periodic], when its election timeout has passed, no snapshot is in
    progress, its own node has the voting flag and more than one active voting node
    is in the list.  In particular a leader stays leader throughout its term. *)
Theorem role_transitions o w u w' :
  nodes_wf w -> run_op o w = Ok u w' -> role_step w w' o.
Proof.
  apply role_transitions_run.
Qed.

Lemma election_by_majority_run p r w e w' :
  nodes_wf w -> self_wf w ->
  raft_recv_requestvote_response p r w = Ok e w' ->
  role w <> RAFT_STATE_LEADER -> role w' = RAFT_STATE_LEADER ->
  let own := if vote_of w' =? self_id w' then 1 else 0 in
  Z.of_nat (length (voting_nodes w')) < 2 * (Z.of_nat (length (voters_for_me w')) + own) /\
  voting_nodes w' = voting_nodes w /\ vote_of w' = vote_of w /\
  (forall a, a ∈ voters_for_me w' -> a ∈ voters_for_me w \/ p = Some a).
Proof.
  intros W S H Hn Hl. apply recv_requestvote_response_cases in H as [_ H].
  destruct (H Hn Hl) as (w1 & votes & n & w2 & Hrec & B1 & N1 & Hv & Hnv & Hm & B2 & _).
  assert (nodes_wf w1) as W1 by by apply (nodes_wf_same w).
  assert (self_wf w1) as S1 by by apply (self_wf_same w).
  destruct (record_vote_ok p w1 w2 W1 S1 Hrec) as (W2 & S2 & V2 & O2 & A2).
  destruct (ballot_counts _ _ B2) as (V & F & I & O).
  destruct (ballot_counts _ _ B1) as (V' & F' & I' & O').
  rewrite (raft_get_nvotes_for_me_ok w2 W2 S2) in Hv. injection Hv as <-.
  rewrite (raft_get_num_voting_nodes_ok w2 W2) in Hnv. injection Hnv as <-.
  apply raft_votes_is_majority_iff in Hm; [|lia].
  rewrite V, F, I, O. unfold vote_of at 1. split; [lia|].
  split; [congruence|]. split; [congruence|]. intros a Ha. rewrite <- F'. by apply A2.
Qed.

(** C28: a response makes a server the leader only if the votes it then holds,
    its own included, are more than half of the active voting nodes; handling
    the response adds at most the vote of the node it came from. *)
Theorem election_by_majority p r w e w' :
  nodes_wf w -> self_wf w ->
  raft_recv_requestvote_response p r w = Ok e w' ->
  role w <> RAFT_STATE_LEADER -> role w' = RAFT_STATE_LEADER ->
  let own := if vote_of w' =? self_id w' then 1 else 0 in
  Z.of_nat (length (voting_nodes w')) < 2 * (Z.of_nat (length (voters_for_me w')) + own) /\
  voting_nodes w' = voting_nodes w /\ vote_of w' = vote_of w /\
  (forall a, a ∈ voters_for_me w' -> a ∈ voters_for_me w \/ p = Some a).
Proof. apply election_by_majority_run. Qed.
End RoleTheorems.

(** ** Witnesses *)

(** The election timeout of node 1 passes. *)
Lemma role_transitions_witness :
  nodes_wf sim3 /\ role_step sim3 (run_world (run_op (OpPeriodic 3000)) sim3) (OpPeriodic 3000).
Proof.
  split; [exact sim3_nodes_wf|].
  apply (role_transitions (OpPeriodic 3000) sim3 tt); [exact sim3_nodes_wf|].
  apply run_ok. vm_compute. reflexivity.
Defined.

Definition sim_candidate : world := run_world (raft_periodic 3000) sim3.

(** Node 2 grants its vote: with its own vote the candidate has two of three. *)
Lemma election_by_majority_witness :
  let m := raft_recv_requestvote_response (Some 2%positive) (mk_requestvote_response 1 1) in
  let w' := run_world m sim_candidate in
  let own := if vote_of w' =? self_id w' then 1 else 0 in
  Z.of_nat (length (voting_nodes w')) < 2 * (Z.of_nat (length (voters_for_me w')) + own) /\
  voting_nodes w' = voting_nodes sim_candidate /\ vote_of w' = vote_of sim_candidate /\
  (forall a, a ∈ voters_for_me w' -> a ∈ voters_for_me sim_candidate \/ Some 2%positive = Some a).
Proof.
  apply (election_by_majority (Some 2%positive) (mk_requestvote_response 1 1) sim_candidate 0).
  - apply nodes_wfb_sound. vm_compute. reflexivity.
  - exists 1%positive. split; [vm_compute; reflexivity|]. vm_compute. left.
  - apply run_ok. vm_compute. reflexivity.
  - vm_compute. discriminate.
  - vm_compute. reflexivity.
Defined.
