(* ===== verification/Campaign.v ===== *)
(** * Campaigning: becoming a candidate, asking for votes

    Under [server_ok] the functions a server runs when its election timeout
    passes are total: they raise no fault whatever the user's callbacks answer,
    and their effect is the one of the Raft paper. *)
From S2P Require Import Prelude Contiki Types Node Membership Log Server Election Replication.
From S2P Require Import Sim NodeFacts Frames History LogFacts MemberFacts ElectionFacts Roles.

Section Campaign.
Context {T : CTarget} {C : Contiki} {L : ContikiLaws C} {U : User}.

(** The term of the last entry, as the [int] that is sent. *)
Lemma raft_get_last_log_term_ok w a : log_repr w a -> al_ok a ->
  raft_get_last_log_term w = Ok (to_int (al_last_term a)) w.
Proof.
  intros R Hok. unfold raft_get_last_log_term, raft_get_current_idx.
  rewrite (bind_ok_l _ _ _ _ _ (log_get_current_idx_repr _ _ R)).
  pose proof (log_repr_bound _ _ R). pose proof (lr_last _ _ R). pose proof INT_MAX_ge.
  destruct (Z.ltb_spec 0 (al_last a)) as [Hpos|Hz].
  - destruct (raft_get_last_entry w a R ltac:(lia) Hok) as (p & e & Hp & He & Ht).
    by rewrite (bind_ok_l _ _ _ _ _ Hp), (bind_ok_l _ _ _ _ _ (entry_get_ok _ _ _ He)), Ht.
  - unfold al_last_term, al_get, al_first. pose proof (log_repr_first _ _ R) as Hf.
    pose proof (lr_base _ _ R). unfold al_first in Hf.
    assert (al_last a = 0) by lia.
    destruct (Z.leb_spec (al_last a - Z.of_nat (length (al_entries a)) + 1) (al_last a)); [lia|].
    cbn. by rewrite to_int_small by lia.
Qed.

(** The vote request a server sends. *)
Definition vote_request (w : world) (a : alog) : msg_requestvote_t :=
  mk_requestvote (term_of w) (self_id w) (al_last a) (to_int (al_last_term a)).

(** What the log callback does to the user's data. *)
Definition logged (w : world) (p : ptr) (u : udata) : udata :=
  match log_message (cb (srv w)) with Some g => g u p | None => u end.

Lemma log_msg_run p w : log_msg p w = Ok tt (with_user_data (logged w p (user_data w)) w).
Proof.
  unfold log_msg, logged. rewrite bind_gets_l.
  destruct (log_message (cb (srv w))); [done|]. by destruct w.
Qed.

(** What asking the node in block [p] for its vote does to the user's data. *)
Definition ask (w : world) (a : alog) (u : udata) (p : addr) : udata :=
  match node_heap w !! p, send_requestvote (cb (srv w)) with
  | Some n, Some f => snd (f (logged w (Some p) u) n (vote_request w a))
  | _, _ => logged w (Some p) u
  end.

Lemma raft_send_requestvote_ok w a p u :
  server_ok w a -> is_Some (node_heap w !! p) -> node (srv w) <> Some p ->
  exists e, raft_send_requestvote (Some p) (with_user_data u w)
    = Ok e (with_user_data (ask w a u p) w).
Proof.
  intros Sok [n Hn] Hself. set (w0 := with_user_data u w).
  assert (server_ok w0 a) as [W0 S0 R0 L0 _ _] by by apply (server_ok_same w).
  unfold raft_send_requestvote. rewrite bind_gets_l.
  rewrite bind_assert_l, bool_decide_eq_true_2 by by eexists.
  rewrite bind_assert_l, bool_decide_eq_false_2 by (cbn; congruence). cbn [negb].
  unfold raft_node_get_id. rewrite (bind_ok_l _ _ _ _ _ (node_read_ok _ w0 p n Hn)).
  rewrite (bind_ok_l _ _ _ _ _ (log_msg_run _ _)). set (w1 := with_user_data _ w0).
  assert (server_ok w1 a) as [W1 S1 R1 L1 _ _] by by apply (server_ok_same w).
  unfold raft_get_current_idx. rewrite (bind_ok_l _ _ _ _ _ (log_get_current_idx_repr _ _ R1)).
  rewrite (bind_ok_l _ _ _ _ _ (raft_get_last_log_term_ok _ _ R1 L1)).
  rewrite (bind_ok_l _ _ _ _ _ (raft_get_nodeid_ok w1 W1 S1)).
  unfold ask. rewrite Hn. cbn [srv with_user_data w0].
  destruct (send_requestvote (cb (srv w))) as [f|]; [|by eexists].
  unfold call_node. rewrite (bind_ok_l _ _ _ _ _ (node_get_ok w1 p n Hn)).
  exists (fst (f (logged w (Some p) u) n (vote_request w a))). reflexivity.
Qed.

(** The active voting nodes other than the server. *)
Definition electorate (w : world) : list addr :=
  List.filter (fun p => negb (is_self_ptr (srv w) p) && node_sat w votes_here p)
    (nodes_list (srv w)).

(** The electorate is asked in the order of the list; the answers of the user's
    function are ignored and nothing but the user's data changes. *)
Lemma request_votes_ok w a : server_ok w a ->
  request_votes w
  = Ok tt (with_user_data (foldl (ask w a) (user_data w) (electorate w)) w).
Proof.
  intros Sok. unfold request_votes, electorate. rewrite bind_gets_l.
  assert (forall x, x ∈ nodes_list (srv w) -> is_Some (node_heap w !! x)) as Hl by apply Sok.
  replace w with (with_user_data (user_data w) w) at 2 by by destruct w.
  generalize (user_data w) as u. induction (nodes_list (srv w)) as [|x l IH]; intros u; [done|].
  specialize (IH (fun y Hy => Hl y ltac:(by right))). cbn [foreach List.filter].
  destruct (Hl x ltac:(left)) as [n Hn].
  unfold is_self_ptr at 1 3, node_sat at 1. rewrite Hn.
  destruct (bool_decide (node (srv w) = Some x)) eqn:Hself; cbn [negb andb];
    [rewrite bind_ret_l; apply IH|].
  apply bool_decide_eq_false in Hself. rewrite bind_assoc.
  unfold raft_node_is_active. rewrite (bind_ok_l _ _ _ _ _ (node_read_ok _ (with_user_data u w) x n Hn)).
  unfold votes_here at 1. destruct (Node.is_active n); cbn [when andb];
    [|rewrite bind_ret_l; apply IH].
  unfold raft_node_is_voting. rewrite bind_assoc, (bind_ok_l _ _ _ _ _ (node_read_ok _ (with_user_data u w) x n Hn)).
  destruct (Node.is_voting n); cbn [when]; [|rewrite bind_ret_l; apply IH].
  destruct (raft_send_requestvote_ok w a x u Sok ltac:(by eexists) Hself) as [e He].
  rewrite bind_assoc, (bind_ok_l _ _ _ _ _ He), bind_ret_l. apply IH.
Qed.

(** Forgetting the votes of the previous election. *)
Lemma clear_votes_run w l : NoDup l -> (forall a, a ∈ l -> is_Some (node_heap w !! a)) ->
  exists h, foreach l (fun a => raft_node_vote_for_me (Some a) false) w = Ok tt (with_node_heap h w) /\
    forall a, h !! a = if decide (a ∈ l) then Node.vote_for_me false <$> node_heap w !! a
                       else node_heap w !! a.
Proof.
  revert w. induction l as [|x l IH]; intros w Hnd Hl.
  { exists (node_heap w). split; [by destruct w|]. intros a. case_decide; [set_solver|done]. }
  apply NoDup_cons in Hnd as [Hx Hnd]. destruct (Hl x ltac:(left)) as [n Hn].
  cbn [foreach]. unfold raft_node_vote_for_me at 1, node_write. rewrite bind_assoc.
  rewrite (bind_ok_l _ _ _ _ _ (node_get_ok w x n Hn)). unfold node_put. rewrite bind_modify_l.
  match goal with |- context [foreach l _ ?w2] => destruct (IH w2 Hnd) as (h & Hr & Hh) end.
  { intros a Ha. cbn. rewrite lookup_insert_ne by (intros ->; done). apply Hl. by right. }
  exists h. split; [exact Hr|]. intros a. rewrite Hh. cbn. destruct (decide (x = a)) as [<-|Hne].
  - rewrite decide_False by done. rewrite decide_True by left. by rewrite lookup_insert_eq, Hn.
  - rewrite lookup_insert_ne by done.
    destruct (decide (a ∈ l)); [rewrite decide_True by (by right); done|].
    rewrite decide_False; [done|]. set_solver.
Qed.

(** The ballot of a server no node has voted for. *)
Lemma clear_votes_ok w a : server_ok w a ->
  exists w', clear_votes w = Ok tt w' /\ server_ok w' a /\ srv w' = srv w /\
    voters_for_me w' = [] /\ electorate w' = electorate w /\ self_id w' = self_id w /\
    user_data w' = user_data w.
Proof.
  intros Sok. pose proof (so_nodes _ _ Sok) as W.
  destruct (clear_votes_run w (nodes_list (srv w)) (nw_nodup _ W) (nw_heap _ W)) as (h & Hr & Hh).
  unfold clear_votes. rewrite bind_gets_l. exists (with_node_heap h w). split; [exact Hr|].
  set (w' := with_node_heap h w).
  assert (forall b, node_id_at w' b = node_id_at w b) as Hid.
  { intros b. unfold node_id_at, w'. cbn. rewrite Hh. case_decide; [|done].
    by destruct (node_heap w !! b). }
  assert (forall b, node_sat w' votes_here b = node_sat w votes_here b) as Hv.
  { intros b. unfold node_sat, w'. cbn. rewrite Hh. case_decide; [|done].
    destruct (node_heap w !! b) as [n|]; [|done]. cbn.
    unfold votes_here, Node.is_active, Node.is_voting, Node.vote_for_me, RAFT_NODE_INACTIVE,
      RAFT_NODE_VOTING, RAFT_NODE_VOTED_FOR_ME. by rewrite !has_clear_flag. }
  split; [|split; [done|split; [|split]]].
  - destruct Sok. split; [by apply (nodes_wf_ids w)|done|by apply (log_repr_same w)|done|done|done].
  - unfold voters_for_me. cbn. assert (forall b, b ∈ nodes_list (srv w) ->
      node_sat w' (fun n => votes_here n && Node.has_vote_for_me n) b = false) as Hno.
    { intros b Hb. unfold node_sat, w'. cbn. rewrite Hh, decide_True by done.
      destruct (node_heap w !! b) as [n|]; [|done]. cbn. apply andb_false_iff. right.
      unfold Node.has_vote_for_me, Node.vote_for_me, RAFT_NODE_VOTED_FOR_ME.
      by rewrite has_clear_flag. }
    fold w'. revert Hno. generalize (nodes_list (srv w)) as l. intros l Hno.
    induction l as [|b l IH]; [done|]. cbn.
    rewrite Hno by left. rewrite andb_false_r. apply IH. intros c Hc. apply Hno. by right.
  - unfold electorate. cbn. apply list_filter_ext. intros b. by rewrite Hv.
  - split; [|done]. unfold self_id. cbn. destruct (node (srv w)); [|done]. by rewrite Hid.
Qed.

(** What storing a new term, with no vote, and a vote does to the user's data. *)
Definition stored_term (w : world) (t : Z) (u : udata) : udata :=
  match persist_term (cb (srv w)) with Some f => snd (f u t (-1)) | None => u end.
Definition stored_vote (w : world) (v : Z) (u : udata) : udata :=
  match persist_vote (cb (srv w)) with Some f => snd (f u v) | None => u end.

Lemma raft_set_current_term_user w t w' : current_term (srv w) < t ->
  raft_set_current_term t w = Ok 0 w' -> user_data w' = stored_term w t (user_data w).
Proof.
  intros Ht H. unfold raft_set_current_term in H. rewrite bind_gets_l in H.
  destruct (Z.ltb_spec (current_term (srv w)) t); [|lia]. unfold stored_term.
  run_bind H as e w1 H1. destruct (truth e) eqn:He; [by run_ret H|].
  rewrite bind_upd_srv_l in H. run_ret H. cbn.
  destruct (persist_term (cb (srv w))) as [f|]; [|by run_ret H1].
  unfold call in H1. rewrite bind_gets_l, bind_modify_l in H1. by run_ret H1.
Qed.

Lemma raft_vote_for_nodeid_user w v w' :
  raft_vote_for_nodeid v w = Ok 0 w' -> user_data w' = stored_vote w v (user_data w).
Proof.
  intros H. unfold raft_vote_for_nodeid in H. rewrite bind_gets_l in H. unfold stored_vote.
  run_bind H as e w1 H1. destruct (truth e) eqn:He; [by run_ret H|].
  rewrite bind_upd_srv_l in H. run_ret H. cbn.
  destruct (persist_vote (cb (srv w))) as [f|]; [|by run_ret H1].
  unfold call in H1. rewrite bind_gets_l, bind_modify_l in H1. by run_ret H1.
Qed.

Lemma raft_randomize_election_timeout_user w w' :
  raft_randomize_election_timeout w = Ok tt w' -> user_data w' = logged w None (user_data w).
Proof.
  intros H. unfold raft_randomize_election_timeout in H. rewrite !bind_gets_l in H.
  destruct (random_rand _) as [r g]. rewrite bind_modify_l in H. run_bind H as t w1 H1.
  assert (w1 = with_rand_state g w) as ->.
  { unfold random_timeout in H1. destruct (_ =? 0); [done|]. destruct (16 <? int_bits).
    - unfold int_chk in H1. destruct (int_ok _); [by run_ret H1|done].
    - by run_ret H1. }
  rewrite bind_upd_srv_l, log_msg_run in H. by injection H as <-.
Qed.

Lemma raft_become_follower_user w u w' : raft_become_follower w = Ok u w' ->
  user_data w' = logged w None (logged w None (user_data w)).
Proof.
  intros H. unfold raft_become_follower in H. rewrite (bind_ok_l _ _ _ _ _ (log_msg_run _ _)) in H.
  change (raft_set_state RAFT_STATE_FOLLOWER) with
    (exec! ret tt in upd_srv (C := C) (U := U) (with_state RAFT_STATE_FOLLOWER)) in H.
  rewrite bind_assoc, bind_ret_l, bind_upd_srv_l in H. run_bind H as u1 w1 H1. destruct u1.
  apply raft_randomize_election_timeout_user in H1. by injection H as _ <-.
Qed.

(** The user's data of a campaign before the first request: the new term and the
    server's own vote are stored, between two log messages. *)
Definition campaign_opened (w : world) : udata :=
  logged w None (stored_vote w (self_id w)
    (stored_term w (term_of w + 1) (logged w None (user_data w)))).

Lemma raft_vote_self_ok w a : server_ok w a ->
  exists w', raft_vote (node (srv w)) w = Ok 0 w' /\ srv w' = with_voted_for (self_id w) (srv w) /\
    user_data w' = stored_vote w (self_id w) (user_data w).
Proof.
  intros Sok. destruct (so_self _ _ Sok) as (s & Hs & Hin).
  destruct (nw_heap _ (so_nodes _ _ Sok) s Hin) as [n Hn].
  unfold raft_vote, raft_node_get_id. rewrite Hs.
  rewrite (bind_ok_l _ _ _ _ _ (node_read_ok _ w s n Hn)).
  destruct (raft_vote_for_nodeid_ok w (Node.get_id n) (so_persists _ _ Sok)) as (w' & H' & Hs').
  exists w'. split; [exact H'|]. pose proof (raft_vote_for_nodeid_user _ _ _ H') as Hu.
  rewrite Hs', Hu. unfold self_id, node_id_at. by rewrite Hs, Hn.
Qed.

(** The second half of [raft_become_candidate], after its own vote. *)
Definition campaign_rest : M world Z :=
  exec! upd_srv (with_current_leader None) in
  exec! raft_set_state RAFT_STATE_CANDIDATE in
  exec! raft_randomize_election_timeout in
  exec! upd_srv (with_timeout_elapsed 0) in
  exec! request_votes in
  ret 0.

(** The first half: the new term, the votes forgotten, the own vote. *)
Lemma raft_become_candidate_votes w a :
  server_ok w a -> INT_MIN <= term_of w < INT_MAX ->
  exists w', raft_become_candidate w = campaign_rest w' /\
    server_ok w' a /\ term_of w' = term_of w + 1 /\ vote_of w' = self_id w /\
    voters_for_me w' = [] /\ electorate w' = electorate w /\
    election_timeout (srv w') = election_timeout (srv w) /\ cb (srv w') = cb (srv w) /\
    user_data w' = stored_vote w (self_id w)
      (stored_term w (term_of w + 1) (logged w None (user_data w))).
Proof.
  intros Sok Ht. unfold raft_become_candidate, raft_get_current_term.
  rewrite (bind_ok_l _ _ _ _ _ (log_msg_run _ _)), bind_gets_l, bind_int_chk_l.
  set (w1 := with_user_data _ w).
  assert (server_ok w1 a) as Sok1 by by apply (server_ok_same w).
  replace (int_ok (current_term (srv w1) + 1)) with true.
  2: { symmetry. apply int_ok_iff. unfold term_of in Ht. cbn. lia. }
  destruct (raft_set_current_term_ok w1 (current_term (srv w1) + 1) (so_persists _ _ Sok1))
    as (w2 & H2 & S2). rewrite (bind_ok_l _ _ _ _ _ H2). cbn [truth Z.eqb negb].
  destruct (Z.ltb_spec (current_term (srv w1)) (current_term (srv w1) + 1)); [|lia].
  run_keeps H2 (same stable_state) as K2. run_keeps H2 (same settings) as K2'.
  run_keeps H2 (same electorate) as K2e. run_keeps H2 (same self_id) as K2i.
  pose proof (server_ok_same _ _ _ K2 K2' Sok1) as Sok2.
  destruct (clear_votes_ok w2 a Sok2) as (w3 & H3 & Sok3 & S3 & V3 & E3 & I3 & U3).
  rewrite (bind_ok_l _ _ _ _ _ H3), bind_gets_l.
  destruct (raft_vote_self_ok w3 a Sok3) as (w4 & H4 & S4 & U4).
  run_keeps H4 (same stable_state) as K4. run_keeps H4 (same settings) as K4'.
  run_keeps H4 (same electorate) as K4e. run_keeps H4 (same voters_for_me) as K4v.
  rewrite (bind_ok_l _ _ _ _ _ H4). exists w4. split; [reflexivity|].
  unfold same in *. unfold term_of, vote_of. rewrite S4, S3, S2.
  split_and!; try done.
  - by apply (server_ok_same w3).
  - cbn. by rewrite I3, K2i.
  - by rewrite K4v.
  - by rewrite K4e, E3, K2e.
  - rewrite U4, U3, (raft_set_current_term_user w1 _ w2 (Z.lt_succ_diag_r _) H2), I3, K2i.
    unfold stored_vote, stored_term. by rewrite S3, S2.
Qed.

Lemma raft_become_candidate_run w a :
  server_ok w a -> INT_MIN <= term_of w < INT_MAX ->
  exists w', raft_become_candidate w = Ok 0 w' /\
    server_ok w' a /\ role w' = RAFT_STATE_CANDIDATE /\ term_of w' = term_of w + 1 /\
    vote_of w' = self_id w /\ voters_for_me w' = [] /\ current_leader (srv w') = None /\
    timeout_elapsed (srv w') = 0 /\
    election_timeout (srv w) <= election_timeout_rand (srv w') < 2 * election_timeout (srv w) /\
    electorate w' = electorate w /\
    user_data w' = foldl (ask w' a) (campaign_opened w) (electorate w').
Proof.
  intros Sok Ht. destruct (raft_become_candidate_votes w a Sok Ht)
    as (w4 & -> & Sok4 & T4 & O4 & V4 & E4 & M4 & C4 & U4). unfold campaign_rest. rewrite bind_upd_srv_l.
  change (raft_set_state RAFT_STATE_CANDIDATE) with
    (exec! ret tt in upd_srv (C := C) (U := U) (with_state RAFT_STATE_CANDIDATE)).
  rewrite bind_assoc, bind_ret_l, bind_upd_srv_l.
  match goal with |- context [bind raft_randomize_election_timeout _ ?x] => set (w5 := x) end.
  destruct (raft_randomize_election_timeout_ok w5 (so_timer _ _ Sok4)) as (w6 & H6 & B6).
  run_keeps H6 (same stable_state) as K6. run_keeps H6 (same settings) as K6'.
  run_keeps H6 (same ballot) as K6b. run_keeps H6 (same electorate) as K6e.
  run_keeps H6 (same (fun w => (role w, current_leader (srv w)))) as K6r.
  rewrite (bind_ok_l _ _ _ _ _ H6), bind_upd_srv_l. set (w7 := with_srv _ w6).
  assert (server_ok w7 a) as Sok7.
  { apply (server_ok_same w6); try done. apply (server_ok_same w5); try done.
    by apply (server_ok_same w4). }
  rewrite (bind_ok_l _ _ _ _ _ (request_votes_ok w7 a Sok7)).
  destruct (ballot_counts _ _ K6b) as (_ & V6 & _ & O6).
  unfold same in *. unfold ballot in K6b. injection K6b as _ _ _ _ T6.
  injection K6r as R6 L6. cbn in B6. rewrite M4 in B6.
  pose proof (raft_randomize_election_timeout_user _ _ H6) as U6.
  eexists. split; [reflexivity|]. split; [by apply (server_ok_same w7)|].
  split_and!; try done; try apply B6.
  - change (term_of w6 = term_of w + 1). by rewrite T6.
  - change (vote_of w6 = self_id w). by rewrite O6.
  - change (voters_for_me w6 = []). by rewrite V6.
  - change (electorate w6 = electorate w). by rewrite K6e.
  - unfold campaign_opened. rewrite <- U4. change (electorate (with_user_data _ w7)) with (electorate w7).
    change (user_data w7) with (user_data w6). rewrite U6. unfold logged at 1. cbn. by rewrite C4.
Qed.

(** C18: a campaign of a server whose persist functions answer 0, below the last
    term, succeeds: the term is increased by one, the server votes for itself and
    forgets the votes of earlier elections and the leader, and its timer restarts
    with a new timeout.  What the user's functions are given is, in order: a log
    message, the new term without a vote, the server's id as its vote, a log
    message, and then for each of the other active voting nodes, in the order of the
    list and once, a log message and a vote request with the new term, the server's
    id, and the index and term of the last entry of its log; and nothing else. *)
Theorem raft_become_candidate_spec w a :
  server_ok w a -> INT_MIN <= term_of w < INT_MAX ->
  exists w', raft_become_candidate w = Ok 0 w' /\
    server_ok w' a /\ role w' = RAFT_STATE_CANDIDATE /\ term_of w' = term_of w + 1 /\
    vote_of w' = self_id w /\ voters_for_me w' = [] /\ current_leader (srv w') = None /\
    timeout_elapsed (srv w') = 0 /\
    election_timeout (srv w) <= election_timeout_rand (srv w') < 2 * election_timeout (srv w) /\
    electorate w' = electorate w /\
    user_data w' = foldl (ask w' a) (campaign_opened w) (electorate w').
Proof. apply raft_become_candidate_run. Qed.
End Campaign.

(** ** Witness *)
Lemma raft_become_candidate_spec_witness :
  server_ok sim_log3 sim_alog3 /\
  exists w', raft_become_candidate sim_log3 = Ok 0 w' /\
    server_ok w' sim_alog3 /\ role w' = RAFT_STATE_CANDIDATE /\ term_of w' = 1 /\
    vote_of w' = self_id sim_log3 /\ voters_for_me w' = [] /\ current_leader (srv w') = None /\
    timeout_elapsed (srv w') = 0 /\
    election_timeout (srv sim_log3) <= election_timeout_rand (srv w')
      < 2 * election_timeout (srv sim_log3) /\
    electorate w' = electorate sim_log3 /\
    user_data w' = foldl (ask w' sim_alog3) (campaign_opened sim_log3) (electorate w').
Proof.
  split; [exact sim_log3_ok|].
  apply (raft_become_candidate_spec sim_log3 sim_alog3); [exact sim_log3_ok|].
  split; [vm_compute; discriminate|vm_compute; reflexivity].
Defined.
