(* ===== verification/Sending.v ===== *)
(** * Sending entries: raft_send_appendentries, raft_recv_entry

    What a leader sends to a peer, and what it does with an entry of a client. *)
From S2P Require Import Prelude Contiki Types Node Membership Log Server Election Replication.
From S2P Require Import Sim NodeFacts Frames History LogFacts MemberFacts ElectionFacts Roles.
From S2P Require Import Campaign.

Section Sending.
Context {T : CTarget} {C : Contiki} {L : ContikiLaws C} {U : User}.

(** The index and term sent as those of the entry before [next]: of the log
    when it holds that entry, of the last snapshot otherwise. *)
Definition prev_of (w : world) (a : alog) (next : Z) : Z * Z :=
  if 1 <? next then
    (next - 1, match al_get a (next - 1) with
               | Some e => to_int (ety_term e)
               | None => snapshot_last_term (srv w)
               end)
  else (0, 0).

Lemma prev_log_ok w a next : log_repr w a -> 1 <= next <= INT_MAX ->
  prev_log next w = Ok (prev_of w a next) w.
Proof.
  intros R Hn. unfold prev_log, prev_of, raft_get_entry_from_idx. pose proof INT_MIN_MAX.
  destruct (Z.ltb_spec 1 next); [|done].
  rewrite bind_int_chk_l, int_ok_nonneg by lia.
  destruct (log_get_at_idx_ok w a (next - 1) R ltac:(lia)) as (q & Hq & Hg).
  rewrite (bind_ok_l _ _ _ _ _ Hq). destruct (al_get a (next - 1)) as [e|]; cbn in Hg; [|by subst q].
  destruct Hg as (x & -> & He). by rewrite (bind_ok_l _ _ _ _ _ (entry_get_ok _ _ _ He)).
Qed.

(** The message a leader sends to a node whose next index is [next]. *)
Definition append_entries_for (w : world) (a : alog) (next : Z) : msg_appendentries_t :=
  mk_appendentries (term_of w) (fst (prev_of w a next)) (snd (prev_of w a next))
    (commit_of w) (Z.of_nat (length (al_from a next))) (al_from a next).

(** The log still holds the entry a node needs next, or the node has them all. *)
Definition can_send (a : alog) (next : Z) : Prop := al_first a <= next \/ al_last a < next.

Lemma al_from_past a next : al_last a < next -> al_from a next = [].
Proof. intros H. unfold al_from, al_first. apply drop_ge. lia. Qed.

Lemma log_get_from_idx_send w a next : log_repr w a -> 1 <= next <= INT_MAX ->
  base (lg w) < next -> can_send a next ->
  exists p, log_get_from_idx next w = Ok (p, Z.of_nat (length (al_from a next))) w /\
    (forall w1, log_state w1 = log_state w -> log_chain p w1 = Ok (al_from a next) w1) /\
    (match p with Some _ => 0 <? Z.of_nat (length (al_from a next))
     | None => Z.of_nat (length (al_from a next)) =? 0 end) = true.
Proof.
  intros R Hn Hb Hcan. pose proof (log_get_from_idx_ok w a next R ltac:(lia)) as H.
  destruct (Z.ltb_spec (al_last a) next) as [Hpast|Hin].
  - exists None. by rewrite (al_from_past _ _ Hpast).
  - destruct (Z.ltb_spec next (al_first a)); [destruct Hcan; lia|].
    destruct H as (p & H1 & _ & H2). exists (Some p). split_and!; try done.
    apply Z.ltb_lt. unfold al_from. rewrite length_drop. unfold al_first in *. lia.
Qed.

(** What the log must provide for a message to be built for node [p]. *)
Definition sendable (w : world) (a : alog) (p : addr) : Prop :=
  forall n, node_heap w !! p = Some n -> 1 <= next_idx n <= INT_MAX /\ can_send a (next_idx n).

(** The log starts at index 1: no snapshot was loaded. *)
Definition no_snapshot (w : world) : Prop := snapshot_last_idx (srv w) = 0 /\ base (lg w) = 0.

(** The answer of the user's function and its effect on the user's data. *)
Definition send_to (w : world) (a : alog) (u : udata) (p : addr) : Z * udata :=
  match send_appendentries (cb (srv w)), node_heap w !! p with
  | Some f, Some n => f (logged w (Some p) u) n (append_entries_for w a (next_idx n))
  | _, _ => (-1, u)
  end.

Lemma raft_send_appendentries_ok w a p u :
  server_ok w a -> no_snapshot w -> is_Some (node_heap w !! p) -> node (srv w) <> Some p ->
  sendable w a p ->
  raft_send_appendentries (Some p) (with_user_data u w)
  = Ok (fst (send_to w a u p)) (with_user_data (snd (send_to w a u p)) w).
Proof.
  intros Sok [Hsnap Hbase] [n Hn] Hself Hcan. destruct (Hcan n Hn) as [Hnext Hcan'].
  unfold raft_send_appendentries, send_to. set (w0 := with_user_data u w).
  assert (server_ok w0 a) as Sok0 by by apply (server_ok_same w).
  rewrite bind_gets_l, bind_assert_l, bool_decide_eq_true_2 by by eexists.
  rewrite bind_assert_l, bool_decide_eq_false_2 by (cbn; congruence). cbn [negb].
  change (srv w0) with (srv w). destruct (send_appendentries (cb (srv w))) as [f|]; [|done].
  unfold raft_node_get_next_idx, raft_node_get_id, Node.get_next_idx.
  rewrite (bind_ok_l _ _ _ _ _ (node_read_ok _ w0 p n Hn)), Hsnap, Hn. cbn [Z.ltb Z.compare andb].
  destruct (log_get_from_idx_send w0 a (next_idx n) (so_log _ _ Sok0) Hnext) as (q & Hq & Hc & Ha);
    [change (base (lg w) < next_idx n); lia|done|].
  unfold raft_get_entries_from_idx. rewrite (bind_ok_l _ _ _ _ _ Hq), bind_assert_l.
  replace (match q with Some _ => _ | None => _ end) with true by by destruct q.
  rewrite (bind_ok_l _ _ _ _ _ (prev_log_ok w0 a _ (so_log _ _ Sok0) Hnext)).
  destruct (prev_of w0 a (next_idx n)) as [pi pt] eqn:Hp.
  rewrite (bind_ok_l _ _ _ _ _ (node_read_ok _ w0 p n Hn)).
  unfold raft_get_current_idx.
  rewrite (bind_ok_l _ _ _ _ _ (log_get_current_idx_repr _ _ (so_log _ _ Sok0))).
  rewrite (bind_ok_l _ _ _ _ _ (log_msg_run _ _)). set (w1 := with_user_data _ w0).
  rewrite (bind_ok_l _ _ _ _ _ (Hc w1 ltac:(done))). unfold call_node.
  rewrite (bind_ok_l _ _ _ _ _ (node_get_ok w1 p n Hn)).
  unfold append_entries_for. change (prev_of w a) with (prev_of w0 a). rewrite Hp. reflexivity.
Qed.

(** A peer whose next entry is no longer in the log makes the server read
    through a null pointer when it builds the message. *)
Theorem raft_send_appendentries_evicted w a p n f :
  server_ok w a -> no_snapshot w -> node_heap w !! p = Some n -> node (srv w) <> Some p ->
  send_appendentries (cb (srv w)) = Some f ->
  1 <= next_idx n < al_first a -> next_idx n <= al_last a ->
  raft_send_appendentries (Some p) w = Fault NullDeref.
Proof.
  intros Sok [Hsnap Hbase] Hn Hself Hf Hnext Hlast. unfold raft_send_appendentries.
  rewrite bind_gets_l, bind_assert_l, bool_decide_eq_true_2 by by eexists.
  rewrite bind_assert_l, bool_decide_eq_false_2 by congruence. cbn [negb].
  rewrite Hf. unfold raft_node_get_next_idx, Node.get_next_idx, raft_get_entries_from_idx.
  rewrite (bind_ok_l _ _ _ _ _ (node_read_ok _ w p n Hn)), Hsnap. cbn [Z.ltb Z.compare andb].
  pose proof (so_log _ _ Sok) as R. pose proof (lr_max _ _ R).
  pose proof (log_get_from_idx_ok w a (next_idx n) R ltac:(lia)) as H'.
  destruct (Z.ltb_spec (al_last a) (next_idx n)); [lia|].
  destruct (Z.ltb_spec (next_idx n) (al_first a)); [|lia].
  unfold bind at 1. by rewrite H'.
Qed.

(** ** Entries of clients *)

(** The message a node needs starts at an entry the log has evicted. *)
Definition unsendable (w : world) (a : alog) (p : addr) : bool :=
  bool_decide (is_Some (send_appendentries (cb (srv w)))) &&
  node_sat w (fun n => (next_idx n <? al_first a) && (next_idx n <=? al_last a)) p.

Lemma raft_send_appendentries_run w a p n u :
  server_ok w a -> no_snapshot w -> node_heap w !! p = Some n -> node (srv w) <> Some p ->
  1 <= next_idx n <= INT_MAX ->
  raft_send_appendentries (Some p) (with_user_data u w)
  = if unsendable w a p then Fault NullDeref
    else Ok (fst (send_to w a u p)) (with_user_data (snd (send_to w a u p)) w).
Proof.
  intros Sok Hsnap Hn Hself Hnext. unfold unsendable, node_sat. rewrite Hn.
  destruct (send_appendentries (cb (srv w))) as [f|] eqn:Hf; cbn [andb].
  - rewrite bool_decide_eq_true_2 by by eexists. cbn [andb].
    destruct (Z.ltb_spec (next_idx n) (al_first a)), (Z.leb_spec (next_idx n) (al_last a)); cbn [andb].
    { apply (raft_send_appendentries_evicted _ a p n f); try done; [by apply (server_ok_same w)|lia]. }
    all: apply raft_send_appendentries_ok; try done;
      intros n' Hn'; rewrite Hn in Hn'; injection Hn' as <-; (split; [done|unfold can_send; lia]).
  - rewrite bool_decide_eq_false_2 by by intros []. cbn [andb]. unfold raft_send_appendentries, send_to.
    rewrite bind_gets_l, bind_assert_l, bool_decide_eq_true_2 by by eexists.
    rewrite bind_assert_l, bool_decide_eq_false_2 by (cbn; congruence). cbn [negb].
    change (srv (with_user_data u w)) with (srv w). by rewrite Hf.
Qed.

(** Sends in turn until an answer is not 0; [None] when a message cannot be built. *)
Fixpoint send_all (w : world) (a : alog) (u : udata) (ps : list addr) : option (Z * udata) :=
  match ps with
  | [] => Some (0, u)
  | p :: ps' =>
      if unsendable w a p then None
      else
        let r := send_to w a u p in
        if truth (fst r) then Some r else send_all w a (snd r) ps'
  end.

Lemma send_all_ext w w' a u ps : (forall u p, send_to w' a u p = send_to w a u p) ->
  (forall p, unsendable w' a p = unsendable w a p) ->
  send_all w' a u ps = send_all w a u ps.
Proof.
  intros H1 H2. revert u. induction ps as [|p ps IH]; intros u; [done|]. cbn. rewrite H1, H2.
  destruct (unsendable _ _ _); [done|]. by destruct (truth _).
Qed.

(** The active nodes other than the server. *)
Definition is_peer (w : world) (p : addr) : bool :=
  negb (is_self_ptr (srv w) p) && node_sat w Node.is_active p.
Definition peers (w : world) : list addr := List.filter (is_peer w) (nodes_list (srv w)).

(** What [raft_send_appendentries_all] does for a node. *)
Definition beat (me : raft_server_private_t) (a : addr) : M world (option Z) :=
  if is_self_ptr me a then ret None
  else
    let! act := raft_node_is_active (Some a) in
    if negb act then ret None
    else
      let! e := raft_send_appendentries (Some a) in
      ret (if truth e then Some e else None).

Lemma send_all_loop w a l u : server_ok w a -> no_snapshot w ->
  (forall p, p ∈ l -> is_Some (node_heap w !! p)) ->
  (forall p n, p ∈ l -> is_peer w p = true -> node_heap w !! p = Some n -> 1 <= next_idx n <= INT_MAX) ->
  (let! o := foreach_ret l (beat (srv w)) in ret (default 0 o)) (with_user_data u w)
  = match send_all w a u (List.filter (is_peer w) l) with
    | Some r => Ok (fst r) (with_user_data (snd r) w)
    | None => Fault NullDeref
    end.
Proof.
  intros Sok Hsnap. revert u. induction l as [|x l IH]; intros u Hl Hnext; [done|].
  specialize (fun u => IH u (fun y Hy => Hl y ltac:(by right)) (fun y n Hy => Hnext y n ltac:(by right))).
  destruct (Hl x ltac:(left)) as [n Hn]. specialize (Hnext x n ltac:(left)).
  cbn [foreach_ret List.filter]. rewrite bind_assoc. unfold beat at 1.
  replace (is_peer w x) with (negb (is_self_ptr (srv w) x) && Node.is_active n) in *
    by by unfold is_peer, node_sat; rewrite Hn.
  destruct (is_self_ptr (srv w) x) eqn:Hself; cbn [negb andb] in *.
  { rewrite bind_ret_l. by apply IH. }
  unfold raft_node_is_active at 1. rewrite bind_assoc.
  rewrite (bind_ok_l _ _ _ _ _ (node_read_ok _ (with_user_data u w) x n Hn)).
  destruct (Node.is_active n); cbn [negb]; [|rewrite bind_ret_l; by apply IH].
  rewrite bind_assoc. apply bool_decide_eq_false in Hself.
  pose proof (raft_send_appendentries_run w a x n u Sok Hsnap Hn Hself (Hnext eq_refl Hn)) as Hrun.
  cbn [send_all]. destruct (unsendable w a x); [by rewrite (bind_fault_l _ _ _ _ Hrun)|].
  rewrite (bind_ok_l _ _ _ _ _ Hrun), bind_ret_l.
  destruct (truth (fst (send_to w a u x))); [done|]. by apply IH.
Qed.

(** C19: a heartbeat of a server that has loaded no snapshot gives the user's
    function, for each active peer in the order of the list, a message with
    exactly the entries from the peer's next index on, their number, the index
    and term of the entry before them, and the server's term and commit index; it
    stops at the first answer that is not 0, which is the result (-1 when the
    function is not set), and restarts the timer.  When it comes to a peer whose next
    entry the full log has evicted it does none of this for that peer, but reads
    through a null pointer. *)
Theorem raft_send_appendentries_all_spec w a :
  server_ok w a -> no_snapshot w ->
  (forall p n, p ∈ peers w -> node_heap w !! p = Some n -> 1 <= next_idx n <= INT_MAX) ->
  raft_send_appendentries_all w
  = match send_all w a (user_data w) (peers w) with
    | Some r => Ok (fst r) (with_user_data (snd r) (with_srv (with_timeout_elapsed 0 (srv w)) w))
    | None => Fault NullDeref
    end.
Proof.
  intros Sok Hsnap Hnext. unfold raft_send_appendentries_all. rewrite bind_upd_srv_l, bind_gets_l.
  set (w0 := with_srv _ w).
  assert (server_ok w0 a) as Sok0 by by apply (server_ok_same w).
  pose proof (send_all_loop w0 a (nodes_list (srv w0)) (user_data w) Sok0 Hsnap) as H.
  replace (with_user_data (user_data w) w0) with w0 in H by by destruct w.
  rewrite <- (send_all_ext w w0) by done. change (peers w) with (peers w0). apply H; [apply Sok|].
  intros p n Hp Hpeer Hn. apply (Hnext p n); [|done]. apply list_elem_of_In, List.filter_In.
  split; [by apply list_elem_of_In|done].
Qed.

(** The peers that wait for the entry at the end of the log. *)
Definition is_waiting (w : world) (a : alog) (p : addr) : bool :=
  negb (is_self_ptr (srv w) p) &&
  node_sat w (fun n => votes_here n && (next_idx n =? al_last a)) p.
Definition waiting (w : world) (a : alog) : list addr :=
  List.filter (is_waiting w a) (nodes_list (srv w)).

(** The user's data after messages to [ps], whatever the answers. *)
Definition sends (w : world) (a : alog) (u : udata) (ps : list addr) : udata :=
  foldl (fun u p => snd (send_to w a u p)) u ps.

(** All of them are sendable. *)
Lemma waiting_sendable w a p : log_repr w a -> al_entries a <> [] -> is_waiting w a p = true ->
  sendable w a p.
Proof.
  intros R Hne [_ Hw]%andb_true_iff n Hn. unfold node_sat in Hw. rewrite Hn in Hw.
  apply andb_true_iff in Hw as [_ He%Z.eqb_eq]. rewrite He. pose proof (lr_max _ _ R).
  pose proof (log_repr_first _ _ R). pose proof (lr_base _ _ R).
  destruct (al_entries a) as [|e es] eqn:Hes; [done|]. unfold can_send, al_first in *.
  rewrite Hes in *. cbn [length] in *. lia.
Qed.

Lemma waiting_loop w a l u : server_ok w a -> no_snapshot w -> al_entries a <> [] ->
  (forall p, p ∈ l -> is_Some (node_heap w !! p)) ->
  foreach l (fun a0 => if is_self_ptr (srv w) a0 then ret tt
    else
      let! act := raft_node_is_active (Some a0) in
      when act
        (let! voting := raft_node_is_voting (Some a0) in
         when voting
           (let! next_idx := raft_node_get_next_idx (Some a0) in
            let! ci := raft_get_current_idx in
            when (next_idx =? ci)
              (let! _ := raft_send_appendentries (Some a0) in ret tt)))) (with_user_data u w)
  = Ok tt (with_user_data (sends w a u (List.filter (is_waiting w a) l)) w).
Proof.
  intros Sok Hsnap Hne. revert u. induction l as [|x l IH]; intros u Hl; [done|].
  specialize (fun u => IH u (fun y Hy => Hl y ltac:(by right))).
  destruct (Hl x ltac:(left)) as [n Hn]. set (w0 := with_user_data u w).
  assert (server_ok w0 a) as Sok0 by by apply (server_ok_same w).
  pose proof (waiting_sendable w a x (so_log _ _ Sok) Hne) as Hcan.
  cbn [foreach List.filter].
  replace (is_waiting w a x) with
    (negb (is_self_ptr (srv w) x) && (Node.is_active n && Node.is_voting n && (next_idx n =? al_last a))) in *
    by by unfold is_waiting, node_sat; rewrite Hn.
  destruct (is_self_ptr (srv w) x) eqn:Hself; cbn [negb andb] in *; [by apply IH|].
  apply bool_decide_eq_false in Hself.
  unfold raft_node_is_active at 1, raft_node_is_voting at 1, raft_node_get_next_idx at 1.
  rewrite bind_assoc, (bind_ok_l _ _ _ _ _ (node_read_ok _ w0 x n Hn)).
  destruct (Node.is_active n); cbn [when andb] in *; [|by apply IH].
  rewrite bind_assoc, (bind_ok_l _ _ _ _ _ (node_read_ok _ w0 x n Hn)).
  destruct (Node.is_voting n); cbn [when andb] in *; [|by apply IH].
  rewrite bind_assoc, (bind_ok_l _ _ _ _ _ (node_read_ok _ w0 x n Hn)).
  unfold raft_get_current_idx at 1, Node.get_next_idx.
  rewrite bind_assoc, (bind_ok_l _ _ _ _ _ (log_get_current_idx_repr _ _ (so_log _ _ Sok0))).
  destruct (next_idx n =? al_last a); cbn [when] in *; [|by apply IH].
  rewrite bind_assoc, (bind_ok_l _ _ _ _ _ (raft_send_appendentries_ok w a x u Sok Hsnap
    ltac:(by eexists) Hself (Hcan eq_refl))), bind_ret_l. apply IH.
Qed.

(** The new entry is sent to every peer that waits for it. *)
Lemma send_new_entry_ok w a : server_ok w a -> no_snapshot w -> al_entries a <> [] ->
  send_new_entry w = Ok tt (with_user_data (sends w a (user_data w) (waiting w a)) w).
Proof.
  intros Sok Hsnap Hne. unfold send_new_entry. rewrite bind_gets_l.
  assert (w = with_user_data (user_data w) w) as Hw by by destruct w.
  rewrite Hw at 2. rewrite waiting_loop with (a := a); try done. apply (nw_heap _ (so_nodes _ _ Sok)).
Qed.

(** What is sent depends on the server, its peers and its log only. *)
Lemma sends_same w w' a u : srv w' = srv w -> node_heap w' = node_heap w ->
  sends w' a u (waiting w' a) = sends w a u (waiting w a).
Proof.
  intros S H. unfold sends, waiting, is_waiting, node_sat. rewrite S, H.
  generalize (List.filter
    (fun p => negb (is_self_ptr (srv w) p) &&
       match node_heap w !! p with Some n => votes_here n && (next_idx n =? al_last a) | None => false end)
    (nodes_list (srv w))). intros l. revert u. induction l as [|x l IH]; intros u; [done|].
  cbn [foldl]. rewrite IH. unfold send_to, logged, append_entries_for, prev_of, term_of, commit_of.
  by rewrite S, H.
Qed.

Lemma al_append_nonempty e a : al_entries (al_append e a) <> [].
Proof. unfold al_append. cbn. intros H. by apply app_eq_nil in H as [_ ?]. Qed.

(** The server after appending an application entry. *)
Lemma server_ok_append w w' a e : server_ok w a -> outside_log w' = outside_log w ->
  log_repr w' (al_append e a) -> server_ok w' (al_append e a).
Proof.
  intros [] Ho R. unfold outside_log in Ho. injection Ho as H1 H2 H3 _ H5 H6 H7.
  assert (node_state w' = node_state w) as Hn by (unfold node_state; congruence).
  split; [by eapply nodes_wf_same|by eapply self_wf_same|done| | |].
  - right. rewrite al_append_last. eexists. apply al_append_get.
  - unfold timer_ok. by rewrite H1.
  - unfold persists. by rewrite H1.
Qed.

Lemma voting_nodes_same w w' : node_state w' = node_state w -> voting_nodes w' = voting_nodes w.
Proof. unfold node_state, voting_nodes, node_sat. intros [= -> _ _ -> _]. done. Qed.

(** The commit of an entry by a server that is alone. *)
Lemma recv_entry_commit w a : server_ok w a -> commit_of w <= al_last a ->
  exists w', when (1 =? Z.of_nat (length (voting_nodes w)))
      (let! ci := log_get_current_idx in raft_set_commit_idx ci) w = Ok tt w' /\
    srv w' = (if decide (length (voting_nodes w) = 1%nat)
              then with_commit_idx (al_last a) (srv w) else srv w) /\
    w' = with_srv (srv w') w.
Proof.
  intros Sok Hc. destruct (Z.eqb_spec 1 (Z.of_nat (length (voting_nodes w)))) as [He|Hne]; cbn [when].
  - pose proof (log_get_current_idx_repr _ _ (so_log _ _ Sok)) as Hi.
    rewrite (bind_ok_l _ _ _ _ _ Hi). unfold raft_set_commit_idx, raft_get_current_idx.
    rewrite bind_gets_l, bind_assert_l. destruct (Z.leb_spec (commit_idx (srv w)) (al_last a));
      [|unfold commit_of in *; lia].
    rewrite (bind_ok_l _ _ _ _ _ Hi), bind_assert_l, Z.leb_refl.
    eexists. split; [reflexivity|]. rewrite decide_True by lia. done.
  - exists w. rewrite decide_False by lia. by destruct w.
Qed.

Lemma server_ok_commit w w' a : server_ok w a -> 
  (exists c, srv w' = srv w \/ srv w' = with_commit_idx c (srv w)) -> w' = with_srv (srv w') w ->
  server_ok w' a.
Proof.
  intros [] [c Hc] Hw.
  assert (log_state w' = log_state w /\ node_state w' = node_state w) as [E1 E2].
  { rewrite Hw. unfold node_state. destruct Hc as [->| ->]; done. }
  split; [by eapply nodes_wf_same|by eapply self_wf_same|by eapply log_repr_same|done| |].
  - unfold timer_ok. destruct Hc as [->| ->]; done.
  - unfold persists. destruct Hc as [->| ->]; done.
Qed.

(** The entry as the log stores it. *)
Definition stamped (w : world) (a : alog) (e : raft_entry_t) : raft_entry_t :=
  with_ety_idx (al_last a + 1) (with_ety_term (to_uint (term_of w)) e).

(** Storing a client's entry: the log is longer by the stamped entry. *)
Lemma raft_append_entry_normal w a ety :
  server_ok w a -> no_snapshot w -> offers_accept w ->
  raft_entry_is_cfg_change ety = false -> al_last a < INT_MAX ->
  exists w', raft_append_entry (with_ety_term (to_uint (term_of w)) ety) w
      = Ok (0, stamped w a ety) w' /\
    server_ok w' (al_append (with_ety_term (to_uint (term_of w)) ety) a) /\
    no_snapshot w' /\ srv w' = srv w /\ node_state w' = node_state w /\
    user_data w' = offered w (stamped w a ety) (al_last a + 1) (user_data w).
Proof.
  intros Sok Hsnap Hacc Hcfg Hmax. unfold raft_append_entry.
  change (raft_entry_is_voting_cfg_change (with_ety_term _ ety)) with
    (raft_entry_is_voting_cfg_change ety). rewrite normal_not_voting by done. cbn [when].
  rewrite bind_ret_l.
  destruct (log_append_entry_run (with_ety_term (to_uint (term_of w)) ety) w a)
    as (w2 & H2 & R2 & O2 & U2); try done; [apply Sok|].
  exists w2. split; [exact H2|]. split; [by eapply server_ok_append|].
  unfold no_snapshot, outside_log in *. injection O2 as E1 E2 E3 E4 E5 _ _.
  split; [by rewrite E1, E5|]. split; [exact E1|].
  split; [|exact U2]. unfold node_state. cbn. by rewrite E1, E2, E3.
Qed.

(** The user's data after a client's entry is offered and sent. *)
Definition entry_spread (w : world) (a : alog) (ety : raft_entry_t) : udata :=
  let a' := al_append (with_ety_term (to_uint (term_of w)) ety) a in
  sends w a' (offered w (stamped w a ety) (al_last a + 1) (logged w None (user_data w))) (waiting w a').

Lemma raft_recv_entry_run w a ety :
  server_ok w a -> no_snapshot w -> offers_accept w -> role w = RAFT_STATE_LEADER ->
  raft_entry_is_cfg_change ety = false -> al_last a < INT_MAX -> commit_of w <= al_last a ->
  let a' := al_append (with_ety_term (to_uint (term_of w)) ety) a in
  exists w', raft_recv_entry ety w
    = Ok (0, stamped w a ety,
          Some (mk_entry_response (ety_id ety) (term_of w) (al_last a + 1))) w' /\
    server_ok w' a' /\ role_of w' = role_of w /\
    al_get a' (al_last a + 1) = Some (stamped w a ety) /\
    commit_of w' = (if decide (length (voting_nodes w) = 1%nat)
                    then al_last a + 1 else commit_of w) /\
    node_state w' = node_state w /\ no_snapshot w' /\
    user_data w' = entry_spread w a ety.
Proof.
  intros Sok Hsnap Hacc Hl Hcfg Hmax Hcommit a'. unfold raft_recv_entry.
  unfold raft_voting_change_is_in_progress, raft_snapshot_is_in_progress. rewrite !bind_gets_l.
  rewrite normal_not_voting by done. cbn [andb]. unfold raft_is_leader, raft_get_state.
  rewrite bind_assoc, bind_gets_l, bind_ret_l. unfold role in Hl. rewrite Hl.
  rewrite bool_decide_eq_true_2 by done. cbn [negb]. unfold raft_get_current_idx.
  pose proof (so_log _ _ Sok) as R. pose proof (log_repr_bound _ _ R). pose proof (lr_last _ _ R).
  rewrite (bind_ok_l _ _ _ _ _ (log_get_current_idx_repr _ _ R)), bind_int_chk_l.
  rewrite int_ok_nonneg by lia. rewrite (bind_ok_l _ _ _ _ _ (log_msg_run _ _)), bind_gets_l.
  set (w1 := with_user_data _ w).
  assert (server_ok w1 a) as Sok1 by by apply (server_ok_same w).
  destruct (raft_append_entry_normal w1 a ety) as (w2 & H2 & Sok2 & Hsnap2 & S2 & N2 & U2); try done.
  rewrite (bind_ok_l _ _ _ _ _ H2). cbn [truth Z.eqb negb].
  pose proof (send_new_entry_ok w2 a' Sok2 Hsnap2 (al_append_nonempty _ _)) as Hs.
  rewrite (bind_ok_l _ _ _ _ _ Hs). set (u := sends w2 _ _ _) in *. set (w3 := with_user_data u w2).
  assert (server_ok w3 a') as Sok3 by by apply (server_ok_same w2).
  assert (srv w3 = srv w /\ node_state w3 = node_state w) as [S3 N3] by done.
  pose proof (voting_nodes_same _ _ N3) as V3.
  rewrite (bind_ok_l _ _ _ _ _ (raft_get_num_voting_nodes_ok w3 (so_nodes _ _ Sok3))), V3.
  assert (al_last a' = al_last a + 1) as Hlast by apply al_append_last.
  destruct (recv_entry_commit w3 a' Sok3) as (w4 & H4 & S4 & K4).
  { unfold commit_of in *. rewrite S3. lia. }
  rewrite V3 in H4. rewrite (bind_ok_l _ _ _ _ _ H4).
  assert (server_ok w4 a') as Sok4 by
    (apply (server_ok_commit w3); [done|rewrite S4; exists (al_last a'); case_decide; [by right|by left]|done]).
  rewrite (bind_ok_l _ _ _ _ _ (log_get_current_idx_repr _ _ (so_log _ _ Sok4))), bind_gets_l.
  change (raft_entry_is_voting_cfg_change (stamped _ _ _)) with
    (raft_entry_is_voting_cfg_change ety). rewrite normal_not_voting by done. cbn [when].
  rewrite bind_ret_l. exists w4. split; [|split; [done|split; [|split; [|split; [|split; [|split]]]]]].
  - unfold ret. rewrite S4, S3, Hlast. destruct (decide _); reflexivity.
  - unfold role_of, role, term_of. rewrite S4, S3. by case_decide.
  - apply al_append_get.
  - unfold commit_of. rewrite S4, S3, V3, Hlast. repeat case_decide; done.
  - rewrite <- N3, K4. unfold node_state. cbn. rewrite S4. by case_decide.
  - destruct Hsnap2 as [Hs2 Hb2]. split; [|by rewrite K4].
    rewrite S4. case_decide; [|done]. done.
  - unfold entry_spread. rewrite K4. cbn. unfold u. rewrite U2. apply sends_same; [done|].
    unfold node_state in N2. change (node_heap w) with (node_heap w1). congruence.
Qed.

End Sending.

(** ** Refused entries *)
Section Refused.
Context {T : CTarget} {C : Contiki} {U : User}.

(** An entry is refused without any effect when it is a voting change
    while another is in progress or a snapshot is, and by a server that is not
    the leader, with the error code of the first of these that holds.  In every
    other case the response is written exactly when the result is 0. *)
Theorem raft_recv_entry_refused w ety :
  let voting_change := raft_entry_is_voting_cfg_change ety in
  let changing := negb (voting_cfg_change_log_idx (srv w) =? -1) in
  let snapshot := truth (snapshot_in_progress (srv w)) in
  let err :=
    if voting_change && changing then Some RAFT_ERR_ONE_VOTING_CHANGE_ONLY
    else if voting_change && snapshot then Some RAFT_ERR_SNAPSHOT_IN_PROGRESS
    else if decide (role w = RAFT_STATE_LEADER) then None else Some RAFT_ERR_NOT_LEADER in
  match err with
  | Some e => raft_recv_entry ety w = Ok (e, ety, None) w
  | None => forall e ety' r w', raft_recv_entry ety w = Ok (e, ety', r) w' ->
              (is_Some r <-> e = 0)
  end.
Proof.
  cbv zeta. unfold raft_recv_entry, raft_voting_change_is_in_progress,
    raft_snapshot_is_in_progress. 
  destruct (raft_entry_is_voting_cfg_change ety && _) eqn:H1; [by rewrite !bind_gets_l, H1|].
  destruct (raft_entry_is_voting_cfg_change ety && truth _) eqn:H2;
    [by rewrite !bind_gets_l, H1, H2|].
  case_decide as Hl.
  - intros e ety' r w' H. run_simp H. rewrite H1, H2 in H. run_bind H as l w1 Hld.
    destruct (negb l) in H; [run_ret H; split; [by intros [? ?]|done]|].
    run_bind H as ci w2 Hci. run_simp H. destruct (int_ok _); [|done].
    run_bind H as u w3 H3. run_simp H. run_bind H as [e1 ety1] w4 H4. unfold truth in H.
    destruct (Z.eqb_spec e1 0) as [->|]; cbn [negb] in H.
    + repeat run_bind H as ? ? ?. run_simp H. repeat run_bind H as ? ? ?. run_ret H.
      split; [done|by eexists].
    + run_ret H. split; [by intros [? ?]|done].
  - rewrite !bind_gets_l, H1, H2. unfold raft_is_leader, raft_get_state.
    rewrite bind_assoc, bind_gets_l, bind_ret_l. unfold role in Hl.
    by rewrite bool_decide_eq_false_2.
Qed.
End Refused.

(** ** Witnesses *)

(** Node 1 as the leader of term 1, with the entry of a client. *)
Definition sim_leader : world :=
  run_world (raft_recv_requestvote_response (Some 2%positive) (mk_requestvote_response 1 1))
    sim_candidate.
Definition sim_leader1 : world := run_world (raft_recv_entry (sim_entry 0 7)) sim_leader.
Definition sim_alog1 : alog := mk_alog 1 [with_ety_idx 1 (sim_entry 1 7)].

Lemma sim_leader_ok : server_ok sim_leader (mk_alog 0 []).
Proof. apply server_okb_sound; vm_compute; reflexivity. Qed.
Lemma sim_leader1_ok : server_ok sim_leader1 sim_alog1.
Proof. apply server_okb_sound; vm_compute; reflexivity. Qed.

(** Nodes 2 and 3 are sent the entry. *)
Lemma raft_send_appendentries_all_spec_witness :
  peers sim_leader1 = [2; 3]%positive /\
  is_Some (send_all sim_leader1 sim_alog1 (user_data sim_leader1) (peers sim_leader1)) /\
  raft_send_appendentries_all sim_leader1
  = match send_all sim_leader1 sim_alog1 (user_data sim_leader1) (peers sim_leader1) with
    | Some r => Ok (fst r) (with_user_data (snd r)
        (with_srv (with_timeout_elapsed 0 (srv sim_leader1)) sim_leader1))
    | None => Fault NullDeref
    end.
Proof.
  assert (peers sim_leader1 = [2; 3]%positive) as Hp by (vm_compute; reflexivity).
  split; [exact Hp|]. split; [by eexists; vm_compute|].
  apply (raft_send_appendentries_all_spec sim_leader1 sim_alog1).
  - exact sim_leader1_ok.
  - split; vm_compute; reflexivity.
  - rewrite Hp. intros p n [->|[->|[]%elem_of_nil]%elem_of_cons]%elem_of_cons Hn;
      vm_compute in Hn; injection Hn as <-; split; vm_compute; discriminate.
Defined.

(** The leader took 51 entries while its peers were silent. *)
Definition sim_leader51 : world :=
  run_world (foreach (seq 0 51) (fun i =>
    let! _ := raft_recv_entry (sim_entry 0 (Z.of_nat i)) in ret tt)) sim_leader.

Lemma raft_send_appendentries_evicted_witness :
  server_ok sim_leader51 sim_alog51 /\
  raft_send_appendentries (Some 2%positive) sim_leader51 = Fault NullDeref.
Proof.
  assert (server_ok sim_leader51 sim_alog51) as Sok.
  { apply server_okb_sound; vm_compute; reflexivity. }
  split; [exact Sok|].
  eapply (raft_send_appendentries_evicted sim_leader51 sim_alog51 2%positive).
  - exact Sok.
  - split; vm_compute; reflexivity.
  - vm_compute. reflexivity.
  - vm_compute. discriminate.
  - vm_compute. reflexivity.
  - split; [vm_compute; discriminate|vm_compute; reflexivity].
  - vm_compute. discriminate.
Defined.

(** A leader that does not vote, with one peer that does, commits an entry the peer
    has not received. *)
Definition sim_nonvoter : world := run_world
  (exec! sim_start sim_cbs 1 [2] in
   exec! raft_node_set_voting (Some 1%positive) false in
   raft_set_state RAFT_STATE_LEADER) sim_boot.

Lemma lone_voter_commits :
  let w := run_world (raft_recv_entry (sim_entry 0 8)) sim_nonvoter in
  voting_nodes w = [2%positive] /\ node (srv w) = Some 1%positive /\ commit_of w = 1 /\
  option_map match_idx (node_heap w !! 2%positive) = Some 0.
Proof. split_and!; vm_compute; reflexivity. Qed.

