(* ===== verification/Receiving.v ===== *)
(** * Receiving entries: raft_recv_appendentries

    The handler of appendentries messages implements the replication step of
    Raft on the abstract log, when the message does not conflict with the log;
    the conflict case, where the code departs from Raft, is shown on a run. *)
From S2P Require Import Prelude Contiki Types Node Membership Log Server Election Replication.
From S2P Require Import Sim NodeFacts Frames History LogFacts MemberFacts ElectionFacts Roles.
From S2P Require Import Campaign Sending.

Section Receiving.
Context {T : CTarget} {C : Contiki} {L : ContikiLaws C} {U : User}.

(** The entries of a message that starts at index [idx] have the terms of the
    entries the log holds at their indices. *)
Definition agrees (a : alog) (idx : Z) (es : list raft_entry_t) : Prop :=
  forall i x y, al_get a (idx + Z.of_nat i) = Some x -> es !! i = Some y ->
    ety_term x = ety_term y.

(** How many of the entries after index [prev] the log already holds. *)
Definition held (a : alog) (prev : Z) (es : list raft_entry_t) : nat :=
  Z.to_nat (Z.min (Z.of_nat (length es)) (al_last a - prev)).

Lemma al_get_in a idx : al_first a <= idx <= al_last a -> exists x, al_get a idx = Some x.
Proof.
  intros H. unfold al_get. destruct (Z.leb_spec (al_first a) idx); [|lia].
  destruct (Z.leb_spec idx (al_last a)); [|lia]. cbn. apply lookup_lt_is_Some_2.
  unfold al_first in *. lia.
Qed.
Lemma al_get_past a idx : al_last a < idx -> al_get a idx = None.
Proof.
  intros H. unfold al_get. destruct (Z.leb_spec idx (al_last a)); [lia|]. by rewrite andb_false_r.
Qed.

(** The first loop passes entries that the log holds with the same terms. *)
Lemma recv_ae_match_skip ae w a es rest m i : log_repr w a -> 0 <= i -> 0 <= ae_prev_log_idx ae ->
  al_first a <= ae_prev_log_idx ae + i + 1 -> agrees a (ae_prev_log_idx ae + i + 1) es ->
  ae_prev_log_idx ae + i + Z.of_nat (length es) <= al_last a ->
  recv_ae_match ae (length es + m) i (es ++ rest) (ae_prev_log_idx ae + i) w
  = recv_ae_match ae m (i + Z.of_nat (length es)) rest
      (ae_prev_log_idx ae + i + Z.of_nat (length es)) w.
Proof.
  intros R. set (prev := ae_prev_log_idx ae). pose proof INT_MIN_MAX. revert i.
  induction es as [|y es IH]; intros i Hi Hp Hfirst Hag Hmax.
  { cbn [length app Nat.add]. f_equal; lia. }
  cbn [length Nat.add app recv_ae_match] in *. unfold ae_index. fold prev.
  pose proof (lr_max _ _ R).
  rewrite bind_assoc, bind_int_chk_l, int_ok_nonneg, bind_int_chk_l, int_ok_nonneg by lia.
  unfold raft_get_entry_from_idx.
  destruct (log_get_at_idx_ok w a (prev + 1 + i) R ltac:(lia)) as (q & Hq & Hg).
  rewrite (bind_ok_l _ _ _ _ _ Hq).
  destruct (al_get_in a (prev + 1 + i) ltac:(lia)) as [x Hx]. rewrite Hx in Hg.
  destruct Hg as (z & -> & Hz). rewrite (bind_ok_l _ _ _ _ _ (entry_get_ok _ _ _ Hz)), bind_gets_l.
  rewrite (Hag 0%nat x y) by (cbn; rewrite <- ?Hx; f_equal; lia || done).
  rewrite Z.eqb_refl. cbn [negb andb].
  replace (prev + 1 + i) with (prev + (i + 1)) by lia. rewrite IH; try lia.
  - f_equal; lia.
  - intros k x' y' Hx' Hy'. apply (Hag (S k)); [|done]. rewrite <- Hx'. f_equal. lia.
Qed.

(** It skips exactly the entries the log holds. *)
Lemma recv_ae_match_ok ae w a es i : log_repr w a -> 0 <= i -> 0 <= ae_prev_log_idx ae ->
  al_first a <= ae_prev_log_idx ae + i + 1 -> agrees a (ae_prev_log_idx ae + i + 1) es ->
  ae_prev_log_idx ae + i <= al_last a ->
  ae_prev_log_idx ae + 1 + i + Z.of_nat (length es) <= INT_MAX ->
  let k := held a (ae_prev_log_idx ae + i) es in
  recv_ae_match ae (length es) i es (ae_prev_log_idx ae + i) w
  = Ok (Next (i + Z.of_nat k) (drop k es) (ae_prev_log_idx ae + i + Z.of_nat k)) w.
Proof.
  intros R Hi Hp Hfirst Hag Hlast Hmax k. pose proof INT_MIN_MAX.
  set (prev := ae_prev_log_idx ae) in *.
  assert (k = Z.to_nat (Z.min (Z.of_nat (length es)) (al_last a - (prev + i)))) as Hk by done.
  assert (length (take k es) = k) as Hlen by (rewrite length_take; lia).
  pose proof (recv_ae_match_skip ae w a (take k es) (drop k es) (length es - k) i R Hi Hp Hfirst) as Hs.
  fold prev in Hs. rewrite Hlen, take_drop in Hs. replace (k + _)%nat with (length es) in Hs by lia.
  rewrite Hs; [clear Hs|..].
  - destruct (length es - k)%nat as [|m] eqn:Hm; [done|]. cbn [recv_ae_match].
    unfold ae_index. fold prev.
    rewrite bind_assoc, bind_int_chk_l, int_ok_nonneg, bind_int_chk_l, int_ok_nonneg by lia.
    destruct (log_get_at_idx_ok w a (prev + 1 + (i + Z.of_nat k)) R ltac:(lia)) as (q & Hq & Hg).
    unfold raft_get_entry_from_idx. rewrite (bind_ok_l _ _ _ _ _ Hq).
    rewrite al_get_past in Hg by lia. cbn in Hg. by subst q.
  - intros j x y Hx Hy. apply (Hag j x y Hx). by apply lookup_take_Some in Hy as [? _].
  - lia.
Qed.

(** The second loop appends the others. *)
Lemma recv_ae_append_ok ae w a es i : server_ok w a -> offers_accept w ->
  Forall (fun e => raft_entry_is_cfg_change e = false) es ->
  0 <= i -> 0 <= ae_prev_log_idx ae ->
  ae_prev_log_idx ae + 1 + i + Z.of_nat (length es) <= INT_MAX ->
  al_last a + Z.of_nat (length es) <= INT_MAX ->
  exists w', recv_ae_append ae (length es) i es (ae_prev_log_idx ae + i) w
    = Ok (Next (i + Z.of_nat (length es)) [] (ae_prev_log_idx ae + i + Z.of_nat (length es))) w' /\
    server_ok w' (al_appends es a) /\ outside_log w' = outside_log w /\
    user_data w' = offers w (al_last a) es (user_data w).
Proof.
  intros Sok Hacc Hcfg. set (prev := ae_prev_log_idx ae).
  revert w a i Sok Hacc. induction Hcfg as [|y es Hy _ IH]; intros w a i Sok Hacc Hi Hp Hmax Hroom.
  { exists w. split; [|done]. cbn. unfold ret. do 2 f_equal; lia. }
  cbn [length recv_ae_append] in *.
  unfold raft_append_entry.
  rewrite normal_not_voting by done. cbn [when]. destruct (log_append_entry_run y w a) as (w1 & H1 & R1 & O1 & U1); try done;
    [apply Sok|lia|].
  rewrite bind_assoc, bind_ret_l, (bind_ok_l _ _ _ _ _ H1). cbn [truth Z.eqb negb].
  unfold ae_index. fold prev. rewrite bind_assoc, bind_int_chk_l, int_ok_nonneg,
    bind_int_chk_l, int_ok_nonneg by lia.
  assert (server_ok w1 (al_append y a)) as Sok1 by by eapply server_ok_append.
  destruct (IH w1 (al_append y a) (i + 1) Sok1) as (w2 & H2 & Sok2 & O2 & U2); try lia.
  - by eapply offers_accept_same.
  - rewrite al_append_last. lia.
  - exists w2. replace (prev + 1 + i) with (prev + (i + 1)) by lia. rewrite H2.
    split; [do 2 f_equal; lia|]. split; [done|]. split; [congruence|].
    by rewrite U2, U1, al_append_last, (offers_same w w1).
Qed.

(** The commit index follows the leader's, up to the end of the log. *)
Lemma recv_ae_commit_ok ae w a : server_ok w a -> commit_of w <= al_last a ->
  (0 < al_last a \/ ae_leader_commit ae <= Z.max 0 (commit_of w)) ->
  exists w', recv_ae_commit ae w = Ok tt w' /\
    srv w' = with_commit_idx
               (Z.max (commit_of w) (Z.min (ae_leader_commit ae) (al_last a))) (srv w) /\
    w' = with_srv (srv w') w.
Proof.
  intros Sok Hc Hpos. pose proof (log_repr_bound _ _ (so_log _ _ Sok)).
  pose proof (lr_last _ _ (so_log _ _ Sok)).
  unfold recv_ae_commit, raft_get_commit_idx, raft_get_current_idx.
  rewrite bind_gets_l. unfold commit_of in *.
  destruct (Z.ltb_spec (commit_idx (srv w)) (ae_leader_commit ae)) as [Hlt|Hge]; cbn [when].
  - pose proof (log_get_current_idx_repr _ _ (so_log _ _ Sok)) as Hi.
    rewrite (bind_ok_l _ _ _ _ _ Hi). unfold raft_set_commit_idx, raft_get_current_idx.
    assert (c_min (c_max (al_last a) 1) (ae_leader_commit ae)
      = Z.max (commit_idx (srv w)) (Z.min (ae_leader_commit ae) (al_last a))) as ->.
    { unfold c_min, c_max. destruct (Z.ltb_spec (al_last a) 1);
        [destruct (Z.ltb_spec 1 (ae_leader_commit ae)); lia|].
      destruct (Z.ltb_spec (al_last a) (ae_leader_commit ae)); lia. }
    rewrite bind_gets_l, bind_assert_l. destruct (Z.leb_spec (commit_idx (srv w))
      (Z.max (commit_idx (srv w)) (Z.min (ae_leader_commit ae) (al_last a)))); [|lia].
    rewrite (bind_ok_l _ _ _ _ _ Hi), bind_assert_l.
    destruct (Z.leb_spec (Z.max (commit_idx (srv w)) (Z.min (ae_leader_commit ae) (al_last a)))
      (al_last a)); [|lia]. by eexists.
  - exists w. split; [done|]. destruct w as [s0]. cbn in *. split; [|done].
    replace (Z.max _ _) with (commit_idx s0) by lia. by destruct s0.
Qed.

(** On an empty log any commit index of the leader is too large: an assertion
    fails. *)
Lemma recv_ae_commit_asserts ae w a : server_ok w a -> commit_of w <= al_last a ->
  al_last a = 0 -> 0 < ae_leader_commit ae -> recv_ae_commit ae w = Fault AssertFailed.
Proof.
  intros Sok Hc Hz Hpos. unfold recv_ae_commit, raft_get_commit_idx, raft_get_current_idx.
  rewrite bind_gets_l. unfold commit_of in *.
  destruct (Z.ltb_spec (commit_idx (srv w)) (ae_leader_commit ae)); [|lia]. cbn [when].
  pose proof (log_get_current_idx_repr _ _ (so_log _ _ Sok)) as Hi.
  rewrite (bind_ok_l _ _ _ _ _ Hi). unfold raft_set_commit_idx, raft_get_current_idx.
  assert (c_min (c_max (al_last a) 1) (ae_leader_commit ae) = 1) as ->.
  { unfold c_min, c_max. rewrite Hz. cbn. destruct (Z.ltb_spec 1 (ae_leader_commit ae)); lia. }
  rewrite bind_gets_l, bind_assert_l. destruct (Z.leb_spec (commit_idx (srv w)) 1); [|done].
  by rewrite (bind_ok_l _ _ _ _ _ Hi), bind_assert_l, Hz.
Qed.

(** A message in order: its count is the length of its chain, its entries are
    application entries, and no index overflows. *)
Record ae_ok (w : world) (a : alog) (ae : msg_appendentries_t) : Prop := {
  ao_count : ae_n_entries ae = Z.of_nat (length (ae_entries ae));
  ao_normal : Forall (fun e => raft_entry_is_cfg_change e = false) (ae_entries ae);
  ao_prev : 0 <= ae_prev_log_idx ae;
  ao_max : ae_prev_log_idx ae + 1 + Z.of_nat (length (ae_entries ae)) <= INT_MAX;
  ao_commit : commit_of w <= al_last a
}.

(** The consistency check of Raft: the log holds the entry before the new
    ones, with the term the leader says. *)
Definition consistent (a : alog) (ae : msg_appendentries_t) : Prop :=
  ae_prev_log_idx ae = 0 \/
  exists e, al_get a (ae_prev_log_idx ae) = Some e /\ ety_term e = to_uint (ae_prev_log_term ae).

(** The entries of the message that the log lacks, and the log after the message:
    they are appended. *)
Definition lacked (a : alog) (ae : msg_appendentries_t) : list raft_entry_t :=
  drop (held a (ae_prev_log_idx ae) (ae_entries ae)) (ae_entries ae).
Definition replicated (a : alog) (ae : msg_appendentries_t) : alog := al_appends (lacked a ae) a.

Lemma consistent_reaches ae w a : log_repr w a -> consistent a ae ->
  ae_prev_log_idx ae <= al_last a.
Proof.
  intros R Hc. pose proof (log_repr_bound _ _ R). pose proof (lr_last _ _ R).
  destruct Hc as [->|(e & He & _)]; [lia|]. unfold al_get in He.
  destruct (Z.leb_spec (ae_prev_log_idx ae) (al_last a)); [done|by rewrite andb_false_r in He].
Qed.

(** Step 4 and the answer. *)
Lemma recv_ae_finish ae w a cur : server_ok w a -> offers_accept w -> commit_of w <= al_last a ->
  (0 < al_last a \/ ae_leader_commit ae <= Z.max 0 (commit_of w)) -> 0 <= ae_prev_log_idx ae < INT_MAX ->
  exists w', (exec! recv_ae_commit ae in recv_ae_out ae 0 1 cur) w
    = Ok (0, mk_appendentries_response (term_of w) 1 cur (ae_prev_log_idx ae + 1)) w' /\
    server_ok w' a /\
    srv w' = with_commit_idx (Z.max (commit_of w) (Z.min (ae_leader_commit ae) (al_last a))) (srv w) /\
    offers_accept w' /\ user_data w' = user_data w.
Proof.
  intros Sok Hacc Hc Hpos Hp.
  destruct (recv_ae_commit_ok ae w a Sok Hc Hpos) as (w2 & H2 & S2 & K2).
  rewrite (bind_ok_l _ _ _ _ _ H2). exists w2.
  unfold recv_ae_out, raft_get_current_term. rewrite bind_gets_l. cbn [Z.eqb].
  rewrite bind_ret_l, bind_int_chk_l, int_ok_nonneg by lia. split_and!; try done.
  - unfold ret, term_of. by rewrite S2.
  - apply (server_ok_commit w); [done|rewrite S2; eexists; by right|done].
  - destruct Hacc as [A1 A2]. unfold offers_accept. by rewrite K2, S2.
  - by rewrite K2.
Qed.

(** Step 3: what the log lacks is appended. *)
Lemma recv_ae_entries_reach ae w a : server_ok w a -> offers_accept w -> ae_ok w a ae ->
  consistent a ae -> al_first a <= ae_prev_log_idx ae + 1 ->
  agrees a (ae_prev_log_idx ae + 1) (ae_entries ae) ->
  exists w1, recv_ae_entries ae w
    = (exec! recv_ae_commit ae in
       recv_ae_out ae 0 1 (ae_prev_log_idx ae + Z.of_nat (length (ae_entries ae)))) w1 /\
    server_ok w1 (replicated a ae) /\ srv w1 = srv w /\ offers_accept w1 /\
    al_last a <= al_last (replicated a ae) /\
    user_data w1 = offers w (al_last a) (lacked a ae) (user_data w).
Proof.
  intros Sok Hacc [Hn Hcfg Hp Hmax Hc] Hcons Hfirst Hag.
  set (es := ae_entries ae) in *. set (prev := ae_prev_log_idx ae) in *.
  set (k := held a prev es).
  assert (k <= length es)%nat as Hk by (unfold k, held; lia).
  pose proof (consistent_reaches ae w a (so_log _ _ Sok) Hcons) as Hprev. fold prev in Hprev.
  pose proof (lr_max _ _ (so_log _ _ Sok)) as Hlm.
  assert (al_last a + Z.of_nat (length (drop k es)) <= INT_MAX) as Hroom
    by (rewrite length_drop; unfold k, held; lia).
  unfold recv_ae_entries. fold prev es. rewrite Hn, Nat2Z.id.
  pose proof (recv_ae_match_ok ae w a es 0 (so_log _ _ Sok)) as Hm. cbv zeta in Hm.
  fold prev in Hm. rewrite Z.add_0_r in Hm. fold k in Hm. rewrite Z.add_0_l in Hm.
  rewrite (bind_ok_l _ _ _ _ _ (Hm ltac:(lia) Hp ltac:(lia) Hag ltac:(lia) ltac:(lia))). clear Hm.
  replace (Z.to_nat (Z.of_nat (length es) - Z.of_nat k)) with (length (drop k es))
    by (rewrite length_drop; lia).
  destruct (recv_ae_append_ok ae w a (drop k es) (Z.of_nat k) Sok Hacc) as (w1 & H1 & Sok1 & O1 & U1);
    try (rewrite ?length_drop; fold prev; lia); [by apply Forall_drop|done|].
  fold prev in H1. rewrite (bind_ok_l _ _ _ _ _ H1).
  change (al_appends (drop k es) a) with (replicated a ae) in Sok1.
  exists w1. split_and!; try done.
  - rewrite length_drop. by replace (prev + Z.of_nat k + _) with (prev + Z.of_nat (length es)) by lia.
  - unfold outside_log in O1. congruence.
  - by eapply offers_accept_same.
  - unfold replicated. rewrite al_appends_last. lia.
Qed.

(** Steps 3 and 4. *)
Lemma recv_ae_entries_ok ae w a : server_ok w a -> offers_accept w -> ae_ok w a ae ->
  consistent a ae -> al_first a <= ae_prev_log_idx ae + 1 ->
  agrees a (ae_prev_log_idx ae + 1) (ae_entries ae) ->
  (0 < al_last (replicated a ae) \/ ae_leader_commit ae <= Z.max 0 (commit_of w)) ->
  exists w', recv_ae_entries ae w
    = Ok (0, mk_appendentries_response (term_of w) 1
               (ae_prev_log_idx ae + Z.of_nat (length (ae_entries ae)))
               (ae_prev_log_idx ae + 1)) w' /\
    server_ok w' (replicated a ae) /\
    srv w' = with_commit_idx (Z.max (commit_of w)
               (Z.min (ae_leader_commit ae) (al_last (replicated a ae)))) (srv w) /\
    offers_accept w' /\ user_data w' = offers w (al_last a) (lacked a ae) (user_data w).
Proof.
  intros Sok Hacc Hae Hcons Hfirst Hag Hpos.
  destruct (recv_ae_entries_reach ae w a Sok Hacc Hae Hcons Hfirst Hag)
    as (w1 & H1 & Sok1 & S1 & Hacc1 & Hlast & U1). destruct Hae as [_ _ Hp Hmax Hc].
  rewrite H1, <- U1. unfold term_of, commit_of in *. rewrite <- S1 in *.
  apply recv_ae_finish; unfold commit_of; try done; lia.
Qed.

(** *** Step 1: the term *)

Lemma offers_accept_stable w w' : stable_state w' = stable_state w -> settings w' = settings w ->
  offers_accept w -> offers_accept w'.
Proof.
  unfold stable_state, settings, log_state, offers_accept. intros HS HT.
  assert (lg w' = lg w) as -> by congruence. by assert (cb (srv w') = cb (srv w)) as -> by congruence.
Qed.

Lemma recv_ae_log_ok p ae w a : server_ok w a ->
  when (0 <? ae_n_entries ae) (let! _ := raft_get_current_idx in log_msg p) w
  = Ok tt (with_user_data
      (if 0 <? ae_n_entries ae then logged w p (user_data w) else user_data w) w).
Proof.
  intros Sok. destruct (0 <? ae_n_entries ae); [|by destruct w]. cbn [when].
  unfold raft_get_current_idx.
  rewrite (bind_ok_l _ _ _ _ _ (log_get_current_idx_repr _ _ (so_log _ _ Sok))).
  by rewrite log_msg_run.
Qed.

Lemma recv_ae_out_refuse ae w a : server_ok w a -> 0 <= ae_prev_log_idx ae < INT_MAX ->
  recv_ae_out ae 0 0 0 w
  = Ok (0, mk_appendentries_response (term_of w) 0 (al_last a) (ae_prev_log_idx ae + 1)) w.
Proof.
  intros Sok Hp. unfold recv_ae_out, raft_get_current_term, raft_get_current_idx.
  rewrite bind_gets_l. cbn [Z.eqb].
  rewrite (bind_ok_l _ _ _ _ _ (log_get_current_idx_repr _ _ (so_log _ _ Sok))), bind_int_chk_l.
  by rewrite int_ok_nonneg by lia.
Qed.

(** The user's data when the term of a message has been looked at: a message with
    entries is logged, a later term is stored, without a vote, and becoming a
    follower is logged twice. *)
Definition entered (p : ptr) (ae : msg_appendentries_t) (w : world) : udata :=
  let u := if 0 <? ae_n_entries ae then logged w p (user_data w) else user_data w in
  if term_of w <? ae_term ae
  then logged w None (logged w None (stored_term w (ae_term ae) u))
  else if bool_decide (role w = RAFT_STATE_CANDIDATE) then logged w None (logged w None u)
  else u.

(** A message of the current term, or a later one, brings the server to that
    term and makes a candidate a follower. *)
Lemma raft_recv_appendentries_enter p ae w a : server_ok w a -> term_of w <= ae_term ae ->
  exists w1, raft_recv_appendentries p ae w = recv_ae_prev p ae w1 /\
    stable_state w1 = stable_state w /\ settings w1 = settings w /\ term_of w1 = ae_term ae /\
    role w1 = (if decide (term_of w < ae_term ae \/ role w = RAFT_STATE_CANDIDATE)
               then RAFT_STATE_FOLLOWER else role w) /\
    user_data w1 = entered p ae w.
Proof.
  intros Sok Hterm. unfold raft_recv_appendentries.
  rewrite (bind_ok_l _ _ _ _ _ (recv_ae_log_ok p ae w a Sok)). unfold entered.
  set (u := if 0 <? ae_n_entries ae then _ else _). set (w0 := with_user_data u w).
  assert (server_ok w0 a) as Sok0 by by apply (server_ok_same w).
  unfold raft_is_candidate, raft_get_state, raft_get_current_term.
  rewrite bind_assoc, bind_gets_l, bind_ret_l, bind_gets_l.
  change (state (srv w0)) with (role w). change (current_term (srv w0)) with (term_of w).
  destruct (Z.ltb_spec (term_of w) (ae_term ae)) as [Hlt|Hge].
  - replace (_ && _) with false.
    2: { symmetry. apply andb_false_iff. right. apply Z.eqb_neq. lia. }
    destruct (raft_set_current_term_ok w0 (ae_term ae) (so_persists _ _ Sok0)) as (w1 & H1 & S1).
    rewrite (bind_ok_l _ _ _ _ _ H1). cbn [truth Z.eqb negb].
    run_keeps H1 (same stable_state) as K1. run_keeps H1 (same settings) as K1'.
    pose proof (server_ok_same _ _ _ K1 K1' Sok0) as Sok1.
    destruct (raft_become_follower_ok w1 (so_timer _ _ Sok1)) as (w2 & H2 & R2 & _).
    run_keeps H2 (same stable_state) as K2. run_keeps H2 (same settings) as K2'.
    run_keeps H2 (same term_of) as K2t. unfold same in *.
    rewrite (bind_ok_l _ _ _ _ _ H2). exists w2. rewrite decide_True by by left.
    split_and!; try done; [by rewrite K2, K1|by rewrite K2', K1'| |].
    2: { rewrite (raft_become_follower_user w1 _ w2 H2).
         rewrite (raft_set_current_term_user w0 (ae_term ae) w1 Hlt H1).
         assert (cb (srv w1) = cb (srv w)) as Hcb by (rewrite S1; by destruct (current_term (srv w0) <? ae_term ae)).
         unfold logged. by rewrite Hcb. }
    rewrite K2t. unfold term_of. rewrite S1. change (current_term (srv w0)) with (term_of w).
    destruct (Z.ltb_spec (term_of w) (ae_term ae)); [done|lia].
  - assert (term_of w = ae_term ae) as Ht by lia. rewrite Ht, Z.eqb_refl, andb_true_r.
    destruct (bool_decide (role w = RAFT_STATE_CANDIDATE)) eqn:Hc.
    + apply bool_decide_eq_true in Hc. rewrite decide_True by by right.
      destruct (raft_become_follower_ok w0 (so_timer _ _ Sok0)) as (w2 & H2 & R2 & _).
      run_keeps H2 (same stable_state) as K2. run_keeps H2 (same settings) as K2'.
      run_keeps H2 (same term_of) as K2t. unfold same in *.
      rewrite (bind_ok_l _ _ _ _ _ H2). exists w2. split_and!; try done; [by rewrite K2t|].
      rewrite (raft_become_follower_user w0 _ w2 H2). done.
    + apply bool_decide_eq_false in Hc. rewrite decide_False by (intros [?|?]; [lia|done]).
      rewrite Z.ltb_irrefl. by exists w0.
Qed.

(** Steps 1 and 2, when both checks pass. *)
Lemma raft_recv_appendentries_checked p ae w a :
  server_ok w a -> offers_accept w -> 0 <= ae_prev_log_idx ae <= INT_MAX ->
  term_of w <= ae_term ae -> consistent a ae ->
  exists w', raft_recv_appendentries p ae w = recv_ae_entries ae w' /\
    server_ok w' a /\ offers_accept w' /\ stable_state w' = stable_state w /\
    settings w' = settings w /\ term_of w' = ae_term ae /\
    current_leader (srv w') = p /\ timeout_elapsed (srv w') = 0 /\
    role w' = (if decide (term_of w < ae_term ae \/ role w = RAFT_STATE_CANDIDATE)
               then RAFT_STATE_FOLLOWER else role w) /\
    user_data w' = entered p ae w.
Proof.
  intros Sok Hacc Hp Hterm Hcons.
  destruct (raft_recv_appendentries_enter p ae w a Sok Hterm) as (w1 & Hrun & K1 & K1' & T1 & R1 & U1).
  rewrite Hrun. unfold recv_ae_prev. rewrite !bind_upd_srv_l. set (w2 := with_srv _ _).
  assert (stable_state w2 = stable_state w) as K2 by done.
  assert (settings w2 = settings w) as K2' by done.
  pose proof (server_ok_same _ _ _ K2 K2' Sok) as Sok2.
  pose proof (offers_accept_stable _ _ K2 K2' Hacc) as Hacc2.
  exists w2. split; [|done]. destruct (Z.ltb_spec 0 (ae_prev_log_idx ae)); [|done].
  destruct Hcons as [|(e & He & Het)]; [lia|]. pose proof INT_MIN_MAX.
  destruct (log_get_at_idx_ok w2 a (ae_prev_log_idx ae) (so_log _ _ Sok2) ltac:(lia)) as (q & Hq & Hg).
  rewrite He in Hg. destruct Hg as (x & -> & Hx). unfold raft_get_entry_from_idx.
  by rewrite (bind_ok_l _ _ _ _ _ Hq), (bind_ok_l _ _ _ _ _ (entry_get_ok _ _ _ Hx)), Het, Z.eqb_refl.
Qed.

Lemma raft_recv_appendentries_run p ae w a :
  server_ok w a -> offers_accept w -> ae_ok w a ae -> term_of w <= ae_term ae ->
  consistent a ae -> al_first a <= ae_prev_log_idx ae + 1 ->
  agrees a (ae_prev_log_idx ae + 1) (ae_entries ae) ->
  (0 < al_last (replicated a ae) \/ ae_leader_commit ae <= Z.max 0 (commit_of w)) ->
  exists w', raft_recv_appendentries p ae w
    = Ok (0, mk_appendentries_response (ae_term ae) 1
               (ae_prev_log_idx ae + Z.of_nat (length (ae_entries ae)))
               (ae_prev_log_idx ae + 1)) w' /\
    server_ok w' (replicated a ae) /\ term_of w' = ae_term ae /\
    commit_of w' = Z.max (commit_of w) (Z.min (ae_leader_commit ae) (al_last (replicated a ae))) /\
    current_leader (srv w') = p /\ timeout_elapsed (srv w') = 0 /\
    role w' = (if decide (term_of w < ae_term ae \/ role w = RAFT_STATE_CANDIDATE)
               then RAFT_STATE_FOLLOWER else role w) /\
    offers_accept w' /\ user_data w' = offers w (al_last a) (lacked a ae) (entered p ae w).
Proof.
  intros Sok Hacc Hae Hterm Hcons Hfirst Hag Hpos. pose proof (ao_prev _ _ _ Hae).
  pose proof (ao_max _ _ _ Hae).
  destruct (raft_recv_appendentries_checked p ae w a Sok Hacc ltac:(lia) Hterm Hcons)
    as (w2 & Hrun & Sok2 & Hacc2 & K2 & K2' & T2 & L2 & E2 & R2 & U2). rewrite Hrun.
  assert (commit_of w2 = commit_of w) as Hc by (unfold stable_state in K2; unfold commit_of; congruence).
  assert (ae_ok w2 a ae) as Hae2 by (destruct Hae; split; try done; lia).
  destruct (recv_ae_entries_ok ae w2 a Sok2 Hacc2 Hae2 Hcons Hfirst Hag) as (w3 & H3 & Sok3 & S3 & A3 & U3).
  { by rewrite Hc. }
  rewrite T2, Hc in *. exists w3. unfold term_of, role in *. rewrite S3. cbn.
  split_and!; try done; [unfold commit_of at 1; by rewrite S3|]. rewrite U3, U2.
  unfold stable_state, log_state in K2. unfold settings in K2'. apply offers_same_cb; congruence.
Qed.

(** Log matching: the message's entries are in the resulting log. *)
Lemma replicated_holds a ae i y : (length (al_entries a) <= MAX_ENTRIES)%nat ->
  al_first a <= ae_prev_log_idx ae + 1 ->
  agrees a (ae_prev_log_idx ae + 1) (ae_entries ae) ->
  consistent a ae -> 0 <= al_last a -> 0 <= ae_prev_log_idx ae ->
  (length (ae_entries ae) <= MAX_ENTRIES)%nat -> ae_entries ae !! i = Some y ->
  exists x, al_get (replicated a ae) (ae_prev_log_idx ae + 1 + Z.of_nat i) = Some x /\
    ety_term x = ety_term y.
Proof.
  intros Ha Hfirst Hag Hcons Hpos Hp Hlen Hy. unfold replicated, lacked.
  set (prev := ae_prev_log_idx ae) in *. set (es := ae_entries ae) in *.
  set (k := held a prev es).
  assert (prev <= al_last a) as Hprev.
  { destruct Hcons as [H0|(e & He & _)]; [fold prev in H0; lia|]. unfold al_get in He. fold prev in He.
    destruct (Z.leb_spec prev (al_last a)); [done|by rewrite andb_false_r in He]. }
  apply lookup_lt_Some in Hy as Hi.
  assert (al_first (al_appends (drop k es) a) <= prev + 1 + Z.of_nat i
    <= al_last (al_appends (drop k es) a)) as Hin.
  { unfold al_first. rewrite al_appends_length, al_appends_last, length_drop by done.
    unfold al_first in Hfirst. unfold k, held. lia. }
  rewrite al_appends_get by done. rewrite al_appends_last, length_drop in Hin.
  destruct (Z.leb_spec (prev + 1 + Z.of_nat i) (al_last a)) as [Hold|Hnew].
  - destruct (al_get_in a (prev + 1 + Z.of_nat i) ltac:(lia)) as [x Hx].
    exists x. split; [done|]. by apply (Hag i x y).
  - rewrite lookup_drop. unfold k, held in *.
    replace (_ + _)%nat with i by lia. rewrite Hy. cbn. by eexists.
Qed.

Lemma raft_recv_appendentries_asserts p ae w a :
  server_ok w a -> offers_accept w -> ae_ok w a ae -> term_of w <= ae_term ae ->
  consistent a ae -> al_first a <= ae_prev_log_idx ae + 1 ->
  agrees a (ae_prev_log_idx ae + 1) (ae_entries ae) ->
  al_last (replicated a ae) = 0 -> 0 < ae_leader_commit ae ->
  raft_recv_appendentries p ae w = Fault AssertFailed.
Proof.
  intros Sok Hacc Hae Hterm Hcons Hfirst Hag Hz Hpos. pose proof (ao_prev _ _ _ Hae).
  pose proof (ao_max _ _ _ Hae).
  destruct (raft_recv_appendentries_checked p ae w a Sok Hacc ltac:(lia) Hterm Hcons)
    as (w2 & Hrun & Sok2 & Hacc2 & K2 & _). rewrite Hrun.
  assert (commit_of w2 = commit_of w) as Hc by (unfold stable_state in K2; unfold commit_of; congruence).
  assert (ae_ok w2 a ae) as Hae2 by (destruct Hae; split; try done; lia).
  destruct (recv_ae_entries_reach ae w2 a Sok2 Hacc2 Hae2 Hcons Hfirst Hag)
    as (w3 & H3 & Sok3 & S3 & _ & Hlast & _). rewrite H3. apply bind_fault_l.
  apply (recv_ae_commit_asserts ae w3 (replicated a ae)); try done.
  pose proof (ao_commit _ _ _ Hae2). unfold commit_of in *. rewrite S3. lia.
Qed.

(** C14: an appendentries message of application entries, of the current term or a
    later one, that passes the consistency check, does not conflict with the log and
    starts where the log still holds its entries ([al_first]), to a server whose
    persist functions and [log_offer] answer 0: the entries the log lacks, and no
    others, are given to [log_offer] and appended in order, and the commit index becomes the leader's, bounded
    by the end of the log, unless it is already larger.  The server is then in the
    term of the message, knows the sender as the leader, is not a candidate, and
    answers with success, that term, and the index of the message's last entry.  A
    message of at most fifty entries is then held whole: the entry at each of its
    indices has the term of the leader's entry.  Only when the log is empty even
    then and the leader's commit index is positive, an assertion fails. *)
Theorem raft_recv_appendentries_accepts p ae w a :
  server_ok w a -> offers_accept w -> ae_ok w a ae -> term_of w <= ae_term ae ->
  consistent a ae -> al_first a <= ae_prev_log_idx ae + 1 ->
  agrees a (ae_prev_log_idx ae + 1) (ae_entries ae) ->
  if (al_last (replicated a ae) =? 0) && (0 <? ae_leader_commit ae)
  then raft_recv_appendentries p ae w = Fault AssertFailed
  else exists w', raft_recv_appendentries p ae w
    = Ok (0, mk_appendentries_response (ae_term ae) 1
               (ae_prev_log_idx ae + Z.of_nat (length (ae_entries ae)))
               (ae_prev_log_idx ae + 1)) w' /\
    server_ok w' (replicated a ae) /\ term_of w' = ae_term ae /\
    commit_of w' = Z.max (commit_of w) (Z.min (ae_leader_commit ae) (al_last (replicated a ae))) /\
    current_leader (srv w') = p /\ timeout_elapsed (srv w') = 0 /\
    role w' = (if decide (term_of w < ae_term ae \/ role w = RAFT_STATE_CANDIDATE)
               then RAFT_STATE_FOLLOWER else role w) /\
    user_data w' = offers w (al_last a) (lacked a ae) (entered p ae w) /\
    (Z.of_nat (length (ae_entries ae)) <= Z.of_nat MAX_ENTRIES ->
     forall i y, ae_entries ae !! i = Some y ->
       exists x, al_get (replicated a ae) (ae_prev_log_idx ae + 1 + Z.of_nat i) = Some x /\
         ety_term x = ety_term y).
Proof.
  intros Sok Hacc Hae Hterm Hcons Hfirst Hag. pose proof (so_log _ _ Sok) as R.
  pose proof (log_repr_bound _ _ R). pose proof (lr_last _ _ R).
  assert (0 <= al_last (replicated a ae)) as Hrep by (unfold replicated; rewrite al_appends_last; lia).
  destruct (_ && _) eqn:Hcase.
  - apply andb_true_iff in Hcase as [Hz%Z.eqb_eq Hpos%Z.ltb_lt].
    by apply (raft_recv_appendentries_asserts p ae w a).
  - destruct (raft_recv_appendentries_run p ae w a Sok Hacc Hae Hterm Hcons Hfirst Hag)
      as (w' & Hrun & Sok' & Ht & Hc & Hl & Htm & Hr & _ & Hu).
    { apply andb_false_iff in Hcase as [Hz%Z.eqb_neq|Hpos%Z.ltb_ge]; lia. }
    exists w'. split_and!; try done. intros Hlen i y Hy.
    apply replicated_holds; try done; [apply (lr_cap _ _ R)|lia|apply (ao_prev _ _ _ Hae)|lia].
Qed.

(** C29: an appendentries message of an older term, and one whose previous entry
    the log does not hold, are answered with failure, the server's term and its
    last index, and change neither the log, nor the members, nor the commit
    index; the first changes nothing but the user's data. *)
Theorem raft_recv_appendentries_rejects p ae w a :
  server_ok w a -> 0 <= ae_prev_log_idx ae < INT_MAX ->
  ae_term ae < term_of w \/
    0 < ae_prev_log_idx ae /\ al_get a (ae_prev_log_idx ae) = None ->
  exists w', raft_recv_appendentries p ae w
    = Ok (0, mk_appendentries_response (Z.max (term_of w) (ae_term ae)) 0 (al_last a)
               (ae_prev_log_idx ae + 1)) w' /\
    stable_state w' = stable_state w /\ term_of w' = Z.max (term_of w) (ae_term ae) /\
    (ae_term ae < term_of w -> srv w' = srv w).
Proof.
  intros Sok Hp Hrej. pose proof INT_MIN_MAX.
  destruct (Z.ltb_spec (ae_term ae) (term_of w)) as [Hlt|Hge].
  - unfold raft_recv_appendentries.
    rewrite (bind_ok_l _ _ _ _ _ (recv_ae_log_ok p ae w a Sok)). set (w0 := with_user_data _ w).
    unfold raft_is_candidate, raft_get_state, raft_get_current_term.
    rewrite bind_assoc, bind_gets_l, bind_ret_l, bind_gets_l.
    change (current_term (srv w0)) with (term_of w).
    replace (_ && _) with false by (symmetry; apply andb_false_iff; right; apply Z.eqb_neq; lia).
    destruct (Z.ltb_spec (term_of w) (ae_term ae)); [lia|].
    destruct (Z.ltb_spec (ae_term ae) (term_of w)); [|lia].
    rewrite (bind_ok_l _ _ _ _ _ (log_msg_run _ _)). set (w1 := with_user_data _ w0).
    assert (server_ok w1 a) as Sok1 by by apply (server_ok_same w).
    rewrite (recv_ae_out_refuse ae w1 a Sok1 Hp). exists w1.
    change (term_of w1) with (term_of w). replace (Z.max _ _) with (term_of w) by lia. done.
  - destruct Hrej as [|[Hpos Hnone]]; [lia|].
    destruct (raft_recv_appendentries_enter p ae w a Sok Hge) as (w1 & Hrun & K1 & K1' & T1 & _).
    rewrite Hrun. unfold recv_ae_prev. rewrite !bind_upd_srv_l. set (w2 := with_srv _ _).
    assert (server_ok w2 a) as Sok2.
    { apply (server_ok_same w1); try done. by apply (server_ok_same w). }
    destruct (Z.ltb_spec 0 (ae_prev_log_idx ae)); [|lia].
    destruct (log_get_at_idx_ok w2 a (ae_prev_log_idx ae) (so_log _ _ Sok2) ltac:(lia))
      as (q & Hq & Hg).
    rewrite Hnone in Hg. cbn in Hg. subst q. unfold raft_get_entry_from_idx.
    rewrite (bind_ok_l _ _ _ _ _ Hq), (bind_ok_l _ _ _ _ _ (log_msg_run _ _)).
    set (w3 := with_user_data _ w2).
    assert (server_ok w3 a) as Sok3 by by apply (server_ok_same w2).
    rewrite (recv_ae_out_refuse ae w3 a Sok3 Hp). exists w3.
    change (term_of w3) with (term_of w1). rewrite T1.
    replace (Z.max _ _) with (ae_term ae) by lia. split_and!; try done. lia.
Qed.
End Receiving.

(** ** A conflict *)

(** A follower with three entries of term 1, none committed. *)
Definition sim_log111 : world :=
  run_world (foreach [sim_entry 1 10; sim_entry 1 11; sim_entry 1 12]
    (fun e => let! _ := log_append_entry e in ret tt)) sim3.

(** The leader of term 2 replaces everything after index 1 by one entry. *)
Definition conflict_message : msg_appendentries_t :=
  mk_appendentries 2 1 1 0 1 [with_ety_idx 2 (sim_entry 2 20)].

Definition term_at (idx : Z) (w : world) : option Z :=
  match run_value (log_get_at_idx idx) w with
  | Some (Some x) => ety_term <$> entry_heap w !! x
  | _ => None
  end.

(** On a conflict before the end of the log, Raft deletes the conflicting
    entry and all that follow it; the code deletes that entry only.  A follower
    with entries of terms 1, 1, 1 that receives one entry of term 2 for index 2
    answers with success for index 2, but holds nothing at index 2, and at index 3,
    its last, still has the old entry of term 1: the new entry was stored behind it
    under the same index. *)
Theorem conflict_keeps_stale_entries :
  let m := raft_recv_appendentries (Some 2%positive) conflict_message in
  let w' := run_world m sim_log111 in
  map (fun i => term_at i sim_log111) [1; 2; 3] = [Some 1; Some 1; Some 1] /\
  run_value m sim_log111 = Some (0, mk_appendentries_response 2 1 2 2) /\
  run_value log_get_current_idx w' = Some 3 /\
  map (fun i => term_at i w') [1; 2; 3] = [Some 1; None; Some 1] /\
  map (fun p => (fun e => (ety_idx e, ety_term e)) <$> entry_heap w' !! p) (entries_list (lg w'))
    = [Some (1, 1); Some (3, 1); Some (3, 2)].
Proof. vm_compute. repeat split. Qed.

(** ** Witnesses *)

(** Node 2, leader of term 2, sends a follower that has entries 1 to 3 the
    entries 3 and 4, entry 3 again. *)
Definition accepted_message : msg_appendentries_t :=
  mk_appendentries 2 2 1 3 2 [with_ety_idx 3 (sim_entry 2 12); with_ety_idx 4 (sim_entry 2 13)].

Lemma raft_recv_appendentries_accepts_witness :
  held sim_alog3 2 (ae_entries accepted_message) = 1%nat /\
  let w := sim_log3 in let ae := accepted_message in let a := sim_alog3 in
  if (al_last (replicated a ae) =? 0) && (0 <? ae_leader_commit ae)
  then raft_recv_appendentries (Some 2%positive) ae w = Fault AssertFailed
  else exists w', raft_recv_appendentries (Some 2%positive) ae w
    = Ok (0, mk_appendentries_response (ae_term ae) 1
               (ae_prev_log_idx ae + Z.of_nat (length (ae_entries ae)))
               (ae_prev_log_idx ae + 1)) w' /\
    server_ok w' (replicated a ae) /\ term_of w' = ae_term ae /\
    commit_of w' = Z.max (commit_of w) (Z.min (ae_leader_commit ae) (al_last (replicated a ae))) /\
    current_leader (srv w') = Some 2%positive /\ timeout_elapsed (srv w') = 0 /\
    role w' = (if decide (term_of w < ae_term ae \/ role w = RAFT_STATE_CANDIDATE)
               then RAFT_STATE_FOLLOWER else role w) /\
    user_data w' = offers w (al_last a) (lacked a ae) (entered (Some 2%positive) ae w) /\
    (Z.of_nat (length (ae_entries ae)) <= Z.of_nat MAX_ENTRIES ->
     forall i y, ae_entries ae !! i = Some y ->
       exists x, al_get (replicated a ae) (ae_prev_log_idx ae + 1 + Z.of_nat i) = Some x /\
         ety_term x = ety_term y).
Proof.
  split; [vm_compute; reflexivity|].
  apply (raft_recv_appendentries_accepts (Some 2%positive) accepted_message sim_log3 sim_alog3).
  - exact sim_log3_ok.
  - apply sim_accepts; reflexivity.
  - split; try (vm_compute; discriminate); [reflexivity|repeat constructor].
  - vm_compute. discriminate.
  - right. eexists. split; [vm_compute; reflexivity|vm_compute; reflexivity].
  - vm_compute. discriminate.
  - intros [|[|i]] x y Hx Hy; [|vm_compute in Hx; discriminate|done].
    vm_compute in Hx. injection Hx as <-. vm_compute in Hy. by injection Hy as <-.
Defined.

(** The same follower does not have the entry before index 6. *)
Lemma raft_recv_appendentries_rejects_witness :
  let ae := mk_appendentries 2 5 2 3 0 [] in
  exists w', raft_recv_appendentries (Some 2%positive) ae sim_log3
    = Ok (0, mk_appendentries_response (Z.max (term_of sim_log3) 2) 0 (al_last sim_alog3) (5 + 1)) w' /\
    stable_state w' = stable_state sim_log3 /\ term_of w' = Z.max (term_of sim_log3) 2 /\
    (2 < term_of sim_log3 -> srv w' = srv sim_log3).
Proof.
  apply (raft_recv_appendentries_rejects (Some 2%positive) (mk_appendentries 2 5 2 3 0 []) sim_log3
           sim_alog3).
  - exact sim_log3_ok.
  - split; vm_compute; [discriminate|reflexivity].
  - right. split; vm_compute; reflexivity.
Defined.
