(* ===== verification/Batches.v ===== *)
(** * How entries are split into messages does not matter

    The network may repeat an appendentries message, and a leader may send the
    same entries in one message or in several.  The follower ends in the same
    state: a repeated message is answered alike and changes nothing, and a
    message is equivalent to its two parts, one after the other. *)
From S2P Require Import Prelude Contiki Types Node Membership Log Server Election Replication.
From S2P Require Import Sim NodeFacts Frames History LogFacts MemberFacts ElectionFacts Roles.
From S2P Require Import Campaign Sending Receiving.

(** ** The abstract log *)
Lemma al_appends_app es1 es2 a : al_appends (es1 ++ es2) a = al_appends es2 (al_appends es1 a).
Proof. unfold al_appends. apply foldl_app. Qed.

Section Abstract.
Context (a : alog) (Hcap : (length (al_entries a) <= MAX_ENTRIES)%nat) (Hpos : 0 <= al_last a).

(** The position of a message: the log reaches its previous entry and still
    holds what follows it. *)
Definition placed (prev : Z) : Prop := prev <= al_last a /\ al_first a <= prev + 1.

(** The log extended by the entries after index [prev] that it lacks. *)
Definition extended (prev : Z) (es : list raft_entry_t) : alog :=
  al_appends (drop (held a prev es) es) a.

Lemma extended_last prev es : prev <= al_last a ->
  al_last (extended prev es) = Z.max (al_last a) (prev + Z.of_nat (length es)).
Proof.
  intros Hp. unfold extended. rewrite al_appends_last, length_drop. unfold held. lia.
Qed.

Lemma extended_cap prev es : (length (al_entries (extended prev es)) <= MAX_ENTRIES)%nat.
Proof. unfold extended. rewrite al_appends_length by done. lia. Qed.

(** New entries push out nothing that a message after them needs ... *)
Lemma extended_first prev es : placed prev ->
  al_first (extended prev es) <= prev + Z.of_nat (length es) + 1.
Proof.
  intros [H1 H2]. unfold al_first at 1. rewrite extended_last by done.
  unfold extended. rewrite al_appends_length, length_drop by done. unfold al_first in *.
  unfold held. lia.
Qed.

(** ... and fewer than fifty nothing that a repetition needs. *)
Lemma extended_first_again prev es f : placed prev -> (length es < MAX_ENTRIES)%nat ->
  prev <= f -> al_first a <= f -> al_first (extended prev es) <= f.
Proof.
  intros [H1 H2] Hlen Hf Ha. unfold al_first at 1. rewrite extended_last by done.
  unfold extended. rewrite al_appends_length, length_drop by done. unfold al_first in *.
  unfold held. lia.
Qed.

Lemma extended_get prev es idx x : prev <= al_last a ->
  al_get (extended prev es) idx = Some x -> prev + Z.of_nat (length es) < idx \/ idx <= prev ->
  al_get a idx = Some x.
Proof.
  intros Hp Hx Hi. assert (al_first (extended prev es) <= idx <= al_last (extended prev es)) as Hr.
  { unfold al_get in Hx. destruct (Z.leb_spec (al_first (extended prev es)) idx); [|done].
    destruct (Z.leb_spec idx (al_last (extended prev es))); [done|done]. }
  pose proof (extended_last prev es Hp). unfold extended in Hx, Hr.
  rewrite al_appends_get in Hx by done. destruct (Z.leb_spec idx (al_last a)); [done|].
  fold (extended prev es) in Hr. lia.
Qed.

(** The two parts of a list of entries, one after the other. *)
Lemma extended_app prev es1 es2 : placed prev ->
  al_appends (drop (held (extended prev es1) (prev + Z.of_nat (length es1)) es2) es2)
    (extended prev es1)
  = extended prev (es1 ++ es2).
Proof.
  intros [H1 _]. unfold held at 1. rewrite extended_last by done. unfold extended.
  rewrite <- al_appends_app. f_equal. unfold held. rewrite drop_app, length_app.
  destruct (Z.leb_spec (al_last a - prev) (Z.of_nat (length es1))).
  - f_equal; f_equal; lia.
  - rewrite !(drop_ge es1) by lia. cbn [app]. f_equal. lia.
Qed.

(** The same entries again. *)
Lemma extended_again prev es : prev <= al_last a ->
  al_appends (drop (held (extended prev es) prev es) es) (extended prev es) = extended prev es.
Proof.
  intros H. unfold held. rewrite extended_last, drop_ge by (done || lia). done.
Qed.
End Abstract.

(** ** The handler *)
Section Batches.
Context {T : CTarget} {C : Contiki} {L : ContikiLaws C} {U : User}.

(** A message the follower accepts. *)
Record acceptable (w : world) (a : alog) (ae : msg_appendentries_t) : Prop := {
  ac_server : server_ok w a;
  ac_offers : offers_accept w;
  ac_ok : ae_ok w a ae;
  ac_term : term_of w <= ae_term ae;
  ac_consistent : consistent a ae;
  ac_first : al_first a <= ae_prev_log_idx ae + 1;
  ac_agrees : agrees a (ae_prev_log_idx ae + 1) (ae_entries ae);
  ac_commit : 0 < al_last (replicated a ae) \/ ae_leader_commit ae <= commit_of w
}.

(** The outcome of a message for the protocol: term, commit index, role and
    leader; the log is [replicated]. *)
Definition standing (w : world) := (term_of w, commit_of w, role w, current_leader (srv w)).

Lemma consistent_prev w a ae : acceptable w a ae -> placed a (ae_prev_log_idx ae).
Proof.
  intros [Sok _ _ _ Hc Hf _ _]. split; [|done]. eapply consistent_reaches, Hc. apply Sok.
Qed.

(** An acceptable message, handled. *)
Lemma acceptable_run p w a ae : acceptable w a ae ->
  exists w', raft_recv_appendentries p ae w
    = Ok (0, mk_appendentries_response (ae_term ae) 1
               (ae_prev_log_idx ae + Z.of_nat (length (ae_entries ae)))
               (ae_prev_log_idx ae + 1)) w' /\
    server_ok w' (replicated a ae) /\ offers_accept w' /\
    standing w' = (ae_term ae,
      Z.max (commit_of w) (Z.min (ae_leader_commit ae) (al_last (replicated a ae))),
      (if decide (term_of w < ae_term ae \/ role w = RAFT_STATE_CANDIDATE)
       then RAFT_STATE_FOLLOWER else role w), p).
Proof.
  intros [Sok Hacc Hae Ht Hc Hf Hag Hcm].
  destruct (raft_recv_appendentries_run p ae w a Sok Hacc Hae Ht Hc Hf Hag ltac:(lia))
    as (w' & Hrun & Sok' & T' & C' & L' & _ & R' & A' & _).
  exists w'. split_and!; try done. unfold standing. rewrite T', C', L', R'. reflexivity.
Qed.

(** Part of a message: the entries [es] after the index [prev]. *)
Definition part (ae : msg_appendentries_t) (prev pt : Z) (es : list raft_entry_t)
    : msg_appendentries_t :=
  mk_appendentries (ae_term ae) prev pt (ae_leader_commit ae) (Z.of_nat (length es)) es.

Lemma server_ok_cap w a : server_ok w a ->
  (length (al_entries a) <= MAX_ENTRIES)%nat /\ 0 <= al_last a.
Proof.
  intros Sok. pose proof (so_log _ _ Sok) as R. pose proof (log_repr_bound _ _ R).
  pose proof (lr_last _ _ R). split; [apply (lr_cap _ _ R)|lia].
Qed.

(** An entry of the message, in the log after it. *)
Lemma replicated_entry w a ae i y : acceptable w a ae ->
  (length (ae_entries ae) <= MAX_ENTRIES)%nat -> ae_entries ae !! i = Some y ->
  exists x, al_get (replicated a ae) (ae_prev_log_idx ae + 1 + Z.of_nat i) = Some x /\
    ety_term x = ety_term y.
Proof.
  intros A Hlen Hy. destruct (server_ok_cap w a (ac_server _ _ _ A)).
  apply replicated_holds; try done; try apply A; apply A.
Qed.

(** The outcome of two messages of the same term, one after the other. *)
Lemma standing_twice (t t' c c' l l' lc : Z) (r : raft_state_e) (p : ptr) :
  t' <= t -> c' = Z.max c (Z.min lc l) -> l <= l' ->
  (t, Z.max c' (Z.min lc l'),
   (if decide (t < t \/ (if decide (t' < t \/ r = RAFT_STATE_CANDIDATE)
                        then RAFT_STATE_FOLLOWER else r) = RAFT_STATE_CANDIDATE)
    then RAFT_STATE_FOLLOWER
    else if decide (t' < t \/ r = RAFT_STATE_CANDIDATE) then RAFT_STATE_FOLLOWER else r), p)
  = (t, Z.max c (Z.min lc l'),
     (if decide (t' < t \/ r = RAFT_STATE_CANDIDATE) then RAFT_STATE_FOLLOWER else r), p).
Proof.
  intros Ht -> Hl. rewrite decide_False.
  - do 3 f_equal. lia.
  - intros [?|Hc]; [lia|]. case_decide as Hd; [done|]. apply Hd. by right.
Qed.

(** After the message, the follower accepts it again ... *)
Lemma acceptable_again w a ae w' : acceptable w a ae ->
  (length (ae_entries ae) < MAX_ENTRIES)%nat ->
  server_ok w' (replicated a ae) -> offers_accept w' -> term_of w' = ae_term ae ->
  commit_of w' = Z.max (commit_of w) (Z.min (ae_leader_commit ae) (al_last (replicated a ae))) ->
  acceptable w' (replicated a ae) ae.
Proof.
  intros A Hlen Sok' Ha' Ht' Hc'. pose proof (consistent_prev w a ae A) as Hpl.
  destruct (server_ok_cap w a (ac_server _ _ _ A)) as [Hcap Hpos].
  pose proof (extended_last a Hcap (ae_prev_log_idx ae) (ae_entries ae) (proj1 Hpl)) as Hlast.
  assert (forall f, ae_prev_log_idx ae <= f -> al_first a <= f -> al_first (replicated a ae) <= f)
    as Hfst by (intros f; by apply extended_first_again).
  change (extended a _ _) with (replicated a ae) in Hlast.
  destruct (ac_ok _ _ _ A) as [Hn Hnorm Hprev Hmax Hcommit].
  split; try done.
  - split; try done. lia.
  - lia.
  - destruct (ac_consistent _ _ _ A) as [?|(e & He & Het)]; [by left|]. right. exists e.
    split; [|done]. unfold al_get in He.
    destruct (Z.leb_spec (al_first a) (ae_prev_log_idx ae)) as [H1|]; [|done].
    destruct (Z.leb_spec (ae_prev_log_idx ae) (al_last a)) as [H2|]; [|done].
    unfold replicated. rewrite al_appends_get; [|done|].
    + destruct (Z.leb_spec (ae_prev_log_idx ae) (al_last a)); [|lia]. unfold al_get.
      destruct (Z.leb_spec (al_first a) (ae_prev_log_idx ae)); [|lia].
      by rewrite (proj2 (Z.leb_le _ _) H2).
    + split; [by apply Hfst|]. fold (replicated a ae). lia.
  - apply Hfst; [lia|apply (ac_first _ _ _ A)].
  - intros i x y Hx Hy. destruct (replicated_entry w a ae i y A ltac:(lia) Hy) as (x' & Hx' & <-).
    congruence.
  - assert (replicated (replicated a ae) ae = replicated a ae) as ->
      by (apply (extended_again a Hcap); apply Hpl).
    destruct (ac_commit _ _ _ A); [by left|right; lia].
Qed.

(** C22: delivering an acceptable message of fewer than fifty entries twice has
    the effect of delivering it once. *)
Theorem appendentries_redelivered p w a ae : acceptable w a ae ->
  (length (ae_entries ae) < MAX_ENTRIES)%nat ->
  exists r w' w'', raft_recv_appendentries p ae w = Ok (0, r) w' /\
    raft_recv_appendentries p ae w' = Ok (0, r) w'' /\ aer_success r = 1 /\
    server_ok w' (replicated a ae) /\ server_ok w'' (replicated a ae) /\
    standing w'' = standing w'.
Proof.
  intros A Hlen. destruct (acceptable_run p w a ae A) as (w' & H1 & Sok' & A' & S').
  pose proof S' as S. unfold standing in S. injection S as T1 C1 R1 L1.
  destruct (server_ok_cap w a (ac_server _ _ _ A)) as [Hcap _].
  destruct (acceptable_run p w' _ ae (acceptable_again w a ae w' A Hlen Sok' A' T1 C1))
    as (w'' & H2 & Sok'' & _ & S'').
  assert (replicated (replicated a ae) ae = replicated a ae) as Hsame
    by (apply (extended_again a Hcap); eapply consistent_prev, A).
  rewrite Hsame in *. do 3 eexists. split_and!; [exact H1|exact H2|done..|].
  rewrite S'', S', T1, C1, R1. eapply standing_twice; [apply (ac_term _ _ _ A)|done|done].
Qed.

(** The first part of a message, up to the entry [y], and the rest. *)
Lemma acceptable_first w a ae pre y es2 : acceptable w a ae ->
  ae_entries ae = (pre ++ [y]) ++ es2 ->
  acceptable w a (part ae (ae_prev_log_idx ae) (ae_prev_log_term ae) (pre ++ [y])).
Proof.
  intros A He. destruct (server_ok_cap w a (ac_server _ _ _ A)) as [Hcap Hpos].
  pose proof (consistent_prev w a ae A) as Hpl.
  destruct A as [Sok Hacc [Hn Hnorm Hprev Hmax Hcommit] Ht Hc Hf Hag Hcm].
  rewrite He in *. apply Forall_app in Hnorm as [Hnorm _].
  split; cbn [part ae_term ae_prev_log_idx ae_prev_log_term ae_leader_commit ae_n_entries
    ae_entries]; try done.
  - split; try done. cbn. rewrite length_app in Hmax. lia.
  - intros i x z Hx Hz. apply (Hag i x z Hx). by apply lookup_app_l_Some.
  - left. change (0 < al_last (extended a (ae_prev_log_idx ae) (pre ++ [y]))).
    rewrite extended_last by (done || apply Hpl). rewrite length_app. cbn. lia.
Qed.

Lemma acceptable_second w a ae pre y es2 pt w1 : acceptable w a ae ->
  ae_entries ae = (pre ++ [y]) ++ es2 -> (length (pre ++ [y]) <= MAX_ENTRIES)%nat ->
  to_uint pt = ety_term y ->
  let a1 := extended a (ae_prev_log_idx ae) (pre ++ [y]) in
  server_ok w1 a1 -> offers_accept w1 -> term_of w1 = ae_term ae ->
  commit_of w1 = Z.max (commit_of w) (Z.min (ae_leader_commit ae) (al_last a1)) ->
  acceptable w1 a1
    (part ae (ae_prev_log_idx ae + Z.of_nat (length (pre ++ [y]))) pt es2).
Proof.
  intros A He Hlen Hpt a1 Sok1 Hacc1 T1 C1.
  destruct (server_ok_cap w a (ac_server _ _ _ A)) as [Hcap Hpos].
  pose proof (consistent_prev w a ae A) as Hpl.
  pose proof (extended_last a Hcap (ae_prev_log_idx ae) (pre ++ [y]) (proj1 Hpl)) as Hlast.
  pose proof (acceptable_first w a ae pre y es2 A He) as A1.
  destruct A as [Sok Hacc [Hn Hnorm Hprev Hmax Hcommit] Ht Hc Hf Hag Hcm].
  rewrite He in *. apply Forall_app in Hnorm as [_ Hnorm]. fold a1 in Hlast.
  assert (length (pre ++ [y]) = S (length pre)) as Hl by (rewrite length_app; cbn; lia).
  split; cbn [part ae_term ae_prev_log_idx ae_prev_log_term ae_leader_commit ae_n_entries
    ae_entries]; try done.
  - split; cbn; try done; [lia|rewrite length_app in Hmax; lia|].
    rewrite C1. lia.
  - lia.
  - right. destruct (replicated_entry w a _ (length pre) y A1 Hlen) as (x & Hx & Hxt).
    { cbn. by rewrite lookup_app_r, Nat.sub_diag by lia. }
    exists x. cbn [part ae_prev_log_idx ae_prev_log_term]. split; [|by rewrite Hpt].
    etrans; [|exact Hx]. cbn. f_equal. lia.
  - by apply extended_first.
  - intros i x z Hx Hz. apply (Hag (length (pre ++ [y]) + i)%nat x z).
    + replace (ae_prev_log_idx ae + 1 + _) with
        (ae_prev_log_idx ae + Z.of_nat (length (pre ++ [y])) + 1 + Z.of_nat i) by lia.
      eapply (extended_get a Hcap); [apply Hpl|exact Hx|lia].
    + rewrite lookup_app_r by lia. rewrite <- Hz. f_equal. lia.
  - left. unfold replicated. rewrite al_appends_last. lia.
Qed.

(** A message of the entries [es1 ++ es2] and the two messages that carry
    [es1] and then [es2] bring the follower to the same log, term, commit index,
    role and leader, and the last answers name the same index. *)
Theorem appendentries_split p w a ae pre y es2 pt : acceptable w a ae ->
  ae_entries ae = (pre ++ [y]) ++ es2 -> (length (pre ++ [y]) <= MAX_ENTRIES)%nat ->
  to_uint pt = ety_term y ->
  let es1 := pre ++ [y] in let prev := ae_prev_log_idx ae in
  exists r r1 r2 w' w1 w2, raft_recv_appendentries p ae w = Ok (0, r) w' /\
    raft_recv_appendentries p (part ae prev (ae_prev_log_term ae) es1) w = Ok (0, r1) w1 /\
    raft_recv_appendentries p (part ae (prev + Z.of_nat (length es1)) pt es2) w1
      = Ok (0, r2) w2 /\
    aer_success r = 1 /\ aer_success r1 = 1 /\ aer_success r2 = 1 /\
    aer_current_idx r2 = aer_current_idx r /\
    server_ok w' (replicated a ae) /\ server_ok w2 (replicated a ae) /\
    standing w2 = standing w'.
Proof.
  intros A He Hlen Hpt es1 prev. destruct (server_ok_cap w a (ac_server _ _ _ A)) as [Hcap _].
  pose proof (consistent_prev w a ae A) as Hpl.
  destruct (acceptable_run p w a ae A) as (w' & H & Sok & _ & S).
  destruct (acceptable_run p w a _ (acceptable_first w a ae pre y es2 A He))
    as (w1 & H1 & Sok1 & A1 & S1).
  pose proof S1 as S1'. unfold standing in S1'. injection S1' as T1 C1 R1 _.
  destruct (acceptable_run p w1 _ _ (acceptable_second w a ae pre y es2 pt w1 A He Hlen Hpt
    Sok1 A1 T1 C1)) as (w2 & H2 & Sok2 & _ & S2).
  assert (replicated (extended a prev es1) (part ae (prev + Z.of_nat (length es1)) pt es2)
    = replicated a ae) as Hrep.
  { unfold replicated, lacked. rewrite He. by apply extended_app. }
  fold prev es1 in Sok2, S2. rewrite Hrep in Sok2, S2. do 6 eexists.
  split_and!; [exact H|exact H1|exact H2|done..|unfold es1, prev; cbn; rewrite He, !length_app; cbn; lia
    |exact Sok|exact Sok2|].
  rewrite S2, S, T1, C1, R1. eapply standing_twice; [apply (ac_term _ _ _ A)|done|].
  change (al_last (extended a prev es1) <= al_last (extended a prev (ae_entries ae))).
  rewrite !extended_last by (done || apply Hpl). rewrite He. unfold es1. rewrite !length_app. cbn. lia.
Qed.
End Batches.

(** ** Witnesses *)

Lemma accepted_acceptable : acceptable sim_log3 sim_alog3 accepted_message.
Proof.
  split.
  - exact sim_log3_ok.
  - apply sim_accepts; reflexivity.
  - split; try (vm_compute; discriminate); [reflexivity|repeat constructor].
  - vm_compute. discriminate.
  - right. eexists. split; [vm_compute; reflexivity|vm_compute; reflexivity].
  - vm_compute. discriminate.
  - intros [|[|i]] x y Hx Hy; [|vm_compute in Hx; discriminate|done].
    vm_compute in Hx. injection Hx as <-. vm_compute in Hy. by injection Hy as <-.
  - left. vm_compute. reflexivity.
Qed.

Lemma appendentries_redelivered_witness :
  exists r w' w'',
    raft_recv_appendentries (Some 2%positive) accepted_message sim_log3 = Ok (0, r) w' /\
    raft_recv_appendentries (Some 2%positive) accepted_message w' = Ok (0, r) w'' /\
    aer_success r = 1 /\ server_ok w' (replicated sim_alog3 accepted_message) /\
    server_ok w'' (replicated sim_alog3 accepted_message) /\ standing w'' = standing w'.
Proof.
  apply (appendentries_redelivered (Some 2%positive) sim_log3 sim_alog3 accepted_message).
  - exact accepted_acceptable.
  - apply Nat.ltb_lt. reflexivity.
Defined.

(** Entries 3 and 4 in one message, or entry 3 and then entry 4. *)
Lemma appendentries_split_witness :
  let ae := accepted_message in
  let m1 := part ae 2 1 [with_ety_idx 3 (sim_entry 2 12)] in
  let m2 := part ae 3 2 [with_ety_idx 4 (sim_entry 2 13)] in
  exists r r1 r2 w' w1 w2, raft_recv_appendentries (Some 2%positive) ae sim_log3 = Ok (0, r) w' /\
    raft_recv_appendentries (Some 2%positive) m1 sim_log3 = Ok (0, r1) w1 /\
    raft_recv_appendentries (Some 2%positive) m2 w1 = Ok (0, r2) w2 /\
    aer_success r = 1 /\ aer_success r1 = 1 /\ aer_success r2 = 1 /\
    aer_current_idx r2 = aer_current_idx r /\
    server_ok w' (replicated sim_alog3 ae) /\ server_ok w2 (replicated sim_alog3 ae) /\
    standing w2 = standing w'.
Proof.
  apply (appendentries_split (Some 2%positive) sim_log3 sim_alog3 accepted_message []
    (with_ety_idx 3 (sim_entry 2 12)) [with_ety_idx 4 (sim_entry 2 13)] 2).
  - exact accepted_acceptable.
  - reflexivity.
  - apply Nat.leb_le. reflexivity.
  - reflexivity.
Defined.
