(* ===== verification/Commit.v ===== *)
(** * Committing and applying entries

    The commit rule of Raft: a leader commits an entry of its own term that a
    majority holds.  Applying: every committed entry is given to the user once,
    in order. *)
From S2P Require Import Prelude Contiki Types Node Membership Log Server Election Replication.
From S2P Require Import Sim NodeFacts Frames History LogFacts MemberFacts ElectionFacts Roles.
From S2P Require Import Campaign Sending Receiving.

(** ** Writes that keep the ids of nodes *)
Section Ids.
Context {T : CTarget} {C : Contiki} {U : User}.

Definition ids_view (w : world) :=
  (nodes_list (srv w), num_nodes (srv w), node (srv w), raft_nodes_mem w, id <$> node_heap w).

Lemma nodes_wf_view w w' : same ids_view w w' -> nodes_wf w -> nodes_wf w'.
Proof.
  unfold same, ids_view. intros [= H1 H2 H3 H4 H5] W. apply (nodes_wf_ids w); try done.
  intros a. pose proof (f_equal (lookup a) H5) as Ha. by rewrite !lookup_fmap in Ha.
Qed.

Lemma node_write_ids g p : (forall n, id (g n) = id n) -> keeps (same ids_view) (node_write g p).
Proof.
  intros Hg w u w' Hw. unfold node_write in Hw. destruct p as [a|]; [|done].
  unfold node_get in Hw. run_simp Hw. destruct (node_heap w !! a) as [n|] eqn:Hn; [|done].
  run_simp Hw. injection Hw as _ <-. unfold same, ids_view. cbn. f_equal.
  rewrite fmap_insert, Hg. apply insert_id. by rewrite lookup_fmap, Hn.
Qed.

Lemma raft_node_set_next_idx_ids p v : keeps (same ids_view) (raft_node_set_next_idx p v).
Proof. by apply node_write_ids. Qed.
Lemma raft_node_set_match_idx_ids p v : keeps (same ids_view) (raft_node_set_match_idx p v).
Proof. by apply node_write_ids. Qed.
Lemma raft_node_set_has_sufficient_logs_ids p :
  keeps (same ids_view) (raft_node_set_has_sufficient_logs p).
Proof. by apply node_write_ids. Qed.
Hint Resolve raft_node_set_next_idx_ids raft_node_set_match_idx_ids
  raft_node_set_has_sufficient_logs_ids : keeps.
Lemma check_sufficient_logs_ids p r : keeps (same ids_view) (check_sufficient_logs p r).
Proof. unfold check_sufficient_logs. unfold_accessors. keeps_solve. Qed.
End Ids.
#[export] Hint Resolve raft_node_set_next_idx_ids raft_node_set_match_idx_ids
  raft_node_set_has_sufficient_logs_ids check_sufficient_logs_ids : keeps.

(** ** The commit rule *)
Section CommitRule.
Context {T : CTarget} {C : Contiki} {U : User}.

(** The active voting peers known to hold the entries up to [point]. *)
Definition holds (w : world) (point : Z) (a : addr) : bool :=
  negb (is_self_ptr (srv w) a)
  && node_sat w (fun n => votes_here n && (point <=? match_idx n)) a.
Definition replicas (w : world) (point : Z) : list addr :=
  List.filter (holds w point) (nodes_list (srv w)).

Lemma replicates_ok w a point : nodes_wf w -> a ∈ nodes_list (srv w) ->
  replicates (srv w) point a w = Ok (holds w point a) w.
Proof.
  intros W Ha. destruct (nw_heap _ W a Ha) as [n Hn]. unfold replicates, holds, node_sat.
  rewrite Hn. destruct (is_self_ptr (srv w) a); [done|]. cbn [negb andb].
  unfold raft_node_is_active, raft_node_is_voting, raft_node_get_match_idx, votes_here.
  rewrite (bind_ok_l _ _ _ _ _ (node_read_ok _ w a n Hn)).
  destruct (Node.is_active n); cbn [negb andb]; [|done].
  rewrite (bind_ok_l _ _ _ _ _ (node_read_ok _ w a n Hn)).
  destruct (Node.is_voting n); cbn [negb andb]; [|done].
  by rewrite (bind_ok_l _ _ _ _ _ (node_read_ok _ w a n Hn)).
Qed.

(** [update_commit] either changes nothing or commits [point], an entry of the
    current term that a majority holds. *)
Lemma update_commit_cases w u w' a point : nodes_wf w -> log_repr w a -> INT_MIN <= point <= INT_MAX ->
  update_commit point w = Ok u w' ->
  w' = w \/
  (w' = with_srv (with_commit_idx point (srv w)) w /\ commit_of w < point <= al_last a /\
   (exists x, al_get a point = Some x /\ ety_term x = to_uint (term_of w)) /\
   Z.of_nat (length (voting_nodes w)) < 2 * (1 + Z.of_nat (length (replicas w point)))).
Proof.
  intros W R Hpt H. unfold update_commit in H.
  destruct (truth point) eqn:H0; cbn [when] in H; [|injection H as _ <-; by left].
  destruct (log_get_at_idx_ok w a point R Hpt) as (q & Hq & Hg).
  unfold raft_get_entry_from_idx in H. rewrite (bind_ok_l _ _ _ _ _ Hq) in H.
  unfold raft_get_commit_idx in H. run_simp H.
  destruct (Z.ltb_spec (commit_idx (srv w)) point) as [Hlt|]; cbn [when] in H;
    [|injection H as _ <-; by left].
  run_bind H as x w1 Hx. apply entry_get_ro in Hx as Hro. subst w1. run_simp H.
  destruct (Z.eqb_spec (ety_term x) (to_uint (current_term (srv w)))) as [Ht|]; cbn [when] in H;
    [|injection H as _ <-; by left].
  unfold bind at 1 in H.
  rewrite (count_from_pure (holds w point)) in H by (intros y Hy; by apply replicates_ok).
  rewrite (bind_ok_l _ _ _ _ _ (raft_get_num_voting_nodes_ok w W)) in H. fold (replicas w point) in H.
  pose proof (quot_half (Z.of_nat (length (voting_nodes w))) ltac:(lia)).
  destruct (Z.ltb_spec (Z.quot (Z.of_nat (length (voting_nodes w))) 2)
    (1 + Z.of_nat (length (replicas w point)))); cbn [when] in H; [|injection H as _ <-; by left].
  right. apply raft_set_commit_idx_spec in H as [_ ->].
  assert (exists y, al_get a point = Some y /\ y = x) as (y & Hy & ->).
  { destruct (al_get a point) as [y|]; [|cbn in Hg; subst q; done].
    destruct Hg as (z & -> & Hz). exists y. split; [done|].
    rewrite (entry_get_ok _ _ _ Hz) in Hx. congruence. }
  split_and!; try done; [|by exists x|lia].
  unfold al_get in Hy. destruct (Z.leb_spec point (al_last a)); [done|by rewrite andb_false_r in Hy].
Qed.

Lemma recv_aer_success_commit p r m w a e w' :
  nodes_wf w -> log_repr w a -> INT_MIN <= aer_current_idx r <= INT_MAX ->
  recv_aer_success p r m w = Ok e w' -> commit_of w' <> commit_of w ->
  commit_of w < commit_of w' /\ commit_of w' = aer_current_idx r /\
  (exists x, al_get a (commit_of w') = Some x /\ ety_term x = to_uint (term_of w)) /\
  Z.of_nat (length (voting_nodes w')) < 2 * (1 + Z.of_nat (length (replicas w' (commit_of w')))).
Proof.
  intros W R Hi H Hc. unfold recv_aer_success in H. set (point := aer_current_idx r) in *.
  destruct (point <=? m); [run_ret H; done|]. unfold raft_get_current_idx in H.
  run_bind H as ci w1 H1. apply log_get_current_idx_ro in H1 as <-. run_simp H.
  destruct (point <=? ci); [|done]. run_simp H. destruct (int_ok _); [|done].
  run_bind H as u1 w1 H1. run_bind H as u2 w2 H2. run_bind H as u3 w3 H3. run_bind H as u4 w4 H4.
  assert (same ids_view w w3 /\ same log_state w w3 /\ same hist_of w w3) as (I & Lg & Hh).
  { assert (keeps (same hist_of) (raft_node_set_next_idx p (point + 1))) as K1 by keeps_solve.
    assert (keeps (same hist_of) (raft_node_set_match_idx p point)) as K2 by keeps_solve.
    split_and!.
    - run_keeps H1 (same ids_view) as A1. run_keeps H2 (same ids_view) as A2.
      run_keeps H3 (same ids_view) as A3. by do 2 (etransitivity; [eassumption|]).
    - unfold raft_node_set_next_idx, raft_node_set_match_idx in *.
      run_keeps H1 (same log_state) as A1. run_keeps H2 (same log_state) as A2.
      run_keeps H3 (same log_state) as A3. by do 2 (etransitivity; [eassumption|]).
    - run_keeps H1 (same hist_of) as A1. run_keeps H2 (same hist_of) as A2.
      run_keeps H3 (same hist_of) as A3. by do 2 (etransitivity; [eassumption|]). }
  apply (nodes_wf_view _ _ I) in W. apply (log_repr_same _ _ _ Lg) in R.
  injection Hh as Ht _ Hcm _.
  set (obs w := (srv w, node_heap w)).
  assert (same obs w4 w') as Ho.
  { unfold raft_node_get_next_idx, raft_get_entry_from_idx in H. by run_keeps H (same obs) as K. }
  injection Ho as Os Oh.
  assert (commit_of w' = commit_of w4) as Hc4 by (unfold commit_of; by rewrite Os).
  destruct (update_commit_cases w3 u4 w4 a point W R Hi H4) as [->|(Hw4 & Hlt & (x & Hx & Hxt) & Hm)]; [congruence|].
  assert (srv w4 = with_commit_idx point (srv w3) /\ node_heap w4 = node_heap w3) as [S4 N4]
    by (by rewrite Hw4).
  assert (commit_of w' = point) as -> by (unfold commit_of; by rewrite Os, S4).
  split_and!; try (unfold point in *; lia || done).
  - exists x. by rewrite <- Ht.
  - unfold voting_nodes, replicas, holds, node_sat, is_self_ptr. rewrite Os, Oh, S4, N4. exact Hm.
Qed.

(** The commit rule of a leader. *)
Lemma commit_majority_run p r w a e w' :
  nodes_wf w -> log_repr w a -> INT_MIN <= aer_current_idx r <= INT_MAX ->
  raft_recv_appendentries_response p r w = Ok e w' ->
  commit_of w' <> commit_of w ->
  role w = RAFT_STATE_LEADER /\ aer_term r = term_of w /\ aer_success r <> 0 /\
  commit_of w < commit_of w' /\ commit_of w' = aer_current_idx r /\
  (exists x, al_get a (commit_of w') = Some x /\ ety_term x = to_uint (term_of w)) /\
  Z.of_nat (length (voting_nodes w')) < 2 * (1 + Z.of_nat (length (replicas w' (commit_of w')))).
Proof.
  intros W R Hi H Hc. unfold raft_recv_appendentries_response in H.
  unfold raft_get_current_idx at 1 in H.
  run_bind H as ci w0 H0. apply log_get_current_idx_ro in H0 as <-.
  run_bind H as u w1 H1. run_keeps H1 (same node_state) as N1. run_keeps H1 (same log_state) as L1.
  run_keeps H1 (same srv) as S1. unfold same in S1.
  apply (nodes_wf_same _ _ N1) in W. apply (log_repr_same _ _ _ L1) in R.
  unfold raft_is_leader, raft_get_state, raft_get_current_term in H. run_simp H.
  assert (forall m, keeps (same commit_of) (m : M world Z) -> m w1 = Ok e w' -> False) as Hno.
  { intros m Hm Hr%Hm. apply Hc. unfold same, commit_of in *. congruence. }
  destruct (bool_decide (state (srv w1) = RAFT_STATE_LEADER)) eqn:Hl; cbn [negb] in H;
    [|exfalso; eapply Hno, H; keeps_solve].
  apply bool_decide_eq_true in Hl. run_simp H.
  destruct (Z.ltb_spec (current_term (srv w1)) (aer_term r)).
  { exfalso. eapply Hno, H. keeps_solve. }
  destruct (Z.eqb_spec (current_term (srv w1)) (aer_term r)) as [Ht|]; cbn [negb] in H;
    [|exfalso; eapply Hno, H; keeps_solve].
  run_bind H as m w2 H2. apply node_read_ro in H2 as <-.
  destruct (Z.eqb_spec 0 (aer_success r)).
  { exfalso. eapply Hno, H. unfold recv_aer_failure, raft_node_set_next_idx. unfold_accessors.
    keeps_solve. }
  destruct (recv_aer_success_commit p r m w1 a e w' W R Hi H) as (H5 & H6 & H7 & H8).
  - unfold commit_of in *. by rewrite S1.
  - unfold role, term_of, commit_of in *. rewrite S1 in *. split_and!; congruence || done.
Qed.

(** C16: a response makes a leader advance its commit index only to the index
    the response acknowledges, only when the entry there is of the leader's own
    term, and only when the active voting peers that hold it, with the leader,
    are more than half of the active voting nodes (section 5.4.2 of the paper:
    no entry of an earlier term is committed by counting). *)
Theorem commit_needs_majority p r w a e w' :
  nodes_wf w -> log_repr w a -> INT_MIN <= aer_current_idx r <= INT_MAX ->
  raft_recv_appendentries_response p r w = Ok e w' ->
  commit_of w' <> commit_of w ->
  role w = RAFT_STATE_LEADER /\ aer_term r = term_of w /\ aer_success r <> 0 /\
  commit_of w < commit_of w' /\ commit_of w' = aer_current_idx r /\
  (exists x, al_get a (commit_of w') = Some x /\ ety_term x = to_uint (term_of w)) /\
  Z.of_nat (length (voting_nodes w')) < 2 * (1 + Z.of_nat (length (replicas w' (commit_of w')))).
Proof. apply commit_majority_run. Qed.
End CommitRule.

(** ** Applying *)
Section Applying.
Context {T : CTarget} {C : Contiki} {L : ContikiLaws C} {U : User}.

(** The user's data after the entry at [idx] was applied: the log callback,
    then [applylog], which is given the entry and [idx - 1]. *)
Definition applied_to (w : world) (a : alog) (u : udata) (idx : Z) : udata :=
  let u := logged w None u in
  match applylog (cb (srv w)), al_get a idx with
  | Some f, Some e => snd (f u e (idx - 1))
  | _, _ => u
  end.

(** The user's [applylog] never asks for a shutdown. *)
Definition no_shutdown (w : world) : Prop :=
  forall f, applylog (cb (srv w)) = Some f ->
    forall u e i, fst (f u e i) <> RAFT_ERR_SHUTDOWN.

(** An application entry the log holds. *)
Definition normal_at (a : alog) (idx : Z) : Prop :=
  exists e, al_get a idx = Some e /\ raft_entry_is_cfg_change e = false.

(** The server after entries up to [idx] were applied; the index of a pending
    configuration change may have been reset. *)
Definition applied_state (idx : Z) (c : Z) (u : udata) (w : world) : world :=
  with_user_data u
    (with_srv (with_voting_cfg_change_log_idx c (with_last_applied_idx idx (srv w))) w).

(** A pending configuration change ends when its entry is applied. *)
Definition cfg_after (w : world) (idx : Z) : Z :=
  if idx =? voting_cfg_change_log_idx (srv w) then -1 else voting_cfg_change_log_idx (srv w).

(** [raft_apply_entry] up to the test whether the entry changes the members. *)
Lemma raft_apply_entry_run w a e :
  log_repr w a -> snapshot_in_progress (srv w) = 0 -> no_shutdown w ->
  0 <= applied_of w < commit_of w -> commit_of w <= al_last a ->
  al_get a (applied_of w + 1) = Some e ->
  let idx := applied_of w + 1 in
  raft_apply_entry w
  = (if negb (raft_entry_is_cfg_change e) then ret 0
     else
       let! node_id := call_log_get_node_id e idx in
       let! node := raft_get_node node_id in
       exec! apply_cfg_change e node_id node in
       ret 0) (applied_state idx (cfg_after w idx) (applied_to w a (user_data w) idx) w).
Proof.
  intros R Hs Hsd Ha Hc He idx. pose proof (lr_max _ _ R). pose proof INT_MIN_MAX.
  unfold raft_apply_entry, raft_snapshot_is_in_progress. unfold applied_of, commit_of in *.
  rewrite bind_gets_l, Hs. cbn [truth Z.eqb negb]. rewrite bind_gets_l.
  destruct (Z.eqb_spec (last_applied_idx (srv w)) (commit_idx (srv w))); [lia|].
  rewrite bind_int_chk_l, int_ok_nonneg by lia. fold idx.
  destruct (log_get_at_idx_ok w a idx R ltac:(lia)) as (q & Hq & Hg).
  unfold idx in Hg at 1. rewrite He in Hg. destruct Hg as (x & -> & Hx).
  unfold raft_get_entry_from_idx.
  rewrite (bind_ok_l _ _ _ _ _ Hq), (bind_ok_l _ _ _ _ _ (entry_get_ok _ _ _ Hx)).
  rewrite (bind_ok_l _ _ _ _ _ (log_msg_run _ _)), bind_upd_srv_l. set (w1 := with_srv _ _).
  set (u := applied_to w a (user_data w) idx).
  assert (exists r, r <> RAFT_ERR_SHUTDOWN /\
    (match applylog (cb (srv w)) with
     | Some f => call (fun u => f u e (idx - 1)) | None => ret 0 end) w1
    = Ok r (with_user_data u w1)) as (r & Hr & Hrun).
  { unfold u, applied_to. fold idx in He. rewrite He. destruct (applylog (cb (srv w))) as [f|] eqn:Hf.
    - exists (fst (f (logged w None (user_data w)) e (idx - 1))).
      split; [by apply Hsd|reflexivity].
    - exists 0. split; [done|]. reflexivity. }
  rewrite (bind_ok_l _ _ _ _ _ Hrun). destruct (Z.eqb_spec RAFT_ERR_SHUTDOWN r); [by subst|].
  unfold cfg_after. destruct (Z.eqb_spec idx (voting_cfg_change_log_idx (srv w))); cbn [when].
  - rewrite bind_upd_srv_l. reflexivity.
  - rewrite bind_ret_l. reflexivity.
Qed.

Lemma raft_apply_entry_ok w a :
  log_repr w a -> snapshot_in_progress (srv w) = 0 -> no_shutdown w ->
  0 <= applied_of w < commit_of w -> commit_of w <= al_last a ->
  normal_at a (applied_of w + 1) ->
  exists c, raft_apply_entry w
    = Ok 0 (applied_state (applied_of w + 1) c
              (applied_to w a (user_data w) (applied_of w + 1)) w).
Proof.
  intros R Hs Hsd Ha Hc (e & He & Hn). exists (cfg_after w (applied_of w + 1)).
  by rewrite (raft_apply_entry_run w a e R Hs Hsd Ha Hc He), Hn.
Qed.

Lemma apply_all_loop_ok a n : forall w, log_repr w a -> snapshot_in_progress (srv w) = 0 ->
  no_shutdown w -> 0 <= applied_of w -> commit_of w = applied_of w + Z.of_nat n ->
  commit_of w <= al_last a -> (forall i, applied_of w < i <= commit_of w -> normal_at a i) ->
  exists c, apply_all_loop n w
    = Ok 0 (applied_state (commit_of w) c
              (foldl (applied_to w a) (user_data w) (seqZ (applied_of w + 1) (Z.of_nat n))) w).
Proof.
  induction n as [|n IH]; intros w R Hs Hsd Ha Hn Hl Hall.
  - cbn [apply_all_loop]. unfold raft_get_last_applied_idx, raft_get_commit_idx.
    rewrite !bind_gets_l. unfold applied_of, commit_of in *.
    destruct (Z.ltb_spec (last_applied_idx (srv w)) (commit_idx (srv w))); [lia|].
    exists (voting_cfg_change_log_idx (srv w)). unfold ret. f_equal.
    replace (commit_idx (srv w)) with (last_applied_idx (srv w)) by lia.
    destruct w as [s]. cbn. unfold applied_state. cbn. f_equal. by destruct s.
  - cbn [apply_all_loop]. unfold raft_get_last_applied_idx at 1, raft_get_commit_idx at 1.
    rewrite !bind_gets_l. fold (applied_of w) (commit_of w).
    destruct (Z.ltb_spec (applied_of w) (commit_of w)); [|lia].
    destruct (raft_apply_entry_ok w a R Hs Hsd ltac:(lia) Hl ltac:(apply Hall; lia)) as [c Hc].
    rewrite (bind_ok_l _ _ _ _ _ Hc). cbn [truth Z.eqb negb]. set (w1 := applied_state _ _ _ _).
    assert (applied_of w1 = applied_of w + 1 /\ commit_of w1 = commit_of w) as [A1 C1] by done.
    destruct (IH w1) as [c' Hc']; rewrite ?A1, ?C1; try done; try lia.
    + by apply (log_repr_same w).
    + intros i Hi. apply Hall. lia.
    + exists c'. rewrite Hc'. change (commit_of w1) with (commit_of w).
      change (applied_of w1) with (applied_of w + 1). change (applied_to w1 a) with (applied_to w a).
      rewrite (seqZ_cons (applied_of w + 1)) by lia. cbn [foldl].
      replace (Z.pred (Z.of_nat (S n))) with (Z.of_nat n) by lia. reflexivity.
Qed.

(** C21: when the committed entries that are not yet applied are application entries
    the log still holds, no snapshot is in progress and the user's [applylog] never
    answers SHUTDOWN, [raft_apply_all] ends and applies each of these entries exactly
    once, in the order of their indices: the applied index reaches the commit index,
    and each entry in between was given to the user's [applylog].  The index it
    is given with is one less than the entry's. *)
Theorem raft_apply_all_spec w a :
  log_repr w a -> snapshot_in_progress (srv w) = 0 -> no_shutdown w ->
  0 <= applied_of w <= commit_of w -> commit_of w <= al_last a ->
  (forall i, applied_of w < i <= commit_of w -> normal_at a i) ->
  exists c, raft_apply_all w
    = Ok 0 (applied_state (commit_of w) c
              (foldl (applied_to w a) (user_data w)
                 (seqZ (applied_of w + 1) (commit_of w - applied_of w))) w).
Proof.
  intros R Hs Hsd Ha Hl Hall. unfold raft_apply_all, raft_snapshot_is_in_progress.
  rewrite bind_gets_l, Hs. cbn [truth Z.eqb negb].
  unfold raft_get_last_applied_idx, raft_get_commit_idx. rewrite !bind_gets_l.
  fold (applied_of w) (commit_of w).
  destruct (apply_all_loop_ok a (Z.to_nat (commit_of w - applied_of w)) w) as [c Hc]; try done;
    try lia.
  exists c. rewrite Hc. by rewrite Z2Nat.id by lia.
Qed.
End Applying.

(** ** Asking whether an entry is committed *)
Section Committed.
Context {T : CTarget} {C : Contiki} {L : ContikiLaws C} {U : User}.

(** [raft_msg_entry_response_committed] answers -1 when the log holds an
    entry of another term at the index of the response, 1 when it holds the
    entry itself and the index is committed, and 0 otherwise; in particular 0
    for an entry that was committed and then evicted from the log. *)
Theorem raft_msg_entry_response_committed_spec w a r :
  log_repr w a -> INT_MIN <= er_idx r <= INT_MAX ->
  raft_msg_entry_response_committed r w
  = Ok (match al_get a (er_idx r) with
        | Some e => if ety_term e =? to_uint (er_term r)
                    then of_bool (er_idx r <=? commit_of w) else -1
        | None => 0
        end) w.
Proof.
  intros R Hi. unfold raft_msg_entry_response_committed, raft_get_entry_from_idx.
  destruct (log_get_at_idx_ok w a (er_idx r) R Hi) as (q & Hq & Hg).
  rewrite (bind_ok_l _ _ _ _ _ Hq). destruct (al_get a (er_idx r)) as [e|].
  - destruct Hg as (x & -> & Hx). rewrite (bind_ok_l _ _ _ _ _ (entry_get_ok _ _ _ Hx)).
    rewrite Z.eqb_sym. by destruct (_ =? _).
  - cbn in Hg. by subst q.
Qed.
End Committed.

(** ** Witnesses *)

(** Node 2 acknowledges the leader's entry. *)
Lemma commit_needs_majority_witness :
  let m := raft_recv_appendentries_response (Some 2%positive) (mk_appendentries_response 1 1 1 1) in
  let w' := run_world m sim_leader1 in
  role sim_leader1 = RAFT_STATE_LEADER /\ 1 = term_of sim_leader1 /\ 1 <> 0 /\
  commit_of sim_leader1 < commit_of w' /\ commit_of w' = 1 /\
  (exists x, al_get sim_alog1 (commit_of w') = Some x /\ ety_term x = to_uint (term_of sim_leader1)) /\
  Z.of_nat (length (voting_nodes w')) < 2 * (1 + Z.of_nat (length (replicas w' (commit_of w')))).
Proof.
  apply (commit_needs_majority (Some 2%positive) (mk_appendentries_response 1 1 1 1)
           sim_leader1 sim_alog1 0).
  - apply nodes_wfb_sound. vm_compute. reflexivity.
  - apply log_reprb_sound. vm_compute. reflexivity.
  - split; vm_compute; discriminate.
  - apply run_ok. vm_compute. reflexivity.
  - vm_compute. discriminate.
Defined.

(** A follower of three entries that knows they are committed. *)
Definition sim_committed3 : world := run_world (raft_set_commit_idx 3) sim_log3.

Lemma sim_committed3_repr : log_repr sim_committed3 sim_alog3.
Proof. apply log_reprb_sound. vm_compute. reflexivity. Qed.

Lemma raft_apply_all_spec_witness :
  commit_of sim_committed3 = 3 /\
  exists c, raft_apply_all sim_committed3
    = Ok 0 (applied_state (commit_of sim_committed3) c
              (foldl (applied_to sim_committed3 sim_alog3) (user_data sim_committed3)
                 (seqZ (applied_of sim_committed3 + 1)
                    (commit_of sim_committed3 - applied_of sim_committed3))) sim_committed3).
Proof.
  split; [vm_compute; reflexivity|]. apply (raft_apply_all_spec sim_committed3 sim_alog3).
  - exact sim_committed3_repr.
  - vm_compute. reflexivity.
  - intros f Hf. vm_compute in Hf. injection Hf as <-. intros u e i. vm_compute. discriminate.
  - split; vm_compute; discriminate.
  - vm_compute. discriminate.
  - intros i Hi. assert (i = 1 \/ i = 2 \/ i = 3) as Hi'.
    { assert (applied_of sim_committed3 = 0 /\ commit_of sim_committed3 = 3) as [E1 E2]
        by (split; vm_compute; reflexivity). rewrite E1, E2 in Hi. lia. }
    destruct Hi' as [->|[->| ->]]; eexists; (split; [vm_compute; reflexivity|reflexivity]).
Defined.

(** The entry of index 1 was committed, then evicted. *)
Lemma raft_msg_entry_response_committed_spec_witness :
  raft_msg_entry_response_committed (mk_entry_response 0 1 1) sim_log51 = Ok 0 sim_log51.
Proof.
  apply (raft_msg_entry_response_committed_spec sim_log51 sim_alog51 (mk_entry_response 0 1 1)).
  - exact sim_log51_repr.
  - split; vm_compute; discriminate.
Defined.
