(* ===== verification/Config.v ===== *)
(** * Configuration entries

    What an entry that changes the membership does to the list of members when
    it is appended ([raft_offer_log]) and when it is deleted again
    ([raft_pop_log]), as functions on lists of members. *)
From S2P Require Import Prelude Contiki Types Node Membership Log Server Election Replication.
From S2P Require Import Sim NodeFacts Frames History LogFacts MemberFacts ElectionFacts Roles.
From S2P Require Import Campaign Sending Commit.

(** ** The specification *)

(** The four kinds of configuration entries. *)
Inductive change := AddNonvoting | AddNode | Demote | Remove.

#[export] Instance change_eq_dec : EqDecision change.
Proof. solve_decision. Defined.

Definition change_type (c : change) : Z :=
  match c with
  | AddNonvoting => RAFT_LOGTYPE_ADD_NONVOTING_NODE
  | AddNode => RAFT_LOGTYPE_ADD_NODE
  | Demote => RAFT_LOGTYPE_DEMOTE_NODE
  | Remove => RAFT_LOGTYPE_REMOVE_NODE
  end.

Definition find_member (i : Z) (ms : list raft_node_private_t) : option raft_node_private_t :=
  List.find (fun n => i =? id n) ms.

Definition update_member (i : Z) (g : raft_node_private_t -> raft_node_private_t)
    (ms : list raft_node_private_t) : list raft_node_private_t :=
  map (fun m => if i =? id m then g m else m) ms.

Definition without_member (i : Z) (ms : list raft_node_private_t) :=
  List.filter (fun m => negb (i =? id m)) ms.

Definition as_voting : raft_node_private_t -> raft_node_private_t :=
  Node.set_flag RAFT_NODE_VOTING.
Definition as_nonvoting : raft_node_private_t -> raft_node_private_t :=
  Node.clear_flag RAFT_NODE_VOTING.

(** The members after the entry was appended, when it names node [i] and [self]
    tells whether that is the server; [None]: an assertion fails. *)
Definition offer_members (c : change) (i : Z) (self : bool) (ms : list raft_node_private_t)
    : option (list raft_node_private_t) :=
  match c, find_member i ms with
  | AddNonvoting, Some n =>
      Some (if self || Node.is_active n then ms else update_member i (Node.set_active true) ms)
  | AddNonvoting, None =>
      if self then Some ms
      else if decide (length ms = MAX_NODES) then None
      else Some (ms ++ [as_nonvoting (Node.init i)])
  | AddNode, _ => add_member i ms
  | Demote, Some n =>
      if Node.is_voting n then Some (update_member i as_nonvoting ms) else None
  | Remove, Some n => Some (update_member i (Node.set_active false) ms)
  | Demote, None | Remove, None => Some ms
  end.

(** The members after the entry was deleted; [None]: an assertion fails, or a
    null pointer is read. *)
Definition pop_members (c : change) (i : Z) (self : bool) (ms : list raft_node_private_t)
    : option (list raft_node_private_t) :=
  match c, find_member i ms with
  | _, None => None
  | AddNonvoting, Some _ => if self then None else Some (without_member i ms)
  | AddNode, Some n =>
      if Node.is_voting n then Some (update_member i as_nonvoting ms) else None
  | Demote, Some n =>
      if Node.is_voting n then None else Some (update_member i as_voting ms)
  | Remove, Some n => Some (update_member i (Node.set_active true) ms)
  end.

(** The members after the entry was committed and applied; [None]: the node is
    not a member and a null pointer is read. *)
Definition commit_addition (c : change) (n : raft_node_private_t) : raft_node_private_t :=
  match c with
  | AddNode => Node.set_has_sufficient_logs
                 (Node.set_voting_committed true (Node.set_addition_committed true n))
  | AddNonvoting => Node.set_addition_committed true n
  | Demote => Node.set_voting_committed false n
  | Remove => n
  end.

Definition apply_members (c : change) (i : Z) (ms : list raft_node_private_t)
    : option (list raft_node_private_t) :=
  match c, find_member i ms with
  | AddNonvoting, None | AddNode, None => None
  | Demote, None | Remove, None => Some ms
  | Remove, Some _ => Some (without_member i ms)
  | _, Some _ => Some (update_member i (commit_addition c) ms)
  end.

(** The entry is in order for the members: it adds a node that is not there, it
    promotes a non-voting one, it demotes a voting one, it removes an active one. *)
Definition change_ready (c : change) (i : Z) (self : bool) (ms : list raft_node_private_t)
    : Prop :=
  match c, find_member i ms with
  | AddNonvoting, None => self = false /\ (length ms < MAX_NODES)%nat
  | AddNode, Some n => Node.is_voting n = false
  | Demote, Some n => Node.is_voting n = true
  | Remove, Some n => Node.is_active n = true
  | _, _ => False
  end.

(** *** Undoing a change of a flag *)
Lemma clear_set_flag j n : 0 <= j -> Node.has_flag (Z.shiftl 1 j) n = false ->
  Node.clear_flag (Z.shiftl 1 j) (Node.set_flag (Z.shiftl 1 j) n) = n.
Proof.
  intros Hj Hb. rewrite has_flag_bit in Hb by done. destruct n as [x y f i].
  unfold Node.clear_flag, Node.set_flag, with_flags. cbn [flags] in *. f_equal.
  apply Z.bits_inj'. intros k Hk. rewrite Z.land_spec, Z.lor_spec, Z.lnot_spec by done.
  rewrite Z.shiftl_1_l, Z.pow2_bits_eqb by done.
  destruct (Z.eqb_spec j k) as [<-|]; [by rewrite Hb|]. cbn. by rewrite orb_false_r, andb_true_r.
Qed.

Lemma set_clear_flag j n : 0 <= j -> Node.has_flag (Z.shiftl 1 j) n = true ->
  Node.set_flag (Z.shiftl 1 j) (Node.clear_flag (Z.shiftl 1 j) n) = n.
Proof.
  intros Hj Hb. rewrite has_flag_bit in Hb by done. destruct n as [x y f i].
  unfold Node.clear_flag, Node.set_flag, with_flags. cbn [flags] in *. f_equal.
  apply Z.bits_inj'. intros k Hk. rewrite Z.lor_spec, Z.land_spec, Z.lnot_spec by done.
  rewrite Z.shiftl_1_l, Z.pow2_bits_eqb by done.
  destruct (Z.eqb_spec j k) as [<-|]; [by rewrite Hb|]. cbn. by rewrite orb_false_r, andb_true_r.
Qed.

(** *** Lists of members *)
Lemma update_member_absent i g ms : find_member i ms = None -> update_member i g ms = ms.
Proof.
  unfold find_member, update_member. induction ms as [|m ms IH]; [done|]. cbn.
  destruct (i =? id m); [done|]. intros H. by rewrite IH.
Qed.

Lemma update_member_none i g ms : find_member i ms = None -> forall n, id n = i ->
  update_member i g (ms ++ [n]) = ms ++ [g n].
Proof.
  intros H n Hn. unfold update_member. rewrite map_app. cbn. rewrite Hn, Z.eqb_refl.
  f_equal. by apply update_member_absent.
Qed.

Lemma find_update i g n ms : find_member i ms = Some n -> (forall m, id (g m) = id m) ->
  find_member i (update_member i g ms) = Some (g n).
Proof.
  intros H Hg. unfold find_member, update_member in *. induction ms as [|m ms IH]; [done|].
  cbn in *. destruct (i =? id m) eqn:Hi; rewrite ?Hg, Hi; [congruence|by apply IH].
Qed.

Lemma find_snoc i ms n : find_member i ms = None -> id n = i -> find_member i (ms ++ [n]) = Some n.
Proof.
  intros H Hn. unfold find_member in *. induction ms as [|m ms IH]; cbn in *.
  - by rewrite Hn, Z.eqb_refl.
  - destruct (i =? id m); [done|]. by apply IH.
Qed.

Lemma without_snoc i ms n : find_member i ms = None -> id n = i ->
  without_member i (ms ++ [n]) = ms.
Proof.
  intros H Hn. unfold find_member, without_member in *. induction ms as [|m ms IH]; cbn in *.
  - by rewrite Hn, Z.eqb_refl.
  - destruct (i =? id m); [done|]. cbn. by rewrite IH.
Qed.

(** Two changes of the same member that cancel out. *)
Lemma update_back i f g n ms : NoDup (map id ms) -> find_member i ms = Some n ->
  (forall m, id (f m) = id m) -> g (f n) = n ->
  update_member i g (update_member i f ms) = ms.
Proof.
  intros Hnd Hf Hid Hn. unfold find_member, update_member in *.
  induction ms as [|m ms IH]; [done|]. cbn in *. apply NoDup_cons in Hnd as [Hm Hnd].
  destruct (i =? id m) eqn:Hi.
  - injection Hf as ->. rewrite Hid, Hi, Hn. f_equal. clear IH Hnd.
    apply Z.eqb_eq in Hi as ->. induction ms as [|x ms IH]; [done|]. cbn in *.
    apply not_elem_of_cons in Hm as [Hx Hm]. destruct (Z.eqb_spec (id n) (id x)); [done|].
    rewrite (proj2 (Z.eqb_neq _ _)) by done. by rewrite IH.
  - rewrite Hi. f_equal. by apply IH.
Qed.

(** Deleting an entry that was in order undoes it. *)
Lemma offer_pop_members c i self ms : NoDup (map id ms) -> change_ready c i self ms ->
  exists ms', offer_members c i self ms = Some ms' /\ pop_members c i self ms' = Some ms.
Proof.
  intros Hnd H. unfold change_ready, offer_members, pop_members in *.
  destruct c, (find_member i ms) as [n|] eqn:Hf; try done.
  - destruct H as [-> Hlen]. rewrite decide_False by lia. eexists. split; [done|].
    rewrite find_snoc by done. by rewrite without_snoc.
  - unfold add_member. unfold find_member in Hf. rewrite Hf, H. eexists. split; [done|].
    fold (find_member i ms) in Hf.
    fold (update_member i (Node.set_flag RAFT_NODE_VOTING) ms).
    rewrite (find_update _ _ n) by done. 
    unfold Node.is_voting, RAFT_NODE_VOTING at 1 2. rewrite has_set_flag by lia. cbn [Z.eqb orb].
    f_equal. apply (update_back i _ _ n); try done. by apply clear_set_flag.
  - rewrite H. eexists. split; [done|]. rewrite (find_update _ _ n) by done.
    unfold Node.is_voting, as_nonvoting, RAFT_NODE_VOTING at 1 2. rewrite has_clear_flag by lia.
    cbn. f_equal. apply (update_back i _ _ n); try done. by apply set_clear_flag.
  - eexists. split; [done|]. rewrite (find_update _ _ n) by done.
    f_equal. apply (update_back i _ _ n); try done.
    apply clear_set_flag; [done|]. by apply negb_true_iff in H.
Qed.

(** ** The operations *)
Section Config.
Context {T : CTarget} {C : Contiki} {L : ContikiLaws C} {U : User}.

(** The user's function answers that entry [e] is about node [i]. *)
Definition names (w : world) (e : raft_entry_t) (i : Z) : Prop :=
  exists f, log_get_node_id (cb (srv w)) = Some f /\ forall u idx, fst (f u e idx) = i.

(** A change of the members that leaves the server's own node, the entries and
    the callbacks as they are. *)
Record reconfigured (w w' : world) (ms : list raft_node_private_t) : Prop := {
  rc_nodes : nodes_wf w';
  rc_members : members w' = ms;
  rc_self : self_wf w';
  rc_id : self_id w' = self_id w;
  rc_entries : entry_heap w' = entry_heap w;
  rc_cb : cb (srv w') = cb (srv w)
}.

(** The first node of the list was given back to its pool, and counted out, but
    the list still holds it: [list_remove] starts at its second link. *)
Record left_linked (w w' : world) (i : Z) : Prop := {
  ll_block : exists a, head (nodes_list (srv w)) = Some a /\ node_id_at w a = Some i /\
                       a ∉ memb_used (raft_nodes_mem w');
  ll_list : nodes_list (srv w') = nodes_list (srv w);
  ll_members : members w' = members w;
  ll_num : num_nodes (srv w') = num_nodes (srv w) - 1
}.

(** The server's own node left the list; its pointer to it stays. *)
Record dismissed (w w' : world) (i : Z) : Prop := {
  di_nodes : nodes_wf w';
  di_members : members w' = without_member i (members w);
  di_node : node (srv w') = node (srv w);
  di_self : ~ self_wf w'
}.

(** Node [i] is the first member. *)
Definition heads (w : world) (i : Z) : Prop := option_map id (head (members w)) = Some i.

#[export] Instance heads_dec w i : Decision (heads w i).
Proof. unfold heads. apply _. Defined.

(** What taking member [i] out of the list leaves. *)
Definition taken_out (w w' : world) (i : Z) : Prop :=
  if decide (heads w i) then left_linked w w' i
  else if decide (i = self_id w) then dismissed w w' i
  else reconfigured w w' (without_member i (members w)).

(** The user's data after it was asked which node entry [e] is about. *)
Definition named (w : world) (e : raft_entry_t) (idx : Z) (u : udata) : udata :=
  match log_get_node_id (cb (srv w)) with Some f => snd (f u e idx) | None => u end.

Lemma call_log_get_node_id_ok w e i idx : names w e i ->
  call_log_get_node_id e idx w = Ok i (with_user_data (named w e idx (user_data w)) w).
Proof.
  intros (f & Hf & Hi). unfold call_log_get_node_id, non_null, call, named.
  rewrite bind_gets_l, Hf, bind_ret_l. specialize (Hi (user_data w) idx).
  rewrite bind_gets_l. destruct (f (user_data w) e idx) as [j u]. cbn in Hi. by subst j.
Qed.

Lemma find_member_some w i : nodes_wf w ->
  match find_member i (members w) with
  | Some n => exists a, a ∈ nodes_list (srv w) /\ node_heap w !! a = Some n /\ i = id n /\
                raft_get_node i w = Ok (Some a) w
  | None => raft_get_node i w = Ok None w
  end.
Proof.
  intros W. rewrite (raft_get_node_ok w W i).
  pose proof (members_find w (fun n => i =? id n) _ (nw_heap _ W)) as Hf.
  unfold find_member, members. destruct (List.find _ (nodes_list (srv w))) as [a|].
  - destruct Hf as (n & Ha & Hn & Hf). rewrite Hf. exists a. split_and!; try done.
    apply List.find_some in Hf as [_ Hi%Z.eqb_eq]. done.
  - by rewrite Hf.
Qed.

(** Writing the node of member [i]. *)
Lemma write_reconfigured w a n i g : nodes_wf w -> self_wf w ->
  a ∈ nodes_list (srv w) -> node_heap w !! a = Some n -> i = id n -> (forall m, id (g m) = id m) ->
  reconfigured w (with_node_heap (<[a := g n]> (node_heap w)) w) (update_member i g (members w)).
Proof.
  intros W S Ha Hn Hi Hg. pose proof (node_put_id w a n (g n) Hn (Hg n)) as Hid.
  split; try done.
  - by apply (nodes_wf_ids w).
  - unfold members. cbn [srv node_heap with_node_heap].
    apply (members_write _ _ _ n); [apply (nw_nodup _ W)|done|].
    intros b m Hb Hm. case_decide as Hba.
    + subst. assert (m = n) as -> by congruence. by rewrite Z.eqb_refl.
    + destruct (Z.eqb_spec i (id m)) as [Him|]; [|done]. exfalso. apply Hba.
      apply (nw_ids _ W b a i); unfold node_id_at; rewrite ?Hm, ?Hn; cbn; congruence.
  - unfold self_id. cbn [srv with_node_heap]. destruct (node (srv w)); [|done]. by rewrite Hid.
Qed.

Lemma reconfigured_refl w : nodes_wf w -> self_wf w -> reconfigured w w (members w).
Proof. by split. Qed.

Lemma reconfigured_trans w1 w2 w3 ms2 ms3 :
  reconfigured w1 w2 ms2 -> reconfigured w2 w3 ms3 -> reconfigured w1 w3 ms3.
Proof. intros [] []. split; congruence. Qed.

(** The user's data is not looked at. *)
Lemma reconfigured_user w w' u ms :
  reconfigured (with_user_data u w) w' ms -> reconfigured w w' ms.
Proof. by intros []. Qed.

Lemma reconfigured_same w w1 w2 ms : node_state w2 = node_state w1 ->
  entry_heap w2 = entry_heap w1 -> cb (srv w2) = cb (srv w1) ->
  reconfigured w w1 ms -> reconfigured w w2 ms.
Proof.
  intros HN HE HC [W M S I E K]. split; try congruence.
  - by apply (nodes_wf_same w1).
  - rewrite <- M. unfold members, node_state in *. by injection HN as -> _ _ -> _.
  - by apply (self_wf_same w1).
  - rewrite <- I. unfold self_id, node_id_at, node_state in *. by injection HN as _ _ -> -> _.
Qed.

(** *** Setting the voting flag *)
Lemma set_voting_reconfigured w a n i b : nodes_wf w -> self_wf w ->
  a ∈ nodes_list (srv w) -> node_heap w !! a = Some n -> i = id n ->
  if Bool.eqb (Node.is_voting n) b then raft_node_set_voting (Some a) b w = Fault AssertFailed
  else exists w', raft_node_set_voting (Some a) b w = Ok tt w' /\
    reconfigured w w' (update_member i (if b then as_voting else as_nonvoting) (members w)).
Proof.
  intros W S Ha Hn Hi. unfold raft_node_set_voting. rewrite (bind_ok_l _ _ _ _ _ (node_get_ok _ _ _ Hn)).
  unfold Node.set_voting. destruct b, (Node.is_voting n); cbn [Bool.eqb negb]; try done.
  all: eexists; split; [reflexivity|]; by apply (write_reconfigured w a n i).
Qed.

Lemma set_active_reconfigured w a n i b : nodes_wf w -> self_wf w ->
  a ∈ nodes_list (srv w) -> node_heap w !! a = Some n -> i = id n ->
  exists w', raft_node_set_active (Some a) b w = Ok tt w' /\
    reconfigured w w' (update_member i (Node.set_active b) (members w)).
Proof.
  intros W S Ha Hn Hi. unfold raft_node_set_active, node_write.
  rewrite (bind_ok_l _ _ _ _ _ (node_get_ok _ _ _ Hn)).
  eexists. split; [reflexivity|]. apply (write_reconfigured w a n i); try done. by destruct b.
Qed.

(** *** Adding a node *)

(** The server is a member, under its own id. *)
Lemma self_found w : nodes_wf w -> self_wf w -> is_Some (find_member (self_id w) (members w)).
Proof.
  intros W (a & Ha & Hin). destruct (nw_heap _ W a Hin) as [n Hn].
  pose proof (find_member_some w (self_id w) W) as Hf.
  destruct (find_member _ _); [by eexists|]. exfalso.
  rewrite (raft_get_node_ok w W) in Hf. injection Hf as Hf.
  unfold self_id, node_id_at in Hf. rewrite Ha, Hn in Hf. cbn in Hf.
  by rewrite (find_by_id w W a n Hin Hn) in Hf.
Qed.

(** The own node keeps its block and its id. *)
Lemma self_kept w w' : nodes_wf w -> self_wf w -> node (srv w') = node (srv w) ->
  nodes_list (srv w) ⊆ nodes_list (srv w') ->
  (forall b, b ∈ nodes_list (srv w) -> node_id_at w' b = node_id_at w b) ->
  self_wf w' /\ self_id w' = self_id w.
Proof.
  intros W (a & Ha & Hin) Hn Hl Hid. split; [exists a; rewrite Hn; auto|].
  unfold self_id. by rewrite Hn, Ha, Hid.
Qed.

(** [raft_add_node] with the [is_self] argument of [raft_offer_log]. *)
Lemma raft_add_node_reconfigured w i : nodes_wf w -> self_wf w ->
  let self := i =? self_id w in
  match add_member i (members w) with
  | None => raft_add_node i self w = Ok None w
  | Some ms => exists a n w', raft_add_node i self w = Ok (Some a) w' /\ reconfigured w w' ms /\
      a ∈ nodes_list (srv w') /\ node_heap w' !! a = Some n /\ id n = i /\
      Node.is_voting n = true
  end.
Proof.
  intros W S self. destruct (raft_add_node_ok w i self W) as (p & w' & H & W' & (I & N & D) & Hm).
  destruct (add_member i (members w)) as [ms|]; [|by destruct Hm as [-> ->]].
  destruct Hm as (M & a & n & -> & Ha & Hn & Hi & Hv & _). exists a, n, w'.
  split_and!; try done.
  assert (node (srv w') = node (srv w)) as Hnode.
  { destruct self eqn:Hself; [|by apply N]. unfold self in Hself. apply Z.eqb_eq in Hself as ->.
    pose proof (find_member_some w (self_id w) W) as Hf.
    destruct (self_found w W S) as [m Hm]. rewrite Hm in Hf. destruct Hf as (b & _ & _ & _ & Hf).
    unfold raft_add_node in H. rewrite (bind_ok_l _ _ _ _ _ Hf) in H.
    by run_keeps H (same (fun w => node (srv w))) as K. }
  destruct (self_kept w w' W S Hnode I D) as [S' E'].
  split; try done.
  - by run_keeps H (same entry_heap) as K.
  - by run_keeps H (same (fun w => cb (srv w))) as K.
Qed.

(** Adding a node that is not there as a non-voting one. *)
Lemma raft_add_non_voting_node_new w i : nodes_wf w -> self_wf w ->
  find_member i (members w) = None ->
  if decide (length (members w) = MAX_NODES) then raft_add_non_voting_node i false w = Ok None w
  else exists a w', raft_add_non_voting_node i false w = Ok (Some a) w' /\
    reconfigured w w' (members w ++ [as_nonvoting (Node.init i)]).
Proof.
  intros W S Hf. pose proof (find_member_some w i W) as Hg. rewrite Hf in Hg.
  assert ((i =? self_id w) = false) as Hself.
  { apply Z.eqb_neq. intros ->. destruct (self_found w W S). congruence. }
  pose proof (raft_add_node_reconfigured w i W S) as Ha. cbv zeta in Ha. rewrite Hself in Ha.
  unfold add_member in Ha. unfold find_member in Hf. rewrite Hf in Ha.
  unfold raft_add_non_voting_node. rewrite (bind_ok_l _ _ _ _ _ Hg).
  case_decide; [by rewrite (bind_ok_l _ _ _ _ _ Ha)|].
  destruct Ha as (a & n & w1 & Ha & R1 & Hin & Hn & Hi & Hv).
  rewrite (bind_ok_l _ _ _ _ _ Ha). destruct R1 as [W1 M1 S1 I1 E1 C1].
  pose proof (set_voting_reconfigured w1 a n i false W1 S1 Hin Hn (eq_sym Hi)) as Hs.
  rewrite Hv in Hs. destruct Hs as (w2 & Hs & R2). rewrite (bind_ok_l _ _ _ _ _ Hs).
  exists a, w2. split; [done|]. rewrite M1, update_member_none in R2 by done.
  destruct R2. split; congruence.
Qed.

(** *** Appending a configuration entry *)

(** What [raft_offer_log] does with the node it added. *)
Lemma offer_add_node w i : nodes_wf w -> self_wf w ->
  let m := let! node := raft_add_node i (i =? self_id w) in
           exec! assert_ (bool_decide (is_Some node)) in
           let! voting := raft_node_is_voting node in assert_ voting in
  match add_member i (members w) with
  | Some ms => exists w', m w = Ok tt w' /\ reconfigured w w' ms
  | None => m w = Fault AssertFailed
  end.
Proof.
  intros W S m. pose proof (raft_add_node_reconfigured w i W S) as Hadd. cbv zeta in Hadd.
  unfold m. destruct (add_member i (members w)) as [ms|].
  - destruct Hadd as (b & n & w' & Hr & R & _ & Hn & _ & Hv). exists w'. split; [|done].
    rewrite (bind_ok_l _ _ _ _ _ Hr), bind_assert_l, bool_decide_eq_true_2 by by eexists.
    unfold raft_node_is_voting. by rewrite (bind_ok_l _ _ _ _ _ (node_read_ok _ _ _ _ Hn)), Hv.
  - by rewrite (bind_ok_l _ _ _ _ _ Hadd).
Qed.

(** What it does for a node that is added without a vote. *)
Lemma offer_add_nonvoting w i : nodes_wf w -> self_wf w ->
  find_member i (members w) = None ->
  let m := let! node := raft_add_non_voting_node i false in
           assert_ (bool_decide (is_Some node)) in
  if decide (length (members w) = MAX_NODES) then m w = Fault AssertFailed
  else exists w', m w = Ok tt w' /\
    reconfigured w w' (members w ++ [as_nonvoting (Node.init i)]).
Proof.
  intros W S Hf m. pose proof (raft_add_non_voting_node_new w i W S Hf) as Ha. unfold m.
  case_decide; [by rewrite (bind_ok_l _ _ _ _ _ Ha)|].
  destruct Ha as (b & w' & Hr & R). exists w'. split; [|done].
  by rewrite (bind_ok_l _ _ _ _ _ Hr).
Qed.

Lemma config_entry w a e idx i c : entry_heap w !! a = Some e -> ety_type e = change_type c ->
  names w e i -> exists u,
    raft_entry_is_cfg_change e = true /\ entry_get (Some a) w = Ok e w /\
    call_log_get_node_id e idx w = Ok i (with_user_data u w).
Proof.
  intros He Hc Hi. pose proof (call_log_get_node_id_ok w e i idx Hi) as Hu. eexists.
  split_and!; [|by apply entry_get_ok|done].
  unfold raft_entry_is_cfg_change. rewrite Hc. by destruct c.
Qed.

(** Decides the tests on the type of the entry. *)
Ltac change_cases :=
  cbn [change_type Z.eqb Pos.eqb RAFT_LOGTYPE_ADD_NONVOTING_NODE RAFT_LOGTYPE_ADD_NODE
    RAFT_LOGTYPE_DEMOTE_NODE RAFT_LOGTYPE_REMOVE_NODE].

Lemma raft_offer_log_run w a e idx c i : nodes_wf w -> self_wf w ->
  entry_heap w !! a = Some e -> ety_type e = change_type c -> names w e i ->
  match offer_members c i (i =? self_id w) (members w) with
  | Some ms => exists w', raft_offer_log (Some a) idx w = Ok tt w' /\ reconfigured w w' ms
  | None => raft_offer_log (Some a) idx w = Fault AssertFailed
  end.
Proof.
  intros W S He Hc Hi. destruct (config_entry w a e idx i c He Hc Hi) as (u & Hcfg & Hge & Hu).
  unfold raft_offer_log. rewrite (bind_ok_l _ _ _ _ _ Hge), Hcfg.
  cbn [negb]. rewrite (bind_ok_l _ _ _ _ _ Hu). set (w1 := with_user_data u w).
  assert (nodes_wf w1) as W1 by by apply (nodes_wf_same w).
  assert (self_wf w1) as S1 by by apply (self_wf_same w).
  change (members w) with (members w1). change (self_id w) with (self_id w1).
  assert (forall ms (m : M world unit), (exists w', m w1 = Ok tt w' /\ reconfigured w1 w' ms) ->
    exists w', m w1 = Ok tt w' /\ reconfigured w w' ms) as Hback.
  { intros ms m (w' & H & R). exists w'. split; [done|]. by apply (reconfigured_user w w' u). }
  assert (exists w', (ret tt : M world unit) w1 = Ok tt w' /\ reconfigured w w' (members w1))
    as Hskip by (apply Hback; exists w1; split; [done|by apply reconfigured_refl]).
  assert (forall m r, match r with
      | Some ms => exists w', m w1 = Ok tt w' /\ reconfigured w1 w' ms
      | None => m w1 = Fault AssertFailed end ->
    match r with
      | Some ms => exists w', (m : M world unit) w1 = Ok tt w' /\ reconfigured w w' ms
      | None => m w1 = Fault AssertFailed end) as Hback'
    by (intros m [ms|]; [apply Hback|done]).
  pose proof (find_member_some w1 i W1) as Hf. unfold offer_members.
  destruct (find_member i (members w1)) as [n|] eqn:Hm;
    [destruct Hf as (b & Hb & Hn & Hin & Hg)|rename Hf into Hg];
    rewrite (bind_ok_l _ _ _ _ _ Hg), (bind_ok_l _ _ _ _ _ (raft_get_nodeid_ok w1 W1 S1)), Hc;
    destruct c; change_cases; cbn [is_Some]; try exact Hskip;
    try (by apply Hback', offer_add_node).
  - destruct (i =? self_id w1); cbn [negb orb]; [exact Hskip|].
    unfold raft_node_is_active. rewrite (bind_ok_l _ _ _ _ _ (node_read_ok _ _ _ _ Hn)).
    destruct (Node.is_active n); cbn [negb when]; [exact Hskip|].
    by apply Hback, (set_active_reconfigured w1 b n i true).
  - rewrite bool_decide_eq_true_2 by by eexists. cbn [when].
    pose proof (set_voting_reconfigured w1 b n i false W1 S1 Hb Hn Hin) as Hs.
    destruct (Node.is_voting n); [by apply Hback|done].
  - rewrite bool_decide_eq_true_2 by by eexists. cbn [when].
    by apply Hback, (set_active_reconfigured w1 b n i false).
  - destruct (i =? self_id w1); cbn [negb]; [exact Hskip|].
    pose proof (offer_add_nonvoting w1 i W1 S1 Hm) as Hs. cbv zeta in Hs.
    case_decide; [done|by apply Hback].
Qed.

(** The test on the first member, on the list of nodes. *)
Lemma heads_head w a n i : nodes_wf w -> a ∈ nodes_list (srv w) -> node_heap w !! a = Some n ->
  i = id n -> heads w i <-> head (nodes_list (srv w)) = Some a.
Proof.
  intros W Ha Hn Hi. unfold heads, members, members_of. pose proof (nw_heap _ W) as Hh.
  pose proof (nw_ids _ W) as Hid. destruct (nodes_list (srv w)) as [|x l]; [done|].
  destruct (Hh x ltac:(left)) as [m Hm]. cbn. rewrite Hm. cbn. split; [|congruence].
  intros [= Hmi]. f_equal. apply (Hid x a i); [left|done| |]; unfold node_id_at;
    rewrite ?Hm, ?Hn; cbn; congruence.
Qed.

(** *** Deleting a configuration entry *)

(** Removing a member. *)
Lemma remove_taken_out w a n i : nodes_wf w -> self_wf w ->
  a ∈ nodes_list (srv w) -> node_heap w !! a = Some n -> i = id n ->
  exists w', raft_remove_node (Some a) w = Ok tt w' /\ taken_out w w' i.
Proof.
  intros W S Ha Hn Hi. destruct (raft_remove_node_run w a n W Ha Hn) as (w' & H & Hnum & Hu & Hm).
  exists w'. split; [done|]. unfold taken_out. pose proof (heads_head w a n i W Ha Hn Hi) as Hh.
  destruct (decide (heads w i)) as [H1|H1]; rewrite Hh in H1;
    [rewrite decide_True in Hm by done|rewrite decide_False in Hm by done].
  - destruct Hm as [Hl Hnh]. split; [|done| |done].
    + exists a. unfold node_id_at. rewrite Hn. cbn. split_and!; congruence.
    + unfold members. by rewrite Hl, Hnh.
  - destruct Hm as [(W' & Kn & Kh & Ke & Kc & Hl) M]. rewrite <- Hi in M. destruct S as (s & Hs & Hsl).
    case_decide as Hself.
    + split; [done|done|done|]. intros (b & Hb & Hbl).
      destruct (nw_heap _ W' b Hbl) as [m Hbm].
      assert (m ∈ members w') as Hin by (apply list_elem_of_omap; by exists b).
      rewrite M in Hin. apply list_elem_of_In, List.filter_In in Hin as [_ Hin].
      apply negb_true_iff, Z.eqb_neq in Hin. apply Hin. rewrite Hself.
      unfold self_id, node_id_at. rewrite <- Kn, Hb. cbn. rewrite <- Kh, Hbm. done.
    + split; try done.
      * exists s. rewrite Kn. split; [done|]. apply Hl; [done|].
        intros ->. apply Hself. unfold self_id, node_id_at. by rewrite Hs, Hn.
      * unfold self_id, node_id_at. by rewrite Kn, Kh.
Qed.

Lemma raft_pop_log_run w a e idx c i : nodes_wf w -> self_wf w ->
  entry_heap w !! a = Some e -> ety_type e = change_type c -> names w e i ->
  match pop_members c i (i =? self_id w) (members w) with
  | Some ms => exists w', raft_pop_log (Some a) idx w = Ok tt w' /\
      if decide (c = AddNonvoting /\ heads w i) then left_linked w w' i else reconfigured w w' ms
  | None => exists f, raft_pop_log (Some a) idx w = Fault f
  end.
Proof.
  intros W S He Hc Hi. destruct (config_entry w a e idx i c He Hc Hi) as (u & Hcfg & Hge & Hu).
  unfold raft_pop_log. rewrite (bind_ok_l _ _ _ _ _ Hge), Hcfg.
  cbn [negb]. rewrite (bind_ok_l _ _ _ _ _ Hu). set (w1 := with_user_data u w).
  assert (nodes_wf w1) as W1 by by apply (nodes_wf_same w).
  assert (self_wf w1) as S1 by by apply (self_wf_same w).
  change (members w) with (members w1) in *. change (self_id w) with (self_id w1).
  assert (forall ms (m : M world unit), (exists w', m w1 = Ok tt w' /\ reconfigured w1 w' ms) ->
    c <> AddNonvoting ->
    exists w', m w1 = Ok tt w' /\
      if decide (c = AddNonvoting /\ heads w i) then left_linked w w' i else reconfigured w w' ms)
    as Hback.
  { intros ms m (w' & H & R) Hne. exists w'. split; [done|]. rewrite decide_False by (by intros []).
    by apply (reconfigured_user w w' u). }
  pose proof (find_member_some w1 i W1) as Hf. unfold pop_members.
  destruct (find_member i (members w1)) as [n|] eqn:Hm;
    [destruct Hf as (b & Hb & Hn & Hin & Hg)|rename Hf into Hg]; rewrite Hc;
    destruct c; change_cases;
    rewrite ?(bind_ok_l _ _ _ _ _ (raft_get_nodeid_ok w1 W1 S1)), (bind_ok_l _ _ _ _ _ Hg);
    try (by eexists).
  - destruct (remove_taken_out w1 b n i W1 S1 Hb Hn Hin) as (w2 & Hr & R).
    destruct (Z.eqb_spec i (self_id w1)) as [Hs|Hs]; cbn [when].
    + rewrite (bind_ok_l _ _ _ _ _ Hr). by eexists.
    + exists w2. rewrite (bind_ok_l _ _ _ _ _ Hr). split; [done|]. unfold taken_out in R.
      rewrite (decide_False _ _ Hs) in R. change (heads w i) with (heads w1 i).
      destruct (decide (heads w1 i)) as [H1|H1];
        [rewrite decide_True by done; by destruct R
        |rewrite decide_False by (by intros []); by apply (reconfigured_user w w2 u)].
  - pose proof (set_voting_reconfigured w1 b n i false W1 S1 Hb Hn Hin) as Hs.
    destruct (Node.is_voting n); [by apply Hback|by exists AssertFailed].
  - pose proof (set_voting_reconfigured w1 b n i true W1 S1 Hb Hn Hin) as Hs.
    destruct (Node.is_voting n); [by exists AssertFailed|by apply Hback].
  - apply Hback; [|done]. by apply (set_active_reconfigured w1 b n i true).
Qed.

(** *** Applying a configuration entry *)

(** Writes of one node, one after the other, are one write. *)
Lemma node_write_ok w a n g : node_heap w !! a = Some n ->
  node_write g (Some a) w = Ok tt (with_node_heap (<[a := g n]> (node_heap w)) w).
Proof. intros Hn. unfold node_write. by rewrite (bind_ok_l _ _ _ _ _ (node_get_ok _ _ _ Hn)). Qed.

Lemma write_twice w a (n n' : raft_node_private_t) :
  with_node_heap (<[a := n']> (node_heap (with_node_heap (<[a := n]> (node_heap w)) w)))
    (with_node_heap (<[a := n]> (node_heap w)) w)
  = with_node_heap (<[a := n']> (node_heap w)) w.
Proof.
  change (with_node_heap (<[a := n']> (<[a := n]> (node_heap w))) w
          = with_node_heap (<[a := n']> (node_heap w)) w).
  by rewrite insert_insert_eq.
Qed.

(** The connection is confirmed when the server's own addition is applied. *)
Definition connected_after (c : change) (i : Z) (w : world) : raft_node_status_e :=
  match c with
  | AddNode => if i =? self_id w then RAFT_NODE_STATUS_CONNECTED else connected (srv w)
  | _ => connected (srv w)
  end.

(** What a change of a node's flags does not touch. *)
Definition kept_aside (w w' : world) : Prop :=
  last_applied_idx (srv w') = last_applied_idx (srv w) /\
  voting_cfg_change_log_idx (srv w') = voting_cfg_change_log_idx (srv w) /\
  user_data w' = user_data w.

Lemma apply_add_node w a n i e : nodes_wf w -> self_wf w -> a ∈ nodes_list (srv w) ->
  node_heap w !! a = Some n -> i = id n -> ety_type e = change_type AddNode ->
  exists w', apply_cfg_change e i (Some a) w = Ok tt w' /\
    reconfigured w w' (update_member i (commit_addition AddNode) (members w)) /\
    connected (srv w') = connected_after AddNode i w /\ kept_aside w w'.
Proof.
  intros W S Ha Hn Hi Hc.
  pose proof (write_reconfigured w a n i (commit_addition AddNode) W S Ha Hn Hi (fun _ => eq_refl)) as R.
  unfold apply_cfg_change. rewrite Hc. change_cases.
  unfold raft_node_set_addition_committed, raft_node_set_voting_committed,
    raft_node_set_has_sufficient_logs.
  rewrite (bind_ok_l _ _ _ _ _ (node_write_ok w a n _ Hn)).
  erewrite bind_ok_l by (apply node_write_ok, lookup_insert_eq). rewrite write_twice.
  erewrite bind_ok_l by (apply node_write_ok, lookup_insert_eq). rewrite write_twice.
  change (Node.set_has_sufficient_logs _) with (commit_addition AddNode n).
  set (w' := with_node_heap _ w) in *. pose proof R as [W' _ S' I' _ _].
  rewrite (bind_ok_l _ _ _ _ _ (raft_get_nodeid_ok w' W' S')), I'. unfold connected_after.
  destruct (i =? self_id w); cbn [when]; eexists; (split; [reflexivity|]);
    (split_and!; [by apply (reconfigured_same w w')|done..]).
Qed.

Lemma apply_write w a n i g : nodes_wf w -> self_wf w -> a ∈ nodes_list (srv w) ->
  node_heap w !! a = Some n -> i = id n -> (forall m, id (g m) = id m) ->
  exists w', node_write g (Some a) w = Ok tt w' /\
    reconfigured w w' (update_member i g (members w)) /\
    connected (srv w') = connected (srv w) /\ kept_aside w w'.
Proof.
  intros W S Ha Hn Hi Hg. rewrite (node_write_ok w a n g Hn). eexists. split; [reflexivity|].
  split_and!; try done. by apply (write_reconfigured w a n i).
Qed.

(** The members when the change is settled: a removal takes the node out. *)
Definition settled (w w' : world) (c : change) (i : Z) (ms : list raft_node_private_t) : Prop :=
  if decide (c = Remove /\ is_Some (find_member i (members w))) then taken_out w w' i
  else reconfigured w w' ms.

Lemma apply_cfg_run w e c i : nodes_wf w -> self_wf w -> ety_type e = change_type c ->
  exists p, raft_get_node i w = Ok p w /\
  match apply_members c i (members w) with
  | Some ms => exists w', apply_cfg_change e i p w = Ok tt w' /\ settled w w' c i ms /\
      connected (srv w') = connected_after c i w /\ kept_aside w w'
  | None => apply_cfg_change e i p w = Fault NullDeref
  end.
Proof.
  intros W S Hc. pose proof (find_member_some w i W) as Hf. unfold apply_members, settled.
  destruct (find_member i (members w)) as [n|] eqn:Hm.
  - destruct Hf as (b & Hb & Hn & Hin & Hg). exists (Some b). split; [done|].
    destruct c; [|by apply (apply_add_node w b n i e) | |]; unfold apply_cfg_change;
      rewrite Hc; change_cases; rewrite ?bool_decide_eq_true_2 by (by eexists); cbn [when].
    + by apply (apply_write w b n i).
    + by apply (apply_write w b n i).
    + destruct (remove_taken_out w b n i W S Hb Hn Hin) as (w' & H & R).
      exists w'. rewrite decide_True by (split; [done|by eexists]). split_and!; [done|done| |split_and!].
      * by run_keeps H (same (fun w => connected (srv w))) as K.
      * by run_keeps H (same (fun w => last_applied_idx (srv w))) as K.
      * by run_keeps H (same (fun w => voting_cfg_change_log_idx (srv w))) as K.
      * by run_keeps H (same user_data) as K.
  - exists None. split; [done|].
    destruct c; unfold apply_cfg_change; rewrite Hc; change_cases; try reflexivity.
    all: exists w; rewrite decide_False by (intros [_ []]; done).
    all: split_and!; try done; by apply reconfigured_refl.
Qed.

(** Only the nodes, the entries and the callbacks are looked at. *)
Lemma settled_same w w2 w' c i ms : node_state w2 = node_state w ->
  entry_heap w2 = entry_heap w -> cb (srv w2) = cb (srv w) ->
  settled w2 w' c i ms -> settled w w' c i ms.
Proof.
  intros HN HE HC. pose proof HN as HN'. unfold node_state in HN'. injection HN' as H1 H2 H3 H4 H5.
  assert (members w2 = members w) as HM by (unfold members; congruence).
  assert (self_id w2 = self_id w) as HI by (unfold self_id, node_id_at; by rewrite H3, H4).
  unfold settled, taken_out, heads. repeat case_decide; try (exfalso; congruence);
    rewrite ?HM in *; try done.
  - intros [(a & Ha & Hi & Hu) ? ? ?]. split; try congruence.
    exists a. unfold node_id_at in *. rewrite <- H1, <- H4. done.
  - intros []. split; congruence.
  - intros []. split; congruence.
  - intros []. split; congruence.
Qed.

(** The user's data after a configuration entry was applied: given to
    [applylog], then to [log_get_node_id]. *)
Definition applied_change (w : world) (a : alog) (e : raft_entry_t) : udata :=
  named w e (applied_of w + 1) (applied_to w a (user_data w) (applied_of w + 1)).

(** ** The theorems *)

(** C25: a configuration entry changes the members as [offer_members] says when
    it is appended, and as [pop_members] says when it is deleted; an assertion
    fails, or a null pointer is read, exactly where they are undefined.  The
    own node, the ids and the bookkeeping of the list stay in order, but in one
    case: deleting the addition of a non-voting node that is the first member
    frees its block and counts it out, and leaves it in the list. *)
Theorem config_entry_refines w a e idx c i :
  nodes_wf w -> self_wf w ->
  entry_heap w !! a = Some e -> ety_type e = change_type c -> names w e i ->
  match offer_members c i (i =? self_id w) (members w) with
  | Some ms => exists w', raft_offer_log (Some a) idx w = Ok tt w' /\ reconfigured w w' ms
  | None => raft_offer_log (Some a) idx w = Fault AssertFailed
  end /\
  match pop_members c i (i =? self_id w) (members w) with
  | Some ms => exists w', raft_pop_log (Some a) idx w = Ok tt w' /\
      if decide (c = AddNonvoting /\ heads w i) then left_linked w w' i else reconfigured w w' ms
  | None => exists f, raft_pop_log (Some a) idx w = Fault f
  end.
Proof.
  intros W S He Hc Hi. split; [by apply (raft_offer_log_run w a e)|].
  by apply (raft_pop_log_run w a e).
Qed.

(** C26: deleting a configuration entry undoes what appending it did: when the
    entry is in order for the members ([change_ready]: it adds a new non-voting
    node, promotes a non-voting one, demotes a voting one or removes an active
    one), [raft_offer_log] and then [raft_pop_log] succeed and leave the members,
    with all their flags and indices, as they were. *)
Theorem offer_pop_roundtrip w a e idx idx' c i :
  nodes_wf w -> self_wf w ->
  entry_heap w !! a = Some e -> ety_type e = change_type c -> names w e i ->
  change_ready c i (i =? self_id w) (members w) ->
  exists w', (exec! raft_offer_log (Some a) idx in raft_pop_log (Some a) idx') w = Ok tt w' /\
    reconfigured w w' (members w).
Proof.
  intros W S He Hc (f & Hf & Hi) Hr.
  destruct (offer_pop_members c i (i =? self_id w) (members w) (members_ids w W) Hr)
    as (ms & Hoff & Hpop).
  pose proof (raft_offer_log_run w a e idx c i W S He Hc ltac:(by exists f)) as H1.
  rewrite Hoff in H1. destruct H1 as (w1 & H1 & [W1 M1 S1 I1 E1 C1]).
  assert (entry_heap w1 !! a = Some e) as He1 by congruence.
  assert (names w1 e i) as Hn1 by (exists f; split; [congruence|done]).
  assert (~ (c = AddNonvoting /\ heads w1 i)) as Hh.
  { intros [-> Hh]. revert Hh. unfold heads. unfold change_ready in Hr. rewrite M1. unfold offer_members in Hoff.
    pose proof (self_found w W S) as [m Hm].
    destruct (find_member i (members w)) as [n|] eqn:Hfi; [done|].
    destruct Hr as [Hself Hlen]. rewrite Hself, decide_False in Hoff by lia. injection Hoff as <-.
    destruct (members w) as [|x ms]; [done|]. cbn. intros [= Hx].
    unfold find_member in Hfi. cbn in Hfi. by rewrite Hx, Z.eqb_refl in Hfi. }
  pose proof (raft_pop_log_run w1 a e idx' c i W1 S1 He1 Hc Hn1) as H2.
  rewrite I1, M1, Hpop in H2. destruct H2 as (w2 & H2 & Hw). rewrite decide_False in Hw by done.
  destruct Hw as [W2 M2 S2 I2 E2 C2].
  exists w2. rewrite (bind_ok_l _ _ _ _ _ H1). split; [done|]. split; congruence.
Qed.

(** C27: applying a committed configuration entry the log still holds gives it
    to [applylog] and then to [log_get_node_id], each once and nothing else to the
    user but the log message, advances the applied index, ends the pending
    change recorded for the index, and confirms the change on the members: the
    flags of an added or promoted node are set and a removed node is taken out.
    Taken out, a node leaves the list and its block the pool, with two
    exceptions: the first member stays in the list though its block is freed and
    counted out ([left_linked]), and when it is the server itself its pointer to
    its own node is left dangling ([dismissed]).  A node that is not a member is
    ignored by demotions and removals and makes the additions read a null
    pointer.  [applylog] does not answer SHUTDOWN, and no snapshot is in
    progress. *)
Theorem raft_apply_entry_config w a e c i :
  nodes_wf w -> self_wf w -> log_repr w a -> snapshot_in_progress (srv w) = 0 ->
  no_shutdown w -> 0 <= applied_of w < commit_of w -> commit_of w <= al_last a ->
  al_get a (applied_of w + 1) = Some e -> ety_type e = change_type c -> names w e i ->
  match apply_members c i (members w) with
  | Some ms => exists w', raft_apply_entry w = Ok 0 w' /\ settled w w' c i ms /\
      applied_of w' = applied_of w + 1 /\
      voting_cfg_change_log_idx (srv w') = cfg_after w (applied_of w + 1) /\
      connected (srv w') = connected_after c i w /\
      user_data w' = applied_change w a e
  | None => raft_apply_entry w = Fault NullDeref
  end.
Proof.
  intros W S R Hs Hsd Ha Hl He Hc Hi.
  assert (raft_entry_is_cfg_change e = true) as Hcfg
    by (unfold raft_entry_is_cfg_change; rewrite Hc; by destruct c).
  rewrite (raft_apply_entry_run w a e R Hs Hsd Ha Hl He), Hcfg. cbn [negb].
  set (w1 := applied_state _ _ _ w).
  rewrite (bind_ok_l _ _ _ _ _ (call_log_get_node_id_ok w1 e i (applied_of w + 1) Hi)).
  set (w2 := with_user_data _ w1).
  assert (nodes_wf w2) as W2 by by apply (nodes_wf_same w).
  assert (self_wf w2) as S2 by by apply (self_wf_same w).
  destruct (apply_cfg_run w2 e c i W2 S2 Hc) as (p & Hp & H).
  rewrite (bind_ok_l _ _ _ _ _ Hp). change (members w) with (members w2).
  destruct (apply_members c i (members w2)) as [ms|].
  - destruct H as (w' & H & HR & HC & HA & HV & HU). exists w'. rewrite (bind_ok_l _ _ _ _ _ H).
    split_and!; try done. by apply (settled_same w w2).
  - unfold bind. by rewrite H.
Qed.
End Config.

(** ** Witnesses *)

(** A configuration entry about node [i]. *)
Definition sim_change (c : change) (i : Z) : raft_entry_t :=
  mk_entry 1 0 1 (change_type c) (mk_data i 0).

(** Its block, before the members are told of it. *)
Definition sim_offered (c : change) (i : Z) : world :=
  with_entry_heap {[ 1%positive := sim_change c i ]} sim3.

Lemma sim_offered_nodes c i : nodes_wf (sim_offered c i).
Proof. apply nodes_wfb_sound. vm_compute. reflexivity. Qed.

Lemma sim_offered_self c i : self_wf (sim_offered c i).
Proof. exists 1%positive. split; [vm_compute; reflexivity|vm_compute; left]. Qed.

Lemma sim_change_names w c i : log_get_node_id (cb (srv w)) = log_get_node_id sim_cbs ->
  names w (sim_change c i) i /\ names w (with_ety_idx 1 (sim_change c i)) i.
Proof. intros H. unfold names. rewrite H. split; by eexists. Qed.

(** Node 3 of three is demoted, and not a member: node 9. *)
Lemma config_entry_refines_witness :
  let w := sim_offered Demote 3 in
  match offer_members Demote 3 (3 =? self_id w) (members w) with
  | Some ms => exists w', raft_offer_log (Some 1%positive) 1 w = Ok tt w' /\ reconfigured w w' ms
  | None => raft_offer_log (Some 1%positive) 1 w = Fault AssertFailed
  end /\
  match pop_members Demote 3 (3 =? self_id w) (members w) with
  | Some ms => exists w', raft_pop_log (Some 1%positive) 1 w = Ok tt w' /\
      if decide (Demote = AddNonvoting /\ heads w 3) then left_linked w w' 3
      else reconfigured w w' ms
  | None => exists f, raft_pop_log (Some 1%positive) 1 w = Fault f
  end.
Proof.
  apply (config_entry_refines (sim_offered Demote 3) 1%positive (sim_change Demote 3) 1 Demote 3).
  - apply sim_offered_nodes.
  - apply sim_offered_self.
  - reflexivity.
  - reflexivity.
  - apply sim_change_names. vm_compute. reflexivity.
Defined.

Lemma offer_pop_roundtrip_witness :
  let w := sim_offered AddNonvoting 4 in
  exists w', (exec! raft_offer_log (Some 1%positive) 1 in raft_pop_log (Some 1%positive) 1) w
             = Ok tt w' /\ reconfigured w w' (members w).
Proof.
  apply (offer_pop_roundtrip (sim_offered AddNonvoting 4) 1%positive (sim_change AddNonvoting 4)
           1 1 AddNonvoting 4).
  - apply sim_offered_nodes.
  - apply sim_offered_self.
  - reflexivity.
  - reflexivity.
  - apply sim_change_names. vm_compute. reflexivity.
  - vm_compute. split; [reflexivity|lia].
Defined.

(** A follower of three servers holds the committed removal of node 3. *)
Definition sim_removal : world :=
  run_world (let! _ := raft_append_entry (sim_change Remove 3) in raft_set_commit_idx 1) sim3.

Definition sim_removal_log : alog := mk_alog 1 [with_ety_idx 1 (sim_change Remove 3)].

Lemma raft_apply_entry_config_witness :
  applied_of sim_removal + 1 = 1 /\
  match apply_members Remove 3 (members sim_removal) with
  | Some ms => exists w', raft_apply_entry sim_removal = Ok 0 w' /\
      settled sim_removal w' Remove 3 ms /\
      applied_of w' = applied_of sim_removal + 1 /\
      voting_cfg_change_log_idx (srv w') = cfg_after sim_removal (applied_of sim_removal + 1) /\
      connected (srv w') = connected_after Remove 3 sim_removal /\
      user_data w' = applied_change sim_removal sim_removal_log
                       (with_ety_idx 1 (sim_change Remove 3))
  | None => raft_apply_entry sim_removal = Fault NullDeref
  end.
Proof.
  split; [vm_compute; reflexivity|].
  apply (raft_apply_entry_config sim_removal sim_removal_log (with_ety_idx 1 (sim_change Remove 3))
           Remove 3).
  - apply nodes_wfb_sound. vm_compute. reflexivity.
  - exists 1%positive. split; [vm_compute; reflexivity|vm_compute; left].
  - apply log_reprb_sound. vm_compute. reflexivity.
  - vm_compute. reflexivity.
  - intros f Hf. vm_compute in Hf. injection Hf as <-. intros u e i. vm_compute. discriminate.
  - vm_compute. split; [discriminate|reflexivity].
  - vm_compute. discriminate.
  - vm_compute. reflexivity.
  - reflexivity.
  - apply sim_change_names. vm_compute. reflexivity.
Defined.
