(* ===== verification/Termination.v ===== *)
(** * Termination

    The loops over lists end with the lists; the two loops that run until a
    condition holds are given the number of rounds they may take, and
    [OutOfFuel] would mark a loop that needs more.  [ends m]: no run of [m] does. *)
From S2P Require Import Prelude Contiki Types Node Membership Log Server Election Replication.
From S2P Require Import Sim NodeFacts Frames History LogFacts.

(** ** Programs that never run out of rounds *)
Section Ends.
Context {S : Type}.

Definition ends {A} (m : M S A) : Prop := forall s, m s <> Fault OutOfFuel.

Lemma ends_ret {A} (a : A) : ends (ret a : M S A).
Proof. done. Qed.
Lemma ends_raise {A} f : f <> OutOfFuel -> ends (raise f : M S A).
Proof. intros Hf s [= ?]. done. Qed.
Lemma ends_gets {A} (g : S -> A) : ends (gets g).
Proof. done. Qed.
Lemma ends_modify g : ends (modify g : M S unit).
Proof. done. Qed.
Lemma ends_assert b : ends (assert_ b : M S unit).
Proof. by destruct b. Qed.
Lemma ends_int_chk `{CTarget} z : ends (int_chk z : M S Z).
Proof. unfold int_chk. by destruct (int_ok z). Qed.
Lemma ends_bind {A B} (m : M S A) (k : A -> M S B) :
  ends m -> (forall a, ends (k a)) -> ends (bind m k).
Proof.
  intros Hm Hk s. unfold bind. destruct (m s) as [a s'|f] eqn:E; [apply Hk|].
  intros [= ->]. by apply (Hm s).
Qed.
Lemma ends_when b (m : M S unit) : ends m -> ends (when b m).
Proof. by destruct b. Qed.
Lemma ends_foreach {X} (l : list X) (f : X -> M S unit) : (forall x, ends (f x)) -> ends (foreach l f).
Proof. intros H. induction l; cbn; [apply ends_ret|]. apply ends_bind; auto. Qed.
Lemma ends_foreach_ret {X Y} (l : list X) (f : X -> M S (option Y)) :
  (forall x, ends (f x)) -> ends (foreach_ret l f).
Proof.
  intros H. induction l; cbn; [apply ends_ret|]. apply ends_bind; [done|].
  intros [y|]; [apply ends_ret|done].
Qed.
Lemma ends_find_first {X} (l : list X) (f : X -> M S bool) :
  (forall x, ends (f x)) -> ends (find_first l f).
Proof.
  intros H. induction l; cbn; [apply ends_ret|]. apply ends_bind; [done|].
  intros []; [apply ends_ret|done].
Qed.
Lemma ends_count_from {X} (l : list X) (f : X -> M S bool) n :
  (forall x, ends (f x)) -> ends (count_from n l f).
Proof.
  intros H. revert n. induction l; intros n; cbn; [apply ends_ret|]. apply ends_bind; auto.
Qed.
End Ends.

Create HintDb ends discriminated.
#[export] Hint Resolve ends_ret ends_gets ends_modify ends_assert ends_int_chk : ends.
#[export] Hint Extern 1 (ends (raise _)) => (by apply ends_raise) : ends.

Ltac ends_step :=
  match goal with
  | |- ends (bind _ _) => apply ends_bind; [|intros ?]
  | |- ends (let '(_, _) := ?x in _) => destruct x
  | |- ends (match ?x with _ => _ end) => destruct x
  | |- ends (when _ _) => apply ends_when
  | |- ends (foreach _ _) => apply ends_foreach; intros ?
  | |- ends (foreach_ret _ _) => apply ends_foreach_ret; intros ?
  | |- ends (find_first _ _) => apply ends_find_first; intros ?
  | |- ends (count_from _ _ _) => apply ends_count_from; intros ?
  | |- ends _ => solve [eauto 2 with ends]
  end.
Ltac go :=
  unfold upd_srv, upd_lg, raft_node_set_next_idx, raft_node_set_match_idx, raft_node_vote_for_me,
    raft_node_set_active, raft_node_set_voting_committed, raft_node_set_addition_committed,
    raft_node_set_has_sufficient_logs in *;
  unfold_accessors; repeat ends_step.

Section Operations.
Context {T : CTarget} {C : Contiki} {U : User}.

Lemma node_get_ends p : ends (node_get p).
Proof. unfold node_get. go. Qed.
#[local] Hint Resolve node_get_ends : ends.
Lemma node_put_ends p n : ends (node_put p n).
Proof. unfold node_put. go. Qed.
#[local] Hint Resolve node_put_ends : ends.
Lemma node_read_ends {A} (g : _ -> A) p : ends (node_read g p).
Proof. unfold node_read. go. Qed.
#[local] Hint Resolve node_read_ends : ends.
Lemma node_write_ends g p : ends (node_write g p).
Proof. unfold node_write. go. Qed.
#[local] Hint Resolve node_write_ends : ends.
Lemma entry_get_ends p : ends (entry_get p).
Proof. unfold entry_get. go. Qed.
#[local] Hint Resolve entry_get_ends : ends.
Lemma call_ends f : ends (call f).
Proof. unfold call. go. Qed.
#[local] Hint Resolve call_ends : ends.
Lemma non_null_ends {A} (o : option A) : ends (non_null o : M world A).
Proof. unfold non_null. go. Qed.
#[local] Hint Resolve non_null_ends : ends.
Lemma log_msg_ends p : ends (log_msg p).
Proof. unfold log_msg. go. Qed.
#[local] Hint Resolve log_msg_ends : ends.
Lemma raft_node_new_ends i : ends (raft_node_new i).
Proof. unfold raft_node_new. go. Qed.
#[local] Hint Resolve raft_node_new_ends : ends.
Lemma raft_node_free_ends p : ends (raft_node_free p).
Proof. unfold raft_node_free. go. Qed.
#[local] Hint Resolve raft_node_free_ends : ends.
Lemma raft_node_set_voting_ends p b : ends (raft_node_set_voting p b).
Proof. unfold raft_node_set_voting. go. Qed.
#[local] Hint Resolve raft_node_set_voting_ends : ends.
Lemma raft_get_nodeid_ends : ends raft_get_nodeid.
Proof. unfold raft_get_nodeid. go. Qed.
#[local] Hint Resolve raft_get_nodeid_ends : ends.
Lemma raft_get_num_voting_nodes_ends : ends raft_get_num_voting_nodes.
Proof. unfold raft_get_num_voting_nodes. go. Qed.
#[local] Hint Resolve raft_get_num_voting_nodes_ends : ends.
Lemma raft_get_node_ends i : ends (raft_get_node i).
Proof. unfold raft_get_node. go. Qed.
#[local] Hint Resolve raft_get_node_ends : ends.
Lemma raft_get_my_node_ends : ends raft_get_my_node.
Proof. unfold raft_get_my_node. go. Qed.
#[local] Hint Resolve raft_get_my_node_ends : ends.
Lemma raft_get_nvotes_for_me_ends : ends raft_get_nvotes_for_me.
Proof. unfold raft_get_nvotes_for_me. go. Qed.
#[local] Hint Resolve raft_get_nvotes_for_me_ends : ends.
Lemma raft_add_node_ends i b : ends (raft_add_node i b).
Proof. unfold raft_add_node. go. Qed.
#[local] Hint Resolve raft_add_node_ends : ends.
Lemma raft_add_non_voting_node_ends i b : ends (raft_add_non_voting_node i b).
Proof. unfold raft_add_non_voting_node. go. Qed.
#[local] Hint Resolve raft_add_non_voting_node_ends : ends.
Lemma raft_remove_node_ends p : ends (raft_remove_node p).
Proof. unfold raft_remove_node. go. Qed.
#[local] Hint Resolve raft_remove_node_ends : ends.
Lemma call_log_get_node_id_ends e i : ends (call_log_get_node_id e i).
Proof. unfold call_log_get_node_id. go. Qed.
#[local] Hint Resolve call_log_get_node_id_ends : ends.
Lemma raft_offer_log_ends p i : ends (raft_offer_log p i).
Proof. unfold raft_offer_log. go. Qed.
#[local] Hint Resolve raft_offer_log_ends : ends.
Lemma raft_pop_log_ends p i : ends (raft_pop_log p i).
Proof. unfold raft_pop_log. go. Qed.
#[local] Hint Resolve raft_pop_log_ends : ends.
Lemma log_count_ends : ends log_count.
Proof. unfold log_count. go. Qed.
#[local] Hint Resolve log_count_ends : ends.
Lemma log_get_current_idx_ends : ends log_get_current_idx.
Proof. unfold log_get_current_idx. go. Qed.
#[local] Hint Resolve log_get_current_idx_ends : ends.
Lemma log_find_ends i : ends (log_find i).
Proof. unfold log_find. go. Qed.
#[local] Hint Resolve log_find_ends : ends.
Lemma log_get_from_idx_ends i : ends (log_get_from_idx i).
Proof. unfold log_get_from_idx. go. Qed.
#[local] Hint Resolve log_get_from_idx_ends : ends.
Lemma log_get_at_idx_ends i : ends (log_get_at_idx i).
Proof. unfold log_get_at_idx. go. Qed.
#[local] Hint Resolve log_get_at_idx_ends : ends.
Lemma deref_static_ends p : ends (deref_static p).
Proof. unfold deref_static. go. Qed.
#[local] Hint Resolve deref_static_ends : ends.
Lemma log_make_room_ends : ends log_make_room.
Proof. unfold log_make_room. go. Qed.
#[local] Hint Resolve log_make_room_ends : ends.
Lemma log_notify_offer_ends a e i : ends (log_notify_offer a e i).
Proof. unfold log_notify_offer. go. Qed.
#[local] Hint Resolve log_notify_offer_ends : ends.
Lemma log_append_entry_ends e : ends (log_append_entry e).
Proof. unfold log_append_entry. go. Qed.
#[local] Hint Resolve log_append_entry_ends : ends.
Lemma log_delete_ends i : ends (log_delete i).
Proof. unfold log_delete. go. Qed.
#[local] Hint Resolve log_delete_ends : ends.
Lemma random_timeout_ends t r : ends (random_timeout t r).
Proof. unfold random_timeout. go. Qed.
#[local] Hint Resolve random_timeout_ends : ends.
Lemma raft_randomize_election_timeout_ends : ends raft_randomize_election_timeout.
Proof. unfold raft_randomize_election_timeout. go. Qed.
#[local] Hint Resolve raft_randomize_election_timeout_ends : ends.
Lemma raft_get_last_log_term_ends : ends raft_get_last_log_term.
Proof. unfold raft_get_last_log_term. go. Qed.
#[local] Hint Resolve raft_get_last_log_term_ends : ends.
Lemma raft_set_current_term_ends t : ends (raft_set_current_term t).
Proof. unfold raft_set_current_term. go. Qed.
#[local] Hint Resolve raft_set_current_term_ends : ends.
Lemma raft_set_commit_idx_ends i : ends (raft_set_commit_idx i).
Proof. unfold raft_set_commit_idx. go. Qed.
#[local] Hint Resolve raft_set_commit_idx_ends : ends.
Lemma raft_set_state_ends s : ends (raft_set_state s).
Proof. unfold raft_set_state. go. Qed.
#[local] Hint Resolve raft_set_state_ends : ends.
Lemma raft_vote_for_nodeid_ends i : ends (raft_vote_for_nodeid i).
Proof. unfold raft_vote_for_nodeid. go. Qed.
#[local] Hint Resolve raft_vote_for_nodeid_ends : ends.
Lemma raft_vote_ends p : ends (raft_vote p).
Proof. unfold raft_vote. go. Qed.
#[local] Hint Resolve raft_vote_ends : ends.
Lemma call_node_ends f p : ends (call_node f p).
Proof. unfold call_node. go. Qed.
#[local] Hint Resolve call_node_ends : ends.
Lemma raft_send_requestvote_ends p : ends (raft_send_requestvote p).
Proof. unfold raft_send_requestvote. go. Qed.
#[local] Hint Resolve raft_send_requestvote_ends : ends.
Lemma prev_log_ends i : ends (prev_log i).
Proof. unfold prev_log. go. Qed.
#[local] Hint Resolve prev_log_ends : ends.

Lemma read_entries_ends l : ends (read_entries l).
Proof. induction l; cbn; go. Qed.
#[local] Hint Resolve read_entries_ends : ends.
Lemma log_chain_ends p : ends (log_chain p).
Proof. unfold log_chain. go. Qed.
#[local] Hint Resolve log_chain_ends : ends.

Lemma raft_send_appendentries_ends p : ends (raft_send_appendentries p).
Proof. unfold raft_send_appendentries. go. Qed.
#[local] Hint Resolve raft_send_appendentries_ends : ends.
Lemma raft_send_appendentries_all_ends : ends raft_send_appendentries_all.
Proof. unfold raft_send_appendentries_all. go. Qed.
#[local] Hint Resolve raft_send_appendentries_all_ends : ends.
Lemma raft_become_leader_ends : ends raft_become_leader.
Proof. unfold raft_become_leader. go. Qed.
#[local] Hint Resolve raft_become_leader_ends : ends.
Lemma raft_become_follower_ends : ends raft_become_follower.
Proof. unfold raft_become_follower. go. Qed.
#[local] Hint Resolve raft_become_follower_ends : ends.
Lemma request_votes_ends : ends request_votes.
Proof. unfold request_votes. go. Qed.
#[local] Hint Resolve request_votes_ends : ends.
Lemma clear_votes_ends : ends clear_votes.
Proof. unfold clear_votes. go. Qed.
#[local] Hint Resolve clear_votes_ends : ends.
Lemma raft_become_candidate_ends : ends raft_become_candidate.
Proof. unfold raft_become_candidate. go. Qed.
#[local] Hint Resolve raft_become_candidate_ends : ends.
Lemma raft_election_start_ends : ends raft_election_start.
Proof. unfold raft_election_start. go. Qed.
#[local] Hint Resolve raft_election_start_ends : ends.
Lemma should_grant_vote_ends vr : ends (should_grant_vote vr).
Proof. unfold should_grant_vote. go. Qed.
#[local] Hint Resolve should_grant_vote_ends : ends.
Lemma recv_requestvote_done_ends p e v : ends (recv_requestvote_done p e v).
Proof. unfold recv_requestvote_done. go. Qed.
#[local] Hint Resolve recv_requestvote_done_ends : ends.
Lemma recv_requestvote_decide_ends p vr : ends (recv_requestvote_decide p vr).
Proof. unfold recv_requestvote_decide. go. Qed.
#[local] Hint Resolve recv_requestvote_decide_ends : ends.
Lemma raft_recv_requestvote_ends p vr : ends (raft_recv_requestvote p vr).
Proof. unfold raft_recv_requestvote. go. Qed.
#[local] Hint Resolve raft_recv_requestvote_ends : ends.
Lemma raft_recv_requestvote_response_ends p r : ends (raft_recv_requestvote_response p r).
Proof. unfold raft_recv_requestvote_response. go. Qed.
#[local] Hint Resolve raft_recv_requestvote_response_ends : ends.
Lemma raft_delete_entry_from_idx_ends i : ends (raft_delete_entry_from_idx i).
Proof. unfold raft_delete_entry_from_idx. go. Qed.
#[local] Hint Resolve raft_delete_entry_from_idx_ends : ends.
Lemma raft_append_entry_ends e : ends (raft_append_entry e).
Proof. unfold raft_append_entry. go. Qed.
#[local] Hint Resolve raft_append_entry_ends : ends.
Lemma recv_ae_out_ends ae e s c : ends (recv_ae_out ae e s c).
Proof. unfold recv_ae_out. go. Qed.
#[local] Hint Resolve recv_ae_out_ends : ends.
Lemma ae_index_ends ae i : ends (ae_index ae i : M world Z).
Proof. unfold ae_index. go. Qed.
#[local] Hint Resolve ae_index_ends : ends.

Lemma recv_ae_match_ends ae n i es c : ends (recv_ae_match ae n i es c).
Proof. revert i es c. induction n; intros i es c; cbn; go. Qed.
Lemma recv_ae_append_ends ae n i es c : ends (recv_ae_append ae n i es c).
Proof. revert i es c. induction n; intros i es c; cbn; go. Qed.
#[local] Hint Resolve recv_ae_match_ends recv_ae_append_ends : ends.

Lemma recv_ae_commit_ends ae : ends (recv_ae_commit ae).
Proof. unfold recv_ae_commit. go. Qed.
#[local] Hint Resolve recv_ae_commit_ends : ends.
Lemma recv_ae_entries_ends ae : ends (recv_ae_entries ae).
Proof. unfold recv_ae_entries. go. Qed.
#[local] Hint Resolve recv_ae_entries_ends : ends.
Lemma recv_ae_prev_ends p ae : ends (recv_ae_prev p ae).
Proof. unfold recv_ae_prev. go. Qed.
#[local] Hint Resolve recv_ae_prev_ends : ends.
Lemma raft_recv_appendentries_ends p ae : ends (raft_recv_appendentries p ae).
Proof. unfold raft_recv_appendentries. go. Qed.
#[local] Hint Resolve raft_recv_appendentries_ends : ends.
Lemma replicates_ends me i a : ends (replicates me i a).
Proof. unfold replicates. go. Qed.
#[local] Hint Resolve replicates_ends : ends.
Lemma update_commit_ends i : ends (update_commit i).
Proof. unfold update_commit. go. Qed.
#[local] Hint Resolve update_commit_ends : ends.
Lemma check_sufficient_logs_ends p r : ends (check_sufficient_logs p r).
Proof. unfold check_sufficient_logs. go. Qed.
#[local] Hint Resolve check_sufficient_logs_ends : ends.
Lemma recv_aer_success_ends p r m : ends (recv_aer_success p r m).
Proof. unfold recv_aer_success. go. Qed.
#[local] Hint Resolve recv_aer_success_ends : ends.
Lemma recv_aer_failure_ends p r m : ends (recv_aer_failure p r m).
Proof. unfold recv_aer_failure. go. Qed.
#[local] Hint Resolve recv_aer_failure_ends : ends.
Lemma raft_recv_appendentries_response_ends p r : ends (raft_recv_appendentries_response p r).
Proof. unfold raft_recv_appendentries_response. go. Qed.
#[local] Hint Resolve raft_recv_appendentries_response_ends : ends.
Lemma send_new_entry_ends : ends send_new_entry.
Proof. unfold send_new_entry. go. Qed.
#[local] Hint Resolve send_new_entry_ends : ends.
Lemma raft_recv_entry_ends e : ends (raft_recv_entry e).
Proof. unfold raft_recv_entry. go. Qed.
#[local] Hint Resolve raft_recv_entry_ends : ends.
Lemma apply_cfg_change_ends e i p : ends (apply_cfg_change e i p).
Proof. unfold apply_cfg_change. go. Qed.
#[local] Hint Resolve apply_cfg_change_ends : ends.
Lemma raft_apply_entry_ends : ends raft_apply_entry.
Proof. unfold raft_apply_entry. go. Qed.
#[local] Hint Resolve raft_apply_entry_ends : ends.

Lemma raft_periodic_ends n : ends (raft_periodic n).
Proof. unfold raft_periodic. go. Qed.
End Operations.
#[export] Hint Resolve raft_periodic_ends raft_recv_appendentries_ends
  raft_recv_appendentries_response_ends raft_recv_requestvote_ends
  raft_recv_requestvote_response_ends raft_recv_entry_ends raft_apply_entry_ends : ends.


(** ** The two bounded loops *)
Section Loops.
Context {T : CTarget} {C : Contiki} {U : User}.

(** An entry applied with result 0 advances the applied index by one. *)
Lemma raft_apply_entry_step w w' : raft_apply_entry w = Ok 0 w' ->
  applied_of w' = applied_of w + 1 /\ commit_of w' = commit_of w.
Proof.
  intros H. unfold raft_apply_entry, raft_snapshot_is_in_progress in H. run_simp H.
  destruct (truth _); [done|]. run_simp H. destruct (_ =? _); [done|].
  run_simp H. destruct (int_ok _); [|done].
  run_bind H as q w1 H1. apply log_get_at_idx_ro in H1 as <-. destruct q as [a|]; [|done].
  run_bind H as ety w1 H1. apply entry_get_ro in H1 as <-.
  run_bind H as u w1 H1. run_keeps H1 (same hist_of) as K1. run_simp H.
  set (w2 := with_srv _ w1) in H.
  assert (applied_of w2 = applied_of w + 1 /\ commit_of w2 = commit_of w) as [A2 C2].
  { injection K1 as _ _ K1 _. done. }
  set (obs w := (applied_of w, commit_of w)).
  assert (same obs w2 w') as K2 by (by run_keeps H (same obs) as K).
  injection K2 as A' C'. split; congruence.
Qed.

Lemma apply_all_loop_ends n w : commit_of w - applied_of w <= Z.of_nat n ->
  apply_all_loop n w <> Fault OutOfFuel.
Proof.
  revert w. induction n as [|n IH]; intros w Hn; cbn [apply_all_loop];
    unfold raft_get_last_applied_idx at 1, raft_get_commit_idx at 1; rewrite !bind_gets_l;
    fold (applied_of w) (commit_of w);
    destruct (Z.ltb_spec (applied_of w) (commit_of w)); try done; [lia|].
  unfold bind. destruct (raft_apply_entry w) as [e w1|f] eqn:He.
  - unfold truth. destruct (Z.eqb_spec e 0) as [->|]; [|done].
    apply raft_apply_entry_step in He as [A1 C1]. apply IH. lia.
  - intros [= ->]. by apply (raft_apply_entry_ends w).
Qed.

Lemma raft_apply_all_ends : ends raft_apply_all.
Proof.
  intros w. unfold raft_apply_all, raft_snapshot_is_in_progress. rewrite bind_gets_l.
  destruct (truth _); [done|]. unfold raft_get_last_applied_idx, raft_get_commit_idx.
  rewrite !bind_gets_l. apply apply_all_loop_ends. unfold commit_of, applied_of. lia.
Qed.

Lemma log_clear_loop_ends `{!ContikiLaws C} n w :
  (length (entries_list (lg w)) <= n)%nat -> log_clear_loop n w <> Fault OutOfFuel.
Proof.
  revert w. induction n as [|n IH]; intros w Hn; cbn [log_clear_loop]; rewrite bind_gets_l, list_length_spec.
  - destruct (Z.eqb_spec (Z.of_nat (length (entries_list (lg w)))) 0); [done|lia].
  - destruct (Z.eqb_spec (Z.of_nat (length (entries_list (lg w)))) 0); [done|].
    destruct (entries_list (lg w)) as [|x l] eqn:Hl; [done|]. rewrite list_pop_cons.
    rewrite bind_upd_lg_l, bind_modify_l. apply IH. cbn in *. lia.
Qed.

Lemma log_clear_ends `{!ContikiLaws C} : ends log_clear.
Proof.
  intros w. unfold log_clear. rewrite bind_gets_l. unfold bind.
  destruct (log_clear_loop _ w) eqn:E; [done|]. intros [= ->].
  by apply (log_clear_loop_ends (length (entries_list (lg w))) w).
Qed.
Hint Resolve raft_apply_all_ends log_clear_ends raft_randomize_election_timeout_ends
  raft_set_state_ends : ends.

(** C30: no sequence of calls of the interface loops without end, from any
    state, and neither does clearing the server: the loop of [raft_apply_all] is
    bounded by the distance between the applied and the commit index, and the
    loop of [log_clear] by the length of the list. *)
Theorem operations_end `{!ContikiLaws C} os w :
  run_ops os w <> Fault OutOfFuel /\ raft_clear w <> Fault OutOfFuel.
Proof.
  split.
  - apply ends_foreach. intros []; cbn; go.
  - assert (ends raft_clear) as H; [|apply H]. unfold raft_clear.
    pose proof raft_randomize_election_timeout_ends. pose proof raft_set_state_ends. go.
Qed.
End Loops.

Lemma operations_end_witness :
  run_ops history_ops sim3 <> Fault OutOfFuel /\ raft_clear sim3 <> Fault OutOfFuel.
Proof. apply (operations_end history_ops sim3). Defined.
