(* ===== verification/Lifecycle.v ===== *)
(** * The life of a server: creation, clearing, configuration changes *)
From S2P Require Import Prelude Contiki Types Node Membership Log Server Election Replication.
From S2P Require Import Sim NodeFacts Frames History LogFacts MemberFacts ElectionFacts Roles.
From S2P Require Import Campaign Sending.

(** ** Creation *)
Section Creation.
Context {T : CTarget} {C : Contiki} {L : ContikiLaws C} {U : User}.

(** The two pools before any call. *)
Definition pools_empty (w : world) : Prop :=
  memb_used (raft_entries_mem w) = ∅ /\ memb_num (raft_entries_mem w) = MAX_ENTRIES /\
  memb_used (raft_nodes_mem w) = ∅ /\ memb_num (raft_nodes_mem w) = MAX_NODES.

(** How an application starts: a server, its callbacks, its own node. *)
Definition start (cbs : raft_cbs_t) (u : udata) (self : Z) : M world ptr :=
  exec! raft_new in
  exec! raft_set_callbacks cbs u in
  raft_add_node self true.

(** A fresh server has no nodes, an empty log, and is a follower of term 0. *)
Record fresh (w : world) : Prop := {
  fr_nodes : nodes_list (srv w) = [];
  fr_num : num_nodes (srv w) = 0;
  fr_lg : entries_list (lg w) = [] /\ count (lg w) = 0 /\ base (lg w) = 0;
  fr_pools : pools_empty w;
  fr_timer : timer_ok w;
  fr_role : role_of w = (RAFT_STATE_FOLLOWER, 0);
  fr_hist : hist_of w = (0, -1, 0, 0);
  fr_cfg : voting_cfg_change_log_idx (srv w) = -1;
  fr_snap : snapshot_last_idx (srv w) = 0
}.

(** The debug callback, when there is one, leaves the user's data alone. *)
Definition log_quiet (w : world) : Prop :=
  forall f, log_message (cb (srv w)) = Some f -> forall u p, f u p = u.

Lemma randomize_user_data w w' : log_quiet w ->
  raft_randomize_election_timeout w = Ok tt w' -> user_data w' = user_data w.
Proof.
  intros Hq H. unfold raft_randomize_election_timeout in H. run_simp H.
  destruct (random_rand _) as [r g]. run_simp H. run_bind H as t w1 H1.
  run_keeps H1 eq as K. subst w1. unfold upd_srv in H. run_simp H.
  unfold log_msg in H. run_simp H. cbn [srv with_srv cb with_election_timeout_rand with_rand_state] in H.
  unfold log_quiet in Hq. destruct (log_message _) as [f|].
  - injection H as <-. cbn. by apply Hq.
  - by injection H as <-.
Qed.

Lemma raft_new_ok w : pools_empty w ->
  exists w', raft_new w = Ok tt w' /\ fresh w' /\
    1000 <= election_timeout_rand (srv w') < 2000 /\ user_data w' = user_data w.
Proof.
  intros Hp. unfold raft_new. rewrite !bind_upd_srv_l. set (w0 := with_srv _ _).
  destruct (raft_randomize_election_timeout_ok w0) as (w1 & H1 & B1).
  { pose proof INT_MAX_ge. split; cbn; lia. }
  assert (user_data w1 = user_data w) as U1 by (by apply (randomize_user_data w0 w1)).
  rewrite (bind_ok_l _ _ _ _ _ H1).
  run_keeps H1 (same hist_of) as K1. run_keeps H1 (same (fun w => raft_entries_mem w)) as K2.
  run_keeps H1 (same raft_nodes_mem) as K3.
  run_keeps H1 (same (fun w => (num_nodes (srv w), election_timeout (srv w), role w))) as K4.
  unfold same in *. injection K4 as K4 K5 K6.
  unfold log_new, log_alloc. rewrite bind_assoc, bind_gets_l, bind_upd_lg_l, bind_upd_srv_l.
  rewrite bind_set_follower, !bind_upd_srv_l. unfold raft_set_snapshot_metadata.
  rewrite bind_upd_srv_l. eexists. split; [reflexivity|]. split; [|by split].
  constructor; cbn; rewrite ?list_init_spec; try done.
  - unfold pools_empty. cbn. rewrite K2, K3. exact Hp.
  - unfold timer_ok. cbn. rewrite K5. cbn. pose proof INT_MAX_ge. lia.
  - exact (f_equal (fun h => (RAFT_STATE_FOLLOWER, fst (fst (fst h)))) K1).
Qed.

Lemma fresh_nodes_wf w : fresh w -> nodes_wf w.
Proof.
  intros [H1 H2 _ (_ & _ & H3 & H4) _ _ _ _ _].
  constructor; rewrite ?H1; cbn; try done; try (intros a Ha; by apply elem_of_nil in Ha).
  - constructor.
  - intros a b i Ha. by apply elem_of_nil in Ha.
  - apply Nat.le_0_l.
Qed.

(** The user's functions that store the term and the vote succeed. *)
Definition cbs_persist (cbs : raft_cbs_t) : Prop :=
  (forall f, persist_term cbs = Some f -> forall u t v, fst (f u t v) = 0) /\
  (forall f, persist_vote cbs = Some f -> forall u v, fst (f u v) = 0).

(** What a server that was just started is like. *)
Record started (self : Z) (cbs : raft_cbs_t) (w : world) : Prop := {
  st_ok : server_ok w (mk_alog 0 []);
  st_snap : no_snapshot w;
  st_role : role_of w = (RAFT_STATE_FOLLOWER, 0);
  st_hist : hist_of w = (0, -1, 0, 0);
  st_self : self_id w = self;
  st_cb : cb (srv w) = cbs;
  st_log : (log_cb (lg w), log_raft (lg w)) = (SServer, SServer)
}.

(** Registering the callbacks. *)
Lemma raft_set_callbacks_fresh cbs u w : fresh w ->
  exists w', raft_set_callbacks cbs u w = Ok tt w' /\ fresh w' /\
    cb (srv w') = cbs /\ (log_cb (lg w'), log_raft (lg w')) = (SServer, SServer) /\
    election_timeout_rand (srv w') = election_timeout_rand (srv w) /\ user_data w' = u.
Proof.
  intros F. unfold raft_set_callbacks, log_set_callbacks.
  rewrite bind_upd_srv_l, bind_modify_l. eexists. split; [reflexivity|].
  split; [|done]. destruct F. by constructor.
Qed.

(** Adding its own node to a fresh server. *)
Lemma add_self_started cbs self w : fresh w -> cbs_persist cbs -> cb (srv w) = cbs ->
  (log_cb (lg w), log_raft (lg w)) = (SServer, SServer) ->
  exists p w', raft_add_node self true w = Ok (Some p) w' /\ started self cbs w' /\
    members w' = [Node.init self] /\ settings w' = settings w /\
    election_timeout_rand (srv w') = election_timeout_rand (srv w) /\
    user_data w' = user_data w.
Proof.
  intros F Hcbs Hcb Hlog. pose proof (fresh_nodes_wf w F) as W.
  destruct (raft_add_node_ok w self true W) as (p & w' & H & W' & _ & M).
  run_keeps H (same log_state) as K1. run_keeps H (same settings) as K2.
  run_keeps H (same role_of) as K3. run_keeps H (same hist_of) as K4.
  run_keeps H (same (fun w => (snapshot_last_idx (srv w), election_timeout_rand (srv w)))) as K5.
  run_keeps H (same user_data) as K6. unfold same in *.
  assert (members w = []) as Hm by (unfold members; by rewrite (fr_nodes _ F)).
  rewrite Hm in M. cbn in M. destruct M as (Hms & a & n & -> & Ha & Hn & Hid & _ & Hself).
  exists a, w'. rewrite (fr_nodes _ F) in Hself.
  specialize (Hself ltac:(apply not_elem_of_nil) eq_refl).
  assert (log_repr w (mk_alog 0 [])) as R.
  { destruct (fr_lg _ F) as (L1 & L2 & L3), (fr_pools _ F) as (P1 & P2 & _).
    by apply log_repr_empty. }
  pose proof K2 as K2'. injection K2' as Kc Kt _. injection K5 as Ks Kr. destruct F.
  split_and!; try done. constructor.
  - split; [done|by exists a|by eapply log_repr_same|by left| |].
    + unfold timer_ok. by rewrite Kt.
    + unfold persists. by rewrite Kc, Hcb.
  - unfold no_snapshot. injection K1 as -> _ _. rewrite Ks. split; [done|]. apply fr_lg0.
  - by rewrite K3.
  - by rewrite K4.
  - unfold self_id, node_id_at. rewrite Hself, Hn. exact Hid.
  - by rewrite Kc.
  - by injection K1 as -> _ _.
Qed.

(** Starting a server on empty pools establishes the invariant every other
    theorem starts from: the calls succeed, and leave a follower of term 0 that
    has not voted, with an empty log, its own node as the only member, nothing
    committed or applied, the user's callbacks in place, and an election timeout
    drawn between 1000 and 2000. *)
Theorem start_establishes cbs u self w :
  pools_empty w -> cbs_persist cbs ->
  exists p w', start cbs u self w = Ok (Some p) w' /\
    started self cbs w' /\ members w' = [Node.init self] /\
    1000 <= election_timeout_rand (srv w') < 2000.
Proof.
  intros Hp Hcbs. unfold start. destruct (raft_new_ok w Hp) as (w1 & H1 & F1 & B1 & _).
  rewrite (bind_ok_l _ _ _ _ _ H1).
  destruct (raft_set_callbacks_fresh cbs u w1 F1) as (w2 & H2 & F2 & Hcb & Hlog & B2 & _).
  rewrite (bind_ok_l _ _ _ _ _ H2).
  destruct (add_self_started cbs self w2 F2 Hcbs Hcb Hlog) as (p & w3 & H3 & S3 & M3 & _ & B3 & _).
  exists p, w3. rewrite B3, B2. done.
Qed.
End Creation.

(** ** Clearing *)
Section Clearing.
Context {T : CTarget} {C : Contiki} {U : User}.

(** After [raft_clear] a voting change counts as in progress, so that the
    server refuses every voting configuration change from then on, whatever its
    role: the index of the change is set to -1, the value that stands for none,
    and later to 0.  The count of nodes is 0 while the list still has them. *)
Theorem raft_clear_blocks_changes w u w' :
  raft_clear w = Ok u w' ->
  hist_of w' = (0, -1, 0, 0) /\
  num_nodes (srv w') = 0 /\ nodes_list (srv w') = nodes_list (srv w) /\
  forall ety, raft_entry_is_voting_cfg_change ety = true ->
    raft_recv_entry ety w' = Ok (RAFT_ERR_ONE_VOTING_CHANGE_ONLY, ety, None) w'.
Proof.
  intros H. unfold raft_clear in H. run_simp H. run_bind H as u1 w1 H1.
  run_keeps H1 (same (fun w => (current_term (srv w), voted_for (srv w), nodes_list (srv w)))) as K1.
  unfold same in K1. cbn in K1. injection K1 as T1 V1 N1.
  run_simp H. rewrite bind_set_follower in H. run_simp H. set (w2 := with_srv _ _) in H.
  assert (keeps (same srv) (log_clear (C := C) (U := U))) as Hk.
  { assert (forall n, keeps (same srv) (log_clear_loop n)) as Hloop.
    { intros n. induction n; cbn [log_clear_loop]; keeps_solve. }
    unfold log_clear. keeps_solve. }
  apply Hk in H. unfold same in H. unfold hist_of, term_of, vote_of, commit_of, applied_of.
  split_and!; rewrite ?H; [cbn; by rewrite T1, V1|done|exact N1|].
  intros ety He. unfold raft_recv_entry, raft_voting_change_is_in_progress,
    raft_snapshot_is_in_progress. rewrite !bind_gets_l, He, H. done.
Qed.
End Clearing.

(** ** The index of a configuration change *)
Section CfgIndex.
Context {T : CTarget} {C : Contiki} {L : ContikiLaws C} {U : User}.

(** When a voting configuration change is appended, the index the server
    remembers for it is the one before the index the entry gets, so the change
    is cleared when the entry before it is applied, or never. *)
Theorem raft_append_entry_cfg_index ety w a e ety' w' :
  log_repr w a -> al_last a < INT_MAX -> raft_entry_is_voting_cfg_change ety = true ->
  raft_append_entry ety w = Ok (e, ety') w' ->
  voting_cfg_change_log_idx (srv w') = al_last a /\ ety_idx ety' = al_last a + 1.
Proof.
  intros R Hmax Hv H. unfold raft_append_entry in H. rewrite Hv in H. cbn [when] in H.
  rewrite bind_assoc in H. unfold raft_get_current_idx in H.
  rewrite (bind_ok_l _ _ _ _ _ (log_get_current_idx_repr _ _ R)) in H. run_simp H.
  set (w1 := with_srv _ w) in H.
  run_keeps H (same (fun w => voting_cfg_change_log_idx (srv w))) as K. split; [exact K|].
  destruct (log_append_entry_ok ety w1 a e ety' w') as [-> _]; try done.
  by apply (log_repr_same w).
Qed.
End CfgIndex.

(** ** The election timeout *)
Section Timeouts.
Context {T : CTarget} {C : Contiki} {L : ContikiLaws C} {U : User}.

Lemma raft_set_election_timeout_run millisec w :
  0 < millisec -> 2 * millisec <= INT_MAX + 1 ->
  exists w', raft_set_election_timeout millisec w = Ok tt w' /\
    election_timeout (srv w') = millisec /\
    millisec <= election_timeout_rand (srv w') < 2 * millisec /\
    stable_state w' = stable_state w /\ hist_of w' = hist_of w /\ role_of w' = role_of w /\
    cb (srv w') = cb (srv w) /\ snapshot_last_idx (srv w') = snapshot_last_idx (srv w) /\
    (log_quiet w -> user_data w' = user_data w).
Proof.
  intros H1 H2. unfold raft_set_election_timeout. rewrite bind_upd_srv_l.
  set (w0 := with_srv _ w).
  destruct (raft_randomize_election_timeout_ok w0) as (w' & Hr & Hb); [by split|].
  run_keeps Hr (same stable_state) as K1. run_keeps Hr (same hist_of) as K2.
  run_keeps Hr (same role_of) as K3. run_keeps Hr (same settings) as K4.
  run_keeps Hr (same (fun w => snapshot_last_idx (srv w))) as K5.
  injection K4 as K4 K6 _. exists w'. split_and!; try done; try apply Hb.
  intros Hq. by apply (randomize_user_data w0).
Qed.

(** Setting an election timeout that is positive and whose double fits an
    [int] draws the randomised timeout from [millisec, 2 * millisec), whatever
    the generator returns and whatever the width of [int]. *)
Theorem raft_set_election_timeout_bounds millisec w :
  0 < millisec -> 2 * millisec <= INT_MAX + 1 ->
  exists w', raft_set_election_timeout millisec w = Ok tt w' /\
    election_timeout (srv w') = millisec /\
    millisec <= election_timeout_rand (srv w') < 2 * millisec /\
    stable_state w' = stable_state w /\ hist_of w' = hist_of w /\ role_of w' = role_of w.
Proof.
  intros H1 H2. destruct (raft_set_election_timeout_run millisec w H1 H2)
    as (w' & H & E & B & K1 & K2 & K3 & _). by exists w'.
Qed.
End Timeouts.

(** On the default 16-bit target a timeout above 16384 can wrap: when the
    drawn value does not fit 15 bits the server gets a negative randomised
    timeout, which every period exceeds. *)
Theorem random_timeout_wraps {C : Contiki} {U : User} et r (w : world) :
  0 < et <= 32767 -> 0 <= r <= 65535 -> 32768 <= et + r mod et ->
  random_timeout (T := sky) et r w = Ok (et + r mod et - 65536) w /\ et + r mod et - 65536 < 0.
Proof.
  intros H1 H2 H3. pose proof (Z.mod_pos_bound r et ltac:(lia)). split; [|lia].
  unfold random_timeout. destruct (Z.eqb_spec et 0); [lia|]. cbn [int_bits sky Z.ltb Z.compare].
  change (16 <? 16) with false. cbv iota. unfold ret. f_equal.
  rewrite (to_uint_small (T := sky) et) by (unfold INT_MAX; cbn; lia).
  unfold to_int, to_uint. cbn [int_bits sky]. rewrite Z.mod_mod by lia.
  rewrite Z.mod_small by lia. destruct (Z.ltb_spec (et + r mod et) (2 ^ (16 - 1))); lia.
Qed.

(** ** Witnesses *)

Lemma start_establishes_witness :
  exists p w', start sim_cbs [] 1 sim_boot = Ok (Some p) w' /\
    started 1 sim_cbs w' /\ members w' = [Node.init 1] /\
    1000 <= election_timeout_rand (srv w') < 2000.
Proof.
  apply (start_establishes sim_cbs [] 1 sim_boot).
  - split_and!; reflexivity.
  - split; intros f [= <-]; reflexivity.
Defined.

Lemma raft_clear_blocks_changes_witness :
  let w' := run_world raft_clear sim_leader1 in
  hist_of w' = (0, -1, 0, 0) /\
  num_nodes (srv w') = 0 /\ nodes_list (srv w') = nodes_list (srv sim_leader1) /\
  forall ety, raft_entry_is_voting_cfg_change ety = true ->
    raft_recv_entry ety w' = Ok (RAFT_ERR_ONE_VOTING_CHANGE_ONLY, ety, None) w'.
Proof. apply (raft_clear_blocks_changes sim_leader1 tt). apply run_ok. vm_compute. reflexivity. Defined.

(** An entry that adds node 3 as a voting node. *)
Definition sim_add3 : raft_entry_t := mk_entry 1 0 5 RAFT_LOGTYPE_ADD_NODE (mk_data 4 0).

Lemma raft_append_entry_cfg_index_witness :
  let w' := run_world (raft_append_entry sim_add3) sim_log3 in
  voting_cfg_change_log_idx (srv w') = 3 /\ ety_idx (with_ety_idx 4 sim_add3) = 3 + 1.
Proof.
  apply (raft_append_entry_cfg_index sim_add3 sim_log3 sim_alog3 0).
  - exact sim_log3_repr.
  - vm_compute. reflexivity.
  - reflexivity.
  - apply run_ok. vm_compute. reflexivity.
Defined.

Lemma raft_set_election_timeout_bounds_witness :
  exists w', raft_set_election_timeout 2000 sim3 = Ok tt w' /\
    election_timeout (srv w') = 2000 /\ 2000 <= election_timeout_rand (srv w') < 2 * 2000 /\
    stable_state w' = stable_state sim3 /\ hist_of w' = hist_of sim3 /\ role_of w' = role_of sim3.
Proof.
  apply (raft_set_election_timeout_bounds 2000 sim3); [reflexivity|vm_compute; discriminate].
Defined.

Lemma random_timeout_wraps_witness :
  random_timeout (T := sky) 20000 19999 sim3 = Ok (20000 + 19999 mod 20000 - 65536) sim3 /\
  20000 + 19999 mod 20000 - 65536 < 0.
Proof.
  apply (random_timeout_wraps 20000 19999 sim3).
  - split; [reflexivity|discriminate].
  - split; discriminate.
  - vm_compute. discriminate.
Defined.
