(* ===== verification/Fixed.v ===== *)
(** * Servers whose membership does not change

    As long as no entry that reaches a server changes its configuration, the list
    of nodes stays what it is: the ids, the voting members and the server's own
    node.  [stays f] is the invariant behind it: a log without configuration
    entries keeps having none, and the observation [f] of the nodes is kept. *)
From S2P Require Import Prelude Contiki Types Node Membership Log Server Election Replication.
From S2P Require Import Sim NodeFacts Frames History LogFacts MemberFacts ElectionFacts Roles.
From S2P Require Import Campaign.

Section Stays.
Context {T : CTarget} {C : Contiki} {U : User}.

(** No entry in memory changes the configuration. *)
Definition normal_entries (w : world) : Prop :=
  forall a e, entry_heap w !! a = Some e -> raft_entry_is_cfg_change e = false.

Definition stays {X} (f : world -> X) (w w' : world) : Prop :=
  normal_entries w -> normal_entries w' /\ f w' = f w.

#[export] Instance stays_preorder {X} (f : world -> X) : PreOrder (stays f).
Proof.
  split; [done|]. intros w1 w2 w3 H1 H2 N1. destruct (H1 N1) as [N2 E2].
  destruct (H2 N2) as [N3 E3]. split; [done|congruence].
Qed.

Lemma stays_of {X A} (f : world -> X) (m : M world A) :
  keeps (same entry_heap) m -> keeps (same f) m -> keeps (stays f) m.
Proof.
  intros H1 H2 w a w' Hm N. split; [|by apply (H2 w a w')].
  unfold normal_entries. by rewrite (H1 w a w' Hm).
Qed.
End Stays.

#[export] Hint Extern 3 (keeps (stays _) _) =>
  (apply stays_of;
   [first [apply keeps_same_modify; intros; reflexivity
          |solve [eauto 3 with keeps typeclass_instances]]
   |solve [eauto 3 with keeps typeclass_instances]]) : keeps.

(** ** Observations that only depend on the membership *)
Section Fixed.
Context {T : CTarget} {C : Contiki} {U : User} {X : Type} (f : world -> X).
Context `{!IgnUser f, !IgnLog f, !IgnTimer f, !IgnRole f, !IgnTerm f, !IgnCommit f,
  !IgnApplied f, !IgnCfg f, !IgnIndices f}.
Context (Hsufficient : forall p, keeps (same f) (raft_node_set_has_sufficient_logs p)).

(** A configuration entry is the only kind that changes the nodes. *)
Lemma raft_offer_log_stays p i : keeps (stays f) (raft_offer_log p i).
Proof.
  intros w u w' H N. unfold raft_offer_log in H. run_bind H as ety w1 H1.
  assert (raft_entry_is_cfg_change ety = false) as Hn.
  { unfold entry_get in H1. destruct p as [a|]; [|done]. run_simp H1.
    destruct (entry_heap w !! a) as [e|] eqn:He; [|done]. run_ret H1. by eapply N. }
  apply entry_get_ro in H1 as <-. rewrite Hn in H. by run_ret H.
Qed.

Lemma raft_pop_log_stays p i : keeps (stays f) (raft_pop_log p i).
Proof.
  intros w u w' H N. unfold raft_pop_log in H. run_bind H as ety w1 H1.
  assert (raft_entry_is_cfg_change ety = false) as Hn.
  { unfold entry_get in H1. destruct p as [a|]; [|done]. run_simp H1.
    destruct (entry_heap w !! a) as [e|] eqn:He; [|done]. run_ret H1. by eapply N. }
  apply entry_get_ro in H1 as <-. rewrite Hn in H. by run_ret H.
Qed.
Hint Resolve raft_offer_log_stays raft_pop_log_stays : keeps.

Lemma store_entry_stays a e : raft_entry_is_cfg_change e = false ->
  keeps (stays f) (modify (fun w => with_entry_heap (<[a := e]> (entry_heap w)) w)).
Proof.
  intros He w u w' [= _ <-] N. split; [|apply ign_entry_heap; apply _].
  intros b x. cbn. rewrite lookup_insert_Some. intros [[_ <-]|[_ Hx]]; [done|by eapply N].
Qed.

Lemma log_make_room_stays : keeps (stays f) log_make_room.
Proof.
  apply stays_of; [|keeps_solve]. unfold log_make_room. keeps_solve.
  all: apply keeps_same_modify; reflexivity.
Qed.
Hint Resolve store_entry_stays log_make_room_stays : keeps.

Lemma log_append_entry_stays e : raft_entry_is_cfg_change e = false ->
  keeps (stays f) (log_append_entry e).
Proof.
  intros He. unfold log_append_entry, log_notify_offer. unfold_accessors. keeps_solve.
Qed.

Lemma log_delete_stays i : keeps (stays f) (log_delete i).
Proof. unfold log_delete. unfold_accessors. keeps_solve. Qed.
Hint Resolve log_append_entry_stays log_delete_stays : keeps.

Lemma raft_append_entry_stays e : raft_entry_is_cfg_change e = false ->
  keeps (stays f) (raft_append_entry e).
Proof. intros He. unfold raft_append_entry. unfold_accessors. keeps_solve. Qed.
Lemma raft_delete_entry_from_idx_stays i : keeps (stays f) (raft_delete_entry_from_idx i).
Proof. unfold raft_delete_entry_from_idx. keeps_solve. Qed.
Hint Resolve raft_append_entry_stays raft_delete_entry_from_idx_stays : keeps.

(** *** Receiving entries *)
Definition normal_message (ae : msg_appendentries_t) : Prop :=
  Forall (fun e => raft_entry_is_cfg_change e = false) (ae_entries ae).

Lemma recv_ae_match_stays ae n i es c : keeps (stays f) (recv_ae_match ae n i es c).
Proof. revert i es c. induction n as [|n IH]; intros i es c; cbn; unfold_accessors; keeps_solve. Qed.

(** The entries left to append are entries of the message. *)
Lemma recv_ae_match_rest ae n i es c w i' es' c' w' :
  recv_ae_match ae n i es c w = Ok (Next i' es' c') w' -> es' `suffix_of` es.
Proof.
  revert i es c w. induction n as [|n IH]; intros i es c w H; cbn in H.
  { run_ret H. done. }
  run_bind H as x w1 H1. run_bind H as q w2 H2. destruct q as [a|]; [|by run_ret H].
  run_bind H as e w3 H3. destruct es as [|y rest]; [done|]. run_simp H.
  destruct (_ && _).
  - run_bind H as r w4 H4. unfold truth in H. destruct (negb _); run_ret H; done.
  - apply IH in H. by apply suffix_cons_r.
Qed.

Lemma recv_ae_append_stays ae n i es c :
  Forall (fun e => raft_entry_is_cfg_change e = false) es ->
  keeps (stays f) (recv_ae_append ae n i es c).
Proof.
  revert i es c. induction n as [|n IH]; intros i es c Hes; cbn; [keeps_solve|].
  destruct Hes as [|e es He Hes]; keeps_solve.
Qed.
Hint Resolve recv_ae_match_stays recv_ae_append_stays : keeps.

Lemma recv_ae_entries_stays ae : normal_message ae -> keeps (stays f) (recv_ae_entries ae).
Proof.
  intros Hae w r w' H. unfold recv_ae_entries in H. run_bind H as fl w1 H1.
  pose proof H1 as K1. apply recv_ae_match_stays in K1. transitivity w1; [done|].
  destruct fl as [e c|i es c].
  - by run_keeps H (stays f) as K.
  - apply recv_ae_match_rest in H1.
    assert (Forall (fun e => raft_entry_is_cfg_change e = false) es) as Hes.
    { destruct H1 as [k Hk]. unfold normal_message in Hae. rewrite Hk in Hae.
      by apply Forall_app in Hae as [_ ?]. }
    assert (keeps (stays f) (recv_ae_append ae (Z.to_nat (ae_n_entries ae - i)) i es c)) as Ha
      by auto with keeps.
    by run_keeps H (stays f) as K.
Qed.
Hint Resolve recv_ae_entries_stays : keeps.

Lemma recv_ae_prev_stays p ae : normal_message ae -> keeps (stays f) (recv_ae_prev p ae).
Proof. intros Hae. unfold recv_ae_prev. unfold_accessors. keeps_solve. Qed.
Hint Resolve recv_ae_prev_stays : keeps.

Lemma raft_recv_appendentries_stays p ae : normal_message ae ->
  keeps (stays f) (raft_recv_appendentries p ae).
Proof. intros Hae. unfold raft_recv_appendentries. unfold_accessors. keeps_solve. Qed.

(** *** The other messages *)
Lemma raft_recv_requestvote_stays p vr : keeps (stays f) (raft_recv_requestvote p vr).
Proof. keeps_solve. Qed.

Lemma index_write_stays g p : (forall n, flags (g n) = flags n /\ id (g n) = id n) ->
  keeps (same entry_heap) (node_write g p) -> keeps (stays f) (node_write g p).
Proof. intros Hg He. apply stays_of; [done|]. by apply node_write_indices. Qed.

Lemma check_sufficient_logs_stays p r : keeps (stays f) (check_sufficient_logs p r).
Proof.
  assert (forall p, keeps (stays f) (raft_node_set_has_sufficient_logs p)) as H.
  { intros q. apply stays_of; [|done]. unfold raft_node_set_has_sufficient_logs. keeps_solve. }
  unfold check_sufficient_logs. unfold_accessors. keeps_solve.
Qed.
Hint Resolve check_sufficient_logs_stays : keeps.

Lemma raft_recv_appendentries_response_stays p r :
  keeps (stays f) (raft_recv_appendentries_response p r).
Proof.
  assert (forall v p, keeps (stays f) (raft_node_set_next_idx p v)) as H1.
  { intros. unfold raft_node_set_next_idx. apply index_write_stays; [done|keeps_solve]. }
  assert (forall v p, keeps (stays f) (raft_node_set_match_idx p v)) as H2.
  { intros. unfold raft_node_set_match_idx. apply index_write_stays; [done|keeps_solve]. }
  unfold raft_recv_appendentries_response, recv_aer_success, recv_aer_failure.
  unfold_accessors. keeps_solve.
Qed.

Lemma raft_recv_entry_stays e : raft_entry_is_cfg_change e = false ->
  keeps (stays f) (raft_recv_entry e).
Proof. intros He. unfold raft_recv_entry. unfold_accessors. keeps_solve. Qed.

Lemma raft_apply_entry_stays : keeps (stays f) raft_apply_entry.
Proof.
  intros w e w' H N. unfold raft_apply_entry, raft_snapshot_is_in_progress in H. run_simp H.
  destruct (truth _); [by run_ret H|]. run_simp H. destruct (_ =? _); [by run_ret H|].
  run_simp H. destruct (int_ok _); [|done].
  run_bind H as q w1 H1. apply log_get_at_idx_ro in H1 as <-.
  destruct q as [a|]; [|by run_ret H].
  run_bind H as ety w1 H1. assert (raft_entry_is_cfg_change ety = false) as Hn.
  { unfold entry_get in H1. run_simp H1. destruct (entry_heap w !! a) as [x|] eqn:He; [|done].
    run_ret H1. by eapply N. }
  apply entry_get_ro in H1 as <-. revert N. rewrite Hn in H. cbn [negb] in H. by run_keeps H (stays f) as K.
Qed.
Hint Resolve raft_apply_entry_stays : keeps.

Lemma raft_apply_all_stays : keeps (stays f) raft_apply_all.
Proof.
  unfold raft_apply_all. unfold_accessors. keeps_solve.
  match goal with |- keeps _ (apply_all_loop ?n) => generalize n; intros k end.
  induction k as [|k IH]; cbn; unfold_accessors; keeps_solve.
Qed.

Lemma raft_become_leader_stays : keeps (stays f) raft_become_leader.
Proof.
  apply stays_of; [|by apply raft_become_leader_indices].
  keeps_solve.
Qed.
End Fixed.

(** ** The roll of members and the tally of votes *)
Section Roll.
Context {T : CTarget} {C : Contiki} {U : User}.

(** The members: the list and its pool, and for each block the id and whether it
    is an active voting node. *)
Definition roll (w : world) :=
  (nodes_list (srv w), num_nodes (srv w), node (srv w), raft_nodes_mem w,
   (fun n => (id n, votes_here n)) <$> node_heap w).

(** The votes recorded in the blocks. *)
Definition tally (w : world) := Node.has_vote_for_me <$> node_heap w.

Definition polls (w : world) := (roll w, tally w).

Lemma polls_write w a n n' : node_heap w !! a = Some n -> id n' = id n ->
  votes_here n' = votes_here n -> Node.has_vote_for_me n' = Node.has_vote_for_me n ->
  polls (with_node_heap (<[a := n']> (node_heap w)) w) = polls w.
Proof.
  intros Hn H1 H2 H3. unfold polls, roll, tally. cbn. rewrite !fmap_insert, H1, H2, H3.
  by rewrite !insert_id by (by rewrite lookup_fmap, Hn).
Qed.

Lemma roll_write w a n n' : node_heap w !! a = Some n -> id n' = id n ->
  votes_here n' = votes_here n ->
  roll (with_node_heap (<[a := n']> (node_heap w)) w) = roll w.
Proof.
  intros Hn H1 H2. unfold roll. cbn. rewrite !fmap_insert, H1, H2.
  by rewrite !insert_id by (by rewrite lookup_fmap, Hn).
Qed.

#[export] Instance polls_indices : IgnIndices polls.
Proof.
  intros w a n n' Hn Hf Hi. apply (polls_write w a n); try done;
    [by apply votes_here_flags|by apply has_vote_flags].
Qed.

(** A write of one node whose effect on an observation is known. *)
Lemma node_write_same {X} (f : world -> X) g p :
  (forall w a n, node_heap w !! a = Some n ->
     f (with_node_heap (<[a := g n]> (node_heap w)) w) = f w) ->
  keeps (same f) (node_write g p).
Proof.
  intros Hg w u w' H. unfold node_write, node_get in H. destruct p as [a|]; [|done].
  run_simp H. destruct (node_heap w !! a) as [n|] eqn:Hn; [|done]. run_simp H.
  injection H as _ <-. by apply Hg.
Qed.

Lemma set_sufficient_polls p : keeps (same polls) (raft_node_set_has_sufficient_logs p).
Proof.
  apply node_write_same. intros w a n Hn. apply (polls_write w a n); try done;
    unfold votes_here, Node.is_active, Node.is_voting, Node.has_vote_for_me,
      Node.set_has_sufficient_logs, RAFT_NODE_INACTIVE, RAFT_NODE_VOTING,
      RAFT_NODE_VOTED_FOR_ME, RAFT_NODE_HAS_SUFFICIENT_LOG; by rewrite !has_set_flag.
Qed.

Lemma vote_for_me_roll p b : keeps (same roll) (raft_node_vote_for_me p b).
Proof.
  apply node_write_same. intros w a n Hn. apply (roll_write w a n); try done; [by destruct b|].
  unfold votes_here, Node.is_active, Node.is_voting, Node.vote_for_me, RAFT_NODE_INACTIVE,
    RAFT_NODE_VOTING, RAFT_NODE_VOTED_FOR_ME.
  destruct b; by rewrite ?has_set_flag, ?has_clear_flag.
Qed.

(** *** What the roll determines *)
Lemma roll_heap w w' a : roll w' = roll w ->
  (fun n => (id n, votes_here n)) <$> node_heap w' !! a
  = (fun n => (id n, votes_here n)) <$> node_heap w !! a.
Proof. unfold roll. intros [= _ _ _ _ H]. by rewrite <- !lookup_fmap, H. Qed.

Lemma roll_id w w' a : roll w' = roll w -> node_id_at w' a = node_id_at w a.
Proof.
  intros H%(roll_heap _ _ a). unfold node_id_at.
  destruct (node_heap w' !! a), (node_heap w !! a); cbn in *; congruence.
Qed.

Lemma roll_nodes_wf w w' : roll w' = roll w -> nodes_wf w -> nodes_wf w'.
Proof.
  intros H W. pose proof H as H'. unfold roll in H'. injection H' as H1 H2 _ H3 _.
  apply (nodes_wf_ids w w' W H1 H2 H3). intros a. by apply roll_id.
Qed.

Lemma roll_self_wf w w' : roll w' = roll w -> self_wf w -> self_wf w'.
Proof. unfold roll, self_wf. intros [= -> _ -> _ _]. done. Qed.

Lemma roll_self_id w w' : roll w' = roll w -> self_id w' = self_id w.
Proof.
  intros H. pose proof H as H'. unfold roll in H'. injection H' as _ _ H1 _ _.
  unfold self_id. rewrite H1. destruct (node (srv w)); [|done]. by rewrite (roll_id w w').
Qed.

Lemma roll_voting w w' : roll w' = roll w -> voting_nodes w' = voting_nodes w.
Proof.
  intros H. pose proof H as H'. unfold roll in H'. injection H' as H1 _ _ _ _.
  unfold voting_nodes. rewrite H1. apply list_filter_ext. intros a.
  apply (roll_heap _ _ a) in H. unfold node_sat.
  destruct (node_heap w' !! a), (node_heap w !! a); cbn in *; congruence.
Qed.
End Roll.

(** The check that no entry of the heap is a configuration entry. *)
Section NormalCheck.
Context {T : CTarget} {C : Contiki} {U : User}.
Lemma normal_entries_check w :
  forallb (fun p => negb (raft_entry_is_cfg_change (snd p))) (map_to_list (entry_heap w)) = true ->
  normal_entries w.
Proof.
  intros H p e He. apply elem_of_map_to_list in He. rewrite forallb_forall in H.
  apply (Bool.negb_true_iff (raft_entry_is_cfg_change e)).
  apply (H (p, e)). by apply list_elem_of_In.
Qed.
End NormalCheck.

(** ** Votes are recorded by responses only *)
Section Votes.
Context {T : CTarget} {C : Contiki} {L : ContikiLaws C} {U : User}.

(** The vote of the node in a block is recorded. *)
Definition flagged (w : world) (a : addr) : bool := node_sat w Node.has_vote_for_me a.

(** No vote is recorded that was not recorded before, and a campaign for a later
    term starts with none. *)
Definition fewer (w w' : world) : Prop :=
  normal_entries w -> nodes_wf w ->
  normal_entries w' /\ roll w' = roll w /\
  (forall a, flagged w' a = true -> flagged w a = true) /\
  term_of w <= term_of w' /\
  (term_of w < term_of w' -> forall a, a ∈ nodes_list (srv w') -> flagged w' a = false).

#[export] Instance fewer_preorder : PreOrder fewer.
Proof.
  split; [intros w N W; split_and!; [done..|lia|lia]|].
  intros w1 w2 w3 H1 H2 N1 W1. destruct (H1 N1 W1) as (N2 & E2 & F2 & T2 & S2).
  assert (nodes_wf w2) as W2 by by apply (roll_nodes_wf w1).
  destruct (H2 N2 W2) as (N3 & E3 & F3 & T3 & S3).
  split_and!; [done|congruence|auto|lia|].
  intros Hlt a Ha. destruct (decide (term_of w2 < term_of w3)); [by apply S3|].
  destruct (flagged w3 a) eqn:Hf; [|done]. apply F3 in Hf. rewrite <- Hf.
  apply S2; [lia|]. unfold roll in E3. congruence.
Qed.

Lemma polls_flagged w w' : polls w' = polls w -> forall a, flagged w' a = flagged w a.
Proof.
  unfold polls, tally. intros [= _ _ _ _ _ H] a.
  pose proof (f_equal (lookup a) H) as Ha. rewrite !lookup_fmap in Ha.
  unfold flagged, node_sat. destruct (node_heap w' !! a), (node_heap w !! a); cbn in *; congruence.
Qed.

(** Operations that keep the polls and the term. *)
Lemma fewer_of {A} (m : M world A) : keeps (stays polls) m -> keeps (same term_of) m ->
  keeps fewer m.
Proof.
  intros H1 H2 w a w' Hm N W. destruct (H1 w a w' Hm N) as [N' E].
  specialize (H2 w a w' Hm). unfold same in H2. split_and!; [done| |by intros b; rewrite (polls_flagged w w' E)|lia|lia].
  unfold polls in E. congruence.
Qed.

(** Forgetting all votes. *)
Lemma clear_votes_none w w' : nodes_wf w -> clear_votes w = Ok tt w' ->
  srv w' = srv w /\ entry_heap w' = entry_heap w /\ roll w' = roll w /\
  (forall a, flagged w' a = true -> flagged w a = true) /\
  forall a, a ∈ nodes_list (srv w') -> flagged w' a = false.
Proof.
  intros W H. unfold clear_votes in H. rewrite bind_gets_l in H.
  assert (roll w' = roll w) as HR.
  { pose proof (vote_for_me_roll (C := C) (U := U)) as Hv.
    by run_keeps H (same roll) as K. }
  destruct (clear_votes_run w (nodes_list (srv w)) (nw_nodup _ W) (nw_heap _ W)) as (h & Hr & Hh).
  rewrite Hr in H. injection H as <-. cbn.
  assert (forall n, Node.has_vote_for_me (Node.vote_for_me false n) = false) as Hno.
  { intros n. unfold Node.has_vote_for_me, Node.vote_for_me, RAFT_NODE_VOTED_FOR_ME.
    by rewrite has_clear_flag. }
  split_and!; try done.
  - intros a. unfold flagged, node_sat. cbn [node_heap with_node_heap]. rewrite Hh. case_decide; [|done].
    destruct (node_heap w !! a) as [n|]; [|done]. change (Node.has_vote_for_me (Node.vote_for_me false n) = true -> Node.has_vote_for_me n = true).
    by rewrite Hno.
  - intros a Ha. unfold flagged, node_sat. cbn [node_heap with_node_heap]. rewrite Hh, decide_True by done.
    destruct (node_heap w !! a) as [n|]; [|done]. exact (Hno n).
Qed.

(** Two writes of the server that concern neither nodes nor entries. *)
Lemma keeps_write_leader p :
  keeps (same (fun w => (polls w, entry_heap w))) (upd_srv (with_current_leader p)).
Proof. by apply keeps_same_modify. Qed.
Lemma keeps_write_timeout v :
  keeps (same (fun w => (polls w, entry_heap w))) (upd_srv (with_timeout_elapsed v)).
Proof. by apply keeps_same_modify. Qed.

Lemma raft_become_candidate_fewer : keeps fewer raft_become_candidate.
Proof.
  intros w e w' H N W. pose proof (raft_become_candidate_role _ _ _ H) as HR.
  unfold raft_become_candidate, raft_get_current_term in H.
  run_bind H as u w1 H1. run_keeps H1 (same (fun w => (polls w, entry_heap w))) as K1. run_simp H.
  destruct (int_ok _); [|done]. run_bind H as r w2 H2.
  run_keeps H2 (same (fun w => (polls w, entry_heap w))) as K2. unfold truth in H.
  unfold same in K1, K2. assert (polls w2 = polls w /\ entry_heap w2 = entry_heap w) as [P2 E2]
    by (split; congruence).
  destruct (Z.eqb_spec r 0) as [->|Hr]; cbn [negb] in H.
  - run_bind H as u3 w3 H3. destruct u3.
    assert (roll w2 = roll w) as R2 by (unfold polls in P2; congruence).
    destruct (clear_votes_none w2 w3 ltac:(by apply (roll_nodes_wf w)) H3)
      as (S3 & E3 & R3 & F3 & C3).
    assert (polls w' = polls w3 /\ entry_heap w' = entry_heap w3 /\ e = 0) as (P' & E' & ->).
    { pose proof (keeps_write_leader None) as Hl. pose proof (keeps_write_timeout 0) as Ht.
      run_keeps H (same (fun w => (polls w, entry_heap w))) as K4. unfold same in K4.
      split_and!; [congruence|congruence|]. repeat run_bind H as ? ? ?. by run_ret H. }
    rewrite decide_True in HR by done. destruct HR as [_ HT].
    assert (roll w' = roll w3) as R' by (unfold polls in P'; congruence).
    split_and!; [|congruence| |lia|].
    + unfold normal_entries. rewrite E', E3, E2. exact N.
    + intros a. rewrite (polls_flagged w3 w' P'), <- (polls_flagged w w2 P2). apply F3.
    + intros _ a Ha. rewrite (polls_flagged w3 w' P'). apply C3. unfold roll in R'. congruence.
  - run_ret H. rewrite decide_False in HR by done. unfold role_of in HR.
    assert (term_of w' = term_of w) as HT by congruence.
    split_and!; [|unfold polls in P2; congruence| |lia|lia].
    + unfold normal_entries. rewrite E2. exact N.
    + intros a. by rewrite (polls_flagged w w' P2).
Qed.

Lemma timeout_fewer v : keeps fewer (upd_srv (with_timeout_elapsed v)).
Proof.
  apply fewer_of; [|by apply keeps_same_modify].
  apply stays_of; by apply keeps_same_modify.
Qed.
Lemma send_all_fewer : keeps fewer raft_send_appendentries_all.
Proof. apply fewer_of; [apply stays_of|]; keeps_solve. Qed.
Lemma raft_become_leader_fewer : keeps fewer raft_become_leader.
Proof.
  apply fewer_of.
  - apply raft_become_leader_stays; apply _.
  - keeps_solve.
Qed.
Lemma raft_apply_entry_fewer : keeps fewer raft_apply_entry.
Proof. apply fewer_of; [apply raft_apply_entry_stays; apply _|keeps_solve]. Qed.
Hint Resolve timeout_fewer send_all_fewer raft_become_leader_fewer raft_apply_entry_fewer
  raft_become_candidate_fewer : keeps.

(** Time: votes are forgotten by a campaign and never recorded. *)
Lemma raft_periodic_fewer n : keeps fewer (raft_periodic n).
Proof.
  assert (forall p, keeps fewer (log_msg p)) as Hlog.
  { intros p. apply fewer_of; [apply stays_of|]; keeps_solve. }
  unfold raft_periodic, raft_election_start. unfold_accessors. keeps_solve.
Qed.

(** Recording one vote. *)
Lemma record_vote_flagged p w w' :
  when (bool_decide (is_Some p)) (raft_node_vote_for_me p true) w = Ok tt w' ->
  entry_heap w' = entry_heap w /\ roll w' = roll w /\
  forall a, flagged w' a = true -> flagged w a = true \/ p = Some a.
Proof.
  intros H. destruct p as [b|]; [|injection H as <-; auto].
  change (raft_node_vote_for_me (Some b) true w = Ok tt w') in H.
  split_and!.
  - unfold raft_node_vote_for_me in H. by run_keeps H (same entry_heap) as K.
  - by apply vote_for_me_roll in H.
  - unfold raft_node_vote_for_me, node_write, node_get in H. run_simp H.
    destruct (node_heap w !! b) as [n|] eqn:Hn; [|done]. run_simp H. injection H as <-.
    intros a. unfold flagged, node_sat. cbn [node_heap with_node_heap].
    destruct (decide (b = a)) as [->|Hne]; [by right|]. rewrite lookup_insert_ne by done. auto.
Qed.

(** A response records at most one vote, of the node it came from, for the term
    it grants the vote in. *)
Lemma response_votes p r w e w' :
  raft_recv_requestvote_response p r w = Ok e w' -> normal_entries w ->
  normal_entries w' /\ roll w' = roll w /\
  forall a, flagged w' a = true -> flagged w a = true \/
    (p = Some a /\ rvr_vote_granted r = 1 /\ rvr_term r = term_of w).
Proof.
  intros H N. unfold raft_recv_requestvote_response in H.
  run_bind H as u w1 H1. run_keeps H1 (same term_of) as T1.
  assert (keeps (stays polls) (log_msg p)) as Hlog by (apply stays_of; keeps_solve).
  destruct (Hlog w u w1 H1 N) as [N1 P1].
  assert (roll w1 = roll w) as R1 by (unfold polls in P1; congruence).
  assert (stays polls w1 w' -> normal_entries w' /\ roll w' = roll w /\
    forall a, flagged w' a = true -> flagged w a = true \/
      (p = Some a /\ rvr_vote_granted r = 1 /\ rvr_term r = term_of w)) as Hstay.
  { intros [N' P']; [done|]. split_and!; [done|unfold polls in P'; congruence|].
    intros a. rewrite (polls_flagged w1 w' P'), (polls_flagged w w1 P1). auto. }
  unfold raft_is_candidate, raft_get_state, raft_get_current_term in H. run_simp H.
  assert (forall v, keeps (stays polls) (upd_srv (with_current_leader v))) as Hl.
  { intros v. apply stays_of; by apply keeps_same_modify. }
  destruct (negb (bool_decide _)); [run_ret H; by apply Hstay|].
  destruct (_ <? _); [apply Hstay; by run_keeps H (stays polls) as K|].
  destruct (Z.eqb_spec (current_term (srv w1)) (rvr_term r)) as [Ht|]; cbn [negb] in H;
    [|run_ret H; by apply Hstay].
  destruct (Z.eqb_spec (rvr_vote_granted r) RAFT_REQUESTVOTE_ERR_GRANTED) as [Hg|].
  2: { apply Hstay. unfold raft_node_is_voting in H. by run_keeps H (stays polls) as K. }
  run_bind H as u2 w2 H2. destruct u2. apply record_vote_flagged in H2 as (E2 & R2 & F2).
  assert (normal_entries w2) as N2 by (unfold normal_entries; by rewrite E2).
  assert (keeps (stays polls) raft_become_leader) as Hlead
    by (apply raft_become_leader_stays; apply _).
  run_keeps H (stays polls) as K. destruct (K N2) as [N' P'].
  split_and!; [done|unfold polls in P'; congruence|]. intros a Ha.
  rewrite (polls_flagged w2 w' P') in Ha. destruct (F2 a Ha) as [Hf|Hp].
  - left. by rewrite <- (polls_flagged w w1 P1).
  - right. split_and!; [done|done|]. unfold same in T1. rewrite <- T1. by unfold term_of.
Qed.
End Votes.
