(* ===== verification/Ranges.v ===== *)
(** * The types of the fields: machine integers throughout

    The model keeps the fields of C structures as mathematical integers.  Here
    every field has the range of its C type, and every operation keeps it there:
    [typed] is the typing of a state and [tyr V m] the typing judgement of an
    operation, closed under sequencing, branches and loops.  The user's functions
    are typed too: they are given arguments in range, return an [int], and
    preserve a predicate [P] on the user's data. *)
From S2P Require Import Prelude Contiki Types Node Membership Log Server Election Replication.
From S2P Require Import Sim Frames History NodeFacts.

Section Ranges.
Context {T : CTarget}.

Definition is_int (z : Z) : Prop := INT_MIN <= z <= INT_MAX.
Definition is_uint (z : Z) : Prop := 0 <= z < 2 ^ int_bits.
Definition is_uchar (z : Z) : Prop := 0 <= z < 256.

(** [flags] holds the six bits of raft_node.c. *)
Record node_typed (n : raft_node_private_t) : Prop := {
  nt_next : is_int (next_idx n);
  nt_match : is_int (match_idx n);
  nt_flags : 0 <= flags n < 64;
  nt_id : is_int (id n)
}.

Record entry_typed (e : raft_entry_t) : Prop := {
  et_term : is_uint (ety_term e);
  et_idx : is_uint (ety_idx e);
  et_id : is_uint (ety_id e);
  et_type : is_int (ety_type e);
  et_buf0 : is_uchar (buf0 (ety_data e));
  et_buf1 : is_uchar (buf1 (ety_data e))
}.

(** Messages. *)
Record rv_typed (m : msg_requestvote_t) : Prop := {
  rvt_term : is_int (rv_term m);
  rvt_candidate : is_int (rv_candidate_id m);
  rvt_idx : is_int (rv_last_log_idx m);
  rvt_last : is_int (rv_last_log_term m)
}.
Record rvr_typed (m : msg_requestvote_response_t) : Prop := {
  rvrt_term : is_int (rvr_term m);
  rvrt_granted : is_int (rvr_vote_granted m)
}.
Record ae_typed (m : msg_appendentries_t) : Prop := {
  aet_term : is_int (ae_term m);
  aet_prev : is_int (ae_prev_log_idx m);
  aet_prev_term : is_int (ae_prev_log_term m);
  aet_commit : is_int (ae_leader_commit m);
  aet_n : is_int (ae_n_entries m);
  aet_entries : Forall entry_typed (ae_entries m)
}.
Record aer_typed (m : msg_appendentries_response_t) : Prop := {
  aert_term : is_int (aer_term m);
  aert_success : is_int (aer_success m);
  aert_idx : is_int (aer_current_idx m);
  aert_first : is_int (aer_first_idx m)
}.
Record er_typed (m : msg_entry_response_t) : Prop := {
  ert_id : is_uint (er_id m);
  ert_term : is_int (er_term m);
  ert_idx : is_int (er_idx m)
}.

Record log_typed (l : log_private_t) : Prop := {
  lt_count : is_int (count l);
  lt_base : is_int (base l)
}.

(** ** Conversions and constants *)
Lemma is_int_small z : -32768 <= z <= 32767 -> is_int z.
Proof. unfold is_int. pose proof INT_MAX_ge. pose proof INT_MIN_MAX. lia. Qed.
Lemma is_int_to_int z : is_int (to_int z).
Proof.
  unfold is_int, to_int, INT_MIN, INT_MAX. pose proof int_bits_ge.
  pose proof (Z.mod_pos_bound z (2 ^ int_bits)) as Hb. pose proof int_modulus.
  pose proof (Z.pow_pos_nonneg 2 (int_bits - 1)).
  destruct (Z.ltb_spec (z mod 2 ^ int_bits) (2 ^ (int_bits - 1))); lia.
Qed.
Lemma is_uint_to_uint z : is_uint (to_uint z).
Proof.
  apply Z.mod_pos_bound. pose proof int_bits_ge. by apply Z.pow_pos_nonneg; lia.
Qed.
Lemma to_int_to_uint z : is_int z -> to_int (to_uint z) = z.
Proof.
  unfold is_int, to_int, to_uint, INT_MIN, INT_MAX. intros Hz. pose proof int_modulus as Hm.
  pose proof (Z.pow_pos_nonneg 2 (int_bits - 1)) as Hp. pose proof int_bits_ge.
  rewrite Z.mod_mod by lia. destruct (decide (0 <= z)).
  - rewrite Z.mod_small by lia. destruct (Z.ltb_spec z (2 ^ (int_bits - 1))); lia.
  - rewrite <- (Z.mod_add z 1), Z.mod_small by lia.
    destruct (Z.ltb_spec (z + 1 * 2 ^ int_bits) (2 ^ (int_bits - 1))); lia.
Qed.
Lemma to_uint_to_int z : is_uint z -> to_uint (to_int z) = z.
Proof.
  unfold is_uint, to_int, to_uint. intros Hz. rewrite (Z.mod_small z) by lia.
  destruct (_ <? _); [by rewrite Z.mod_small by lia|].
  rewrite <- (Z.mod_add _ 1), Z.mod_small by lia. lia.
Qed.
Lemma is_int_min a b : is_int a -> is_int b -> is_int (c_min a b).
Proof. unfold c_min. by destruct (a <? b). Qed.
Lemma is_int_max a b : is_int a -> is_int b -> is_int (c_max a b).
Proof. unfold c_max. by destruct (a <? b). Qed.
Lemma is_int_pred a : is_int a -> is_int (a + 1 - 1).
Proof. by rewrite Z.add_simpl_r. Qed.
Lemma is_int_of_bool b : is_int (of_bool b).
Proof. apply is_int_small. destruct b; cbn; lia. Qed.
Lemma is_int_if (b : bool) x y : is_int x -> is_int y -> is_int (if b then x else y).
Proof. by destruct b. Qed.

(** The bits of [flags]. *)
Lemma flags_closed f m : 0 <= f < 64 -> m ∈ [1; 2; 4; 8; 16; 32] ->
  0 <= Z.lor f m < 64 /\ 0 <= Z.land f (Z.lnot m) < 64.
Proof.
  intros Hf Hm. assert (Forall (fun f => Forall (fun m =>
    0 <= Z.lor f m < 64 /\ 0 <= Z.land f (Z.lnot m) < 64) [1; 2; 4; 8; 16; 32]) (seqZ 0 64)) as H
    by (apply (bool_decide_unpack _); vm_compute; exact I).
  rewrite Forall_forall in H. specialize (H f). rewrite Forall_forall in H.
  apply H; [apply elem_of_seqZ; lia|done].
Qed.

Lemma set_flag_typed m n : m ∈ [1; 2; 4; 8; 16; 32] -> node_typed n ->
  node_typed (Node.set_flag m n) /\ node_typed (Node.clear_flag m n).
Proof.
  intros Hm [H1 H2 H3 H4]. destruct (flags_closed _ _ H3 Hm). by split; split.
Qed.

Lemma node_init_typed i : is_int i -> node_typed (Node.init i).
Proof. intros H. split; try done; cbn; try (apply is_int_small; lia). Qed.
End Ranges.

(** ** Typed states *)
Section Typed.
Context {T : CTarget} {C : Contiki} {U : User} (P : udata -> Prop).

(** The result of a user's function. *)
Definition ok_result (r : Z * udata) : Prop := is_int (fst r) /\ P (snd r).

Definition event_typed (o : option func_logentry_event_f) : Prop :=
  forall f, o = Some f -> forall u e i, P u -> entry_typed e -> is_int i -> ok_result (f u e i).

Lemma event_ok o f u e i : event_typed o -> o = Some f -> P u -> entry_typed e -> is_int i ->
  ok_result (f u e i).
Proof. intros H Hf. by apply H. Qed.

Record cbs_typed (c : raft_cbs_t) : Prop := {
  ct_requestvote f : send_requestvote c = Some f ->
    forall u n m, P u -> node_typed n -> rv_typed m -> ok_result (f u n m);
  ct_appendentries f : send_appendentries c = Some f ->
    forall u n m, P u -> node_typed n -> ae_typed m -> ok_result (f u n m);
  ct_snapshot f : send_snapshot c = Some f ->
    forall u n, P u -> node_typed n -> ok_result (f u n);
  ct_applylog : event_typed (applylog c);
  ct_vote f : persist_vote c = Some f -> forall u v, P u -> is_int v -> ok_result (f u v);
  ct_term f : persist_term c = Some f ->
    forall u t v, P u -> is_int t -> is_int v -> ok_result (f u t v);
  ct_offer : event_typed (log_offer c);
  ct_pop : event_typed (log_pop c);
  ct_node_id : event_typed (log_get_node_id c);
  ct_sufficient f : node_has_sufficient_logs c = Some f ->
    forall u n, P u -> node_typed n -> ok_result (f u n);
  ct_message f : log_message c = Some f -> forall u p, P u -> P (f u p)
}.

Record server_typed (s : raft_server_private_t) : Prop := {
  sv_term : is_int (current_term s);
  sv_voted : is_int (voted_for s);
  sv_commit : is_int (commit_idx s);
  sv_applied : is_int (last_applied_idx s);
  sv_elapsed : is_int (timeout_elapsed s);
  sv_num : is_int (num_nodes s);
  sv_timeout : is_int (election_timeout s);
  sv_rand : is_int (election_timeout_rand s);
  sv_request : is_int (request_timeout s);
  sv_cfg : is_int (voting_cfg_change_log_idx s);
  sv_snap : is_int (snapshot_in_progress s);
  sv_snap_idx : is_int (snapshot_last_idx s);
  sv_snap_term : is_int (snapshot_last_term s);
  sv_cbs : cbs_typed (cb s)
}.

(** Every field of every structure in memory is in the range of its type. *)
Record typed (w : world) : Prop := {
  ty_srv : server_typed (srv w);
  ty_log : log_typed (lg w);
  ty_entries : map_Forall (fun _ => entry_typed) (entry_heap w);
  ty_nodes : map_Forall (fun _ => node_typed) (node_heap w);
  ty_user : P (user_data w)
}.

(** [tyr V m]: from a typed state, [m] ends, if it ends, in a typed state with a
    value that satisfies [V]. *)
Definition tyr {A} (V : A -> Prop) (m : M world A) : Prop :=
  forall w a w', typed w -> m w = Ok a w' -> typed w' /\ V a.

Lemma tyr_ret {A} (V : A -> Prop) a : V a -> tyr V (ret a).
Proof. intros H w b w' Hw [= <- <-]. done. Qed.
Lemma tyr_raise {A} (V : A -> Prop) f : tyr V (raise f).
Proof. by intros w b w'. Qed.
Lemma tyr_bind {A B} (V : A -> Prop) (V' : B -> Prop) m k :
  tyr V m -> (forall a, V a -> tyr V' (k a)) -> tyr V' (bind m k).
Proof.
  intros Hm Hk w b w' Hw (a & w1 & H1 & H2)%bind_ok.
  destruct (Hm _ _ _ Hw H1) as [Hw1 Ha]. by eapply (Hk a Ha).
Qed.
Lemma tyr_weaken {A} (V V' : A -> Prop) m : tyr V m -> (forall a, V a -> V' a) -> tyr V' m.
Proof. intros Hm HV w a w' Hw H. destruct (Hm _ _ _ Hw H). auto. Qed.
Lemma tyr_gets {A} (g : world -> A) : tyr (fun a => exists w, typed w /\ a = g w) (gets g).
Proof. intros w a w' Hw [= <- <-]. eauto. Qed.
Lemma tyr_assert b : tyr (fun _ => b = true) (assert_ b).
Proof. destruct b; [by apply tyr_ret|apply tyr_raise]. Qed.
Lemma tyr_int_chk z : tyr (fun a => a = z /\ is_int z) (int_chk z).
Proof.
  unfold int_chk. destruct (int_ok z) eqn:H; [|apply tyr_raise].
  apply tyr_ret. by apply int_ok_iff in H.
Qed.
Lemma tyr_when b m : tyr (fun _ => True) m -> tyr (fun _ => True) (when b m).
Proof. destruct b; [done|]. intros _. by apply tyr_ret. Qed.
Lemma tyr_readonly {A} (m : M world A) : readonly m -> tyr (fun _ => True) m.
Proof. intros H w a w' Hw Hm. by rewrite <- (H _ _ _ Hm). Qed.

Lemma tyr_foreach_in {X} (l : list X) f :
  Forall (fun x => tyr (fun _ => True) (f x)) l -> tyr (fun _ => True) (foreach l f).
Proof. induction 1 as [|x l Hx _ IH]; [by apply tyr_ret|]. by eapply tyr_bind. Qed.
Lemma tyr_foreach {X} (l : list X) f :
  (forall x, tyr (fun _ => True) (f x)) -> tyr (fun _ => True) (foreach l f).
Proof. intros H. apply tyr_foreach_in, Forall_forall. auto. Qed.
Lemma tyr_foreach_ret {X R} (l : list X) (f : X -> M world (option R)) :
  (forall x, tyr (fun _ => True) (f x)) -> tyr (fun _ => True) (foreach_ret l f).
Proof.
  intros H. induction l as [|x l IH]; [by apply tyr_ret|].
  eapply tyr_bind; [apply H|]. intros [y|] _; [by apply tyr_ret|done].
Qed.
Lemma tyr_find_first {X} (l : list X) f :
  (forall x, tyr (fun _ => True) (f x)) -> tyr (fun _ => True) (find_first l f).
Proof.
  intros H. induction l as [|x l IH]; [by apply tyr_ret|].
  eapply tyr_bind; [apply H|]. intros [] _; [by apply tyr_ret|done].
Qed.
Lemma tyr_count_from {X} (l : list X) f n :
  (forall x, tyr (fun _ => True) (f x)) -> tyr (fun _ => True) (count_from n l f).
Proof.
  intros H. revert n. induction l as [|x l IH]; intros n; [by apply tyr_ret|].
  eapply tyr_bind; [apply H|]. intros b _. apply IH.
Qed.

(** *** Memory *)
Lemma tyr_upd_srv g : (forall s, server_typed s -> server_typed (g s)) ->
  tyr (fun _ => True) (upd_srv g).
Proof. intros H w a w' [] [= <- <-]. split; [split; cbn; auto|done]. Qed.
Lemma tyr_upd_lg g : (forall l, log_typed l -> log_typed (g l)) -> tyr (fun _ => True) (upd_lg g).
Proof. intros H w a w' [] [= <- <-]. split; [split; cbn; auto|done]. Qed.
Lemma tyr_modify g : (forall w, typed w -> typed (g w)) -> tyr (fun _ => True) (modify g).
Proof. intros H w a w' Hw [= <- <-]. auto. Qed.

Lemma node_get_tyr p : tyr node_typed (node_get p).
Proof.
  destruct p as [a|]; [|apply tyr_raise]. eapply tyr_bind; [apply tyr_gets|].
  intros h (w & Hw & ->). destruct (node_heap w !! a) as [n|] eqn:Hn; [|apply tyr_raise].
  apply tyr_ret. by eapply (ty_nodes _ Hw).
Qed.
Lemma entry_get_tyr p : tyr entry_typed (entry_get p).
Proof.
  destruct p as [a|]; [|apply tyr_raise]. eapply tyr_bind; [apply tyr_gets|].
  intros h (w & Hw & ->). destruct (entry_heap w !! a) as [n|] eqn:Hn; [|apply tyr_raise].
  apply tyr_ret. by eapply (ty_entries _ Hw).
Qed.
Lemma node_put_tyr p n : node_typed n -> tyr (fun _ => True) (node_put p n).
Proof.
  intros Hn. destruct p as [a|]; [|apply tyr_raise]. apply tyr_modify. intros w [].
  split; cbn; try done. by apply map_Forall_insert_2.
Qed.
Lemma node_read_tyr {A} (g : _ -> A) p :
  tyr (fun a => exists n, node_typed n /\ a = g n) (node_read g p).
Proof. eapply tyr_bind; [apply node_get_tyr|]. intros n Hn. apply tyr_ret. eauto. Qed.
Lemma node_write_tyr g p : (forall n, node_typed n -> node_typed (g n)) ->
  tyr (fun _ => True) (node_write g p).
Proof. intros H. eapply tyr_bind; [apply node_get_tyr|]. intros n Hn. by apply node_put_tyr, H. Qed.
Lemma non_null_tyr {A} (o : option A) : tyr (fun f => o = Some f) (non_null o : M world A).
Proof. destruct o; [by apply tyr_ret|apply tyr_raise]. Qed.

Lemma call_tyr f : (forall u, P u -> ok_result (f u)) -> tyr is_int (call f).
Proof.
  intros H w a w' [] Hc. unfold call in Hc. run_simp Hc. run_ret Hc.
  destruct (H (user_data w)) as [H1 H2]; [done|]. split; [by split|done].
Qed.
Lemma call_node_tyr f p : (forall u n, P u -> node_typed n -> ok_result (f u n)) ->
  tyr is_int (call_node f p).
Proof.
  intros H. eapply tyr_bind; [apply node_get_tyr|]. intros n Hn. apply call_tyr. auto.
Qed.
End Typed.

Create HintDb ty discriminated.
#[export] Hint Resolve is_int_to_int is_uint_to_uint is_int_min is_int_max is_int_pred
  is_int_of_bool   is_int_if nt_next nt_match nt_id et_term et_idx et_id et_type rvt_term rvt_candidate rvt_idx
  rvt_last rvrt_term rvrt_granted aet_term aet_prev aet_prev_term aet_commit aet_n aet_entries
  aert_term aert_success aert_idx aert_first lt_count lt_base node_init_typed : ty.
#[export] Hint Resolve sv_term sv_voted sv_commit sv_applied sv_elapsed sv_num sv_timeout sv_rand
  sv_request sv_cfg sv_snap sv_snap_idx sv_snap_term sv_cbs ty_srv ty_log : ty.
#[export] Hint Resolve ct_requestvote ct_appendentries ct_snapshot ct_applylog ct_vote ct_term
  ct_offer ct_pop ct_node_id ct_sufficient event_ok : ty.
#[export] Hint Resolve tyr_gets tyr_assert tyr_int_chk node_get_tyr entry_get_tyr node_read_tyr
  non_null_tyr : ty.
#[export] Hint Constructors Forall : ty.
#[export] Hint Extern 3 (map_Forall _ (<[_ := _]> _)) => apply map_Forall_insert_2 : ty.
#[export] Hint Extern 1 (is_int _) => assumption : ty.
#[export] Hint Extern 4 (is_int _) => (apply is_int_small; split; apply Z.leb_le; reflexivity) : ty.
#[export] Hint Extern 2 (rv_typed _) => split; cbn : ty.
#[export] Hint Extern 2 (rvr_typed _) => split; cbn : ty.
#[export] Hint Extern 2 (ae_typed _) => split; cbn : ty.
#[export] Hint Extern 2 (aer_typed _) => split; cbn : ty.
#[export] Hint Extern 2 (er_typed _) => split; cbn : ty.

(** [ty_solve] proves a typing judgement by the structure of the operation.  A
    value that was read is replaced by what it reads. *)
Ltac ty_norm :=
  cbv beta in *; repeat match goal with
  | H : exists _, _ |- _ => destruct H
  | H : _ /\ _ |- _ => destruct H
  | H : True |- _ => clear H
  | H : ?x = _ |- _ => is_var x; subst x
  end.
Ltac ty_done :=
  cbv beta; repeat match goal with |- _ /\ _ => split end; cbn [fst snd];
  first [exact I | solve [eauto 16 with ty]].
Ltac ty_leaf :=
  first
    [ solve [eauto 6 with ty]
    | apply call_tyr; intros; ty_done
    | apply call_node_tyr; intros; ty_done
    | apply tyr_readonly; unfold_accessors; solve [eauto 4 with keeps] ].
Ltac ty_update :=
  match goal with
  | |- tyr _ _ (upd_srv _) =>
      apply tyr_upd_srv; let s := fresh "s" in intros s []; split; cbn; eauto with ty
  | |- tyr _ _ (upd_lg _) =>
      apply tyr_upd_lg; let l := fresh "l" in intros l []; split; cbn; eauto with ty
  | |- tyr _ _ (modify _) =>
      apply tyr_modify; let w := fresh "w" in intros w []; split; cbn; eauto with ty
  end.
Ltac ty_step :=
  match goal with
  | |- tyr _ _ (bind _ _) =>
      first [ eapply tyr_bind; [solve [ty_leaf]|intros ? ?; ty_norm]
            | apply (tyr_bind _ (fun _ => True)); [|intros ? _] ]
  | |- tyr _ _ (ret _) => apply tyr_ret; ty_done
  | |- tyr _ _ (raise _) => apply tyr_raise
  | |- tyr _ _ (let '(_, _) := ?x in _) => destruct x; cbn [fst snd] in *
  | |- tyr _ _ (match ?x with _ => _ end) => destruct x eqn:?
  | |- tyr _ _ (when _ _) => apply tyr_when
  | |- tyr _ _ (foreach _ _) => apply tyr_foreach; intros ?
  | |- tyr _ _ (foreach_ret _ _) => apply tyr_foreach_ret; intros ?
  | |- tyr _ _ (find_first _ _) => apply tyr_find_first; intros ?
  | |- tyr _ _ (count_from _ _ _) => apply tyr_count_from; intros ?
  | |- tyr _ _ _ => progress ty_update
  | |- tyr _ _ _ => solve [eapply tyr_weaken; [ty_leaf|intros; ty_norm; ty_done]]
  end.
Ltac ty_solve := repeat ty_step.

(** ** The operations *)
Section Operations.
Context {T : CTarget} {C : Contiki} {L : ContikiLaws C} {U : User} (P : udata -> Prop).
Abbreviation tyr := (tyr P).
Abbreviation any := (fun _ => True).

(** *** Reading *)
Lemma log_get_current_idx_tyr : tyr is_int log_get_current_idx.
Proof. unfold log_get_current_idx, log_count. ty_solve. Qed.
#[local] Hint Resolve log_get_current_idx_tyr : ty.
Lemma raft_get_nodeid_tyr : tyr is_int raft_get_nodeid.
Proof. unfold raft_get_nodeid, raft_node_get_id. ty_solve. Qed.
#[local] Hint Resolve raft_get_nodeid_tyr : ty.
Lemma log_get_from_idx_tyr i : tyr (fun x => is_int (snd x)) (log_get_from_idx i).
Proof. unfold log_get_from_idx. ty_solve. Qed.
Lemma read_entries_tyr l : tyr (Forall entry_typed) (read_entries l).
Proof. induction l as [|x l IH]; cbn [read_entries]; ty_solve. Qed.
#[local] Hint Resolve log_get_from_idx_tyr read_entries_tyr : ty.
Lemma log_chain_tyr p : tyr (Forall entry_typed) (log_chain p).
Proof. unfold log_chain. ty_solve. Qed.
Lemma raft_get_last_log_term_tyr : tyr is_int raft_get_last_log_term.
Proof. unfold raft_get_last_log_term. unfold_accessors. ty_solve. Qed.
Lemma prev_log_tyr i : tyr (fun x => is_int (fst x) /\ is_int (snd x)) (prev_log i).
Proof. unfold prev_log. unfold_accessors. ty_solve. Qed.
#[local] Hint Resolve log_chain_tyr raft_get_last_log_term_tyr prev_log_tyr : ty.

(** *** Nodes *)
Lemma set_next_idx_tyr p i : is_int i -> tyr any (raft_node_set_next_idx p i).
Proof. intros Hi. apply node_write_tyr. intros n []. split; cbn; eauto with ty. Qed.
Lemma set_match_idx_tyr p i : is_int i -> tyr any (raft_node_set_match_idx p i).
Proof. intros Hi. apply node_write_tyr. intros n []. by split. Qed.
Lemma node_flag_tyr m p (b : bool) : m ∈ [1; 2; 4; 8; 16; 32] ->
  tyr any (node_write (fun n => if b then Node.set_flag m n else Node.clear_flag m n) p).
Proof.
  intros Hm. apply node_write_tyr. intros n Hn. destruct (set_flag_typed m n Hm Hn). by destruct b.
Qed.
Lemma vote_for_me_tyr p b : tyr any (raft_node_vote_for_me p b).
Proof. apply (node_flag_tyr 1). set_solver. Qed.
Lemma set_sufficient_tyr p : tyr any (raft_node_set_has_sufficient_logs p).
Proof. apply (node_flag_tyr 4 p true). set_solver. Qed.
Lemma set_active_tyr p b : tyr any (raft_node_set_active p b).
Proof.
  pose proof (node_flag_tyr 8 p (negb b)) as H. unfold raft_node_set_active, Node.set_active.
  apply H. set_solver.
Qed.
Lemma set_voting_committed_tyr p b : tyr any (raft_node_set_voting_committed p b).
Proof. apply (node_flag_tyr 16). set_solver. Qed.
Lemma set_addition_committed_tyr p b : tyr any (raft_node_set_addition_committed p b).
Proof. apply (node_flag_tyr 32). set_solver. Qed.
Lemma set_voting_tyr p b : tyr any (raft_node_set_voting p b).
Proof.
  eapply tyr_bind; [apply node_get_tyr|]. intros n Hn.
  destruct (set_flag_typed 2 n ltac:(set_solver) Hn). unfold Node.set_voting.
  destruct b, (Node.is_voting n); (apply tyr_raise || by apply node_put_tyr).
Qed.
#[local] Hint Resolve set_next_idx_tyr set_match_idx_tyr vote_for_me_tyr set_sufficient_tyr
  set_active_tyr set_voting_committed_tyr set_addition_committed_tyr set_voting_tyr : ty.

(** *** The list of nodes *)
Lemma raft_node_new_tyr i : is_int i -> tyr any (raft_node_new i).
Proof. intros Hi. unfold raft_node_new. ty_solve. apply node_put_tyr; auto with ty. Qed.
#[local] Hint Resolve raft_node_new_tyr : ty.
Lemma raft_add_node_tyr i b : is_int i -> tyr any (raft_add_node i b).
Proof. intros Hi. unfold raft_add_node. unfold_accessors. ty_solve. Qed.
#[local] Hint Resolve raft_add_node_tyr : ty.
Lemma raft_add_non_voting_node_tyr i b : is_int i -> tyr any (raft_add_non_voting_node i b).
Proof. intros Hi. unfold raft_add_non_voting_node. ty_solve. Qed.
Lemma raft_remove_node_tyr p : tyr any (raft_remove_node p).
Proof. unfold raft_remove_node, raft_node_free. ty_solve. Qed.
Lemma call_log_get_node_id_tyr e i : entry_typed e -> is_int i ->
  tyr is_int (call_log_get_node_id e i).
Proof. intros He Hi. unfold call_log_get_node_id. ty_solve. Qed.
#[local] Hint Resolve raft_add_non_voting_node_tyr raft_remove_node_tyr
  call_log_get_node_id_tyr : ty.
Lemma raft_offer_log_tyr p i : is_int i -> tyr any (raft_offer_log p i).
Proof. intros Hi. unfold raft_offer_log. unfold_accessors. ty_solve. Qed.
Lemma raft_pop_log_tyr p i : is_int i -> tyr any (raft_pop_log p i).
Proof. intros Hi. unfold raft_pop_log. unfold_accessors. ty_solve. Qed.
#[local] Hint Resolve raft_offer_log_tyr raft_pop_log_tyr : ty.

(** *** The log *)
Lemma log_make_room_tyr : tyr any log_make_room.
Proof. unfold log_make_room. ty_solve. Qed.
Lemma log_notify_offer_tyr a e i : entry_typed e -> is_int i ->
  tyr any (log_notify_offer a e i).
Proof. intros He Hi. unfold log_notify_offer. unfold_accessors. ty_solve. Qed.
#[local] Hint Resolve log_make_room_tyr log_notify_offer_tyr : ty.
Lemma with_ety_idx_typed e i : entry_typed e -> is_uint i -> entry_typed (with_ety_idx i e).
Proof. by intros []; split. Qed.
Lemma with_ety_term_typed e t : entry_typed e -> is_uint t -> entry_typed (with_ety_term t e).
Proof. by intros []; split. Qed.
#[local] Hint Resolve with_ety_idx_typed with_ety_term_typed : ty.
Lemma log_append_entry_tyr e : entry_typed e ->
  tyr (fun r => entry_typed (snd r)) (log_append_entry e).
Proof.
  intros He. unfold log_append_entry. ty_solve.
Qed.
Lemma log_delete_tyr i : is_int i -> tyr any (log_delete i).
Proof. intros Hi. unfold log_delete. unfold_accessors. ty_solve. Qed.
#[local] Hint Resolve log_append_entry_tyr log_delete_tyr : ty.
Lemma raft_append_entry_tyr e : entry_typed e ->
  tyr (fun r => entry_typed (snd r)) (raft_append_entry e).
Proof. intros He. unfold raft_append_entry. unfold_accessors. ty_solve. Qed.
Lemma raft_delete_entry_from_idx_tyr i : is_int i -> tyr any (raft_delete_entry_from_idx i).
Proof. intros Hi. unfold raft_delete_entry_from_idx. ty_solve. Qed.
#[local] Hint Resolve raft_append_entry_tyr raft_delete_entry_from_idx_tyr : ty.

(** *** The server *)
Lemma log_msg_tyr p : tyr any (log_msg p).
Proof.
  eapply tyr_bind; [apply tyr_gets|]. intros s (w & Hw & ->).
  destruct (log_message (cb (srv w))) as [f|] eqn:Hf; [|by apply tyr_ret].
  apply tyr_modify. intros w' []. split; try done. eapply (ct_message P (cb (srv w))); eauto with ty.
Qed.
#[local] Hint Resolve log_msg_tyr : ty.
Lemma random_timeout_tyr t r : tyr is_int (random_timeout t r).
Proof. unfold random_timeout. ty_solve. Qed.
#[local] Hint Resolve random_timeout_tyr : ty.
Lemma raft_randomize_election_timeout_tyr : tyr any raft_randomize_election_timeout.
Proof. unfold raft_randomize_election_timeout. ty_solve. Qed.
Lemma raft_set_current_term_tyr t : is_int t -> tyr any (raft_set_current_term t).
Proof. intros Ht. unfold raft_set_current_term. ty_solve. Qed.
Lemma raft_set_commit_idx_tyr i : is_int i -> tyr any (raft_set_commit_idx i).
Proof. intros Hi. unfold raft_set_commit_idx. unfold_accessors. ty_solve. Qed.
Lemma raft_set_state_tyr st : tyr any (raft_set_state st).
Proof. unfold raft_set_state. ty_solve. Qed.
Lemma raft_vote_for_nodeid_tyr i : is_int i -> tyr any (raft_vote_for_nodeid i).
Proof. intros Hi. unfold raft_vote_for_nodeid. ty_solve. Qed.
#[local] Hint Resolve raft_randomize_election_timeout_tyr raft_set_current_term_tyr
  raft_set_commit_idx_tyr raft_set_state_tyr raft_vote_for_nodeid_tyr : ty.
Lemma raft_vote_tyr p : tyr any (raft_vote p).
Proof. unfold raft_vote. unfold_accessors. ty_solve. Qed.
#[local] Hint Resolve raft_vote_tyr : ty.

(** *** Elections *)
Lemma raft_send_requestvote_tyr p : tyr any (raft_send_requestvote p).
Proof. unfold raft_send_requestvote. unfold_accessors. ty_solve. Qed.
Lemma raft_send_appendentries_tyr p : tyr any (raft_send_appendentries p).
Proof. unfold raft_send_appendentries. unfold_accessors. ty_solve. Qed.
#[local] Hint Resolve raft_send_requestvote_tyr raft_send_appendentries_tyr : ty.
Lemma raft_send_appendentries_all_tyr : tyr any raft_send_appendentries_all.
Proof. unfold raft_send_appendentries_all. unfold_accessors. ty_solve. Qed.
Lemma raft_become_leader_tyr : tyr any raft_become_leader.
Proof. unfold raft_become_leader. unfold_accessors. ty_solve. Qed.
Lemma raft_become_follower_tyr : tyr any raft_become_follower.
Proof. unfold raft_become_follower. ty_solve. Qed.
Lemma request_votes_tyr : tyr any request_votes.
Proof. unfold request_votes. unfold_accessors. ty_solve. Qed.
Lemma clear_votes_tyr : tyr any clear_votes.
Proof. unfold clear_votes. ty_solve. Qed.
#[local] Hint Resolve raft_send_appendentries_all_tyr raft_become_leader_tyr
  raft_become_follower_tyr request_votes_tyr clear_votes_tyr : ty.
Lemma raft_become_candidate_tyr : tyr any raft_become_candidate.
Proof. unfold raft_become_candidate. unfold_accessors. ty_solve. Qed.
#[local] Hint Resolve raft_become_candidate_tyr : ty.
Lemma raft_election_start_tyr : tyr any raft_election_start.
Proof. unfold raft_election_start. unfold_accessors. ty_solve. Qed.
Lemma recv_requestvote_done_tyr p e v : is_int v ->
  tyr (fun x => rvr_typed (snd x)) (recv_requestvote_done p e v).
Proof. intros Hv. unfold recv_requestvote_done. unfold_accessors. ty_solve. Qed.
#[local] Hint Resolve raft_election_start_tyr recv_requestvote_done_tyr : ty.
Lemma recv_requestvote_decide_tyr p vr : rv_typed vr ->
  tyr (fun x => rvr_typed (snd x)) (recv_requestvote_decide p vr).
Proof. intros Hv. unfold recv_requestvote_decide. unfold_accessors. ty_solve. Qed.
#[local] Hint Resolve recv_requestvote_decide_tyr : ty.
Lemma raft_recv_requestvote_tyr p vr : rv_typed vr ->
  tyr (fun x => rvr_typed (snd x)) (raft_recv_requestvote p vr).
Proof. intros Hv. unfold raft_recv_requestvote. unfold_accessors. ty_solve. Qed.
Lemma raft_recv_requestvote_response_tyr p r : rvr_typed r ->
  tyr any (raft_recv_requestvote_response p r).
Proof. intros Hv. unfold raft_recv_requestvote_response. unfold_accessors. ty_solve. Qed.
#[local] Hint Resolve raft_recv_requestvote_tyr raft_recv_requestvote_response_tyr : ty.

(** *** Appendentries *)
Lemma recv_ae_out_tyr ae e s c : ae_typed ae -> is_int s -> is_int c ->
  tyr (fun x => aer_typed (snd x)) (recv_ae_out ae e s c).
Proof.
  intros Ha Hs Hc. unfold recv_ae_out. unfold_accessors.
  eapply tyr_bind; [apply tyr_gets|]. intros t (w & Hw & ->).
  apply (tyr_bind _ is_int); [destruct (s =? 0); ty_solve|]. intros ci Hci. ty_solve.
Qed.
Lemma ae_index_tyr ae i : tyr is_int (ae_index ae i).
Proof. unfold ae_index. ty_solve. Qed.
Lemma recv_ae_commit_tyr ae : ae_typed ae -> tyr any (recv_ae_commit ae).
Proof. intros Ha. unfold recv_ae_commit. unfold_accessors. ty_solve. Qed.
#[local] Hint Resolve recv_ae_out_tyr ae_index_tyr recv_ae_commit_tyr : ty.

(** What the loops leave: entries of the message, and an index. *)
Definition flow_typed (f : ae_flow) : Prop :=
  match f with
  | GotoOut _ c => is_int c
  | Next _ es c => Forall entry_typed es /\ is_int c
  end.

Lemma recv_ae_match_tyr ae n i es c : Forall entry_typed es -> is_int c ->
  tyr flow_typed (recv_ae_match ae n i es c).
Proof.
  revert i es c. induction n as [|n IH]; intros i es c He Hc; cbn [recv_ae_match].
  { by apply tyr_ret. }
  eapply tyr_bind; [apply ae_index_tyr|]. intros j Hj. unfold_accessors.
  apply (tyr_bind _ any); [ty_solve|]. intros [a|] _; [|by apply tyr_ret].
  eapply tyr_bind; [apply entry_get_tyr|]. intros x Hx. destruct He as [|y es Hy He].
  { apply tyr_raise. }
  eapply tyr_bind; [apply tyr_gets|]. intros me _. destruct (_ && _); [|by apply IH].
  eapply tyr_bind; [by apply raft_delete_entry_from_idx_tyr|]. intros e _. apply tyr_ret.
  destruct (truth e); [done|]. split; [by constructor|done].
Qed.

Lemma recv_ae_append_tyr ae n i es c : Forall entry_typed es -> is_int c ->
  tyr flow_typed (recv_ae_append ae n i es c).
Proof.
  revert i es c. induction n as [|n IH]; intros i es c He Hc; cbn [recv_ae_append].
  { by apply tyr_ret. }
  destruct He as [|y es Hy He]; [by apply tyr_ret|].
  eapply tyr_bind; [by apply raft_append_entry_tyr|]. intros [e ?] _.
  destruct (truth e); [by apply tyr_ret|].
  eapply tyr_bind; [apply ae_index_tyr|]. intros j Hj. by apply IH.
Qed.

Lemma recv_ae_entries_tyr ae : ae_typed ae ->
  tyr (fun x => aer_typed (snd x)) (recv_ae_entries ae).
Proof.
  intros Ha. unfold recv_ae_entries.
  eapply tyr_bind; [apply recv_ae_match_tyr; eauto with ty|].
  intros [e c|i es c] Hf; [ty_solve|]. destruct Hf as [He Hc].
  eapply tyr_bind; [apply recv_ae_append_tyr; eauto with ty|].
  intros [e c'|i' es' c'] Hf; [ty_solve|]. destruct Hf as [_ Hc']. ty_solve.
Qed.
#[local] Hint Resolve recv_ae_entries_tyr : ty.
Lemma recv_ae_prev_tyr p ae : ae_typed ae ->
  tyr (fun x => aer_typed (snd x)) (recv_ae_prev p ae).
Proof. intros Ha. unfold recv_ae_prev. unfold_accessors. ty_solve. Qed.
#[local] Hint Resolve recv_ae_prev_tyr : ty.
Lemma raft_recv_appendentries_tyr p ae : ae_typed ae ->
  tyr (fun x => aer_typed (snd x)) (raft_recv_appendentries p ae).
Proof. intros Ha. unfold raft_recv_appendentries. unfold_accessors. ty_solve. Qed.

Lemma update_commit_tyr i : is_int i -> tyr any (update_commit i).
Proof. intros Hi. unfold update_commit, replicates. unfold_accessors. ty_solve. Qed.
Lemma check_sufficient_logs_tyr p r : tyr any (check_sufficient_logs p r).
Proof. unfold check_sufficient_logs. unfold_accessors. ty_solve. Qed.
#[local] Hint Resolve update_commit_tyr check_sufficient_logs_tyr : ty.
Lemma raft_recv_appendentries_response_tyr p r : aer_typed r ->
  tyr any (raft_recv_appendentries_response p r).
Proof.
  intros Hr. unfold raft_recv_appendentries_response, recv_aer_success, recv_aer_failure.
  unfold_accessors. ty_solve.
Qed.

(** *** Clients, application, time *)
Lemma send_new_entry_tyr : tyr any send_new_entry.
Proof. unfold send_new_entry. unfold_accessors. ty_solve. Qed.
#[local] Hint Resolve send_new_entry_tyr : ty.
Lemma raft_recv_entry_tyr e : entry_typed e ->
  tyr (fun x => entry_typed (snd (fst x)) /\ match snd x with Some r => er_typed r | None => True end)
    (raft_recv_entry e).
Proof. intros He. unfold raft_recv_entry. unfold_accessors. ty_solve. Qed.
Lemma apply_cfg_change_tyr e i p : tyr any (apply_cfg_change e i p).
Proof. unfold apply_cfg_change. ty_solve. Qed.
#[local] Hint Resolve apply_cfg_change_tyr : ty.
Lemma raft_apply_entry_tyr : tyr any raft_apply_entry.
Proof. unfold raft_apply_entry. unfold_accessors. ty_solve. Qed.
#[local] Hint Resolve raft_apply_entry_tyr : ty.
Lemma apply_all_loop_tyr n : tyr any (apply_all_loop n).
Proof. induction n as [|n IH]; cbn [apply_all_loop]; unfold_accessors; ty_solve. Qed.
#[local] Hint Resolve apply_all_loop_tyr : ty.
Lemma raft_apply_all_tyr : tyr any raft_apply_all.
Proof. unfold raft_apply_all. unfold_accessors. ty_solve. Qed.
Lemma raft_periodic_tyr n : tyr any (raft_periodic n).
Proof. unfold raft_periodic. unfold_accessors. ty_solve. Qed.
#[local] Hint Resolve raft_recv_appendentries_tyr raft_recv_appendentries_response_tyr
  raft_recv_entry_tyr raft_apply_all_tyr raft_periodic_tyr : ty.

(** *** Construction *)
Lemma log_clear_loop_tyr n : tyr any (log_clear_loop n).
Proof. induction n as [|n IH]; cbn [log_clear_loop]; ty_solve. Qed.
#[local] Hint Resolve log_clear_loop_tyr : ty.
Lemma raft_clear_tyr : tyr any raft_clear.
Proof. unfold raft_clear, log_clear. ty_solve. Qed.

(** Memory before the server is created. *)
Record memory_typed (w : world) : Prop := {
  mt_log : log_typed (lg w);
  mt_entries : map_Forall (fun _ => entry_typed) (entry_heap w);
  mt_nodes : map_Forall (fun _ => node_typed) (node_heap w);
  mt_user : P (user_data w)
}.

Lemma zero_server_typed l : server_typed P (with_nodes_list l zero_server).
Proof. split; cbn; try (apply is_int_small; lia). by split. Qed.

Lemma raft_new_typed w u w' : memory_typed w -> raft_new w = Ok u w' -> typed P w'.
Proof.
  intros [] H. unfold raft_new in H. rewrite bind_upd_srv_l in H.
  refine (proj1 (_ : typed P w' /\ any u)). revert H. set (w0 := with_srv _ w).
  assert (typed P w0) as Hw0 by (split; try done; apply zero_server_typed).
  generalize dependent w0. intros w0 Hw0 H. revert w0 u w' Hw0 H.
  match goal with |- forall w0 u w', _ -> ?m w0 = _ -> _ => change (tyr any m) end.
  unfold raft_set_snapshot_metadata, log_new, log_alloc. ty_solve.
Qed.
Lemma raft_set_callbacks_tyr cbs u : cbs_typed P cbs -> P u -> tyr any (raft_set_callbacks cbs u).
Proof. intros Hc Hu. unfold raft_set_callbacks, log_set_callbacks. ty_solve. Qed.

(** ** The interface *)
Definition op_typed (o : raft_op) : Prop :=
  match o with
  | OpPeriodic _ | OpApplyAll => True
  | OpRecvAppendentries _ ae => ae_typed ae
  | OpRecvAppendentriesResponse _ r => aer_typed r
  | OpRecvRequestvote _ vr => rv_typed vr
  | OpRecvRequestvoteResponse _ r => rvr_typed r
  | OpRecvEntry e => entry_typed e
  end.

Lemma run_op_tyr o : op_typed o -> tyr any (run_op o).
Proof. destruct o; cbn; intros Ho; ty_solve. Qed.

Lemma run_ops_tyr os : Forall op_typed os -> tyr any (run_ops os).
Proof. intros H. eapply tyr_foreach_in, Forall_impl; [exact H|apply run_op_tyr]. Qed.

(** Every field has the range of its C type at all times.  From a state in
    which the fields of the server, of the log, of the nodes and of the entries
    are in range, any sequence of calls with arguments in range ends in such a
    state, gives the user's functions arguments in range only (a property of the
    user's data they preserve for such arguments still holds), and the responses
    the next call gives are in range; so does clearing the server. *)
Theorem operations_typed os w u w' :
  typed P w -> Forall op_typed os -> run_ops os w = Ok u w' ->
  typed P w' /\
  (forall p vr e r w'', rv_typed vr -> raft_recv_requestvote p vr w' = Ok (e, r) w'' ->
    rvr_typed r) /\
  (forall p ae e r w'', ae_typed ae -> raft_recv_appendentries p ae w' = Ok (e, r) w'' ->
    aer_typed r) /\
  (forall ety e ety' r w'', entry_typed ety -> raft_recv_entry ety w' = Ok (e, ety', Some r) w'' ->
    entry_typed ety' /\ er_typed r) /\
  (forall u' w'', raft_clear w' = Ok u' w'' -> typed P w'').
Proof.
  intros Hw Hos H. destruct (run_ops_tyr os Hos _ _ _ Hw H) as [Hw' _]. split_and!; [done|..].
  - intros p vr e r w'' Hv Hr. by destruct (raft_recv_requestvote_tyr p vr Hv _ _ _ Hw' Hr).
  - intros p ae e r w'' Hv Hr. by destruct (raft_recv_appendentries_tyr p ae Hv _ _ _ Hw' Hr).
  - intros ety e ety' r w'' Hv Hr. by destruct (raft_recv_entry_tyr ety Hv _ _ _ Hw' Hr).
  - intros u' w'' Hr. by destruct (raft_clear_tyr _ _ _ Hw' Hr).
Qed.
End Operations.
#[export] Hint Resolve log_msg_tyr raft_get_nodeid_tyr raft_add_node_tyr raft_recv_requestvote_tyr
  raft_recv_requestvote_response_tyr raft_recv_appendentries_tyr
  raft_recv_appendentries_response_tyr raft_recv_entry_tyr raft_periodic_tyr
  raft_randomize_election_timeout_tyr : ty.

(** ** Witness *)

(** Every message and value the callbacks of [Sim.v] recorded is in range. *)
Definition sim_event_typed (e : sim_event) : Prop :=
  match e with
  | EvRequestVote i m => is_int i /\ rv_typed m
  | EvAppendEntries i m => is_int i /\ ae_typed m
  | EvPersistVote v => is_int v
  | EvPersistTerm t v => is_int t /\ is_int v
  | EvApply i e | EvOffer i e | EvPop i e => is_int i /\ entry_typed e
  end.
Definition sim_trace_typed : udata -> Prop := Forall sim_event_typed.

Lemma sim_record_ok e (u : list sim_event) : sim_trace_typed u -> sim_event_typed e ->
  ok_result sim_trace_typed (sim_record e u).
Proof. intros Hu He. split; [apply is_int_small; cbn; lia|]. apply Forall_app. by repeat constructor. Qed.

Lemma sim_cbs_typed : cbs_typed sim_trace_typed sim_cbs.
Proof.
  split; try (intros ? [= <-] **; apply sim_record_ok; [done|]; cbn; try split; done || by apply nt_id).
  - done.
  - intros f [= <-] u v Hu Hv. by apply sim_record_ok.
  - intros f [= <-] u e i Hu He Hi. split; [|done]. cbn. destruct (et_buf0 _ He).
    apply is_int_small. lia.
  - done.
  - done.
Qed.

Lemma sim_start_typed cbs i others w0 w : memory_typed sim_trace_typed w0 ->
  cbs_typed sim_trace_typed cbs -> is_int i -> Forall is_int others ->
  sim_start cbs i others w0 = Ok tt w -> typed sim_trace_typed w.
Proof.
  intros Hm Hc Hi Ho. unfold sim_start. intros H. run_bind H as [] w1 H1.
  pose proof (raft_new_typed sim_trace_typed w0 tt w1 Hm H1) as Hw.
  revert H. set (m := bind _ _). assert (tyr sim_trace_typed (fun _ => True) m) as Hty.
  { eapply tyr_bind; [apply raft_set_callbacks_tyr; [done|constructor]|].
    intros _ _. eapply tyr_bind; [by apply raft_add_node_tyr|]. intros _ _. clear m.
    induction Ho as [|j js Hj _ IH]; [by apply tyr_ret|].
    apply (tyr_bind _ (fun _ => True)); [|done].
    eapply tyr_bind; [by apply raft_add_node_tyr|]. intros. by apply tyr_ret. }
  intros H. exact (proj1 (Hty _ _ _ Hw H)).
Qed.

Lemma sim_boot_typed : memory_typed sim_trace_typed sim_boot.
Proof. split; [split; apply is_int_small; cbn; lia|apply map_Forall_empty..|constructor]. Qed.

Lemma history_ops_typed : Forall op_typed history_ops.
Proof.
  unfold history_ops. repeat first [apply Forall_nil_2 | apply Forall_cons_2]; try exact I; split;
    vm_compute; split; (discriminate || reflexivity).
Qed.

(** A server that is started, campaigns, becomes leader and commits an entry. *)
Lemma operations_typed_witness :
  exists w w', sim_start sim_cbs 1 [2; 3] sim_boot = Ok tt w /\ run_ops history_ops w = Ok tt w' /\
  typed sim_trace_typed w' /\
  (forall p vr e r w'', rv_typed vr -> raft_recv_requestvote p vr w' = Ok (e, r) w'' ->
    rvr_typed r) /\
  (forall p ae e r w'', ae_typed ae -> raft_recv_appendentries p ae w' = Ok (e, r) w'' ->
    aer_typed r) /\
  (forall ety e ety' r w'', entry_typed ety -> raft_recv_entry ety w' = Ok (e, ety', Some r) w'' ->
    entry_typed ety' /\ er_typed r) /\
  (forall u' w'', raft_clear w' = Ok u' w'' -> typed sim_trace_typed w'').
Proof.
  assert (sim_start sim_cbs 1 [2; 3] sim_boot
    = Ok tt (run_world (sim_start sim_cbs 1 [2; 3]) sim_boot)) as H
    by (apply run_ok; vm_compute; reflexivity).
  assert (run_ops history_ops (run_world (sim_start sim_cbs 1 [2; 3]) sim_boot)
    = Ok tt (run_world (run_ops history_ops) (run_world (sim_start sim_cbs 1 [2; 3]) sim_boot)))
    as H' by (apply run_ok; vm_compute; reflexivity).
  eexists _, _. split; [exact H|]. split; [exact H'|].
  eapply (operations_typed sim_trace_typed history_ops); [| |exact H'].
  { eapply sim_start_typed; [exact sim_boot_typed|exact sim_cbs_typed| | |exact H];
      repeat constructor; apply is_int_small; lia. }
  exact history_ops_typed.
Defined.
