(* ===== verification/Conflict.v ===== *)
(** * A conflict at the end of the log

    When the entry that conflicts with a message is the last one of the log, the
    deletion of one entry is the truncation Raft asks for, and the handler
    replaces it by the message's entries.  (What happens before the end of the
    log is shown by [Receiving.conflict_keeps_stale_entries].) *)
From S2P Require Import Prelude Contiki Types Node Membership Log Server Election Replication.
From S2P Require Import Sim NodeFacts Frames History LogFacts MemberFacts ElectionFacts Roles.
From S2P Require Import Campaign Sending Receiving.

(** ** The abstract log without its last entry *)
Lemma al_drop_last_first a : al_entries a <> [] -> al_first (al_drop_last a) = al_first a.
Proof.
  intros H. destruct (exists_last H) as (es & e & He). unfold al_first.
  rewrite (al_drop_last_snoc a es e He), He, length_app. cbn. lia.
Qed.

Lemma al_drop_last_get a idx : al_entries a <> [] -> idx < al_last a ->
  al_get (al_drop_last a) idx = al_get a idx.
Proof.
  intros H Hi. unfold al_get. rewrite al_drop_last_first by done.
  destruct (exists_last H) as (es & e & He). rewrite (al_drop_last_snoc a es e He), He.
  cbn [al_drop_last al_last].
  destruct (Z.leb_spec (al_first a) idx), (Z.leb_spec idx (al_last a - 1)),
    (Z.leb_spec idx (al_last a)); try done; try lia. cbn [andb].
  rewrite lookup_app_l; [done|]. unfold al_first in *. rewrite He, length_app in *. cbn in *. lia.
Qed.

Section Conflict.
Context {T : CTarget} {C : Contiki} {L : ContikiLaws C} {U : User}.

(** The user's [log_pop] is set and accepts every entry. *)
Definition pops_accept (w : world) : Prop :=
  log_cb (lg w) = SServer /\ log_raft (lg w) = SServer /\
  exists f, log_pop (cb (srv w)) = Some f /\ forall u e i, fst (f u e i) = 0.

(** The index of the entry of a message that follows [es1]. *)
Definition index_after (ae : msg_appendentries_t) (es1 : list raft_entry_t) : Z :=
  ae_prev_log_idx ae + 1 + Z.of_nat (length es1).

(** A message whose entries [es1] the log holds, and whose next entry [y] has
    another term than the entry [x] the log has at its index, which is not
    committed. *)
Record conflicts (w : world) (a : alog) (ae : msg_appendentries_t)
    (es1 : list raft_entry_t) (y : raft_entry_t) (es2 : list raft_entry_t) (x : raft_entry_t)
    : Prop := {
  cf_entries : ae_entries ae = es1 ++ y :: es2;
  cf_agrees : agrees a (ae_prev_log_idx ae + 1) es1;
  cf_first : al_first a <= ae_prev_log_idx ae + 1;
  cf_in : index_after ae es1 <= al_last a;
  cf_old : al_get a (index_after ae es1) = Some x;
  cf_term : ety_term x <> ety_term y;
  cf_normal : raft_entry_is_cfg_change x = false;
  cf_uncommitted : commit_of w < index_after ae es1;
  cf_cfg : voting_cfg_change_log_idx (srv w) < index_after ae es1
}.

(** The first loop stops at the conflict and deletes the entry. *)
Lemma recv_ae_match_conflict w a ae es1 y es2 x : conflicts w a ae es1 y es2 x ->
  server_ok w a -> 0 <= ae_prev_log_idx ae ->
  let cur := ae_prev_log_idx ae + Z.of_nat (length es1) in
  recv_ae_match ae (length (ae_entries ae)) 0 (ae_entries ae) (ae_prev_log_idx ae) w
  = (let! e := raft_delete_entry_from_idx (index_after ae es1) in
     ret (if truth e then GotoOut e cur else Next (Z.of_nat (length es1)) (y :: es2) cur)) w.
Proof.
  intros [He Hag Hfirst Hin Hx Hterm _ Hcm _] Sok Hp cur. unfold index_after in *.
  pose proof INT_MIN_MAX. pose proof (lr_max _ _ (so_log _ _ Sok)).
  rewrite He, length_app. cbn [length].
  pose proof (recv_ae_match_skip ae w a es1 (y :: es2) (S (length es2)) 0 (so_log _ _ Sok)) as Hs.
  rewrite !Z.add_0_r, Z.add_0_l in Hs. rewrite Hs by (done || lia). clear Hs.
  cbn [recv_ae_match]. unfold ae_index.
  rewrite bind_assoc, bind_int_chk_l, int_ok_nonneg, bind_int_chk_l, int_ok_nonneg by lia.
  unfold raft_get_entry_from_idx.
  destruct (log_get_at_idx_ok w a (ae_prev_log_idx ae + 1 + Z.of_nat (length es1))
    (so_log _ _ Sok) ltac:(lia)) as (q & Hq & Hg).
  rewrite Hx in Hg. destruct Hg as (z & -> & Hz).
  rewrite (bind_ok_l _ _ _ _ _ Hq), (bind_ok_l _ _ _ _ _ (entry_get_ok _ _ _ Hz)), bind_gets_l.
  fold (commit_of w). destruct (Z.eqb_spec (ety_term x) (ety_term y)); [done|].
  by rewrite (proj2 (Z.ltb_lt _ _) Hcm).
Qed.

(** The log after a conflict with the last entry. *)
Definition overwritten (a : alog) (y : raft_entry_t) (es2 : list raft_entry_t) : alog :=
  al_appends (y :: es2) (al_drop_last a).

Lemma drop_last_ok w a ae es1 y es2 x : conflicts w a ae es1 y es2 x ->
  index_after ae es1 = al_last a ->
  0 <= ae_prev_log_idx ae -> consistent a ae -> al_ok (al_drop_last a).
Proof.
  intros [_ _ Hf _ Hx _ _ _ _] Hl Hp Hc. unfold index_after in *.
  assert (al_entries a <> []) as Hne.
  { intros E. unfold al_get in Hx. rewrite E in Hx. by destruct (_ && _) in Hx. }
  unfold al_ok. cbn [al_drop_last al_last].
  destruct (decide (al_last a - 1 = 0)) as [|Hnz]; [by left|right].
  rewrite al_drop_last_get by (done || lia).
  destruct es1 as [|e es1]; cbn [length] in Hl.
  - destruct Hc as [|(e & He & _)]; [lia|]. exists e. rewrite <- He. f_equal. lia.
  - apply al_get_in. lia.
Qed.

(** The deletion. *)
Lemma delete_last_ok w a x : server_ok w a -> offers_accept w -> pops_accept w ->
  al_get a (al_last a) = Some x -> raft_entry_is_cfg_change x = false ->
  commit_of w < al_last a -> voting_cfg_change_log_idx (srv w) < al_last a ->
  al_ok (al_drop_last a) ->
  exists w', raft_delete_entry_from_idx (al_last a) w = Ok 0 w' /\
    server_ok w' (al_drop_last a) /\ offers_accept w' /\ outside_log w' = outside_log w /\
    user_data w' = popped w x (al_last a) (user_data w).
Proof.
  intros Sok Hacc (Hcb & Hraft & f & Hf & Hans) Hx Hcfg Hcm Hv Hok.
  destruct (log_delete_run w a _ x (so_log _ _ Sok) Hx Hcfg) as (k & p & w' & Hk & Hi & H & Hs & Ho & Hu).
  { split; [done|]. split; [done|]. by exists f. }
  exists w'. unfold raft_delete_entry_from_idx. rewrite bind_gets_l, bind_assert_l.
  fold (commit_of w). destruct (Z.ltb_spec (commit_of w) (al_last a)); [|lia].
  destruct (Z.leb_spec (al_last a) (voting_cfg_change_log_idx (srv w))); [lia|].
  cbn [when]. rewrite bind_ret_l. split_and!; [done| |by eapply offers_accept_same|done|done].
  assert (log_repr w' (al_drop_last a)) as R.
  { eapply log_repr_same; [exact Hs|]. eapply unlink_last; [apply Sok|done|lia]. }
  destruct Sok as [S1 S2 _ _ S5 S6]. unfold outside_log in Ho. injection Ho as E1 E2 E3 _ _ _ _.
  assert (node_state w' = node_state w) as Hn by (unfold node_state; congruence).
  split; [by eapply nodes_wf_same|by eapply self_wf_same|done|done| |].
  - unfold timer_ok. by rewrite E1.
  - unfold persists. by rewrite E1.
Qed.

(** The message's term and its previous entry are checked first. *)
Lemma conflict_reached p w a ae es1 y es2 x : server_ok w a -> offers_accept w -> ae_ok w a ae ->
  term_of w <= ae_term ae -> consistent a ae -> conflicts w a ae es1 y es2 x ->
  exists w', raft_recv_appendentries p ae w = recv_ae_entries ae w' /\
    server_ok w' a /\ offers_accept w' /\ conflicts w' a ae es1 y es2 x /\ ae_ok w' a ae /\
    lg w' = lg w /\ cb (srv w') = cb (srv w) /\ commit_of w' = commit_of w /\
    term_of w' = ae_term ae /\ current_leader (srv w') = p /\ user_data w' = entered p ae w.
Proof.
  intros Sok Hacc Hae Hterm Hcons Cf. pose proof (ao_prev _ _ _ Hae) as Hp.
  pose proof (ao_max _ _ _ Hae) as Hm.
  destruct (raft_recv_appendentries_checked p ae w a Sok Hacc ltac:(lia) Hterm Hcons)
    as (w1 & Hrun & Sok1 & Hacc1 & K1 & K1' & T1 & L1 & _ & _ & U1).
  assert (lg w1 = lg w /\ commit_of w1 = commit_of w /\
    voting_cfg_change_log_idx (srv w1) = voting_cfg_change_log_idx (srv w)) as (Hlg & Hcm & Hv)
    by (unfold stable_state, log_state in K1; unfold commit_of; split_and!; congruence).
  unfold settings in K1'. exists w1. split_and!; try done; try congruence.
  - destruct Cf. split; try done; lia.
  - destruct Hae. split; try done; lia.
Qed.

Lemma overwritten_last a y es2 :
  al_last (overwritten a y es2) = al_last a + Z.of_nat (length es2).
Proof. unfold overwritten. rewrite al_appends_last. cbn. lia. Qed.

(** C23: a conflict with the last entry is resolved as Raft prescribes, when the user's
    functions allow it: let [log_pop] be set and answer 0 (that of app/main.c never
    does: [AppSafety.conflict_aborts]), [log_offer] and the persist functions too, and
    let all entries be application entries.  When the entries of a message agree with
    the log up to its last entry, which is not committed and has another term, that
    entry is given to [log_pop], once, and deleted, the rest of the message is given
    to [log_offer] in order and appended in its place, the commit index follows the
    leader's, and the answer is success for the message's last entry. *)
Theorem appendentries_overwrites_last p w a ae es1 y es2 x :
  server_ok w a -> offers_accept w -> pops_accept w -> ae_ok w a ae ->
  term_of w <= ae_term ae -> consistent a ae -> conflicts w a ae es1 y es2 x ->
  index_after ae es1 = al_last a ->
  exists w', raft_recv_appendentries p ae w
    = Ok (0, mk_appendentries_response (ae_term ae) 1
               (ae_prev_log_idx ae + Z.of_nat (length (ae_entries ae)))
               (ae_prev_log_idx ae + 1)) w' /\
    user_data w' = offers w (al_last a - 1) (y :: es2) (popped w x (al_last a) (entered p ae w)) /\
    server_ok w' (overwritten a y es2) /\ term_of w' = ae_term ae /\
    commit_of w' = Z.max (commit_of w)
      (Z.min (ae_leader_commit ae) (al_last (overwritten a y es2))) /\
    current_leader (srv w') = p /\
    (Z.of_nat (length es2) < Z.of_nat MAX_ENTRIES ->
     al_get (overwritten a y es2) (al_last a) = Some (with_ety_idx (al_last a) y)).
Proof.
  intros Sok Hacc Hpop Hae Hterm Hcons Cf Hlast. pose proof (ao_prev _ _ _ Hae) as Hp.
  pose proof (ao_max _ _ _ Hae) as Hm.
  destruct (conflict_reached p w a ae es1 y es2 x Sok Hacc Hae Hterm Hcons Cf)
    as (w1 & Hrun & Sok1 & Hacc1 & Cf1 & _ & Hlg & Hcb & Hcm & T1 & L1 & U1). rewrite Hrun.
  assert (pops_accept w1) as Hpop1 by (unfold pops_accept; by rewrite Hlg, Hcb).
  pose proof (recv_ae_match_conflict w1 a ae es1 y es2 x Cf1 Sok1 Hp) as H2.
  pose proof (drop_last_ok w a ae es1 y es2 x Cf Hlast Hp Hcons) as Hok.
  destruct Cf1 as [He _ _ _ Hx _ Hcfg Hcommit Hv]. rewrite Hlast in *.
  destruct (delete_last_ok w1 a x Sok1 Hacc1 Hpop1 Hx Hcfg Hcommit Hv Hok)
    as (w2 & Hd & Sok2 & Hacc2 & O2 & U2). cbv zeta in H2. rewrite (bind_ok_l _ _ _ _ _ Hd) in H2.
  unfold recv_ae_entries. rewrite (ao_count _ _ _ Hae), Nat2Z.id, (bind_ok_l _ _ _ _ _ H2).
  cbn [truth Z.eqb negb]. unfold index_after in Hlast. rewrite He, length_app in *.
  replace (Z.to_nat _) with (length (y :: es2)) by (cbn [length]; lia).
  pose proof (ao_normal _ _ _ Hae) as Hn. rewrite He in Hn. apply Forall_app in Hn as [_ Hn].
  pose proof (lr_max _ _ (so_log _ _ Sok)).
  destruct (recv_ae_append_ok ae w2 (al_drop_last a) (y :: es2) (Z.of_nat (length es1)) Sok2 Hacc2 Hn)
    as (w3 & H3 & Sok3 & O3 & U3); cbn [al_drop_last al_last length] in *; try lia.
  cbn [length]. rewrite (bind_ok_l _ _ _ _ _ H3).
  assert (srv w3 = srv w1) as S3 by (unfold outside_log in *; congruence).
  change (al_appends _ _) with (overwritten a y es2) in Sok3.
  destruct (recv_ae_finish ae w3 _ (ae_prev_log_idx ae + Z.of_nat (length es1)
    + Z.of_nat (S (length es2))) Sok3) as (w4 & H4 & Sok4 & S4 & _ & K4);
    [by eapply offers_accept_same, offers_accept_same|..];
    rewrite ?overwritten_last; unfold commit_of in *; rewrite ?S3; try lia.
  assert (user_data w4 = offers w (al_last a - 1) (y :: es2) (popped w x (al_last a) (entered p ae w)))
    as Hud.
  { rewrite K4, U3, U2, U1. cbn [al_drop_last al_last]. rewrite (offers_same w1 w2) by done.
    unfold popped. rewrite Hcb. apply offers_same_cb; [by rewrite Hlg|done]. }
  rewrite H4. exists w4. unfold term_of, commit_of in *. rewrite S4, S3. cbn [commit_idx
    current_term current_leader with_commit_idx]. rewrite overwritten_last. split_and!; try done.
  - rewrite T1. do 3 f_equal. lia.
  - by rewrite Hcm.
  - intros Hl. unfold overwritten. destruct (so_log _ _ Sok2).
    assert (length (al_entries (al_drop_last a)) <= MAX_ENTRIES)%nat as Hcap by done.
    rewrite al_appends_get; [|done|].
    + cbn [al_drop_last al_last]. destruct (Z.leb_spec (al_last a) (al_last a - 1)); [lia|].
      by replace (Z.to_nat _) with 0%nat by lia.
    + unfold al_first. rewrite al_appends_length, al_appends_last by done. cbn [al_drop_last al_last length]. lia.
Qed.

(** *** A [log_pop] that refuses *)

(** The user's [log_pop] is set and refuses every entry with [e]. *)
Definition pops_refuse (w : world) (e : Z) : Prop :=
  e <> 0 /\ log_cb (lg w) = SServer /\ log_raft (lg w) = SServer /\
  exists f, log_pop (cb (srv w)) = Some f /\ forall u x i, fst (f u x i) = e.

Lemma delete_refused w a idx x e : log_repr w a -> pops_refuse w e -> al_get a idx = Some x ->
  commit_of w < idx -> voting_cfg_change_log_idx (srv w) < idx ->
  exists u, raft_delete_entry_from_idx idx w = Ok e (with_user_data u w).
Proof.
  intros R (He & Hcb & Hraft & f & Hf & Hans) Hx Hcm Hv.
  destruct (log_repr_get w a _ _ R Hx) as (ps1 & p & ps2 & es1 & es2 & Hl & Ha & L1 & L2 & Hh & Hi & Hr).
  pose proof (lr_max _ _ R). pose proof (lr_base _ _ R). pose proof (log_repr_first _ _ R).
  destruct (log_find_repr w a idx R ltac:(lia)) as (q & Hq & Hq' & _).
  assert (q = Some p) as ->.
  { rewrite Hq', Hl. destruct (Z.leb_spec (al_first a) idx), (Z.leb_spec idx (al_last a)); try lia.
    cbn [andb]. rewrite lookup_app_r by lia. by replace (_ - _)%nat with 0%nat by lia. }
  exists (snd (f (user_data w) x idx)). unfold raft_delete_entry_from_idx.
  rewrite bind_gets_l, bind_assert_l. fold (commit_of w).
  rewrite (proj2 (Z.ltb_lt _ _) Hcm), (proj2 (Z.leb_gt _ _) Hv). cbn [when]. rewrite bind_ret_l.
  unfold log_delete. rewrite bind_gets_l.
  destruct (Z.eqb_spec 0 idx); [lia|]. destruct (Z.ltb_spec idx (base (lg w))); [lia|].
  rewrite (bind_ok_l _ _ _ _ _ Hq), (bind_ok_l _ _ _ _ _ (entry_get_ok _ _ _ Hh)).
  rewrite Hcb, Hraft. unfold raft_get_udata, deref_static.
  rewrite bind_ret_l, bind_gets_l, Hf. unfold non_null. rewrite !bind_ret_l.
  unfold call. rewrite bind_assoc, bind_gets_l. cbv zeta.
  rewrite bind_assoc, bind_modify_l, bind_ret_l, Hans. unfold truth.
  by rewrite (proj2 (Z.eqb_neq _ _) He).
Qed.

(** A conflict that [log_pop] refuses to resolve. *)
Lemma appendentries_refused p w a ae es1 y es2 x e :
  server_ok w a -> offers_accept w -> pops_refuse w e -> ae_ok w a ae ->
  term_of w <= ae_term ae -> consistent a ae -> conflicts w a ae es1 y es2 x ->
  exists w', raft_recv_appendentries p ae w
    = Ok (e, mk_appendentries_response (ae_term ae) 1
               (ae_prev_log_idx ae + Z.of_nat (length es1)) (ae_prev_log_idx ae + 1)) w' /\
    server_ok w' a /\ commit_of w' = commit_of w.
Proof.
  intros Sok Hacc Hpop Hae Hterm Hcons Cf. pose proof (ao_prev _ _ _ Hae) as Hp.
  pose proof (ao_max _ _ _ Hae) as Hm.
  destruct (conflict_reached p w a ae es1 y es2 x Sok Hacc Hae Hterm Hcons Cf)
    as (w1 & Hrun & Sok1 & Hacc1 & Cf1 & _ & Hlg & Hcb & Hcm & T1 & L1 & U1). rewrite Hrun.
  assert (pops_refuse w1 e) as Hpop1 by (unfold pops_refuse; by rewrite Hlg, Hcb).
  pose proof (recv_ae_match_conflict w1 a ae es1 y es2 x Cf1 Sok1 Hp) as H2.
  destruct Cf1 as [_ _ _ _ Hx _ _ Hcommit Hv].
  destruct (delete_refused w1 a _ x e (so_log _ _ Sok1) Hpop1 Hx Hcommit Hv) as [u Hd].
  cbv zeta in H2. rewrite (bind_ok_l _ _ _ _ _ Hd) in H2.
  unfold recv_ae_entries. rewrite (ao_count _ _ _ Hae), Nat2Z.id, (bind_ok_l _ _ _ _ _ H2).
  destruct Hpop as [He _]. unfold truth. rewrite (proj2 (Z.eqb_neq _ _) He). cbn [negb].
  exists (with_user_data u w1). split; [|split; [by apply (server_ok_same w1)|done]].
  unfold recv_ae_out, raft_get_current_term. rewrite bind_gets_l. cbn [Z.eqb].
  rewrite bind_ret_l, bind_int_chk_l, int_ok_nonneg by lia.
  cbn [srv with_user_data]. by fold (term_of w1); rewrite T1.
Qed.
End Conflict.

(** ** A log that forgot its first entries *)
Section Evicted.
Context {T : CTarget} {C : Contiki} {L : ContikiLaws C} {U : User}.

(** C24: a full log forgets its oldest entries, and a message that starts at the
    first index is then taken for new entries.  When the log no longer holds entry
    1, a message of application entries, of the current or a later term, with no entry
    before its own (a repetition of the leader's first message, say) is accepted by a
    server whose persist functions and [log_offer] answer 0: its entries are
    appended behind the last one,
    with new indices, even if the log held the same entries at their own, and
    success is reported for the message's indices. *)
Theorem appendentries_after_eviction p w a ae :
  server_ok w a -> offers_accept w -> ae_ok w a ae -> term_of w <= ae_term ae ->
  ae_prev_log_idx ae = 0 -> 1 < al_first a ->
  al_last a + Z.of_nat (length (ae_entries ae)) <= INT_MAX ->
  exists w', raft_recv_appendentries p ae w
    = Ok (0, mk_appendentries_response (ae_term ae) 1 (Z.of_nat (length (ae_entries ae))) 1) w' /\
    server_ok w' (al_appends (ae_entries ae) a) /\
    forall k e, ae_entries ae !! k = Some e -> (length (ae_entries ae) <= MAX_ENTRIES)%nat ->
      al_get (al_appends (ae_entries ae) a) (al_last a + 1 + Z.of_nat k)
      = Some (with_ety_idx (al_last a + 1 + Z.of_nat k) e).
Proof.
  intros Sok Hacc [Hn Hcfg _ Hmax Hcm] Hterm Hprev Hfirst Hroom. set (es := ae_entries ae) in *.
  pose proof INT_MIN_MAX. pose proof (so_log _ _ Sok) as R0. pose proof (lr_last _ _ R0).
  assert (0 < al_last a) as Hlast by (unfold al_first in Hfirst; lia).
  destruct (raft_recv_appendentries_checked p ae w a Sok Hacc ltac:(lia) Hterm ltac:(by left))
    as (w1 & Hrun & Sok1 & Hacc1 & K1 & _ & T1 & _ & _ & _). rewrite Hrun.
  assert (recv_ae_match ae (length es) 0 es (ae_prev_log_idx ae) w1 = Ok (Next 0 es 0) w1) as Hm.
  { rewrite Hprev. destruct es as [|y es'] eqn:He; [done|]. cbn [length recv_ae_match].
    unfold ae_index. rewrite Hprev, bind_assoc, bind_int_chk_l, int_ok_nonneg, bind_int_chk_l,
      int_ok_nonneg by lia. unfold raft_get_entry_from_idx.
    destruct (log_get_at_idx_ok w1 a (0 + 1 + 0) (so_log _ _ Sok1) ltac:(lia)) as (q & Hq & Hg).
    assert (al_get a (0 + 1 + 0) = None) as Hnone.
    { unfold al_get. by destruct (Z.leb_spec (al_first a) (0 + 1 + 0)); [lia|]. }
    rewrite Hnone in Hg. cbn in Hg. subst q. by rewrite (bind_ok_l _ _ _ _ _ Hq). }
  unfold recv_ae_entries. fold es. rewrite Hn, Nat2Z.id, (bind_ok_l _ _ _ _ _ Hm).
  replace (Z.to_nat (Z.of_nat (length es) - 0)) with (length es) by lia.
  destruct (recv_ae_append_ok ae w1 a es 0 Sok1 Hacc1 Hcfg) as (w2 & H2 & Sok2 & O2 & _); try lia.
  rewrite Hprev in H2. rewrite (bind_ok_l _ _ _ _ _ H2).
  assert (srv w2 = srv w1) as S2 by (unfold outside_log in O2; congruence).
  assert (commit_of w1 = commit_of w) as C1 by (unfold stable_state in K1; unfold commit_of; congruence).
  destruct (recv_ae_finish ae w2 (al_appends es a) (0 + 0 + Z.of_nat (length es)) Sok2)
    as (w3 & H3 & Sok3 & _ & _ & _);
    [by eapply offers_accept_same|..]; unfold commit_of, term_of in *; rewrite ?S2, ?al_appends_last; try lia.
  rewrite H3. exists w3. split; [|split; [done|]].
  - rewrite S2, T1, Hprev. do 2 f_equal.
  - intros k e Hk Hlen. pose proof (lookup_lt_Some _ _ _ Hk).
    rewrite al_appends_get; [|apply (lr_cap _ _ R0)|].
    + destruct (Z.leb_spec (al_last a + 1 + Z.of_nat k) (al_last a)); [lia|].
      replace (Z.to_nat _) with k by lia. by rewrite Hk.
    + pose proof (lr_cap _ _ R0). unfold al_first. rewrite al_appends_length, al_appends_last by done. lia.
Qed.
End Evicted.

(** ** Witnesses *)

(** A follower with entries 1 to 3; the leader of term 3 sends entries 2 to 4,
    the first of them as the follower has it. *)
Definition overwriting_message : msg_appendentries_t :=
  mk_appendentries 3 1 1 4 3 [with_ety_idx 2 (sim_entry 1 11); with_ety_idx 3 (sim_entry 3 40);
    with_ety_idx 4 (sim_entry 3 41)].

Lemma appendentries_overwrites_last_witness :
  let w := sim_log3 in let ae := overwriting_message in
  let a := overwritten sim_alog3 (with_ety_idx 3 (sim_entry 3 40)) [with_ety_idx 4 (sim_entry 3 41)] in
  exists w', raft_recv_appendentries (Some 2%positive) ae w
    = Ok (0, mk_appendentries_response 3 1 (1 + Z.of_nat (length (ae_entries ae))) 2) w' /\
    user_data w' = offers w (al_last sim_alog3 - 1)
      [with_ety_idx 3 (sim_entry 3 40); with_ety_idx 4 (sim_entry 3 41)]
      (popped w (with_ety_idx 3 (sim_entry 2 12)) (al_last sim_alog3) (entered (Some 2%positive) ae w)) /\
    server_ok w' a /\ term_of w' = 3 /\
    commit_of w' = Z.max (commit_of w) (Z.min 4 (al_last a)) /\
    current_leader (srv w') = Some 2%positive /\
    (Z.of_nat 1 < Z.of_nat MAX_ENTRIES ->
     al_get a (al_last sim_alog3)
     = Some (with_ety_idx (al_last sim_alog3) (with_ety_idx 3 (sim_entry 3 40)))).
Proof.
  apply (appendentries_overwrites_last (Some 2%positive) sim_log3 sim_alog3 overwriting_message
    [with_ety_idx 2 (sim_entry 1 11)] (with_ety_idx 3 (sim_entry 3 40))
    [with_ety_idx 4 (sim_entry 3 41)] (with_ety_idx 3 (sim_entry 2 12))).
  - exact sim_log3_ok.
  - apply sim_accepts; reflexivity.
  - split; [reflexivity|]. split; [reflexivity|]. by eexists.
  - split; try (vm_compute; discriminate); [reflexivity|repeat constructor].
  - vm_compute. discriminate.
  - right. eexists. split; [vm_compute; reflexivity|vm_compute; reflexivity].
  - split; try reflexivity; try (vm_compute; discriminate).
    intros [|i] x z Hx Hz; [|done].
    vm_compute in Hx. injection Hx as <-. vm_compute in Hz. by injection Hz as <-.
  - vm_compute. reflexivity.
Defined.

(** The first entry of a full log, sent again by the leader of term 1. *)
Definition repeated_message : msg_appendentries_t :=
  mk_appendentries 1 0 0 0 1 [with_ety_idx 1 (sim_entry 1 0)].

Lemma appendentries_after_eviction_witness :
  let w := sim_log51 in let a := sim_alog51 in let ae := repeated_message in
  let a' := al_appends (ae_entries ae) a in
  al_first a = 2 /\ al_last a = 51 /\
  exists w', raft_recv_appendentries (Some 2%positive) ae w
    = Ok (0, mk_appendentries_response 1 1 (Z.of_nat (length (ae_entries ae))) 1) w' /\
    server_ok w' a' /\
    forall k e, ae_entries ae !! k = Some e -> (length (ae_entries ae) <= MAX_ENTRIES)%nat ->
      al_get a' (al_last a + 1 + Z.of_nat k) = Some (with_ety_idx (al_last a + 1 + Z.of_nat k) e).
Proof.
  split; [reflexivity|]. split; [reflexivity|].
  apply (appendentries_after_eviction (Some 2%positive) sim_log51 sim_alog51 repeated_message).
  - apply server_okb_sound; vm_compute; reflexivity.
  - apply sim_accepts; reflexivity.
  - split; try (vm_compute; discriminate); [reflexivity|repeat constructor].
  - vm_compute. discriminate.
  - reflexivity.
  - vm_compute. reflexivity.
  - vm_compute. discriminate.
Defined.
