(* ===== verification/Liveness.v ===== *)
(** * Progress: elections that succeed, entries that are committed

    The handlers are total on a server in order ([server_ok]), and they make
    progress: a candidate that receives the votes of a majority becomes the
    leader, and an entry that a majority acknowledges is committed, whatever the
    order the responses arrive in. *)
From S2P Require Import Prelude Contiki Types Node Membership Log Server Election Replication.
From S2P Require Import Sim NodeFacts Frames History LogFacts MemberFacts ElectionFacts Roles.
From S2P Require Import Campaign Sending Receiving Commit Fixed.

(** A loop whose body is total under an invariant. *)
Lemma foreach_total {S X} (I : S -> Prop) (l : list X) (f : X -> M S unit) s :
  (forall x s, x ∈ l -> I s -> exists s', f x s = Ok tt s' /\ I s') -> I s ->
  exists s', foreach l f s = Ok tt s' /\ I s'.
Proof.
  revert s. induction l as [|x l IH]; intros s Hf Hs; [by exists s|].
  destruct (Hf x s ltac:(left) Hs) as (s1 & H1 & I1).
  destruct (IH s1 ltac:(intros y t Hy; apply Hf; by right) I1) as (s2 & H2 & I2).
  exists s2. cbn [foreach]. by rewrite (bind_ok_l _ _ _ _ _ H1).
Qed.

Section Leading.
Context {T : CTarget} {C : Contiki} {L : ContikiLaws C} {U : User}.

(** A server that can write every message a leader sends. *)
Record ready_to_lead (w : world) (a : alog) : Prop := {
  rl_ok : server_ok w a;
  rl_snapshot : no_snapshot w;
  rl_room : al_last a < INT_MAX
}.

(** Writing a node without changing its id. *)
Lemma server_ok_write w a p n n' : server_ok w a -> node_heap w !! p = Some n -> id n' = id n ->
  server_ok (with_node_heap (<[p := n']> (node_heap w)) w) a.
Proof.
  intros [] Hn Hi. pose proof (node_put_id w p n n' Hn Hi).
  split; [by apply (nodes_wf_ids w)|done|by apply (log_repr_same w)|done|done|done].
Qed.

Lemma ready_to_lead_write w a p n n' : ready_to_lead w a -> node_heap w !! p = Some n ->
  id n' = id n -> ready_to_lead (with_node_heap (<[p := n']> (node_heap w)) w) a.
Proof. intros [Sok Hs Hl] Hn Hi. split; [by eapply server_ok_write|done|done]. Qed.

Lemma ready_to_lead_same w w' a : stable_state w' = stable_state w -> settings w' = settings w ->
  snapshot_last_idx (srv w') = snapshot_last_idx (srv w) ->
  ready_to_lead w a -> ready_to_lead w' a.
Proof.
  intros HS HT Hsn [Sok [Hs Hb] Hl]. split; [by apply (server_ok_same w)| |done].
  split; [congruence|]. unfold stable_state in HS.
  assert (log_state w' = log_state w) as [= -> _ _] by congruence. done.
Qed.

(** The state a new leader's loop keeps. *)
Definition leading (a : alog) (w0 w : world) : Prop :=
  ready_to_lead w a /\ ballot w = ballot w0 /\ role_of w = role_of w0 /\
  commit_of w = commit_of w0.

Lemma leading_write a w0 w p n n' : leading a w0 w -> node_heap w !! p = Some n ->
  flags n' = flags n -> id n' = id n ->
  leading a w0 (with_node_heap (<[p := n']> (node_heap w)) w).
Proof.
  intros (R & B & K & Hc) Hn Hf Hi. split; [by eapply ready_to_lead_write|].
  split; [rewrite <- B; by apply (ballot_indices w p n)|done].
Qed.

Lemma leading_user a w0 w u : leading a w0 w -> leading a w0 (with_user_data u w).
Proof. intros (R & B & K & Hc). split; [by apply (ready_to_lead_same w)|done]. Qed.

(** Starting a peer off, at the end of the log. *)
Lemma lead_peer_ok a w0 w x : leading a w0 w -> x ∈ nodes_list (srv w) ->
  node (srv w) <> Some x ->
  exists w', (let! ci := raft_get_current_idx in
              let! next := int_chk (ci + 1) in
              exec! raft_node_set_next_idx (Some x) next in
              exec! raft_node_set_match_idx (Some x) 0 in
              let! _ := raft_send_appendentries (Some x) in
              ret tt) w = Ok tt w' /\ leading a w0 w'.
Proof.
  intros Hw Hx Hself. destruct (Hw) as ([Sok _ Hmax] & _).
  destruct (nw_heap _ (so_nodes _ _ Sok) x Hx) as [n Hn]. pose proof (so_log _ _ Sok) as R.
  pose proof (log_repr_bound _ _ R). pose proof (lr_last _ _ R). pose proof (lr_base _ _ R).
  unfold raft_get_current_idx. rewrite (bind_ok_l _ _ _ _ _ (log_get_current_idx_repr _ _ R)).
  rewrite bind_int_chk_l, int_ok_nonneg by lia.
  unfold raft_node_set_next_idx, raft_node_set_match_idx.
  unfold node_write at 1. rewrite bind_assoc, (bind_ok_l _ _ _ _ _ (node_get_ok w x n Hn)).
  unfold node_put. rewrite bind_modify_l.
  set (n1 := Node.set_next_idx _ n).
  set (w1 := with_node_heap _ w).
  assert (leading a w0 w1) as Hw1 by by apply (leading_write a w0 w x n n1).
  assert (node_heap w1 !! x = Some n1) as Hn1 by apply lookup_insert_eq.
  unfold node_write at 1. rewrite bind_assoc, (bind_ok_l _ _ _ _ _ (node_get_ok w1 x n1 Hn1)).
  unfold node_put. rewrite bind_modify_l. set (n2 := Node.set_match_idx 0 n1).
  set (w2 := with_node_heap _ w1).
  assert (leading a w0 w2) as Hw2 by by apply (leading_write a w0 w1 x n1 n2).
  assert (node_heap w2 !! x = Some n2) as Hn2 by apply lookup_insert_eq.
  destruct (Hw2) as ([Sok2 Hs2 _] & _).
  assert (sendable w2 a x) as Hsend.
  { intros m Hm. assert (m = n2) as -> by congruence. cbn.
    destruct (Z.ltb_spec (al_last a + 1) 1); unfold can_send; lia. }
  pose proof (raft_send_appendentries_ok w2 a x (user_data w2) Sok2 Hs2 ltac:(by eexists) Hself Hsend)
    as Hr.
  replace (with_user_data (user_data w2) w2) with w2 in Hr by by destruct w.
  rewrite (bind_ok_l _ _ _ _ _ Hr). eexists. split; [reflexivity|]. by apply leading_user.
Qed.

(** Becoming the leader never fails. *)
Lemma raft_become_leader_ok w a : ready_to_lead w a ->
  exists w', raft_become_leader w = Ok tt w' /\ ready_to_lead w' a /\ ballot w' = ballot w /\
    role w' = RAFT_STATE_LEADER /\ commit_of w' = commit_of w.
Proof.
  intros R. unfold raft_become_leader. rewrite (bind_ok_l _ _ _ _ _ (log_msg_run _ _)).
  unfold raft_set_state. rewrite bool_decide_eq_true_2 by done. cbn [when].
  rewrite bind_assoc, !bind_upd_srv_l, bind_gets_l.
  match goal with |- context [foreach (nodes_list ?s) _ ?w1] => set (w0 := w1) end.
  assert (leading a w0 w0) as H0.
  { split; [|done]. by apply (ready_to_lead_same w). }
  destruct (foreach_total (leading a w0) (nodes_list (srv w0)) (fun a0 =>
    if is_self_ptr (srv w0) a0 then ret tt
    else
      let! act := raft_node_is_active (Some a0) in
      when act
        (let! ci := raft_get_current_idx in
         let! next := int_chk (ci + 1) in
         exec! raft_node_set_next_idx (Some a0) next in
         exec! raft_node_set_match_idx (Some a0) 0 in
         let! _ := raft_send_appendentries (Some a0) in
         ret tt)) w0) as (w' & Hrun & R' & B' & K' & C'); [|done|].
  - intros x w1 Hx Hw1. destruct (is_self_ptr (srv w0) x) eqn:Hself; [by exists w1|].
    apply bool_decide_eq_false in Hself. destruct Hw1 as (R1 & B1 & K1) eqn:Hw.
    pose proof B1 as B. unfold ballot in B. injection B as _ Hl Hn _ _.
    assert (x ∈ nodes_list (srv w1)) as Hx1 by (rewrite Hl; exact Hx).
    destruct (nw_heap _ (so_nodes _ _ (rl_ok _ _ R1)) x Hx1) as [n Hnx].
    unfold raft_node_is_active. rewrite (bind_ok_l _ _ _ _ _ (node_read_ok _ w1 x n Hnx)).
    destruct (Node.is_active n); cbn [when]; [|by exists w1].
    apply lead_peer_ok; [done|done|rewrite Hn; exact Hself].
  - exists w'. split_and!; try done. by injection K' as -> _.
Qed.
End Leading.

(** ** Elections *)
Section Winning.
Context {T : CTarget} {C : Contiki} {L : ContikiLaws C} {U : User}.

(** The server is itself an active voting member. *)
Definition self_votes (w : world) : Prop :=
  exists s, node (srv w) = Some s /\ node_sat w votes_here s = true.

(** What the counting compares: the members, the server and its vote. *)
Definition electors (w : world) :=
  (electorate w, voting_nodes w, node (srv w), nodes_list (srv w), vote_of w, self_id w,
   term_of w).

Lemma electorate_elem w b : b ∈ electorate w <->
  b ∈ nodes_list (srv w) /\ node (srv w) <> Some b /\ node_sat w votes_here b = true.
Proof.
  unfold electorate. rewrite list_elem_of_In, List.filter_In, <- list_elem_of_In, andb_true_iff.
  unfold is_self_ptr. rewrite negb_true_iff, bool_decide_eq_false. done.
Qed.

Lemma voters_elem w b : b ∈ voters_for_me w <->
  b ∈ electorate w /\ node_sat w Node.has_vote_for_me b = true.
Proof.
  rewrite electorate_elem. unfold voters_for_me.
  rewrite list_elem_of_In, List.filter_In, <- list_elem_of_In, andb_true_iff.
  unfold is_self_ptr, node_sat. rewrite negb_true_iff, bool_decide_eq_false.
  destruct (node_heap w !! b) as [n|]; rewrite ?andb_true_iff; naive_solver.
Qed.

Lemma voting_elem w b : b ∈ voting_nodes w <->
  b ∈ nodes_list (srv w) /\ node_sat w votes_here b = true.
Proof. unfold voting_nodes. by rewrite list_elem_of_In, List.filter_In, <- list_elem_of_In. Qed.

Lemma nodup_filter {A} (g : A -> bool) l : NoDup l -> NoDup (List.filter g l).
Proof. rewrite !NoDup_ListNoDup. apply List.NoDup_filter. Qed.

Lemma nodup_le {A} (l k : list A) : NoDup l -> l ⊆ k -> (length l <= length k)%nat.
Proof.
  intros Hl Hs. apply List.NoDup_incl_length; [by apply NoDup_ListNoDup|].
  intros x. rewrite <- !list_elem_of_In. apply Hs.
Qed.

(** No more votes than voters. *)
Lemma votes_bounded w : nodes_wf w -> self_wf w -> self_votes w ->
  (1 + length (voters_for_me w) <= length (voting_nodes w))%nat.
Proof.
  intros W (s & Hs & Hin) (s' & Hs' & Hv). assert (s' = s) as -> by congruence.
  apply (nodup_le (s :: voters_for_me w)).
  - apply NoDup_cons. split; [|apply nodup_filter, W].
    rewrite voters_elem, electorate_elem. naive_solver.
  - intros b [->|Hb]%elem_of_cons; [by apply voting_elem|].
    apply voters_elem in Hb as [(H1 & _ & H2)%electorate_elem _]. by apply voting_elem.
Qed.

(** Recording the vote of a member of the electorate. *)
Lemma record_grant w b n : node_heap w !! b = Some n ->
  let w' := with_node_heap (<[b := Node.vote_for_me true n]> (node_heap w)) w in
  electors w' = electors w /\ node_sat w' Node.has_vote_for_me b = true /\
  forall x, node_sat w Node.has_vote_for_me x = true -> node_sat w' Node.has_vote_for_me x = true.
Proof.
  intros Hn w'. set (n' := Node.vote_for_me true n) in *.
  assert (votes_here n' = votes_here n) as Hvh.
  { unfold votes_here, n', Node.is_active, Node.is_voting, Node.vote_for_me,
      RAFT_NODE_VOTED_FOR_ME, RAFT_NODE_INACTIVE, RAFT_NODE_VOTING. by rewrite !has_set_flag. }
  assert (forall x, node_sat w' votes_here x = node_sat w votes_here x) as Hsat.
  { intros x. unfold node_sat, w'. cbn. destruct (decide (b = x)) as [<-|].
    - by rewrite lookup_insert_eq, Hn.
    - by rewrite lookup_insert_ne. }
  assert (Node.has_vote_for_me n' = true) as Hvote.
  { unfold n', Node.has_vote_for_me, Node.vote_for_me, RAFT_NODE_VOTED_FOR_ME.
    by rewrite has_set_flag. }
  split_and!.
  - unfold electors. assert (electorate w' = electorate w) as ->.
    { apply list_filter_ext. intros x. by rewrite Hsat. }
    assert (voting_nodes w' = voting_nodes w) as -> by by apply list_filter_ext.
    assert (self_id w' = self_id w) as ->; [|done].
    unfold self_id. cbn. destruct (node (srv w)); [|done]. by rewrite (node_put_id w b n n').
  - unfold node_sat, w'. cbn. by rewrite lookup_insert_eq.
  - intros x. unfold node_sat, w'. cbn. destruct (decide (b = x)) as [<-|].
    + by rewrite lookup_insert_eq.
    + by rewrite lookup_insert_ne.
Qed.

(** A granted vote. *)
Definition granted (t : Z) : msg_requestvote_response_t := mk_requestvote_response t 1.

(** The votes a candidate counts, its own included, are a majority. *)
Definition majority (w : world) : bool :=
  raft_votes_is_majority (Z.of_nat (length (voting_nodes w)))
    (Z.of_nat (length (voters_for_me w)) + if vote_of w =? self_id w then 1 else 0).

Lemma ballot_electors w w' : ballot w' = ballot w -> electors w' = electors w.
Proof.
  intros B. destruct (ballot_counts _ _ B) as (HV & HF & HI & HO). unfold electors.
  rewrite HV, HI, HO. pose proof B as B'. unfold ballot in B'. injection B' as Hh Hl Hn Hv Ht.
  rewrite Hl, Hn, Ht. do 6 f_equal. unfold electorate, is_self_ptr. rewrite Hl, Hn.
  apply list_filter_ext. intros x. f_equal. apply (node_sat_ballot w w' votes_here x B).
  intros. by apply votes_here_flags.
Qed.

(** One granted vote: it is counted, and the server leads once it has a majority. *)
Lemma granted_response_ok w a b : ready_to_lead w a -> role w = RAFT_STATE_CANDIDATE ->
  b ∈ electorate w ->
  exists w', raft_recv_requestvote_response (Some b) (granted (term_of w)) w = Ok 0 w' /\
    ready_to_lead w' a /\ electors w' = electors w /\ commit_of w' = commit_of w /\
    b ∈ voters_for_me w' /\ voters_for_me w ⊆ voters_for_me w' /\
    role w' = if majority w' then RAFT_STATE_LEADER else RAFT_STATE_CANDIDATE.
Proof.
  intros R Hc Hb. pose proof (rl_ok _ _ R) as Sok.
  pose proof Hb as (Hin & _ & _)%electorate_elem.
  destruct (nw_heap _ (so_nodes _ _ Sok) b Hin) as [n Hn].
  unfold raft_recv_requestvote_response. rewrite (bind_ok_l _ _ _ _ _ (log_msg_run _ _)).
  set (w0 := with_user_data _ w). unfold raft_is_candidate, raft_get_state, raft_get_current_term.
  rewrite bind_assoc, bind_gets_l, bind_ret_l. unfold role in Hc.
  change (state (srv w0)) with (state (srv w)). rewrite Hc, bool_decide_eq_true_2 by done.
  rewrite bind_gets_l. cbn [negb]. change (current_term (srv w0)) with (term_of w).
  change (rvr_term (granted _)) with (term_of w). rewrite Z.ltb_irrefl, Z.eqb_refl.
  cbn [negb granted rvr_vote_granted]. change (1 =? RAFT_REQUESTVOTE_ERR_GRANTED) with true.
  cbv iota. rewrite bool_decide_eq_true_2 by by eexists. cbn [when].
  assert (node_heap w0 !! b = Some n) as Hn0 by done.
  unfold raft_node_vote_for_me, node_write. rewrite bind_assoc.
  rewrite (bind_ok_l _ _ _ _ _ (node_get_ok w0 b n Hn0)). unfold node_put. rewrite bind_modify_l.
  destruct (record_grant w0 b n Hn0) as (HE & Hvb & Hvx).
  set (w1 := with_node_heap _ w0) in *.
  assert (ready_to_lead w1 a) as R1.
  { apply (ready_to_lead_write w0 a b n); [by apply (ready_to_lead_same w)|done|done]. }
  destruct (rl_ok _ _ R1) as [W1 S1 _ _ _ _].
  rewrite (bind_ok_l _ _ _ _ _ (raft_get_nvotes_for_me_ok w1 W1 S1)).
  rewrite (bind_ok_l _ _ _ _ _ (raft_get_num_voting_nodes_ok w1 W1)).
  fold (vote_of w1) (majority w1).
  assert (electorate w1 = electorate w) as HEl by (unfold electors in HE; by injection HE as ?).
  assert (b ∈ voters_for_me w1 /\ voters_for_me w ⊆ voters_for_me w1) as [V1 V2].
  { split; [by apply voters_elem; rewrite HEl|]. intros x [H1 H2]%voters_elem.
    apply voters_elem. rewrite HEl. split; [done|]. by apply Hvx. }
  destruct (majority w1) eqn:Hm; cbn [when].
  - destruct (raft_become_leader_ok w1 a R1) as (w' & H' & R' & B' & K' & C').
    rewrite (bind_ok_l _ _ _ _ _ H'). exists w'.
    destruct (ballot_counts _ _ B') as (HV & HF & HI & HO).
    unfold majority. rewrite HV, HF, HI, HO. fold (majority w1). rewrite Hm.
    split_and!; try done. by rewrite (ballot_electors _ _ B').
  - exists w1. rewrite Hm. done.
Qed.

(** A leader ignores votes. *)
Lemma late_response_ok w a b t : ready_to_lead w a -> role w = RAFT_STATE_LEADER ->
  exists w', raft_recv_requestvote_response (Some b) (granted t) w = Ok 0 w' /\
    ready_to_lead w' a /\ electors w' = electors w /\ role w' = RAFT_STATE_LEADER /\
    commit_of w' = commit_of w.
Proof.
  intros R Hl. unfold raft_recv_requestvote_response.
  rewrite (bind_ok_l _ _ _ _ _ (log_msg_run _ _)).
  set (w0 := with_user_data _ w). unfold raft_is_candidate, raft_get_state, raft_get_current_term.
  rewrite bind_assoc, bind_gets_l, bind_ret_l. unfold role in Hl.
  change (state (srv w0)) with (state (srv w)). rewrite Hl, bool_decide_eq_false_2 by done.
  rewrite bind_gets_l. exists w0. split; [done|]. split_and!; try done.
  by apply (ready_to_lead_same w).
Qed.

(** The candidate after the votes [seen] arrived. *)
Definition campaigning (a : alog) (w0 : world) (seen : list addr) (w : world) : Prop :=
  ready_to_lead w a /\ electors w = electors w0 /\ commit_of w = commit_of w0 /\
  (role w = RAFT_STATE_LEADER \/
   (role w = RAFT_STATE_CANDIDATE /\ seen ⊆ voters_for_me w /\
    (seen = [] \/ majority w = false))).

(** One more vote arrives. *)
Lemma campaign_step a w0 seen w b : campaigning a w0 seen w -> b ∈ electorate w0 ->
  exists w1, raft_recv_requestvote_response (Some b) (granted (term_of w0)) w = Ok 0 w1 /\
    campaigning a w0 (seen ++ [b]) w1.
Proof.
  intros (R & HE & HC & Hcase) Hb.
  assert (electorate w = electorate w0 /\ term_of w = term_of w0) as [El Ht]
    by (unfold electors in HE; split; congruence).
  destruct Hcase as [Hl|(Hc & Hseen & _)].
  - destruct (late_response_ok w a b (term_of w0) R Hl) as (w1 & H1 & R1 & E1 & K1 & C1).
    exists w1. split; [done|]. split_and!; try congruence; try done. by left.
  - destruct (granted_response_ok w a b R Hc) as (w1 & H1 & R1 & E1 & C1 & V1 & V2 & K1).
    { by rewrite El. }
    rewrite Ht in H1. exists w1. split; [done|]. split_and!; try congruence; try done.
    destruct (majority w1) eqn:Hm; [by left|right]. split; [done|]. split; [|by right].
    intros x [Hx|Hx]%elem_of_app; [by apply V2, Hseen|].
    apply list_elem_of_singleton in Hx as ->. done.
Qed.

(** The responses, one after the other. *)
Definition votes_arrive (t : Z) (bs : list addr) : M world unit :=
  foreach bs (fun b => let! _ := raft_recv_requestvote_response (Some b) (granted t) in ret tt).

Lemma votes_arrive_ok a w0 bs : forall seen w, campaigning a w0 seen w -> bs ⊆ electorate w0 ->
  exists w', votes_arrive (term_of w0) bs w = Ok tt w' /\ campaigning a w0 (seen ++ bs) w'.
Proof.
  induction bs as [|b bs IH]; intros seen w Hw Hbs; [exists w; by rewrite app_nil_r|].
  destruct (campaign_step a w0 seen w b Hw ltac:(apply Hbs; left)) as (w1 & H1 & Hw1).
  destruct (IH _ w1 Hw1 ltac:(set_solver)) as (w' & H' & Hw').
  exists w'. unfold votes_arrive in *. cbn [foreach].
  rewrite bind_assoc, (bind_ok_l _ _ _ _ _ H1), bind_ret_l. split; [done|].
  by rewrite <- app_assoc in Hw'.
Qed.

(** The start of a campaign, and its end when enough members voted. *)
Lemma campaign_starts a w : ready_to_lead w a -> role w = RAFT_STATE_CANDIDATE ->
  campaigning a w [] w.
Proof. intros R Hc. split_and!; try done. right. split_and!; [done|set_solver|by left]. Qed.

Lemma campaign_won a w bs w' : campaigning a w bs w' -> vote_of w = self_id w -> self_votes w ->
  ready_to_lead w a -> NoDup bs -> bs <> [] ->
  (length (voting_nodes w) < 2 * (1 + length bs))%nat ->
  role w' = RAFT_STATE_LEADER.
Proof.
  intros (R' & E' & C' & Hcase) Hv Hself R Hnd Hne Hlen.
  destruct Hcase as [|(Hc' & Hsub & Hm)]; [done|]. exfalso.
  destruct Hm as [|Hm]; [done|]. unfold majority in Hm.
  assert (voting_nodes w' = voting_nodes w /\ vote_of w' = self_id w' /\ self_votes w')
    as (EV & Ev & Es).
  { unfold electors in E'. injection E' as E1 E2 E3 E4 E5 E6 _. split_and!; [done|congruence|].
    destruct Hself as (s & Hs & Hsv). exists s. split; [congruence|].
    assert (s ∈ voting_nodes w') as Hin.
    { rewrite E2. apply voting_elem. split; [|done].
      destruct (so_self _ _ (rl_ok _ _ R)) as (s' & Hs' & Hin'). congruence. }
    by apply voting_elem in Hin as [_ ?]. }
  rewrite Ev, Z.eqb_refl in Hm.
  pose proof (nodup_le bs _ Hnd Hsub). destruct (rl_ok _ _ R') as [W' S' _ _ _ _].
  pose proof (votes_bounded w' W' S' Es).
  assert (raft_votes_is_majority (Z.of_nat (length (voting_nodes w')))
    (Z.of_nat (length (voters_for_me w')) + 1) = true); [|congruence].
  apply raft_votes_is_majority_iff; [lia|]. rewrite EV in *. lia.
Qed.

(** A candidate that voted for itself and gets the votes of others, a majority
    with its own, leads, in whatever order they come. *)
Lemma votes_elect a w bs : ready_to_lead w a -> role w = RAFT_STATE_CANDIDATE ->
  vote_of w = self_id w -> self_votes w ->
  NoDup bs -> bs ⊆ electorate w -> bs <> [] ->
  (length (voting_nodes w) < 2 * (1 + length bs))%nat ->
  exists w', votes_arrive (term_of w) bs w = Ok tt w' /\ ready_to_lead w' a /\
    role w' = RAFT_STATE_LEADER /\ term_of w' = term_of w /\ commit_of w' = commit_of w.
Proof.
  intros R Hc Hv Hself Hnd Hbs Hne Hlen.
  destruct (votes_arrive_ok a w bs [] w (campaign_starts a w R Hc) Hbs) as (w' & H' & Hw).
  exists w'. split; [done|]. pose proof Hw as (R' & E' & C' & _). split; [done|].
  split; [by eapply campaign_won|]. split; [|done]. unfold electors in E'. congruence.
Qed.

(** *** The whole election *)

(** Another server: its state, its log, its node in the list of the candidate
    and the candidate's node in its own list. *)
Record voter := mk_voter {
  v_world : world;
  v_log : alog;
  v_node : addr;
  v_candidate : addr
}.

(** It can vote for the candidate [w]: it is in order, a voting member, in no
    later term, and its log is not ahead. *)
Definition willing (w : world) (a : alog) (v : voter) : Prop :=
  server_ok (v_world v) (v_log v) /\ is_Some (node_heap (v_world v) !! v_candidate v) /\
  self_voting (v_world v) = true /\ term_of (v_world v) <= term_of w /\
  up_to_date (v_log v) (vote_request w a) = true.

(** Its answer to a vote request. *)
Definition answer (vr : msg_requestvote_t) (v : voter) : msg_requestvote_response_t :=
  match raft_recv_requestvote (Some (v_candidate v)) vr (v_world v) with
  | Ok (_, r) _ => r
  | Fault _ => mk_requestvote_response 0 0
  end.

Lemma willing_grants w w1 a v : willing w a v -> term_of w1 = term_of w + 1 ->
  answer (vote_request w1 a) v = granted (term_of w1).
Proof.
  intros (Sok & [n Hn] & Hs & Ht & Hu) Ht1. unfold answer.
  set (vr := vote_request w1 a). set (x := v_world v) in *.
  assert (grants x (v_log v) vr = true /\ newer x vr = true) as [Hg Hnew].
  { unfold grants, newer. change (rv_term vr) with (term_of w1).
    change (up_to_date (v_log v) vr) with (up_to_date (v_log v) (vote_request w a)).
    rewrite Hs, Hu. unfold term_of in *. split; [|apply Z.ltb_lt; lia].
    destruct (Z.leb_spec (current_term (srv x)) (current_term (srv w1))); [|lia].
    destruct (Z.ltb_spec (current_term (srv x)) (current_term (srv w1))); [done|lia]. }
  destruct (raft_recv_requestvote_run x (v_log v) (Some (v_candidate v)) vr Sok)
    as (w2 & H2 & Hh2 & Ht2 & _).
  { apply free_may_grant. intros He. change (rv_term vr) with (term_of w1) in He. unfold term_of in *. lia. }
  { done. }
  rewrite Hg in H2. destruct (recv_requestvote_done_ok w2 (v_candidate v) n 0 1) as (w3 & H3 & _);
    [by rewrite Hh2|].
  rewrite H2, H3. unfold granted. f_equal. rewrite Ht2. change (rv_term vr) with (term_of w1).
  unfold term_of in *. lia.
Qed.

Lemma raft_become_candidate_roll : keeps (same roll) raft_become_candidate.
Proof.
  pose proof (vote_for_me_roll (C := C) (U := U)) as Hv.
  unfold raft_become_candidate, clear_votes, raft_vote, request_votes. unfold_accessors. keeps_solve.
Qed.

Lemma roll_self_votes w w' : roll w' = roll w -> self_votes w -> self_votes w'.
Proof.
  intros H (s & Hs & Hv). exists s. pose proof (roll_heap w w' s H) as Hh.
  unfold roll in H. injection H as _ _ -> _ _. split; [done|]. unfold node_sat in *.
  destruct (node_heap w' !! s), (node_heap w !! s); cbn in *; congruence.
Qed.

(** A server that stands for election. *)
Lemma stands w a : ready_to_lead w a -> INT_MIN <= term_of w < INT_MAX -> self_votes w ->
  exists w', raft_election_start w = Ok 0 w' /\ ready_to_lead w' a /\
    role w' = RAFT_STATE_CANDIDATE /\ term_of w' = term_of w + 1 /\ vote_of w' = self_id w' /\
    self_votes w' /\ electorate w' = electorate w /\ voting_nodes w' = voting_nodes w /\
    commit_of w' = commit_of w.
Proof.
  intros [Sok Hsnap Hroom] Ht Hself. unfold raft_election_start, raft_get_current_idx.
  rewrite (bind_ok_l _ _ _ _ _ (log_get_current_idx_repr _ _ (so_log _ _ Sok))).
  rewrite (bind_ok_l _ _ _ _ _ (log_msg_run _ _)). set (w0 := with_user_data _ w).
  assert (server_ok w0 a) as Sok0 by by apply (server_ok_same w).
  destruct (raft_become_candidate_run w0 a Sok0 Ht)
    as (w' & H' & Sok' & R' & T' & V' & _ & _ & _ & _ & E' & _).
  pose proof (raft_become_candidate_roll w0 0 w' H') as HR. unfold same in HR.
  run_keeps H' (same commit_of) as KC.
  run_keeps H' (same (fun w => (snapshot_last_idx (srv w), base (lg w)))) as KS.
  injection KS as KS1 KS2. destruct Hsnap as [Hs1 Hs2].
  exists w'. split_and!; try done.
  - split; [done| |done]. split; [by rewrite KS1|by rewrite KS2].
  - rewrite (roll_self_id w0 w' HR). done.
  - by apply (roll_self_votes w0).
  - rewrite (roll_voting w0 w' HR). done.
Qed.

(** An election succeeds.  A server in order whose timeout passed stands
    for election; the servers that receive its vote request and can vote for it
    ([willing]: members in no later term whose log is not ahead) grant their
    vote; and when the answers of enough of them for a majority with the
    candidate's own vote have arrived, in whatever order, the candidate is the
    leader of the new term.  Nothing fails on the way, whatever the callbacks
    that send answer. *)
Theorem election_succeeds w a voters :
  ready_to_lead w a -> INT_MIN <= term_of w < INT_MAX -> self_votes w ->
  (1 < length (voting_nodes w))%nat ->
  NoDup (map v_node voters) ->
  (forall v, v ∈ voters -> v_node v ∈ electorate w /\ willing w a v) ->
  (length (voting_nodes w) < 2 * (1 + length voters))%nat ->
  exists w1 w2, raft_election_start w = Ok 0 w1 /\ term_of w1 = term_of w + 1 /\
    foreach voters (fun v =>
      let! _ := raft_recv_requestvote_response (Some (v_node v))
                  (answer (vote_request w1 a) v) in ret tt) w1 = Ok tt w2 /\
    role w2 = RAFT_STATE_LEADER /\ term_of w2 = term_of w + 1 /\ ready_to_lead w2 a.
Proof.
  intros R Ht Hself Hone Hnd Hall Hlen.
  destruct (stands w a R Ht Hself)
    as (w1 & H1 & R1 & C1 & T1 & V1 & Hself1 & El1 & Vo1 & Co1).
  destruct (votes_elect a w1 (map v_node voters) R1 C1 V1 Hself1 Hnd)
    as (w2 & H2 & R2 & L2 & T2 & _).
  - intros b (v & -> & Hv)%list_elem_of_fmap. rewrite El1. by apply Hall.
  - destruct voters; [cbn in Hlen; lia|done].
  - rewrite length_map, Vo1. done.
  - exists w1, w2. split_and!; try done; [|lia].
    rewrite <- H2. unfold votes_arrive.
    assert (forall v, v ∈ voters -> answer (vote_request w1 a) v = granted (term_of w1)) as Hans
      by (intros v Hv; by apply (willing_grants w), T1; apply Hall).
    clear - Hans. assert (forall w, foreach voters (fun v =>
        let! _ := raft_recv_requestvote_response (Some (v_node v)) (answer (vote_request w1 a) v)
        in ret tt) w
      = foreach (map v_node voters) (fun b =>
        let! _ := raft_recv_requestvote_response (Some b) (granted (term_of w1)) in ret tt) w) as Heq.
    { induction voters as [|v vs IH]; intros w0; [done|]. cbn [foreach map].
      rewrite Hans by left. apply bind_cong. intros [] w3 _. apply IH. intros x Hx. apply Hans. by right. }
    apply Heq.
Qed.
End Winning.

(** ** Committing *)
Section Committing.
Context {T : CTarget} {C : Contiki} {L : ContikiLaws C} {U : User}.

(** The peers that hold entry [idx], with the server, are a majority. *)
Definition held_by_majority (w : world) (idx : Z) : bool :=
  Z.quot (Z.of_nat (length (voting_nodes w))) 2 <? 1 + Z.of_nat (length (replicas w idx)).

(** The commit rule, as a function. *)
Lemma update_commit_ok w a idx x : nodes_wf w -> log_repr w a -> 0 < idx ->
  al_get a idx = Some x -> ety_term x = to_uint (term_of w) ->
  update_commit idx w
  = Ok tt (if (commit_of w <? idx) && held_by_majority w idx
           then with_srv (with_commit_idx idx (srv w)) w else w).
Proof.
  intros W R Hpos Hx Ht. pose proof (lr_max _ _ R). pose proof INT_MIN_MAX.
  assert (idx <= al_last a) as Hle.
  { unfold al_get in Hx. destruct (Z.leb_spec idx (al_last a)); [done|by rewrite andb_false_r in Hx]. }
  unfold update_commit. unfold truth. destruct (Z.eqb_spec idx 0); [lia|]. cbn [negb when].
  destruct (log_get_at_idx_ok w a idx R ltac:(lia)) as (q & Hq & Hg). rewrite Hx in Hg.
  destruct Hg as (p & -> & Hp). unfold raft_get_entry_from_idx, raft_get_commit_idx.
  rewrite (bind_ok_l _ _ _ _ _ Hq), bind_gets_l. unfold commit_of.
  destruct (Z.ltb_spec (commit_idx (srv w)) idx); cbn [when andb]; [|done].
  rewrite (bind_ok_l _ _ _ _ _ (entry_get_ok _ _ _ Hp)), bind_gets_l, Ht.
  unfold term_of. rewrite Z.eqb_refl. cbn [when]. unfold bind at 1.
  rewrite (count_from_pure (holds w idx)) by (intros y Hy; by apply replicates_ok).
  rewrite (bind_ok_l _ _ _ _ _ (raft_get_num_voting_nodes_ok w W)).
  fold (replicas w idx). unfold held_by_majority.
  destruct (_ <? 1 + _); cbn [when]; [|done].
  unfold raft_set_commit_idx, raft_get_current_idx. rewrite bind_gets_l, bind_assert_l.
  destruct (Z.leb_spec (commit_idx (srv w)) idx); [|lia].
  rewrite (bind_ok_l _ _ _ _ _ (log_get_current_idx_repr _ _ R)), bind_assert_l.
  destruct (Z.leb_spec idx (al_last a)); [done|lia].
Qed.

(** A success response that acknowledges the log up to [idx]. *)
Definition acked (t idx first : Z) : msg_appendentries_response_t :=
  mk_appendentries_response t 1 idx first.

(** The peers known to hold less than [idx]. *)
Definition behind (w : world) (idx : Z) (b : addr) : Prop :=
  node_sat w (fun n => match_idx n <? idx) b = true.

Lemma replicas_elem w idx b : b ∈ replicas w idx <->
  b ∈ electorate w /\ node_sat w (fun n => idx <=? match_idx n) b = true.
Proof.
  rewrite electorate_elem. unfold replicas, holds.
  rewrite list_elem_of_In, List.filter_In, <- list_elem_of_In, andb_true_iff.
  unfold is_self_ptr, node_sat. rewrite negb_true_iff, bool_decide_eq_false.
  destruct (node_heap w !! b) as [n|]; rewrite ?andb_true_iff; naive_solver.
Qed.

(** Recording what a peer holds: its two indices. *)
Definition acknowledge (idx : Z) (n : raft_node_private_t) : raft_node_private_t :=
  Node.set_match_idx idx (Node.set_next_idx (idx + 1) n).

Lemma acknowledge_electors w b n idx : node_heap w !! b = Some n ->
  let w' := with_node_heap (<[b := acknowledge idx n]> (node_heap w)) w in
  electors w' = electors w /\
  (forall x, x <> b -> forall g, node_sat w' g x = node_sat w g x) /\
  node_sat w' (fun n => idx <=? match_idx n) b = true.
Proof.
  intros Hn w'. split; [|split].
  - by apply ballot_electors, (ballot_indices w b n).
  - intros x Hx g. unfold node_sat, w'. cbn. by rewrite lookup_insert_ne.
  - unfold node_sat, w'. cbn. rewrite lookup_insert_eq. cbn. apply Z.leb_refl.
Qed.

(** The entry the leader waits for: the last of its log, of its own term. *)
Record awaits (w : world) (a : alog) (idx : Z) : Prop := {
  aw_ready : ready_to_lead w a;
  aw_last : al_last a = idx;
  aw_pos : 0 < idx;
  aw_entry : exists x, al_get a idx = Some x /\ ety_term x = to_uint (term_of w);
  aw_leader : role w = RAFT_STATE_LEADER
}.

(** What the handler does once the peer's indices are written. *)
Definition after_record (b : addr) (idx : Z) : M world Z :=
  exec! update_commit idx in
  let! next := raft_node_get_next_idx (Some b) in
  let! q := raft_get_entry_from_idx next in
  exec! when (bool_decide (is_Some q))
    (let! _ := raft_send_appendentries (Some b) in ret tt) in
  ret 0.

(** A success response of the leader's term passes the handler's guards. *)
Lemma ack_admitted w a b n idx first : awaits w a idx -> node_heap w !! b = Some n ->
  exists u, raft_recv_appendentries_response (Some b) (acked (term_of w) idx first) w
  = recv_aer_success (Some b) (acked (term_of w) idx first) (match_idx n) (with_user_data u w).
Proof.
  intros [R _ _ _ Hrole] Hn. pose proof (so_log _ _ (rl_ok _ _ R)) as Rl.
  unfold raft_recv_appendentries_response, raft_get_current_idx.
  rewrite (bind_ok_l _ _ _ _ _ (log_get_current_idx_repr _ _ Rl)).
  rewrite (bind_ok_l _ _ _ _ _ (log_msg_run _ _)). set (w0 := with_user_data _ w).
  unfold raft_is_leader, raft_get_state, raft_get_current_term.
  rewrite bind_assoc, bind_gets_l, bind_ret_l. unfold role in Hrole.
  change (state (srv w0)) with (state (srv w)). rewrite Hrole, bool_decide_eq_true_2 by done.
  cbn [negb]. rewrite bind_gets_l. change (current_term (srv w0)) with (term_of w).
  unfold acked. cbn [aer_term]. rewrite Z.ltb_irrefl, Z.eqb_refl. cbn [negb].
  unfold raft_node_get_match_idx, Node.get_match_idx. assert (node_heap w0 !! b = Some n) as Hn0 by done.
  rewrite (bind_ok_l _ _ _ _ _ (node_read_ok _ w0 b n Hn0)). cbn [aer_success Z.eqb].
  by eexists.
Qed.

(** It records what the peer holds. *)
Lemma ack_recorded w a b n t idx first : ready_to_lead w a -> al_last a = idx -> 0 < idx ->
  node_heap w !! b = Some n -> Node.is_voting n = true -> match_idx n < idx ->
  recv_aer_success (Some b) (acked t idx first) (match_idx n) w
  = after_record b idx (with_node_heap (<[b := acknowledge idx n]> (node_heap w)) w).
Proof.
  intros R Hlast Hpos Hn Hvote Hbehind. pose proof (rl_room _ _ R) as Hroom.
  unfold recv_aer_success. cbn [acked aer_current_idx].
  destruct (Z.leb_spec idx (match_idx n)); [lia|]. unfold raft_get_current_idx.
  rewrite (bind_ok_l _ _ _ _ _ (log_get_current_idx_repr _ _ (so_log _ _ (rl_ok _ _ R)))).
  rewrite bind_assert_l, Hlast, Z.leb_refl, bind_int_chk_l, int_ok_nonneg by lia.
  unfold raft_node_set_next_idx, raft_node_set_match_idx.
  unfold node_write at 1. rewrite bind_assoc, (bind_ok_l _ _ _ _ _ (node_get_ok w b n Hn)).
  unfold node_put. rewrite bind_modify_l.
  unfold node_write at 1. rewrite bind_assoc.
  erewrite (bind_ok_l (node_get (Some b))) by (apply node_get_ok, lookup_insert_eq).
  unfold node_put. rewrite bind_modify_l. fold (acknowledge idx n).
  match goal with |- bind (check_sufficient_logs _ _) _ ?s = _ => set (w1 := s) end.
  assert (w1 = with_node_heap (<[b := acknowledge idx n]> (node_heap w)) w) as <-.
  { unfold w1. cbn. by rewrite insert_insert_eq. }
  assert (node_heap w1 !! b = Some (acknowledge idx n)) as Hn1 by apply lookup_insert_eq.
  unfold check_sufficient_logs, raft_node_is_voting.
  rewrite bind_assoc, (bind_ok_l _ _ _ _ _ (node_read_ok _ w1 b _ Hn1)).
  change (Node.is_voting (acknowledge idx n)) with (Node.is_voting n). by rewrite Hvote.
Qed.

(** Once the peer is up to date, the handler only moves the commit index, and
    has nothing more to send. *)
Lemma after_record_ok w a b n idx : awaits w a idx ->
  node_heap w !! b = Some n -> next_idx n = idx + 1 ->
  after_record b idx w
  = Ok 0 (if (commit_of w <? idx) && held_by_majority w idx
          then with_srv (with_commit_idx idx (srv w)) w else w).
Proof.
  intros [R Hlast Hpos (e & He & Het) _] Hn Hnext. pose proof (rl_ok _ _ R) as Sok.
  pose proof (so_log _ _ Sok) as Rl. pose proof (rl_room _ _ R) as Hroom.
  unfold after_record.
  rewrite (bind_ok_l _ _ _ _ _ (update_commit_ok w a idx e (so_nodes _ _ Sok) Rl Hpos He Het)).
  match goal with |- bind _ _ ?s = _ => set (w2 := s) end.
  assert (node_heap w2 !! b = Some n) as Hn2 by (unfold w2; by destruct (_ && _)).
  assert (log_repr w2 a) as Rl2.
  { unfold w2. destruct (_ && _); [|done]. by apply (log_repr_same w). }
  unfold raft_node_get_next_idx, Node.get_next_idx, raft_get_entry_from_idx.
  rewrite (bind_ok_l _ _ _ _ _ (node_read_ok _ w2 b _ Hn2)), Hnext. pose proof INT_MIN_MAX.
  destruct (log_get_at_idx_ok w2 a (idx + 1) Rl2 ltac:(lia)) as (q & Hq & Hg).
  rewrite al_get_past in Hg by lia. cbn in Hg. subst q.
  by rewrite (bind_ok_l _ _ _ _ _ Hq), bool_decide_eq_false_2 by (by intros []).
Qed.

(** One acknowledgement. *)
Lemma ack_ok w a b idx first : awaits w a idx -> b ∈ electorate w -> behind w idx b ->
  exists w', raft_recv_appendentries_response (Some b) (acked (term_of w) idx first) w = Ok 0 w' /\
    awaits w' a idx /\ electors w' = electors w /\
    b ∈ replicas w' idx /\ replicas w idx ⊆ replicas w' idx /\
    (forall x, x <> b -> behind w idx x -> behind w' idx x) /\
    commit_of w' = if (commit_of w <? idx) && held_by_majority w' idx then idx else commit_of w.
Proof.
  intros A Hb Hbehind. destruct A as [R Hlast Hpos (e & He & Het) Hrole] eqn:HA. clear HA.
  pose proof Hb as (Hin & _ & Hvote)%electorate_elem.
  destruct (nw_heap _ (so_nodes _ _ (rl_ok _ _ R)) b Hin) as [n Hn].
  unfold behind, node_sat in Hbehind, Hvote. rewrite Hn in Hbehind, Hvote.
  apply Z.ltb_lt in Hbehind. apply andb_true_iff in Hvote as [_ Hvote].
  destruct (ack_admitted w a b n idx first A Hn) as (u & ->).
  assert (ready_to_lead (with_user_data u w) a) as R0 by by apply (ready_to_lead_same w).
  set (w0 := with_user_data u w) in *. assert (node_heap w0 !! b = Some n) as Hn0 by done.
  rewrite (ack_recorded w0 a) by done.
  destruct (acknowledge_electors w0 b n idx Hn0) as (E1 & Hx1 & Hb1).
  set (w1 := with_node_heap _ w0) in *.
  assert (awaits w1 a idx) as A1.
  { split; [by apply (ready_to_lead_write w0 a b n)|done|done|by exists e|done]. }
  rewrite (after_record_ok w1 a b (acknowledge idx n) idx A1); [|apply lookup_insert_eq|].
  2: { cbn. by destruct (Z.ltb_spec (idx + 1) 1); [lia|]. }
  match goal with |- context [Ok 0 ?s] => set (w2 := s) end. exists w2. split; [done|].
  assert (electorate w1 = electorate w) as El by (unfold electors in E1; by injection E1 as ?).
  assert (node_heap w2 = node_heap w1 /\ electors w2 = electors w1 /\ awaits w2 a idx /\
    replicas w2 idx = replicas w1 idx /\ voting_nodes w2 = voting_nodes w1)
    as (Hh2 & E2 & A2 & P2 & V2).
  { unfold w2. destruct (_ && _); [|done]. split_and!; try done.
    destruct A1 as [[Sok1 Hs1 Hr1] ? ? X1 ?]. split; [split; [|done|done]|done|done|done|done].
    apply (server_ok_commit w1); [done|by exists idx; right|done]. }
  split_and!; [done|by rewrite E2, E1| | | |].
  - rewrite P2. apply replicas_elem. by rewrite El.
  - intros x [H1 H2]%replicas_elem. rewrite P2. apply replicas_elem. rewrite El. split; [done|].
    destruct (decide (x = b)) as [->|Hne]; [done|]. by rewrite Hx1.
  - intros x Hne Hx. unfold behind, node_sat in *. rewrite Hh2. cbn.
    by rewrite lookup_insert_ne by done.
  - unfold held_by_majority. rewrite P2, V2. fold (held_by_majority w1 idx).
    unfold w2. change (commit_of w1) with (commit_of w). by destruct (_ && _).
Qed.

(** The leader after the acknowledgements [seen] arrived, with [rest] to come. *)
Definition committing (a : alog) (idx : Z) (w0 : world) (seen rest : list addr) (w : world) : Prop :=
  awaits w a idx /\ electors w = electors w0 /\ seen ⊆ replicas w idx /\
  (forall b, b ∈ rest -> behind w idx b) /\
  (commit_of w = idx \/
   (commit_of w < idx /\ (seen = [] \/ held_by_majority w idx = false))).

Definition acks_arrive (t idx first : Z) (bs : list addr) : M world unit :=
  foreach bs (fun b =>
    let! _ := raft_recv_appendentries_response (Some b) (acked t idx first) in ret tt).

(** One more acknowledgement arrives. *)
Lemma commit_step a idx first w0 seen b rest w : committing a idx w0 seen (b :: rest) w ->
  b ∉ rest -> b ∈ electorate w0 ->
  exists w1, raft_recv_appendentries_response (Some b) (acked (term_of w0) idx first) w = Ok 0 w1 /\
    committing a idx w0 (seen ++ [b]) rest w1.
Proof.
  intros (A & HE & Hseen & Hrest & Hc) Hb Hel.
  assert (electorate w = electorate w0 /\ term_of w = term_of w0) as [El Ht]
    by (unfold electors in HE; split; congruence).
  destruct (ack_ok w a b idx first A) as (w1 & H1 & A1 & E1 & B1 & S1 & Be1 & C1).
  { by rewrite El. }
  { apply Hrest. left. }
  rewrite Ht in H1. exists w1. split; [done|]. split_and!; [done|congruence| | |].
  - intros x [Hx|Hx]%elem_of_app; [by apply S1, Hseen|].
    by apply list_elem_of_singleton in Hx as ->.
  - intros x Hx. apply Be1; [intros Heq; apply Hb; by rewrite <- Heq|]. apply Hrest. by right.
  - rewrite C1. destruct Hc as [Hc|[Hlt Hm]].
    + left. by rewrite Hc, Z.ltb_irrefl.
    + destruct (Z.ltb_spec (commit_of w) idx); [|lia]. cbn [andb].
      destruct (held_by_majority w1 idx); [by left|right]. split; [done|by right].
Qed.

Lemma acks_arrive_ok a idx first w0 bs : forall seen w, committing a idx w0 seen bs w ->
  NoDup bs -> bs ⊆ electorate w0 ->
  exists w', acks_arrive (term_of w0) idx first bs w = Ok tt w' /\
    committing a idx w0 (seen ++ bs) [] w'.
Proof.
  induction bs as [|b bs IH]; intros seen w Hw Hnd Hbs; [exists w; by rewrite app_nil_r|].
  apply NoDup_cons in Hnd as [Hb Hnd].
  destruct (commit_step a idx first w0 seen b bs w Hw Hb ltac:(apply Hbs; left)) as (w1 & H1 & Hw1).
  destruct (IH _ w1 Hw1 Hnd ltac:(set_solver)) as (w' & H' & Hw').
  exists w'. unfold acks_arrive in *. cbn [foreach].
  rewrite bind_assoc, (bind_ok_l _ _ _ _ _ H1), bind_ret_l. split; [done|].
  by rewrite <- app_assoc in Hw'.
Qed.

(** The leader once a client's entry is in its log. *)
Lemma entry_taken w a ety : ready_to_lead w a -> al_last a + 1 < INT_MAX -> offers_accept w ->
  role w = RAFT_STATE_LEADER -> raft_entry_is_cfg_change ety = false ->
  commit_of w <= al_last a -> (1 < length (voting_nodes w))%nat ->
  let a' := al_append (with_ety_term (to_uint (term_of w)) ety) a in
  exists w1 u, raft_recv_entry ety w
      = Ok (0, stamped w a ety, Some (mk_entry_response (ety_id ety) (term_of w) (al_last a + 1))) w1 /\
    awaits w1 a' (al_last a + 1) /\ commit_of w1 = commit_of w /\ role_of w1 = role_of w /\
    node_state w1 = node_state w /\ user_data w1 = sends w a' u (waiting w a').
Proof.
  intros [Sok Hsnap _] Hroom Hacc Hl Hcfg Hci Hone a'.
  destruct (raft_recv_entry_run w a ety Sok Hsnap Hacc Hl Hcfg ltac:(lia) Hci)
    as (w1 & H1 & Sok1 & K1 & G1 & C1 & N1 & Hsnap1 & Hu).
  unfold entry_spread in Hu. set (u := offered _ _ _ _) in Hu.
  rewrite decide_False in C1 by lia. exists w1, u. pose proof (so_log _ _ Sok) as R.
  pose proof (log_repr_bound _ _ R). pose proof (lr_last _ _ R). pose proof (lr_base _ _ R).
  assert (al_last a' = al_last a + 1) as Hlast by apply al_append_last.
  injection K1 as L1 T1. split; [done|]. split; [|split_and!; try done; by unfold role_of; rewrite L1, T1].
  split; [by split; [done|done|lia]|done|lia| |by rewrite L1].
  exists (stamped w a ety). split; [done|]. by rewrite T1.
Qed.

(** The start of the wait, and its end when enough peers answered. *)
Lemma committing_starts a idx w bs : awaits w a idx -> commit_of w < idx ->
  (forall b, b ∈ bs -> behind w idx b) -> committing a idx w [] bs w.
Proof. intros A Hc Hb. split_and!; try done; [set_solver|]. right. split; [done|by left]. Qed.

Lemma commit_reached a idx w bs w' : committing a idx w bs [] w' -> NoDup bs ->
  (1 < length (voting_nodes w))%nat -> (length (voting_nodes w) < 2 * (1 + length bs))%nat ->
  commit_of w' = idx.
Proof.
  intros (A & E & S & _ & Hc) Hnd Hone Hlen. destruct Hc as [|[_ Hm]]; [done|]. exfalso.
  pose proof (nodup_le bs _ Hnd S). unfold electors in E. injection E as _ V2 _ _ _ _ _.
  destruct Hm as [->|Hm]; [cbn in Hlen; lia|]. unfold held_by_majority in Hm. rewrite V2 in Hm.
  pose proof (quot_half (Z.of_nat (length (voting_nodes w))) ltac:(lia)).
  apply Z.ltb_ge in Hm. lia.
Qed.

(** An entry gets committed.  A leader of more than one voting member that
    takes an application entry from a client, and receives acknowledgements of
    it from enough peers for a majority with itself, in whatever order, commits
    it: the commit index becomes the index given to the client.  Nothing fails
    on the way, whatever the callbacks that send answer. *)
Theorem entry_commits w a ety bs first :
  ready_to_lead w a -> al_last a + 1 < INT_MAX -> offers_accept w ->
  role w = RAFT_STATE_LEADER -> raft_entry_is_cfg_change ety = false ->
  commit_of w <= al_last a -> (1 < length (voting_nodes w))%nat ->
  NoDup bs -> bs ⊆ electorate w -> (forall b, b ∈ bs -> behind w (al_last a + 1) b) ->
  (length (voting_nodes w) < 2 * (1 + length bs))%nat ->
  let idx := al_last a + 1 in
  exists w1 w2, raft_recv_entry ety w
      = Ok (0, stamped w a ety, Some (mk_entry_response (ety_id ety) (term_of w) idx)) w1 /\
    commit_of w1 = commit_of w /\
    acks_arrive (term_of w) idx first bs w1 = Ok tt w2 /\
    commit_of w2 = idx /\ role_of w2 = role_of w.
Proof.
  intros Rl Hroom Hacc Hl Hcfg Hci Hone Hnd Hbs Hbeh Hlen idx.
  destruct (entry_taken w a ety Rl Hroom Hacc Hl Hcfg Hci Hone)
    as (w1 & u & H1 & A1 & C1 & K1 & N1 & _). exists w1.
  set (a' := al_append _ a) in *. injection K1 as L1 T1.
  assert (electorate w1 = electorate w /\ voting_nodes w1 = voting_nodes w) as [El Vo].
  { split; [|by apply voting_nodes_same]. unfold electorate, is_self_ptr, node_sat.
    unfold node_state in N1. by injection N1 as -> _ -> -> _. }
  assert (committing a' idx w1 [] bs w1) as Hw1.
  { apply committing_starts; [done|unfold idx; lia|]. intros b Hb. specialize (Hbeh b Hb).
    unfold behind, node_sat in *. unfold node_state in N1. by injection N1 as _ _ _ -> _. }
  destruct (acks_arrive_ok a' idx first w1 bs [] w1 Hw1 Hnd ltac:(by rewrite El))
    as (w2 & Hrun & Hc2). rewrite T1 in Hrun. exists w2. split_and!; try done.
  - by eapply commit_reached; [exact Hc2|done|rewrite Vo..].
  - destruct Hc2 as (A2 & E2 & _). unfold electors in E2. injection E2 as _ _ _ _ _ _ T2.
    unfold role_of. f_equal; [|congruence]. rewrite (aw_leader _ _ _ A2). by rewrite Hl.
Qed.
End Committing.

(** ** Witnesses *)

(** Node 1 of [sim_cluster]'s kind, and the nodes 2 and 3, all of them fresh. *)
Definition sim_peer (i : Z) : world :=
  run_world (sim_start sim_cbs i (List.filter (fun j => negb (i =? j)) [1; 2; 3])) sim_boot.

Lemma sim_peer_ready i : i = 1 \/ i = 2 \/ i = 3 -> ready_to_lead (sim_peer i) (mk_alog 0 []).
Proof.
  intros Hi. split; [|split|].
  - destruct Hi as [->|[->| ->]]; apply server_okb_sound; vm_compute; reflexivity.
  - destruct Hi as [->|[->| ->]]; vm_compute; reflexivity.
  - destruct Hi as [->|[->| ->]]; vm_compute; reflexivity.
  - vm_compute. reflexivity.
Qed.

(** Node 2 votes for node 1; two votes of three are a majority. *)
Definition sim_voter : voter := mk_voter (sim_peer 2) (mk_alog 0 []) 2%positive 2%positive.

Lemma election_succeeds_witness :
  exists w1 w2, raft_election_start (sim_peer 1) = Ok 0 w1 /\ term_of w1 = term_of (sim_peer 1) + 1 /\
    foreach [sim_voter] (fun v =>
      let! _ := raft_recv_requestvote_response (Some (v_node v))
                  (answer (vote_request w1 (mk_alog 0 [])) v) in ret tt) w1 = Ok tt w2 /\
    role w2 = RAFT_STATE_LEADER /\ term_of w2 = term_of (sim_peer 1) + 1 /\
    ready_to_lead w2 (mk_alog 0 []).
Proof.
  apply (election_succeeds (sim_peer 1) (mk_alog 0 []) [sim_voter]).
  - apply sim_peer_ready. by left.
  - split; [vm_compute; discriminate|vm_compute; reflexivity].
  - exists 1%positive. split; vm_compute; reflexivity.
  - apply Nat.ltb_lt. vm_compute. reflexivity.
  - apply NoDup_singleton.
  - intros v ->%list_elem_of_singleton. split.
    + apply electorate_elem. split; [apply (bool_decide_unpack _); vm_compute; exact I|].
      split; [vm_compute; discriminate|vm_compute; reflexivity].
    + split; [exact (rl_ok _ _ (sim_peer_ready 2 ltac:(by right; left)))|].
      split; [vm_compute; by eexists|]. split; [vm_compute; reflexivity|].
      split; [vm_compute; discriminate|vm_compute; reflexivity].
  - apply Nat.ltb_lt. vm_compute. reflexivity.
Defined.

(** The leader of three takes an entry and node 2 acknowledges it. *)
Lemma entry_commits_witness :
  let a := mk_alog 0 [] in
  exists w1 w2, raft_recv_entry (sim_entry 0 7) sim_leader
      = Ok (0, stamped sim_leader a (sim_entry 0 7),
            Some (mk_entry_response (ety_id (sim_entry 0 7)) (term_of sim_leader) (al_last a + 1))) w1 /\
    commit_of w1 = commit_of sim_leader /\
    acks_arrive (term_of sim_leader) (al_last a + 1) 1 [2%positive] w1 = Ok tt w2 /\
    commit_of w2 = al_last a + 1 /\ role_of w2 = role_of sim_leader.
Proof.
  apply (entry_commits sim_leader (mk_alog 0 []) (sim_entry 0 7) [2%positive] 1).
  - split; [exact sim_leader_ok|split; vm_compute; reflexivity|vm_compute; reflexivity].
  - vm_compute. reflexivity.
  - apply sim_accepts; vm_compute; reflexivity.
  - vm_compute. reflexivity.
  - reflexivity.
  - vm_compute. discriminate.
  - apply Nat.ltb_lt. vm_compute. reflexivity.
  - apply NoDup_singleton.
  - intros b ->%list_elem_of_singleton. apply electorate_elem.
    split; [apply (bool_decide_unpack _); vm_compute; exact I|].
    split; [vm_compute; discriminate|vm_compute; reflexivity].
  - intros b ->%list_elem_of_singleton. vm_compute. reflexivity.
  - apply Nat.ltb_lt. vm_compute. reflexivity.
Defined.
