(* ===== verification/Cluster.v ===== *)
(** * A cluster of servers: election safety

    Several servers call the library and exchange vote requests and responses
    over a network that may lose, repeat, delay and reorder messages.  Every
    other call is made with arbitrary arguments.  The members are fixed: no
    configuration entry reaches a server.  In every reachable state at most one
    server is the leader of a term. *)
From S2P Require Import Prelude Contiki Types Node Membership Log Server Election Replication.
From S2P Require Import Sim NodeFacts Frames History LogFacts MemberFacts ElectionFacts Roles.
From S2P Require Import Campaign Lifecycle Fixed.

Section Cluster.
Context {T : CTarget} {C : Contiki} {L : ContikiLaws C} {U : User}.

(** ** The cluster *)

(** The servers by their id, and the vote responses sent so far: sender,
    receiver, message.  A response stays in the network: it may arrive any number
    of times, in any order, or never. *)
Record cluster := mk_cluster {
  server : gmap Z world;
  responses : list (Z * Z * msg_requestvote_response_t)
}.

(** The calls that are not about votes, without configuration entries. *)
Definition other_call (o : raft_op) : Prop :=
  match o with
  | OpRecvAppendentries _ ae => normal_message ae
  | OpRecvEntry e => raft_entry_is_cfg_change e = false
  | OpRecvRequestvote _ _ | OpRecvRequestvoteResponse _ _ => False
  | OpPeriodic _ | OpRecvAppendentriesResponse _ _ | OpApplyAll => True
  end.

(** The node given to the library with a message from [j], as [raft_get_node]
    finds it. *)
Definition node_of_sender (w : world) (p : ptr) (j : Z) : Prop :=
  match p with None => True | Some a => node_id_at w a = Some j end.

(** One server makes a call that ends; the answer to a vote request is sent to
    the candidate.  Between the calls the user's data and the random numbers
    change in any way. *)
Inductive cluster_step (c : cluster) : cluster -> Prop :=
  | step_call i o w u w' :
      server c !! i = Some w -> other_call o -> run_op o w = Ok u w' ->
      cluster_step c (mk_cluster (<[i := w']> (server c)) (responses c))
  | step_request i p vr w e r w' :
      server c !! i = Some w -> raft_recv_requestvote p vr w = Ok (e, r) w' ->
      cluster_step c (mk_cluster (<[i := w']> (server c))
                        ((i, rv_candidate_id vr, r) :: responses c))
  | step_response i j p r w e w' :
      server c !! i = Some w -> (j, i, r) ∈ responses c -> node_of_sender w p j ->
      raft_recv_requestvote_response p r w = Ok e w' ->
      cluster_step c (mk_cluster (<[i := w']> (server c)) (responses c))
  | step_outside i u g w :
      server c !! i = Some w ->
      cluster_step c (mk_cluster (<[i := with_user_data u (with_rand_state g w)]> (server c))
                        (responses c)).

(** The ids of a list of nodes. *)
Definition ids_at (w : world) (l : list addr) : list Z := omap (node_id_at w) l.

(** The state of server [i] of a cluster with voting members [V] before any
    message. *)
Record ready (V : gset Z) (i : Z) (w : world) : Prop := {
  rd_nodes : nodes_wf w;
  rd_self : self_wf w;
  rd_normal : normal_entries w;
  rd_id : self_id w = i;
  rd_role : role w = RAFT_STATE_FOLLOWER;
  rd_vote : vote_of w = -1;
  rd_voting : list_to_set (ids_at w (voting_nodes w)) = V;
  rd_member : i ∈ V;
  rd_valid : i <> -1
}.

(** ** The invariant

    [cast j t x]: server [j] has voted for [x] in term [t]. *)
Section Invariant.
Context (V : gset Z).

Definition elected (cast : Z -> Z -> Z -> Prop) (t i : Z) : Prop :=
  exists Q : gset Z, Q ⊆ V /\ (stdpp.base.size V < 2 * stdpp.base.size Q)%nat /\
    forall j, j ∈ Q -> cast j t i.

Record server_inv (cast : Z -> Z -> Z -> Prop) (i : Z) (w : world) : Prop := {
  si_nodes : nodes_wf w;
  si_self : self_wf w;
  si_normal : normal_entries w;
  si_id : self_id w = i;
  si_voting : list_to_set (ids_at w (voting_nodes w)) = V;
  si_member : i ∈ V;
  si_valid : i <> -1;
  si_past : forall t x, cast i t x -> t <= term_of w /\ (t = term_of w -> vote_of w = x);
  si_vote : vote_of w <> -1 -> cast i (term_of w) (vote_of w);
  si_flags : role w = RAFT_STATE_CANDIDATE -> forall a j, a ∈ nodes_list (srv w) ->
    node_id_at w a = Some j -> flagged w a = true -> cast j (term_of w) i;
  si_leader : role w = RAFT_STATE_LEADER -> elected cast (term_of w) i
}.

Record cluster_inv (cast : Z -> Z -> Z -> Prop) (c : cluster) : Prop := {
  ci_server : forall i w, server c !! i = Some w -> server_inv cast i w;
  ci_once : forall j t x y, cast j t x -> cast j t y -> x = y;
  ci_some : forall j t x, cast j t x -> x <> -1;
  ci_granted : forall j i r, (j, i, r) ∈ responses c -> i <> -1 ->
    rvr_vote_granted r = 1 -> cast j (rvr_term r) i
}.

Lemma elected_mono (cast cast' : Z -> Z -> Z -> Prop) t i :
  (forall j s x, cast j s x -> cast' j s x) -> elected cast t i -> elected cast' t i.
Proof. intros H (Q & H1 & H2 & H3). exists Q. split_and!; auto. Qed.

(** *** Counting ids *)
Lemma ids_at_elem w l j : j ∈ ids_at w l <-> exists a, a ∈ l /\ node_id_at w a = Some j.
Proof. unfold ids_at. apply list_elem_of_omap. Qed.

Lemma ids_at_size w l : nodes_wf w -> NoDup l -> (forall a, a ∈ l -> a ∈ nodes_list (srv w)) ->
  stdpp.base.size (list_to_set (ids_at w l) : gset Z) = length l.
Proof.
  intros W Hnd. induction Hnd as [|a l Ha Hnd IH]; intros Hl; [exact size_empty|].
  destruct (nw_heap _ W a (Hl a ltac:(left))) as [n Hn].
  assert (node_id_at w a = Some (id n)) as Hi by (unfold node_id_at; by rewrite Hn).
  unfold ids_at. cbn [omap list_omap]. rewrite Hi. cbn [list_to_set length].
  rewrite size_union, size_singleton.
  - f_equal. apply IH. intros b Hb. apply Hl. by right.
  - intros j Hj%elem_of_singleton Hin%elem_of_list_to_set. subst j.
    apply ids_at_elem in Hin as (b & Hb & Hib). apply Ha.
    rewrite (nw_ids _ W a b (id n)); [done|apply Hl; left|apply Hl; by right|done|done].
Qed.

Lemma filter_nodup {A} (g : A -> bool) l : NoDup l -> NoDup (List.filter g l).
Proof.
  induction 1 as [|x l Hx Hnd IH]; cbn; [constructor|]. destruct (g x); [|done].
  constructor; [|done]. rewrite list_elem_of_In, List.filter_In, <- list_elem_of_In. tauto.
Qed.

Lemma filter_elem {A} (g : A -> bool) l x :
  x ∈ List.filter g l <-> x ∈ l /\ g x = true.
Proof. by rewrite !list_elem_of_In, List.filter_In. Qed.

(** *** One server moves *)

(** What a call of server [i] has to establish for the invariant to be kept. *)
Record moved (cast : Z -> Z -> Z -> Prop) (i : Z) (w w' : world) : Prop := {
  mv_hist : hist w w';
  mv_normal : normal_entries w';
  mv_roll : roll w' = roll w;
  mv_flags : role w' = RAFT_STATE_CANDIDATE -> forall a j, a ∈ nodes_list (srv w') ->
    node_id_at w' a = Some j -> flagged w' a = true -> cast j (term_of w') i;
  mv_leader : role w' = RAFT_STATE_LEADER -> elected cast (term_of w') i
}.

(** The votes cast once server [i] is in state [w]. *)
Definition cast_by (cast : Z -> Z -> Z -> Prop) (i : Z) (w : world) : Z -> Z -> Z -> Prop :=
  fun j t x => cast j t x \/ (j = i /\ t = term_of w /\ x = vote_of w /\ x <> -1).

Lemma roll_ids w w' l : roll w' = roll w -> ids_at w' l = ids_at w l.
Proof.
  intros H. unfold ids_at. induction l as [|a l IH]; [done|]. cbn.
  by rewrite (roll_id w w' a H), IH.
Qed.

Lemma server_inv_mono (cast cast' : Z -> Z -> Z -> Prop) j w :
  (forall k s x, cast k s x -> cast' k s x) -> (forall s x, cast' j s x -> cast j s x) ->
  server_inv cast j w -> server_inv cast' j w.
Proof.
  intros Hc Hj []. split; eauto using elected_mono.
Qed.

Lemma moved_server_inv cast i w w' :
  (forall j t x, cast j t x -> x <> -1) ->
  server_inv cast i w -> moved (cast_by cast i w') i w w' ->
  server_inv (cast_by cast i w') i w'.
Proof.
  intros Hs [] [Hh Hn HR Hf Hl]. split; try done.
  - by apply (roll_nodes_wf w).
  - by apply (roll_self_wf w).
  - by rewrite (roll_self_id w).
  - by rewrite (roll_voting w w' HR), (roll_ids w w').
  - intros t x [Hc|(_ & -> & -> & _)]; [|done].
    destruct (si_past0 t x Hc) as [H1 H2]. destruct Hh as [[Ht _] Hv].
    split; [lia|]. intros ->. assert (term_of w = term_of w') as E by lia.
    rewrite (Hv E); [by apply H2|]. rewrite H2 by done. by eapply Hs.
  - intros Hv. right. done.
Qed.

Lemma cast_by_once cast i w w' :
  (forall j t x y, cast j t x -> cast j t y -> x = y) ->
  (forall j t x, cast j t x -> x <> -1) ->
  server_inv cast i w -> hist w w' ->
  forall j t x y, cast_by cast i w' j t x -> cast_by cast i w' j t y -> x = y.
Proof.
  intros Ho Hs Hi [[Ht _] Hv].
  assert (forall x, cast i (term_of w') x -> x = vote_of w') as Hnew.
  { intros x Hc. destruct (si_past _ _ _ Hi _ _ Hc) as [H1 H2].
    assert (term_of w' = term_of w) as E by lia.
    rewrite Hv; [by rewrite H2|done|]. rewrite H2 by done. by eapply Hs. }
  intros j t x y [Hx|(-> & -> & -> & _)] [Hy|(E1 & E2 & E3 & _)]; subst.
  - by eapply Ho.
  - by apply Hnew.
  - symmetry. by apply Hnew.
  - done.
Qed.

(** The invariant after a call, with new responses. *)
Lemma moved_inv cast c i w w' rs :
  cluster_inv cast c -> server c !! i = Some w ->
  moved (cast_by cast i w') i w w' ->
  (forall j k r, (j, k, r) ∈ rs -> (j, k, r) ∈ responses c \/
     (k <> -1 -> rvr_vote_granted r = 1 -> cast_by cast i w' j (rvr_term r) k)) ->
  cluster_inv (cast_by cast i w') (mk_cluster (<[i := w']> (server c)) rs).
Proof.
  intros [Hserver Honce Hsome Hgranted] Hi Hm Hrs.
  pose proof (Hserver i w Hi) as Si. split; cbn.
  - intros k v. rewrite lookup_insert_Some. intros [[<- <-]|[Hne Hk]].
    + by apply (moved_server_inv cast i w).
    + apply (server_inv_mono cast); [by left| |by apply Hserver].
      intros s x [Hc|(-> & _)]; done.
  - eapply cast_by_once; try done. apply Hm.
  - intros j t x [Hc|(_ & _ & _ & Hx)]; [by eapply Hsome|done].
  - intros j k r Hin Hk Hr. destruct (Hrs j k r Hin) as [Hold|Hnew]; [left|]; auto.
Qed.

(** *** The calls *)

(** A call about something else than votes records none, and a campaign it
    starts has none recorded. *)
Lemma other_call_votes o w u w' : nodes_wf w -> normal_entries w -> other_call o ->
  run_op o w = Ok u w' ->
  normal_entries w' /\ roll w' = roll w /\
  (forall a, flagged w' a = true -> flagged w a = true) /\
  (role w' = RAFT_STATE_CANDIDATE -> term_of w < term_of w' ->
   forall a, a ∈ nodes_list (srv w') -> flagged w' a = false).
Proof.
  intros W N Ho H. pose proof (role_transitions_run o w u w' W H) as HR.
  assert ((exists n, o = OpPeriodic n) \/ forall n, o <> OpPeriodic n) as [[n ->]|Hp]
    by (destruct o; eauto).
  - cbn in H. run_bind H as e w1 H1. run_ret H.
    destruct (raft_periodic_fewer n w e w' H1 N W) as (N' & R' & F' & _ & S'). auto.
  - assert (stays polls w w') as [N' P']; [|done|].
    { pose proof set_sufficient_polls as Hs.
      destruct o; cbn in H, Ho; try done; run_bind H as e w1 H1; run_ret H.
      - by edestruct Hp.
      - eapply (raft_recv_appendentries_stays polls); try apply _; eauto.
      - eapply (raft_recv_appendentries_response_stays polls); try apply _; eauto.
      - eapply (raft_recv_entry_stays polls); try apply _; eauto.
      - eapply (raft_apply_all_stays polls); try apply _; eauto. }
    split_and!; [done|unfold polls in P'; congruence|intros a; by rewrite (polls_flagged w w' P')|].
    intros Hc Ht. exfalso. destruct HR; unfold role_of in *; try congruence.
    assert (term_of w' = term_of w) by congruence. lia.
Qed.

(** The step of roles of a call, when the votes recorded afterwards are known:
    what is left to establish is who elected a new leader. *)
Lemma role_step_moved cast i o w w' :
  server_inv cast i w -> hist w w' -> normal_entries w' -> roll w' = roll w ->
  role_step w w' o ->
  (role w' = RAFT_STATE_CANDIDATE -> forall a j, a ∈ nodes_list (srv w') ->
    node_id_at w' a = Some j -> flagged w' a = true -> cast_by cast i w' j (term_of w') i) ->
  (role w <> RAFT_STATE_LEADER -> role w' = RAFT_STATE_LEADER ->
   elected (cast_by cast i w') (term_of w') i) ->
  moved (cast_by cast i w') i w w'.
Proof.
  intros Si Hh N R HR Hf Hl. split; try done. intros Hlead.
  destruct (decide (role w = RAFT_STATE_LEADER)) as [Hw|Hw]; [|by apply Hl].
  assert (term_of w' = term_of w) as ->.
  { destruct HR; unfold role_of in *; congruence. }
  apply (elected_mono cast); [by left|]. by apply (si_leader _ _ _ Si).
Qed.

Lemma voting_size cast i w : server_inv cast i w ->
  stdpp.base.size V = length (voting_nodes w).
Proof.
  intros Si. rewrite <- (si_voting _ _ _ Si). pose proof (si_nodes _ _ _ Si) as W.
  apply ids_at_size; [done|apply filter_nodup, nw_nodup, W|].
  intros a [Ha _]%filter_elem. done.
Qed.

(** The votes recorded by a server that keeps its candidacy were cast. *)
Lemma old_flags cast i w w' : server_inv cast i w -> roll w' = roll w ->
  role_of w' = role_of w -> role w' = RAFT_STATE_CANDIDATE ->
  forall a j, a ∈ nodes_list (srv w') -> node_id_at w' a = Some j -> flagged w a = true ->
  cast_by cast i w' j (term_of w') i.
Proof.
  intros Si R [= Hr Ht] Hc a j Ha Hj Hf. left. rewrite Ht.
  apply (si_flags _ _ _ Si) with a; [congruence| |by rewrite <- (roll_id w w')|done].
  unfold roll in R. congruence.
Qed.

Lemma call_moved cast i o w u w' : (1 < stdpp.base.size V)%nat ->
  server_inv cast i w -> other_call o -> run_op o w = Ok u w' ->
  moved (cast_by cast i w') i w w'.
Proof.
  intros HV Si Ho H. pose proof (si_nodes _ _ _ Si) as W. pose proof (si_normal _ _ _ Si) as N.
  destruct (other_call_votes o w u w' W N Ho H) as (N' & R' & F' & S').
  pose proof (role_transitions_run o w u w' W H) as HR.
  apply (role_step_moved cast i o); try done; [by eapply run_op_hist| |].
  - intros Hc a j Ha Hj Hf. destruct HR; try congruence.
    + by apply (old_flags cast i w w') with a; auto.
    + rewrite S' in Hf; [done|done|lia|done].
  - intros Hn Hl. exfalso. destruct HR; unfold role_of in *; try congruence; [done|].
    rewrite (voting_size cast i w Si) in HV. lia.
Qed.

Lemma request_moved cast i p vr w r w' :
  server_inv cast i w -> raft_recv_requestvote p vr w = Ok r w' ->
  moved (cast_by cast i w') i w w'.
Proof.
  intros Si H. pose proof (si_nodes _ _ _ Si) as W. pose proof (si_normal _ _ _ Si) as N.
  assert (run_op (OpRecvRequestvote p vr) w = Ok tt w') as Hop.
  { cbn. by rewrite (bind_ok_l _ _ _ _ _ H). }
  pose proof (role_transitions_run _ w tt w' W Hop) as HR.
  assert (stays polls w w') as [N' P']; [|done|].
  { eapply (raft_recv_requestvote_stays polls); try apply _; eauto. }
  assert (roll w' = roll w) as R' by (unfold polls in P'; congruence).
  apply (role_step_moved cast i (OpRecvRequestvote p vr)); try done.
  - by eapply raft_recv_requestvote_hist.
  - intros Hc a j Ha Hj Hf. rewrite (polls_flagged w w' P') in Hf.
    inversion HR; subst; try congruence. by apply (old_flags cast i w w') with a.
  - intros Hn Hl. exfalso. inversion HR; subst; unfold role_of in *; congruence.
Qed.

(** A majority of recorded votes, the server's own included, elects it. *)
Lemma majority_elected cast i w w' :
  server_inv cast i w -> roll w' = roll w -> 
  Z.of_nat (length (voting_nodes w')) <
    2 * (Z.of_nat (length (voters_for_me w')) + (if vote_of w' =? self_id w' then 1 else 0)) ->
  (forall a j, a ∈ voters_for_me w' -> node_id_at w' a = Some j ->
    cast_by cast i w' j (term_of w') i) ->
  elected (cast_by cast i w') (term_of w') i.
Proof.
  intros Si R Hm Hc. pose proof (voting_size cast i w Si) as HV.
  rewrite <- (roll_voting w w' R) in HV.
  assert (nodes_wf w') as W by apply (roll_nodes_wf w w' R), (si_nodes _ _ _ Si).
  assert (self_id w' = i) as Hid by (rewrite (roll_self_id w w' R); apply (si_id _ _ _ Si)).
  rewrite Hid in Hm.
  set (voters := list_to_set (ids_at w' (voters_for_me w')) : gset Z).
  set (own := if vote_of w' =? i then {[i]} else ∅ : gset Z).
  assert (stdpp.base.size voters = length (voters_for_me w')) as Hvs.
  { apply ids_at_size; [done|apply filter_nodup, nw_nodup, W|]. by intros a [Ha _]%filter_elem. }
  assert (voters ## own) as Hdis.
  { intros j Hj Hj'. unfold own in Hj'. destruct (_ =? _); [|set_solver].
    apply elem_of_singleton in Hj' as ->.
    apply elem_of_list_to_set, ids_at_elem in Hj as (a & Ha & Hja).
    apply filter_elem in Ha as [Ha Hs]. apply andb_true_iff in Hs as [Hs _].
    destruct (roll_self_wf w w' R (si_self _ _ _ Si)) as (b & Hb & Hbl).
    unfold self_id in Hid. rewrite Hb in Hid.
    destruct (nw_heap _ W b Hbl) as [n Hn]. unfold node_id_at in Hid. rewrite Hn in Hid.
    cbn in Hid. apply negb_true_iff, bool_decide_eq_false in Hs. apply Hs.
    rewrite Hb. f_equal. apply (nw_ids _ W b a i); [done|done| |done].
    unfold node_id_at. rewrite Hn. cbn. congruence. }
  exists (voters ∪ own). split_and!.
  - apply union_subseteq. split.
    + intros j Hj. apply elem_of_list_to_set, ids_at_elem in Hj as (a & Ha & Hja).
      rewrite <- (si_voting _ _ _ Si), <- (roll_voting w w' R), <- (roll_ids w w' _ R).
      apply elem_of_list_to_set, ids_at_elem. exists a. split; [|done].
      apply filter_elem in Ha as [Ha Hs]. apply filter_elem. split; [done|].
      apply andb_true_iff in Hs as [_ Hs]. unfold node_sat in *.
      destruct (node_heap w' !! a); [|done]. by apply andb_true_iff in Hs as [Hs _].
    + pose proof (si_member _ _ _ Si). unfold own. destruct (_ =? _); set_solver.
  - rewrite size_union by done. rewrite Hvs, HV. unfold own.
    destruct (vote_of w' =? i); [rewrite size_singleton|rewrite size_empty]; lia.
  - intros j [Hj|Hj]%elem_of_union.
    + apply elem_of_list_to_set, ids_at_elem in Hj as (a & Ha & Hja). by eapply Hc.
    + unfold own in Hj. destruct (Z.eqb_spec (vote_of w') i) as [Hv|]; [|set_solver].
      apply elem_of_singleton in Hj as ->. right. pose proof (si_valid _ _ _ Si).
      split_and!; congruence.
Qed.

Lemma response_moved cast c i j p r w e w' : cluster_inv cast c ->
  server c !! i = Some w -> (j, i, r) ∈ responses c -> node_of_sender w p j ->
  raft_recv_requestvote_response p r w = Ok e w' ->
  moved (cast_by cast i w') i w w'.
Proof.
  intros HI Hi Hin Hp H. pose proof (ci_server _ _ HI i w Hi) as Si.
  pose proof (si_nodes _ _ _ Si) as W. pose proof (si_normal _ _ _ Si) as N.
  destruct (response_votes p r w e w' H N) as (N' & R' & F').
  assert (run_op (OpRecvRequestvoteResponse p r) w = Ok tt w') as Hop.
  { cbn. by rewrite (bind_ok_l _ _ _ _ _ H). }
  pose proof (role_transitions_run _ w tt w' W Hop) as HR.
  assert (role w = RAFT_STATE_CANDIDATE -> term_of w' = term_of w ->
    forall a k, a ∈ nodes_list (srv w') -> node_id_at w' a = Some k -> flagged w' a = true ->
    cast_by cast i w' k (term_of w') i) as Hflags.
  { intros Hc Ht a k Ha Hk Hf. left. rewrite Ht.
    rewrite (roll_id w w' a R') in Hk. destruct (F' a Hf) as [Hf'|(-> & Hg & Hrt)].
    - apply (si_flags _ _ _ Si) with a; try done. unfold roll in R'. congruence.
    - cbn in Hp. rewrite Hp in Hk. injection Hk as <-. rewrite <- Hrt.
      by apply (ci_granted _ _ HI j i r), Hg; [|apply (si_valid _ _ _ Si)]. }
  apply (role_step_moved cast i (OpRecvRequestvoteResponse p r)); try done.
  - by eapply raft_recv_requestvote_response_hist.
  - intros Hc. inversion HR; subst; try congruence. unfold role_of in *. apply Hflags; congruence.
  - intros Hn Hl. inversion HR; subst; unfold role_of in *; try congruence.
    destruct (election_by_majority_run p r w e w' W (si_self _ _ _ Si) H Hn Hl) as (Hm & _).
    apply (majority_elected cast i w w'); try done.
    intros a k Ha Hk. apply filter_elem in Ha as [Ha Hs]. apply andb_true_iff in Hs as [_ Hs].
    apply Hflags with a; try done. unfold flagged, node_sat in *.
    destruct (node_heap w' !! a); [|done]. by apply andb_true_iff in Hs as [_ Hs].
Qed.

Lemma outside_moved cast i u g w :
  server_inv cast i w -> moved (cast_by cast i (with_user_data u (with_rand_state g w))) i w
    (with_user_data u (with_rand_state g w)).
Proof.
  intros Si. split; try done.
  - apply (si_normal _ _ _ Si).
  - intros Hc a j Ha Hj Hf. left. by apply (si_flags _ _ _ Si) with a.
  - intros Hl. apply (elected_mono cast); [by left|]. by apply (si_leader _ _ _ Si).
Qed.

(** *** The cluster *)
Lemma cluster_step_at cast c c' : (1 < stdpp.base.size V)%nat ->
  cluster_inv cast c -> cluster_step c c' ->
  exists i w w', server c !! i = Some w /\ server c' = <[i := w']> (server c) /\
    cluster_inv (cast_by cast i w') c'.
Proof.
  intros HV HI Hs.
  destruct Hs as [i o w u w' Hi Ho H|i p vr w e r w' Hi H|i j p r w e w' Hi Hin Hp H|i u g w Hi].
  - exists i, w, w'. do 2 (split; [done|]). apply (moved_inv cast c i w); try done; [|by left].
    eapply call_moved; try done. by apply (ci_server _ _ HI).
  - exists i, w, w'. do 2 (split; [done|]). apply (moved_inv cast c i w); try done.
    + eapply request_moved; [by apply (ci_server _ _ HI)|done].
    + intros j k s [Hs|Hs]%elem_of_cons; [|by left]. right. injection Hs as -> -> ->.
      intros Hk Hg. apply raft_recv_requestvote_granted in H as (_ & -> & _ & Hv & _); [|done].
      right. split_and!; done.
  - exists i, w, w'. do 2 (split; [done|]). apply (moved_inv cast c i w); try done; [|by left].
    by eapply response_moved.
  - exists i, w. eexists. do 2 (split; [done|]). apply (moved_inv cast c i w); try done; [|by left].
    by apply outside_moved, (ci_server _ _ HI).
Qed.

(** The votes grow by that of the server that moved. *)
Lemma cluster_step_votes cast c c' i w' : (1 < stdpp.base.size V)%nat ->
  cluster_inv cast c -> cluster_step c c' -> server c' = <[i := w']> (server c) ->
  exists cast', cluster_inv cast' c' /\ (forall j t x, cast j t x -> cast' j t x) /\
    forall j t x, cast' j t x -> cast j t x \/ (j = i /\ t = term_of w' /\ x = vote_of w').
Proof.
  intros HV HI Hs Hc'. destruct (cluster_step_at cast c c' HV HI Hs) as (i1 & w1 & w1' & Hi1 & E & HI').
  exists (cast_by cast i1 w1'). split; [done|]. split; [by left|].
  intros j t x [Hc|(-> & -> & -> & Hx)]; [by left|]. destruct (decide (i1 = i)) as [->|Hne].
  - right. rewrite Hc' in E. apply (f_equal (lookup i)) in E. rewrite !lookup_insert_eq in E.
    by injection E as ->.
  - left. rewrite Hc' in E. apply (f_equal (lookup i1)) in E.
    rewrite lookup_insert_eq, lookup_insert_ne, Hi1 in E by done. injection E as <-.
    by apply (si_vote _ _ _ (ci_server _ _ HI i1 w1 Hi1)).
Qed.

Lemma cluster_step_inv cast c c' : (1 < stdpp.base.size V)%nat ->
  cluster_inv cast c -> cluster_step c c' ->
  exists cast', cluster_inv cast' c' /\ forall j t x, cast j t x -> cast' j t x.
Proof.
  intros HV HI Hs. destruct (cluster_step_at cast c c' HV HI Hs) as (i & w & w' & _ & _ & HI').
  exists (cast_by cast i w'). split; [done|]. by left.
Qed.

Lemma cluster_steps_inv cast c c' : (1 < stdpp.base.size V)%nat ->
  cluster_inv cast c -> rtc cluster_step c c' ->
  exists cast', cluster_inv cast' c' /\ forall j t x, cast j t x -> cast' j t x.
Proof.
  intros HV HI Hr. revert cast HI. induction Hr as [c|c1 c2 c3 H12 _ IH]; intros cast HI; [eauto|].
  destruct (cluster_step_inv cast c1 c2 HV HI H12) as (cast2 & HI2 & H2).
  destruct (IH cast2 HI2) as (cast3 & HI3 & H3). exists cast3. auto.
Qed.

Lemma ready_inv c : responses c = [] ->
  (forall i w, server c !! i = Some w -> ready V i w) -> cluster_inv (fun _ _ _ => False) c.
Proof.
  intros Hr Hc. split; try done.
  - intros i w Hi. destruct (Hc i w Hi). split; try done; congruence.
  - intros j i r. rewrite Hr. by intros ?%elem_of_nil.
Qed.

Lemma elected_unique cast t i j : (forall k s x y, cast k s x -> cast k s y -> x = y) ->
  elected cast t i -> elected cast t j -> i = j.
Proof.
  intros Ho (P & P1 & P2 & P3) (Q & Q1 & Q2 & Q3).
  destruct (quorums_meet V P Q) as (k & Hk & Hk'); try done. by apply (Ho k t); auto.
Qed.
End Invariant.

Lemma cluster_election_safety V c0 c1 c2 i1 i2 w1 w2 :
  (1 < stdpp.base.size V)%nat ->
  responses c0 = [] -> (forall i w, server c0 !! i = Some w -> ready V i w) ->
  rtc cluster_step c0 c1 -> rtc cluster_step c1 c2 ->
  server c1 !! i1 = Some w1 -> server c2 !! i2 = Some w2 ->
  role w1 = RAFT_STATE_LEADER -> role w2 = RAFT_STATE_LEADER -> term_of w1 = term_of w2 ->
  i1 = i2.
Proof.
  intros HV Hr Hc Hs1 Hs2 H1 H2 L1 L2 Ht.
  destruct (cluster_steps_inv V _ c0 c1 HV (ready_inv V c0 Hr Hc) Hs1) as (k1 & I1 & _).
  destruct (cluster_steps_inv V _ c1 c2 HV I1 Hs2) as (k2 & I2 & Hk).
  apply (elected_unique V k2 (term_of w1) i1 i2 (ci_once _ _ _ I2)).
  - apply (elected_mono V k1 k2 _ _ Hk). by apply (si_leader V k1 i1 w1), L1; apply I1.
  - rewrite Ht. by apply (si_leader V k2 i2 w2), L2; apply I2.
Qed.

(** C12: election safety, the first safety property of Raft, for a cluster of
    servers with a fixed set [V] of at least two voting members.  Whatever
    calls the servers make, whatever the network does with the responses to
    vote requests (loss, repetition, delay, reordering), and whatever the
    callbacks answer or change between the calls: if a server leads a term at
    some time and a server leads the same term then or at any later time, the
    two are the same server. *)
Theorem election_safety V c0 c1 c2 i1 i2 w1 w2 :
  (1 < stdpp.base.size V)%nat ->
  responses c0 = [] -> (forall i w, server c0 !! i = Some w -> ready V i w) ->
  rtc cluster_step c0 c1 -> rtc cluster_step c1 c2 ->
  server c1 !! i1 = Some w1 -> server c2 !! i2 = Some w2 ->
  role w1 = RAFT_STATE_LEADER -> role w2 = RAFT_STATE_LEADER -> term_of w1 = term_of w2 ->
  i1 = i2.
Proof. apply cluster_election_safety. Qed.
End Cluster.

(** ** Witness *)

(** A cluster of three servers: server 1 times out, server 2 grants its vote and
    server 1 takes the response. *)
Definition sim_member (i : Z) : world :=
  run_world (sim_start sim_cbs i (List.filter (fun j => negb (i =? j)) [1; 2; 3])) sim_boot.

Definition sim_cluster : cluster :=
  mk_cluster {[ 1 := sim_member 1; 2 := sim_member 2; 3 := sim_member 3 ]} [].

Definition sim_stood : world := run_world (run_op (OpPeriodic 3000)) (sim_member 1).
Definition sim_voted : world :=
  run_world (raft_recv_requestvote None (mk_requestvote 1 1 0 0)) (sim_member 2).
Definition sim_elected : world :=
  run_world (raft_recv_requestvote_response (Some 2%positive) (mk_requestvote_response 1 1))
    sim_stood.

Definition sim_cluster1 : cluster :=
  mk_cluster (<[1 := sim_stood]> (server sim_cluster)) (responses sim_cluster).
Definition sim_cluster2 : cluster :=
  mk_cluster (<[2 := sim_voted]> (server sim_cluster1))
    ((2, 1, mk_requestvote_response 1 1) :: responses sim_cluster1).
Definition sim_cluster' : cluster :=
  mk_cluster (<[1 := sim_elected]> (server sim_cluster2)) (responses sim_cluster2).

Lemma sim_member_ready i : i = 1 \/ i = 2 \/ i = 3 -> ready {[1; 2; 3]} i (sim_member i).
Proof.
  assert (entry_heap (sim_member 1) = ∅ /\ entry_heap (sim_member 2) = ∅ /\
          entry_heap (sim_member 3) = ∅) as (E1 & E2 & E3) by (split_and!; vm_compute; reflexivity).
  intros [-> | [-> | ->]]; split.
  1, 10, 19: apply nodes_wfb_sound; vm_compute; reflexivity.
  1, 9, 17: exists 1%positive; split; [vm_compute; reflexivity|vm_compute; left].
  1, 8, 15: intros a e; rewrite ?E1, ?E2, ?E3, lookup_empty; discriminate.
  all: first [vm_compute; reflexivity|set_solver|lia].
Qed.

Lemma sim_cluster_steps : rtc cluster_step sim_cluster sim_cluster'.
Proof.
  apply (rtc_l _ _ sim_cluster1); [|apply (rtc_l _ _ sim_cluster2); [|apply rtc_once]].
  - apply (step_call _ 1 (OpPeriodic 3000) (sim_member 1) tt sim_stood); [reflexivity|exact I|].
    unfold sim_stood. apply run_ok; vm_compute; reflexivity.
  - apply (step_request _ 2 None (mk_requestvote 1 1 0 0) (sim_member 2) 0
             (mk_requestvote_response 1 1) sim_voted); [reflexivity|].
    unfold sim_voted. apply run_ok; vm_compute; reflexivity.
  - apply (step_response _ 1 2 (Some 2%positive) (mk_requestvote_response 1 1) sim_stood 0
             sim_elected); [reflexivity|left|vm_compute; reflexivity|].
    unfold sim_elected. apply run_ok; vm_compute; reflexivity.
Qed.

(** Server 1 leads term 1, and no other server does. *)
Lemma election_safety_witness :
  server sim_cluster' !! 1 = Some sim_elected /\ role sim_elected = RAFT_STATE_LEADER /\
  forall i w, server sim_cluster' !! i = Some w -> role w = RAFT_STATE_LEADER ->
    term_of sim_elected = term_of w -> 1 = i.
Proof.
  assert (role sim_elected = RAFT_STATE_LEADER) as HL by (vm_compute; reflexivity).
  split; [reflexivity|]. split; [exact HL|]. intros i w Hi Hl Ht.
  refine (election_safety {[1; 2; 3]} sim_cluster sim_cluster' sim_cluster' 1 i sim_elected w _
            eq_refl _ sim_cluster_steps (rtc_refl _ _) eq_refl Hi HL Hl Ht).
  - apply (bool_decide_unpack _). vm_compute. exact I.
  - intros k v Hk. unfold sim_cluster in Hk. cbn [server] in Hk.
    rewrite !lookup_insert_Some in Hk.
    destruct Hk as [[<- <-]|[_ [[<- <-]|[_ [<- <-]%lookup_singleton_Some]]]];
      apply sim_member_ready; auto.
Defined.
