(* ===== verification/Outbox.v ===== *)
(** * The messages a server sends

    The library sends by calling the user's functions.  [user_call] is one call of
    a function of [raft_cbs_t]; [posts] follows the user's data through a run by
    such calls, with what is known of the messages.  Every message tells the truth
    about the state of the server that sends it: a vote request comes from a
    candidate and describes its log, an appendentries message comes from a leader
    and carries a piece of its log; and no other message is sent. *)
From S2P Require Import Prelude Contiki Types Node Membership Log Server Election Replication.
From S2P Require Import Sim NodeFacts Frames History LogFacts MemberFacts ElectionFacts Roles.
From S2P Require Import Campaign Sending Fixed.

Section Outbox.
Context {T : CTarget} {C : Contiki} {U : User}.

(** One call of a user's function, from the data [u].  [PA] and [PV] are the
    messages that may be sent. *)
Inductive user_call (cbs : raft_cbs_t) (PA : msg_appendentries_t -> Prop)
    (PV : msg_requestvote_t -> Prop) (u : udata) : udata -> Prop :=
  | call_send_appendentries f n m : send_appendentries cbs = Some f -> PA m ->
      user_call cbs PA PV u (snd (f u n m))
  | call_send_requestvote f n m : send_requestvote cbs = Some f -> PV m ->
      user_call cbs PA PV u (snd (f u n m))
  | call_event f e i :
      Some f ∈ [applylog cbs; log_offer cbs; log_pop cbs; log_get_node_id cbs] ->
      user_call cbs PA PV u (snd (f u e i))
  | call_persist_vote f v : persist_vote cbs = Some f -> user_call cbs PA PV u (snd (f u v))
  | call_persist_term f t v : persist_term cbs = Some f ->
      user_call cbs PA PV u (snd (f u t v))
  | call_about_node f n : Some f ∈ [send_snapshot cbs; node_has_sufficient_logs cbs] ->
      user_call cbs PA PV u (snd (f u n))
  | call_log_message f p : log_message cbs = Some f -> user_call cbs PA PV u (f u p).

Lemma user_call_mono cbs (PA PA' : msg_appendentries_t -> Prop)
    (PV PV' : msg_requestvote_t -> Prop) u u' :
  (forall m, PA m -> PA' m) -> (forall m, PV m -> PV' m) ->
  user_call cbs PA PV u u' -> user_call cbs PA' PV' u u'.
Proof. intros HA HV []; eauto using user_call. Qed.

Lemma user_calls_mono cbs (PA PA' : msg_appendentries_t -> Prop)
    (PV PV' : msg_requestvote_t -> Prop) u u' :
  (forall m, PA m -> PA' m) -> (forall m, PV m -> PV' m) ->
  rtc (user_call cbs PA PV) u u' -> rtc (user_call cbs PA' PV') u u'.
Proof. intros HA HV. apply rtc_subrel. intros. by eapply user_call_mono. Qed.

(** As long as [J] holds, the user's data changes by calls only. *)
Definition posts (cbs : raft_cbs_t) (J : world -> Prop) PA PV (w w' : world) : Prop :=
  cb (srv w) = cbs -> J w ->
  cb (srv w') = cbs /\ J w' /\ rtc (user_call cbs PA PV) (user_data w) (user_data w').

#[export] Instance posts_preorder cbs J PA PV : PreOrder (posts cbs J PA PV).
Proof.
  split; [done|]. intros w1 w2 w3 H1 H2 Hc Hj. destruct (H1 Hc Hj) as (Hc2 & Hj2 & R1).
  destruct (H2 Hc2 Hj2) as (Hc3 & Hj3 & R2). split_and!; try done. by etransitivity.
Qed.
End Outbox.

(** ** Operations that send nothing themselves *)
Section Posts.
Context {T : CTarget} {C : Contiki} {U : User}.
Context (cbs : raft_cbs_t) (J : world -> Prop).
Context (PA : msg_appendentries_t -> Prop) (PV : msg_requestvote_t -> Prop).

Abbreviation posts := (posts cbs J PA PV).

(** What an operation that calls no function of the user leaves alone. *)
Definition post_view (w : world) := (J w, cb (srv w), user_data w).

#[export] Instance view_node_heap `{!IgnNodeHeap J} : IgnNodeHeap post_view.
Proof. intros v w. unfold post_view. by rewrite (ign_node_heap J). Qed.
#[export] Instance view_nodes `{!IgnNodes J} : IgnNodes post_view.
Proof.
  split; intros; try intros w; unfold post_view.
  - by rewrite (ign_nodes_mem J).
  - by rewrite (ign_nodes_list J).
  - by rewrite (ign_num_nodes J).
  - by rewrite (ign_node J).
Qed.
#[export] Instance view_log `{!IgnLog J} : IgnLog post_view.
Proof.
  split; intros; unfold post_view.
  - by rewrite (ign_lg J).
  - by rewrite (ign_entry_heap J).
  - by rewrite (ign_entries_mem J).
Qed.
#[export] Instance view_timer `{!IgnTimer J} : IgnTimer post_view.
Proof.
  split; intros; try intros w; unfold post_view.
  - by rewrite (ign_rand J).
  - by rewrite (ign_timeout_elapsed J).
  - by rewrite (ign_timeout_rand J).
Qed.
#[export] Instance view_role `{!IgnRole J} : IgnRole post_view.
Proof.
  split; intros; intros w; unfold post_view.
  - by rewrite (ign_state J).
  - by rewrite (ign_leader J).
Qed.
#[export] Instance view_term `{!IgnTerm J} : IgnTerm post_view.
Proof.
  split; intros; intros w; unfold post_view.
  - by rewrite (ign_term J).
  - by rewrite (ign_vote J).
Qed.
#[export] Instance view_commit `{!IgnCommit J} : IgnCommit post_view.
Proof. intros v w. unfold post_view. by rewrite (ign_commit J). Qed.
#[export] Instance view_applied `{!IgnApplied J} : IgnApplied post_view.
Proof. intros v w. unfold post_view. by rewrite (ign_applied J). Qed.
#[export] Instance view_cfg `{!IgnCfg J} : IgnCfg post_view.
Proof.
  split; intros; intros w; unfold post_view.
  - by rewrite (ign_cfg J).
  - by rewrite (ign_connected J).
Qed.

Lemma posts_same {A} (m : M world A) : keeps (same post_view) m -> keeps posts m.
Proof.
  intros H w a w' Hm Hc Hj. specialize (H w a w' Hm). unfold same, post_view in H.
  injection H as E1 E2 E3. split_and!; [congruence|by rewrite E1|by rewrite E3].
Qed.
End Posts.

#[export] Hint Extern 3 (keeps (posts _ _ _ _) _) =>
  (apply posts_same; solve [eauto 5 with keeps typeclass_instances]) : keeps.

(** ** Operations that call the user's functions *)
Section Calls.
Context {T : CTarget} {C : Contiki} {U : User}.
Context (cbs : raft_cbs_t) (J : world -> Prop) `{!IgnUser J}.
Context (PA : msg_appendentries_t -> Prop) (PV : msg_requestvote_t -> Prop).

Abbreviation posts := (posts cbs J PA PV).
Abbreviation user_call := (user_call cbs PA PV).

(** The data after one call. *)
Lemma posts_call w u : user_call (user_data w) u -> posts w (with_user_data u w).
Proof.
  intros H Hc Hj. split_and!; [done| |by apply rtc_once]. by rewrite (ign_user J).
Qed.
Lemma call_posts g w r w' : call g w = Ok r w' ->
  user_call (user_data w) (snd (g (user_data w))) -> posts w w'.
Proof. unfold call. intros H Hu. run_simp H. run_ret H. by apply posts_call. Qed.

(** A function of the user that may be a null pointer. *)
Lemma call_event_posts o g w r w' e i :
  match o (cb (srv w)) with
  | Some f => call (fun u => f u e i)
  | None => ret g
  end w = Ok r w' ->
  (forall f, o cbs = Some f ->
     Some f ∈ [applylog cbs; log_offer cbs; log_pop cbs; log_get_node_id cbs]) ->
  posts w w'.
Proof.
  intros H Ho Hc. revert Hc. destruct (o (cb (srv w))) as [f|] eqn:Hf; [|run_ret H; done].
  intros Hc. eapply call_posts; [exact H| |exact Hc]. apply call_event, Ho. congruence.
Qed.

Lemma log_msg_posts p : keeps posts (log_msg p).
Proof.
  intros w u w' H Hc. rewrite log_msg_run in H. injection H as _ <-. unfold logged.
  rewrite Hc. destruct (log_message cbs) as [f|] eqn:Hf.
  - apply posts_call; [|done]. by apply call_log_message.
  - intros Hj. split_and!; [done|by rewrite (ign_user J)|done].
Qed.
Lemma raft_set_current_term_posts `{!IgnTerm J} t : keeps posts (raft_set_current_term t).
Proof.
  intros w e w' H Hc. revert Hc. unfold raft_set_current_term in H. run_simp H.
  destruct (_ <? t); [|by run_ret H]. run_bind H as r w1 H1.
  intros Hc. assert (posts w w1) as K.
  { intros _. rewrite Hc in H1. destruct (persist_term cbs) as [f|] eqn:Hf; [|by run_ret H1].
    eapply call_posts; [exact H1| |exact Hc]. by apply call_persist_term. }
  assert (posts w1 w') as K'.
  { destruct (truth r); [by run_ret H|].
    by run_keeps H posts as K'. }
  by apply (transitivity K K').
Qed.
Lemma raft_vote_for_nodeid_posts `{!IgnTerm J} i : keeps posts (raft_vote_for_nodeid i).
Proof.
  intros w e w' H Hc. revert Hc. unfold raft_vote_for_nodeid in H. run_simp H.
  run_bind H as r w1 H1. intros Hc. assert (posts w w1) as K.
  { intros _. rewrite Hc in H1. destruct (persist_vote cbs) as [f|] eqn:Hf; [|by run_ret H1].
    eapply call_posts; [exact H1| |exact Hc]. by apply call_persist_vote. }
  assert (posts w1 w') as K'.
  { destruct (truth r); [by run_ret H|]. by run_keeps H posts as K'. }
  by apply (transitivity K K').
Qed.
End Calls.

#[export] Hint Resolve log_msg_posts raft_set_current_term_posts raft_vote_for_nodeid_posts
  : keeps.

Section Writers.
Context {T : CTarget} {C : Contiki} {U : User}.
Context (cbs : raft_cbs_t) (J : world -> Prop) `{!IgnUser J}.
Context (PA : msg_appendentries_t -> Prop) (PV : msg_requestvote_t -> Prop).

Abbreviation posts := (posts cbs J PA PV).

Lemma call_log_get_node_id_posts e i : keeps posts (call_log_get_node_id e i).
Proof.
  intros w r w' H Hc. revert Hc. unfold call_log_get_node_id in H. run_simp H.
  unfold non_null in H. destruct (log_get_node_id (cb (srv w))) as [f|] eqn:Hf; [|done].
  run_simp H. intros Hc. eapply call_posts; [done|exact H| |exact Hc].
  apply call_event. rewrite <- Hc, Hf. set_solver.
Qed.
Hint Resolve call_log_get_node_id_posts : keeps.

Section Nodes.
Context `{!IgnNodeHeap J, !IgnNodes J}.
Lemma raft_offer_log_posts p i : keeps posts (raft_offer_log p i).
Proof. unfold raft_offer_log, raft_node_set_active. unfold_accessors. keeps_solve. Qed.
Lemma raft_pop_log_posts p i : keeps posts (raft_pop_log p i).
Proof. unfold raft_pop_log, raft_node_set_active. unfold_accessors. keeps_solve. Qed.
Hint Resolve raft_offer_log_posts raft_pop_log_posts : keeps.

Lemma log_notify_offer_posts a e i : keeps posts (log_notify_offer a e i).
Proof.
  intros w r w' H Hc. revert Hc. unfold log_notify_offer in H. run_simp H.
  destruct (log_cb (lg w)); [by run_ret H|].
  destruct (log_offer (cb (srv w))) as [f|] eqn:Hf; [|by run_ret H].
  run_bind H as u w1 H1. apply deref_static_ro in H1 as <-. run_bind H as x w2 H2.
  intros Hc. assert (posts w w2) as K.
  { eapply call_posts; [done|exact H2|]. apply call_event. rewrite <- Hc, Hf. set_solver. }
  assert (posts w2 w') as K' by (by run_keeps H posts as K').
  by apply (transitivity K K').
Qed.
Hint Resolve log_notify_offer_posts : keeps.

Context `{!IgnLog J}.
Lemma log_append_entry_posts e : keeps posts (log_append_entry e).
Proof. unfold log_append_entry. unfold_accessors. keeps_solve. Qed.
Lemma log_delete_posts i : keeps posts (log_delete i).
Proof.
  intros w r w' H Hc. revert Hc. unfold log_delete in H. run_simp H.
  destruct (0 =? i); [by run_ret H|]. run_bind H as q w1 H1. apply log_find_ro in H1 as <-.
  destruct q as [a|]; [|by run_ret H]. run_bind H as ety w1 H1. apply entry_get_ro in H1 as <-.
  run_bind H as u w1 H1. apply deref_static_ro in H1 as <-. run_simp H.
  unfold non_null in H. destruct (log_pop (cb (srv w))) as [f|] eqn:Hf; [|done]. run_simp H.
  run_bind H as u' w1 H1. apply deref_static_ro in H1 as <-. run_bind H as x w2 H2.
  intros Hc. assert (posts w w2) as K.
  { eapply call_posts; [done|exact H2|]. apply call_event. rewrite <- Hc, Hf. set_solver. }
  assert (posts w2 w') as K' by (by run_keeps H posts as K').
  by apply (transitivity K K').
Qed.
Hint Resolve log_append_entry_posts log_delete_posts : keeps.
Context `{!IgnCfg J}.
Lemma raft_append_entry_posts e : keeps posts (raft_append_entry e).
Proof. unfold raft_append_entry. unfold_accessors. keeps_solve. Qed.
Lemma raft_delete_entry_from_idx_posts i : keeps posts (raft_delete_entry_from_idx i).
Proof. unfold raft_delete_entry_from_idx. keeps_solve. Qed.
End Nodes.
Hint Resolve raft_append_entry_posts raft_delete_entry_from_idx_posts : keeps.

Lemma check_sufficient_logs_posts `{!IgnNodeHeap J} p r : keeps posts (check_sufficient_logs p r).
Proof.
  intros w u w' H Hc. revert Hc. unfold check_sufficient_logs in H.
  unfold raft_node_is_voting, raft_voting_change_is_in_progress, raft_get_current_idx,
    raft_node_is_voting_committed, raft_node_has_sufficient_logs in H.
  run_bind H as v w1 H1. apply node_read_ro in H1 as <-. destruct v; [by run_ret H|].
  run_simp H. destruct (negb _) in H; [by run_ret H|]. run_bind H as ci w1 H1.
  apply log_get_current_idx_ro in H1 as <-. run_simp H. destruct (int_ok _); [|done].
  destruct (negb _) in H; [by run_ret H|].
  run_bind H as c w1 H1. apply node_read_ro in H1 as <-. destruct c; [by run_ret H|].
  run_simp H. destruct (node_has_sufficient_logs (cb (srv w))) as [f|] eqn:Hf; [|by run_ret H].
  run_bind H as al w1 H1. apply node_read_ro in H1 as <-. destruct al; [by run_ret H|].
  run_bind H as e w1 H1. unfold call_node in H1. run_bind H1 as n w2 H2.
  apply node_get_ro in H2 as <-. intros Hc. assert (posts w w1) as K.
  { eapply call_posts; [done|exact H1|]. apply call_about_node. rewrite <- Hc, Hf. set_solver. }
  assert (posts w1 w') as K'.
  { unfold raft_node_set_has_sufficient_logs in H. by run_keeps H posts as K'. }
  by apply (transitivity K K').
Qed.
End Writers.
#[export] Hint Resolve call_log_get_node_id_posts raft_offer_log_posts raft_pop_log_posts
  log_notify_offer_posts log_append_entry_posts log_delete_posts raft_append_entry_posts
  raft_delete_entry_from_idx_posts check_sufficient_logs_posts : keeps.

(** ** Handlers that send nothing *)
Section Silent.
Context {T : CTarget} {C : Contiki} {U : User}.
Context (cbs : raft_cbs_t) (J : world -> Prop) `{!IgnUser J}.
Context (PA : msg_appendentries_t -> Prop) (PV : msg_requestvote_t -> Prop).

Abbreviation posts := (posts cbs J PA PV).

Lemma raft_randomize_election_timeout_posts `{!IgnTimer J} :
  keeps posts raft_randomize_election_timeout.
Proof. unfold raft_randomize_election_timeout. keeps_solve. Qed.
Hint Resolve raft_randomize_election_timeout_posts : keeps.
Lemma raft_vote_posts `{!IgnTerm J} p : keeps posts (raft_vote p).
Proof. unfold raft_vote. unfold_accessors. keeps_solve. Qed.
Lemma raft_become_follower_posts `{!IgnRole J, !IgnTimer J} : keeps posts raft_become_follower.
Proof. unfold raft_become_follower. keeps_solve. Qed.
Hint Resolve raft_vote_posts raft_become_follower_posts : keeps.
Lemma recv_requestvote_done_posts p e v : keeps posts (recv_requestvote_done p e v).
Proof. unfold recv_requestvote_done. unfold_accessors. keeps_solve. Qed.
Hint Resolve recv_requestvote_done_posts : keeps.
Lemma recv_requestvote_decide_posts `{!IgnRole J, !IgnTimer J, !IgnTerm J} p vr :
  keeps posts (recv_requestvote_decide p vr).
Proof. unfold recv_requestvote_decide. unfold_accessors. keeps_solve. Qed.
Hint Resolve recv_requestvote_decide_posts : keeps.
Lemma raft_recv_requestvote_posts `{!IgnRole J, !IgnTimer J, !IgnTerm J} p vr :
  keeps posts (raft_recv_requestvote p vr).
Proof. unfold raft_recv_requestvote. unfold_accessors. keeps_solve. Qed.

Section Cfg.
Context `{!IgnLog J, !IgnNodeHeap J, !IgnNodes J, !IgnCfg J}.
Lemma recv_ae_match_posts ae n i es c : keeps posts (recv_ae_match ae n i es c).
Proof. revert i es c. induction n as [|n IH]; intros i es c; cbn; unfold_accessors; keeps_solve. Qed.
Lemma recv_ae_append_posts ae n i es c : keeps posts (recv_ae_append ae n i es c).
Proof. revert i es c. induction n as [|n IH]; intros i es c; cbn; keeps_solve. Qed.
Hint Resolve recv_ae_match_posts recv_ae_append_posts : keeps.
Context `{!IgnCommit J, !IgnRole J, !IgnTimer J, !IgnTerm J}.
Lemma recv_ae_entries_posts ae : keeps posts (recv_ae_entries ae).
Proof. unfold recv_ae_entries. keeps_solve. Qed.
Hint Resolve recv_ae_entries_posts : keeps.
Lemma recv_ae_prev_posts p ae : keeps posts (recv_ae_prev p ae).
Proof. unfold recv_ae_prev. unfold_accessors. keeps_solve. Qed.
Hint Resolve recv_ae_prev_posts : keeps.
Lemma raft_recv_appendentries_posts p ae : keeps posts (raft_recv_appendentries p ae).
Proof. unfold raft_recv_appendentries. unfold_accessors. keeps_solve. Qed.
End Cfg.

Lemma apply_cfg_change_posts `{!IgnNodeHeap J, !IgnNodes J, !IgnCfg J} e i p :
  keeps posts (apply_cfg_change e i p).
Proof.
  unfold apply_cfg_change, raft_node_set_addition_committed,
    raft_node_set_voting_committed, raft_node_set_has_sufficient_logs. keeps_solve.
Qed.
Hint Resolve apply_cfg_change_posts : keeps.
Lemma raft_apply_entry_posts `{!IgnNodeHeap J, !IgnNodes J, !IgnCfg J, !IgnApplied J} :
  keeps posts raft_apply_entry.
Proof.
  intros w r w' H Hc. revert Hc. unfold raft_apply_entry, raft_snapshot_is_in_progress in H.
  run_simp H. destruct (truth _); [by run_ret H|]. run_simp H.
  destruct (_ =? _) in H; [by run_ret H|]. run_simp H. destruct (int_ok _); [|done].
  run_bind H as q w1 H1. apply log_get_at_idx_ro in H1 as <-.
  destruct q as [a|]; [|by run_ret H]. run_bind H as ety w1 H1. apply entry_get_ro in H1 as <-.
  run_bind H as u w1 H1. run_bind H as u' w2 H2. run_bind H as e w3 H3. intros Hc.
  assert (posts w w1) as K1 by (by run_keeps H1 posts as K).
  assert (posts w1 w2) as K2 by (by run_keeps H2 posts as K).
  assert (posts w2 w3) as K3.
  { intros Hc2. rewrite Hc in H3. destruct (applylog cbs) as [f|] eqn:Hf; [|by run_ret H3].
    eapply call_posts; [done|exact H3| |exact Hc2]. apply call_event. rewrite Hf. set_solver. }
  assert (posts w3 w') as K4 by (clear Hc; by run_keeps H posts as K).
  by apply (transitivity K1 (transitivity K2 (transitivity K3 K4))).
Qed.
Hint Resolve raft_apply_entry_posts : keeps.
Lemma raft_apply_all_posts `{!IgnNodeHeap J, !IgnNodes J, !IgnCfg J, !IgnApplied J} :
  keeps posts raft_apply_all.
Proof.
  unfold raft_apply_all. unfold_accessors. keeps_solve.
  match goal with |- keeps _ (apply_all_loop ?n) => generalize n; intros k end.
  induction k as [|k IH]; cbn; unfold_accessors; keeps_solve.
Qed.
End Silent.
#[export] Hint Resolve raft_randomize_election_timeout_posts raft_vote_posts
  raft_become_follower_posts raft_recv_requestvote_posts raft_recv_appendentries_posts
  raft_apply_entry_posts raft_apply_all_posts : keeps.

(** ** Sending *)
Section Senders.
Context {T : CTarget} {C : Contiki} {L : ContikiLaws C} {U : User}.
Implicit Types w : world.

(** The message a server sends, when it does not go wrong: exactly the one that
    [append_entries_for] describes. *)
Lemma raft_send_appendentries_inv p w a e w' :
  log_repr w a -> no_snapshot w -> raft_send_appendentries p w = Ok e w' ->
  w' = w \/
  exists n f, send_appendentries (cb (srv w)) = Some f /\ 1 <= next_idx n <= INT_MAX + 1 /\
    w' = with_user_data
           (snd (f (logged w p (user_data w)) n (append_entries_for w a (next_idx n)))) w.
Proof.
  intros R [Hsnap Hbase] H. unfold raft_send_appendentries in H. run_simp H.
  destruct (bool_decide (is_Some p)) eqn:Hp; [|done]. destruct (negb _) in H; [|done].
  apply bool_decide_eq_true in Hp as [x ->].
  destruct (send_appendentries (cb (srv w))) as [f|] eqn:Hf; [|run_ret H; by left].
  run_bind H as next w1 Hn. unfold raft_node_get_next_idx, node_read in Hn.
  run_bind Hn as n w2 Hg. pose proof Hg as E. apply node_get_ro in E as <-. injection Hn as <- <-.
  unfold Node.get_next_idx in H.
  rewrite Hsnap in H. cbn [Z.ltb Z.compare andb] in H. right. exists n, f.
  unfold raft_get_entries_from_idx in H. run_bind H as [q m] w2 Hq.
  pose proof Hq as E. apply log_get_from_idx_ro in E as <-.
  assert (1 <= next_idx n <= INT_MAX + 1) as Hnext.
  { unfold log_get_from_idx in Hq. run_simp Hq. destruct (int_ok (next_idx n - 1)) eqn:Hi; [|done].
    apply int_ok_iff in Hi. destruct (Z.leb_spec 0 (next_idx n - 1)); [lia|done]. }
  split; [done|]. split; [lia|]. pose proof (lr_max _ _ R). pose proof INT_MIN_MAX.
  assert (m = Z.of_nat (length (al_from a (next_idx n))) /\
    forall w1, log_state w1 = log_state w -> log_chain q w1 = Ok (al_from a (next_idx n)) w1)
    as [-> Hchain].
  { destruct (decide (next_idx n = INT_MAX + 1)) as [He|Hne].
    - unfold log_get_from_idx in Hq. run_simp Hq. destruct (int_ok (next_idx n - 1)); [|done].
      destruct (0 <=? next_idx n - 1); [|done]. destruct (int_ok (base _ + count _)); [|done].
      pose proof (lr_last _ _ R). rewrite (proj2 (Z.ltb_lt _ (next_idx n))) in Hq by lia.
      run_ret Hq. rewrite al_from_past by lia. done.
    - pose proof (log_get_from_idx_ok w a (next_idx n) R ltac:(lia)) as Hok.
      destruct (Z.ltb_spec (al_last a) (next_idx n)) as [Hpast|Hin].
      + rewrite Hok in Hq. injection Hq as <- <-. by rewrite al_from_past.
      + destruct (next_idx n <? al_first a); [by rewrite Hok in Hq|].
        destruct Hok as (q' & Hok & _ & Hc). rewrite Hok in Hq. by injection Hq as <- <-. }
  run_simp H. destruct (match q with Some _ => _ | None => _ end) in H; [|done].
  assert (prev_log (next_idx n) w = Ok (prev_of w a (next_idx n)) w) as Hprev.
  { destruct (decide (next_idx n = INT_MAX + 1)) as [He|Hne]; [|by apply prev_log_ok; [|lia]].
    unfold prev_log, prev_of, raft_get_entry_from_idx. destruct (Z.ltb_spec 1 (next_idx n)); [|done].
    rewrite bind_int_chk_l, int_ok_nonneg by lia.
    destruct (log_get_at_idx_ok w a (next_idx n - 1) R ltac:(lia)) as (y & Hy & Hg').
    rewrite (bind_ok_l _ _ _ _ _ Hy). destruct (al_get a (next_idx n - 1)) as [e0|]; cbn in Hg'; [|by subst y].
    destruct Hg' as (z & -> & Hz). by rewrite (bind_ok_l _ _ _ _ _ (entry_get_ok _ _ _ Hz)). }
  rewrite (bind_ok_l _ _ _ _ _ Hprev) in H. destruct (prev_of w a (next_idx n)) as [pi pt] eqn:Hpi.
  run_bind H as i w2 Hi. apply node_read_ro in Hi as <-. run_bind H as ci w2 Hci.
  apply log_get_current_idx_ro in Hci as <-.
  rewrite (bind_ok_l _ _ _ _ _ (log_msg_run _ _)) in H. set (w1 := with_user_data _ w) in H.
  rewrite (bind_ok_l _ _ _ _ _ (Hchain w1 eq_refl)) in H. unfold call_node in H.
  assert (node_get (Some x) w1 = Ok n w1) as Hg1.
  { unfold node_get in *. run_simp Hg. rewrite bind_gets_l. change (node_heap w1) with (node_heap w).
    destruct (node_heap w !! x); [|done]. by injection Hg as ->. }
  rewrite (bind_ok_l _ _ _ _ _ Hg1) in H. injection H as _ <-.
  unfold append_entries_for. by rewrite Hpi.
Qed.

Context (cbs : raft_cbs_t) (J : world -> Prop) `{!IgnUser J}.
Context (PA : msg_appendentries_t -> Prop) (PV : msg_requestvote_t -> Prop).
Abbreviation posts := (posts cbs J PA PV).

Section Appendentries.
Context (HPA : forall w, J w -> exists a, log_repr w a /\ no_snapshot w /\
  forall next, 1 <= next <= INT_MAX + 1 -> PA (append_entries_for w a next)).

Lemma raft_send_appendentries_posts p : keeps posts (raft_send_appendentries p).
Proof.
  intros w e w' H Hc Hj. destruct (HPA w Hj) as (a & R & S & Hpa).
  destruct (raft_send_appendentries_inv p w a e w' R S H) as [->|(n & f & Hf & Hn & ->)]; [done|].
  destruct (log_msg_posts cbs J PA PV p w tt _ (log_msg_run p w) Hc Hj) as (_ & _ & Hl).
  split_and!; [done|by rewrite (ign_user J)|]. etransitivity; [exact Hl|]. apply rtc_once.
  apply call_send_appendentries; [congruence|by apply Hpa].
Qed.
Hint Resolve raft_send_appendentries_posts : keeps.

Lemma raft_send_appendentries_all_posts `{!IgnTimer J} : keeps posts raft_send_appendentries_all.
Proof. unfold raft_send_appendentries_all. unfold_accessors. keeps_solve. Qed.
Lemma send_new_entry_posts : keeps posts send_new_entry.
Proof. unfold send_new_entry. unfold_accessors. keeps_solve. Qed.
Lemma lead_posts `{!IgnTimer J, !IgnNodeHeap J} :
  keeps posts
    (exec! upd_srv (with_timeout_elapsed 0) in
     let! me := gets srv in
     foreach (nodes_list me) (fun a =>
       if is_self_ptr me a then ret tt
       else
         let! act := raft_node_is_active (Some a) in
         when act
           (let! ci := raft_get_current_idx in
            let! next := int_chk (ci + 1) in
            exec! raft_node_set_next_idx (Some a) next in
            exec! raft_node_set_match_idx (Some a) 0 in
            let! _ := raft_send_appendentries (Some a) in
            ret tt))).
Proof.
  unfold raft_node_set_next_idx, raft_node_set_match_idx. unfold_accessors. keeps_solve.
Qed.
Lemma recv_aer_failure_posts `{!IgnNodeHeap J} p r m : keeps posts (recv_aer_failure p r m).
Proof.
  unfold recv_aer_failure, raft_node_set_next_idx. unfold_accessors. keeps_solve.
Qed.
End Appendentries.

Section Requestvote.
Context (HPV : forall w, J w -> exists a, server_ok w a /\ PV (vote_request w a)).

Lemma raft_send_requestvote_posts p : keeps posts (raft_send_requestvote p).
Proof.
  intros w e w' H Hc Hj. destruct (HPV w Hj) as (a & Sok & Hpv).
  assert (exists x, p = Some x /\ is_Some (node_heap w !! x) /\ node (srv w) <> Some x)
    as (x & -> & Hx & Hself).
  { unfold raft_send_requestvote in H. run_simp H.
    destruct (bool_decide (is_Some p)) eqn:Hp; [|done]. destruct (bool_decide (p = _)) eqn:Hn; [done|].
    apply bool_decide_eq_true in Hp as [x ->]. apply bool_decide_eq_false in Hn.
    exists x. split_and!; [done| |congruence]. cbn [negb] in H. run_bind H as i w1 Hi.
    unfold raft_node_get_id, node_read, node_get in Hi. run_simp Hi.
    destruct (node_heap w !! x); [by eexists|done]. }
  destruct (raft_send_requestvote_ok w a x (user_data w) Sok Hx Hself) as (e' & He').
  assert (with_user_data (user_data w) w = w) as Hw by by destruct w. rewrite Hw in He'.
  rewrite He' in H. injection H as _ <-.
  destruct (log_msg_posts cbs J PA PV (Some x) w tt _ (log_msg_run _ w) Hc Hj) as (_ & _ & Hl).
  split_and!; [done|by rewrite (ign_user J)|]. destruct Hx as [n Hn]. unfold ask. cbn.
  rewrite Hn, Hc. etransitivity; [exact Hl|].
  destruct (send_requestvote cbs) as [f|] eqn:Hf; [|done]. apply rtc_once.
  by apply call_send_requestvote.
Qed.
Hint Resolve raft_send_requestvote_posts : keeps.

Lemma request_votes_posts : keeps posts request_votes.
Proof. unfold request_votes. unfold_accessors. keeps_solve. Qed.
End Requestvote.
End Senders.

(** ** Honest messages *)
Section Honest.
Context {T : CTarget} {C : Contiki} {L : ContikiLaws C} {U : User}.
Implicit Types w : world.

(** Two representations of the same memory are the same log. *)
Lemma log_repr_unique w a a' : log_repr w a -> log_repr w a' -> a = a'.
Proof.
  intros R R'. destruct a as [l es], a' as [l' es'].
  pose proof (lr_last _ _ R) as H1. pose proof (lr_last _ _ R') as H2. cbn in *. f_equal; [lia|].
  pose proof (lr_heap _ _ R) as F. pose proof (lr_heap _ _ R') as F'. cbn in F, F'.
  clear - F F'. revert es' F'. induction F as [|p e ps es Hp F IH]; intros es' F'.
  - by inversion F'.
  - inversion F' as [|? e' ? es2 Hp' F2]; subst. f_equal; [congruence|by apply IH].
Qed.

(** What a leader in state [w] with log [a] may send: its term, the entries from
    some index on, the entry before them, and a commit index it has reached. *)
Definition honest_append (w : world) (a : alog) (m : msg_appendentries_t) : Prop :=
  role w = RAFT_STATE_LEADER /\
  exists next c, 1 <= next <= INT_MAX + 1 /\ 0 <= c <= commit_of w /\
    m = mk_appendentries (term_of w) (fst (prev_of w a next)) (snd (prev_of w a next)) c
          (Z.of_nat (length (al_from a next))) (al_from a next).

(** What a candidate may send. *)
Definition honest_request (w : world) (a : alog) (m : msg_requestvote_t) : Prop :=
  role w = RAFT_STATE_CANDIDATE /\ m = vote_request w a.

(** From [w] to [w'] the user's data changes by calls whose messages are honest
    in the state [w']. *)
Definition tells (a : alog) (w w' : world) : Prop :=
  cb (srv w') = cb (srv w) /\
  rtc (user_call (cb (srv w)) (honest_append w' a) (honest_request w' a))
    (user_data w) (user_data w').

(** No message at all. *)
Definition silent (w w' : world) : Prop :=
  cb (srv w') = cb (srv w) /\
  rtc (user_call (cb (srv w)) (fun _ => False) (fun _ => False)) (user_data w) (user_data w').

#[export] Instance silent_preorder : PreOrder silent.
Proof.
  split; [done|]. intros w1 w2 w3 [C1 R1] [C2 R2]. split; [congruence|]. rewrite C1 in R2.
  by etransitivity.
Qed.

Lemma keeps_silent {A} (m : M world A) w r w' :
  (forall cbs, keeps (posts cbs (fun _ => True) (fun _ => False) (fun _ => False)) m) ->
  m w = Ok r w' -> silent w w'.
Proof. intros K H. by destruct (K (cb (srv w)) w r w' H eq_refl I) as (? & _ & ?). Qed.

Lemma silent_tells a w w' : silent w w' -> tells a w w'.
Proof. intros [Hc R]. split; [done|]. by eapply user_calls_mono, R. Qed.

Lemma silent_then a w w1 w' : silent w w1 -> tells a w1 w' -> tells a w w'.
Proof.
  intros [Hc R] [Hc' R']. split; [congruence|]. rewrite Hc in R'.
  etransitivity; [|exact R']. by eapply user_calls_mono, R.
Qed.

(** What the honesty of a message depends on. *)
Definition word (w : world) := (role_of w, snapshot_last_term (srv w), self_id w).

Lemma honest_append_mono a w w' m : word w' = word w -> commit_of w <= commit_of w' ->
  honest_append w a m -> honest_append w' a m.
Proof.
  unfold word, role_of. intros [= H1 H2 H3 _] Hc (Hr & next & c & Hn & Hle & ->).
  split; [congruence|]. exists next, c. split; [done|]. split; [lia|].
  assert (prev_of w' a next = prev_of w a next) as -> by (unfold prev_of; by rewrite H3).
  by rewrite H2.
Qed.
Lemma honest_request_mono a w w' m : word w' = word w ->
  honest_request w a m -> honest_request w' a m.
Proof.
  unfold word, role_of. intros [= H1 H2 _ H4] [Hr ->]. split; [congruence|].
  unfold vote_request. by rewrite H2, H4.
Qed.

(** Messages that were honest, then silence. *)
Lemma tells_then a w w1 w' : tells a w w1 -> silent w1 w' ->
  word w' = word w1 -> commit_of w1 <= commit_of w' -> tells a w w'.
Proof.
  intros [Hc R] [Hc' R'] Hw Hm. split; [congruence|]. rewrite Hc in R'.
  etransitivity; [eapply user_calls_mono, R|by eapply user_calls_mono, R'].
  - intros m. by apply honest_append_mono.
  - intros m. by apply honest_request_mono.
Qed.

(** What a leader that sends does not change. *)
Definition lectern (w : world) :=
  (log_state w, no_snapshot w, role_of w, snapshot_last_term (srv w), commit_of w).

Lemma lectern_tells {A} a (m : M world A) w r w' :
  (forall cbs PA PV, (forall w1, lectern w1 = lectern w ->
      exists a, log_repr w1 a /\ no_snapshot w1 /\
        forall next, 1 <= next <= INT_MAX + 1 -> PA (append_entries_for w1 a next)) ->
    keeps (posts cbs (fun w1 => lectern w1 = lectern w) PA PV) m) ->
  m w = Ok r w' -> log_repr w' a -> no_snapshot w' -> 0 <= commit_of w' ->
  role w = RAFT_STATE_LEADER -> lectern w' = lectern w -> tells a w w'.
Proof.
  intros K H R S Hcm Hr Hl.
  assert (role w' = RAFT_STATE_LEADER) as Hr' by (unfold lectern, role_of in Hl; congruence).
  destruct (K (cb (srv w)) (honest_append w' a) (honest_request w' a)) with w r w'
    as (Hc & _ & Hcalls); [|done..].
  intros w1 Hl1. rewrite <- Hl in Hl1. exists a. unfold lectern, role_of in Hl1.
  injection Hl1 as E1 E2 E3 E4 E5 E6 E7 E8.
  split; [|split; [by rewrite E4|]].
  - eapply log_repr_same; [|exact R]. unfold log_state. congruence.
  - intros next Hn. split; [done|]. exists next, (commit_of w1). split; [done|]. split; [unfold commit_of in *; lia|].
    unfold append_entries_for. rewrite E6.
    assert (prev_of w1 a next = prev_of w' a next) as -> by (unfold prev_of; by rewrite E7). done.
Qed.

Lemma send_all_tells a w e w' : raft_send_appendentries_all w = Ok e w' ->
  log_repr w' a -> no_snapshot w' -> 0 <= commit_of w' -> role w = RAFT_STATE_LEADER ->
  tells a w w'.
Proof.
  intros H R S Hcm Hr. run_keeps H (same lectern) as K.
  eapply lectern_tells; [|exact H|done..]. intros cbs PA PV HPA.
  apply raft_send_appendentries_all_posts; [apply _|exact HPA|apply _].
Qed.

Lemma become_leader_tells a w u w' : raft_become_leader w = Ok u w' ->
  log_repr w' a -> no_snapshot w' -> 0 <= commit_of w' -> tells a w w'.
Proof.
  intros H R S Hcm. pose proof (raft_become_leader_role _ _ _ H) as [Hr _].
  unfold raft_become_leader in H. run_bind H as u1 w1 H1. run_bind H as u2 w2 H2.
  assert (silent w w2) as K.
  { assert ((exec! log_msg None in raft_set_state RAFT_STATE_LEADER) w = Ok u2 w2) as H12
      by (by rewrite (bind_ok_l _ _ _ _ _ H1)).
    eapply keeps_silent; [|exact H12]. intros cbs. keeps_solve. }
  apply (silent_then a w w2); [done|].
  assert (lectern w' = lectern w2) as Hl.
  { unfold raft_node_set_next_idx, raft_node_set_match_idx, raft_node_is_active,
      raft_get_current_idx in H. by run_keeps H (same lectern) as K'. }
  assert (role w2 = RAFT_STATE_LEADER) as Hr2 by (unfold lectern, role_of in Hl; congruence).
  eapply lectern_tells; [|exact H|done..]. intros cbs PA PV HPA.
  apply lead_posts; try apply _. exact HPA.
Qed.

(** What a candidate that asks for votes does not change. *)
Definition standing (w : world) := (stable_state w, settings w, word w).

Lemma standing_parts w w' : standing w' = standing w ->
  stable_state w' = stable_state w /\ settings w' = settings w /\ word w' = word w.
Proof. unfold standing. intros H. split_and!; congruence. Qed.

Lemma request_votes_tells a w w' : server_ok w a -> role w = RAFT_STATE_CANDIDATE ->
  request_votes w = Ok tt w' -> tells a w w'.
Proof.
  intros Sok Hr H. run_keeps H (same standing) as K. apply standing_parts in K as (_ & _ & K3).
  destruct (request_votes_posts (cb (srv w)) (fun w1 => standing w1 = standing w)
    (honest_append w' a) (honest_request w' a)) with w tt w' as (Hc & _ & Hcalls); [|done..].
  intros w1 (E1 & E2 & E3)%standing_parts. exists a. split; [by apply (server_ok_same w)|].
  apply (honest_request_mono a w1); [congruence|]. split; [|done].
  unfold word, role_of in E3. congruence.
Qed.

(** A campaign does everything else first. *)
Lemma campaign_prepared a w e w' : server_ok w a -> raft_become_candidate w = Ok e w' ->
  silent w w' \/
  exists w1, silent w w1 /\ server_ok w1 a /\ role w1 = RAFT_STATE_CANDIDATE /\
    request_votes w1 = Ok tt w'.
Proof.
  intros Sok H. unfold raft_become_candidate, raft_get_current_term in H.
  run_bind H as u1 w1 H1. run_keeps H1 (same stable_state) as S1. run_keeps H1 (same settings) as S1'.
  pose proof (server_ok_same _ _ _ S1 S1' Sok) as Sok1.
  assert (silent w w1) as K1 by (eapply keeps_silent; [|exact H1]; intros cbs; keeps_solve).
  run_simp H. destruct (int_ok _); [|done]. run_bind H as r w2 H2.
  run_keeps H2 (same stable_state) as S2. run_keeps H2 (same settings) as S2'.
  pose proof (server_ok_same _ _ _ S2 S2' Sok1) as Sok2.
  assert (silent w w2) as K2.
  { transitivity w1; [done|]. eapply keeps_silent; [|exact H2]. intros cbs. keeps_solve. }
  clear K1. unfold truth in H. destruct (negb _) in H; [run_ret H; by left|]. right.
  destruct (clear_votes_ok w2 a Sok2) as (w3 & H3 & Sok3 & _).
  rewrite (bind_ok_l _ _ _ _ _ H3) in H. run_simp H.
  run_bind H as v w4 H4. run_keeps H4 (same stable_state) as S4. run_keeps H4 (same settings) as S4'.
  pose proof (server_ok_same _ _ _ S4 S4' Sok3) as Sok4.
  run_simp H. run_bind H as u5 w5 H5. run_bind H as u6 w6 H6. run_simp H.
  set (w7 := with_srv _ w6) in H. run_bind H as u8 w8 H8. run_ret H. destruct u8.
  pose proof (raft_set_state_role _ _ _ _ H5) as [R5 _].
  run_keeps H5 (same stable_state) as S5. run_keeps H5 (same settings) as S5'.
  run_keeps H6 (same stable_state) as S6. run_keeps H6 (same settings) as S6'.
  run_keeps H6 (same role) as R6. unfold same in *. exists w7. split_and!; [|..|exact H8].
  - transitivity w2; [done|].
    assert ((exec! clear_votes in let! _ := raft_vote (node (srv w3)) in
      exec! upd_srv (with_current_leader None) in
      exec! raft_set_state RAFT_STATE_CANDIDATE in
      exec! raft_randomize_election_timeout in upd_srv (with_timeout_elapsed 0)) w2 = Ok tt w7) as Hp.
    { rewrite (bind_ok_l _ _ _ _ _ H3), (bind_ok_l _ _ _ _ _ H4), bind_upd_srv_l.
      by rewrite (bind_ok_l _ _ _ _ _ H5), (bind_ok_l _ _ _ _ _ H6). }
    eapply keeps_silent; [|exact Hp]. intros cbs. keeps_solve.
  - apply (server_ok_same w4); [|unfold settings in *; cbn in *; congruence|done].
    change (stable_state w6 = stable_state w4). by rewrite S6, S5.
  - change (role w6 = RAFT_STATE_CANDIDATE). congruence.
Qed.

Lemma become_candidate_tells a w e w' : server_ok w a -> raft_become_candidate w = Ok e w' ->
  tells a w w'.
Proof.
  intros Sok [K|(w1 & K & Sok1 & R1 & H)]%(campaign_prepared a); [by apply silent_tells| |done].
  apply (silent_then a w w1); [done|]. by apply request_votes_tells.
Qed.

(** *** The calls of the interface *)
Lemma response_counted_tells a p r w e w' :
  raft_recv_requestvote_response p r w = Ok e w' ->
  log_repr w' a -> no_snapshot w' -> 0 <= commit_of w' -> tells a w w'.
Proof.
  intros H R S Hcm. unfold raft_recv_requestvote_response, raft_is_candidate, raft_get_state,
    raft_get_current_term in H.
  run_bind H as u1 w1 H1.
  assert (silent w w1) as K1 by (eapply keeps_silent; [|exact H1]; intros cbs; keeps_solve).
  apply (silent_then a w w1); [done|]. run_simp H. destruct (negb _) in H.
  { run_ret H. by apply silent_tells. }
  destruct (_ <? _).
  { apply silent_tells. eapply keeps_silent; [|exact H]. intros cbs. keeps_solve. }
  destruct (negb _) in H; [run_ret H; by apply silent_tells|].
  destruct (_ =? RAFT_REQUESTVOTE_ERR_GRANTED).
  2: { apply silent_tells. eapply keeps_silent; [|exact H]. intros cbs. unfold_accessors. keeps_solve. }
  run_bind H as u2 w2 H2.
  assert (silent w1 w2) as K2.
  { eapply keeps_silent; [|exact H2]. intros cbs. unfold raft_node_vote_for_me. keeps_solve. }
  apply (silent_then a w1 w2); [done|].
  run_bind H as votes w3 H3. apply raft_get_nvotes_for_me_ro in H3 as <-.
  run_bind H as n w3 H3. apply raft_get_num_voting_nodes_ro in H3 as <-.
  run_bind H as u3 w3 H3. injection H as _ <-. destruct (raft_votes_is_majority n votes).
  - by apply (become_leader_tells a w2 u3).
  - injection H3 as _ <-. by apply silent_tells.
Qed.

Lemma aer_tells a p r w e w' : raft_recv_appendentries_response p r w = Ok e w' ->
  log_repr w' a -> no_snapshot w' -> 0 <= commit_of w' -> tells a w w'.
Proof.
  intros H R S Hcm. unfold raft_recv_appendentries_response, raft_get_current_idx, raft_is_leader,
    raft_get_state, raft_get_current_term in H.
  run_bind H as ci w1 H1. apply log_get_current_idx_ro in H1 as <-. run_bind H as u1 w1 H1.
  assert (silent w w1) as K1 by (eapply keeps_silent; [|exact H1]; intros cbs; keeps_solve).
  apply (silent_then a w w1); [done|]. run_simp H.
  destruct (bool_decide (state (srv w1) = RAFT_STATE_LEADER)) eqn:Hl; cbn [negb] in H.
  2: { run_ret H. by apply silent_tells. }
  apply bool_decide_eq_true in Hl. run_simp H. destruct (_ <? aer_term r).
  { apply silent_tells. eapply keeps_silent; [|exact H]. intros cbs. keeps_solve. }
  destruct (negb _) in H; [run_ret H; by apply silent_tells|].
  run_bind H as m w2 H2. apply node_read_ro in H2 as <-. destruct (0 =? _).
  - run_keeps H (same lectern) as K; [by unfold recv_aer_failure, raft_node_set_next_idx; unfold_accessors; keeps_solve|].
    eapply lectern_tells; [|exact H|done..].
    intros cbs PA PV HPA. apply recv_aer_failure_posts; [apply _|exact HPA|apply _].
  - unfold recv_aer_success in H. destruct (_ <=? m); [run_ret H; by apply silent_tells|].
    unfold raft_get_current_idx in H. run_bind H as c w2 H2. apply log_get_current_idx_ro in H2 as <-.
    run_simp H. destruct (_ <=? c); [|done]. destruct (int_ok _); [|done].
    run_bind H as u2 w2 H2. run_bind H as u3 w3 H3. run_bind H as u4 w4 H4. run_bind H as u5 w5 H5.
    run_bind H as n w6 H6. apply node_read_ro in H6 as <-.
    run_bind H as q w6 H6. apply log_get_at_idx_ro in H6 as <-.
    run_bind H as u6 w6 H6. injection H as _ <-.
    assert (silent w1 w5) as K5.
    { transitivity w2; [|transitivity w3; [|transitivity w4]];
        [eapply keeps_silent; [|exact H2]|eapply keeps_silent; [|exact H3]
        |eapply keeps_silent; [|exact H4]|eapply keeps_silent; [|exact H5]];
        intros cbs; unfold raft_node_set_next_idx, raft_node_set_match_idx; keeps_solve. }
    apply (silent_then a w1 w5); [done|].
    run_keeps H2 (same role) as R2.
    run_keeps H3 (same role) as R3.
    run_keeps H4 (same role) as R4. run_keeps H5 (same role) as R5.
    run_keeps H6 (same lectern) as K. 
    destruct (bool_decide _) in H6; [|injection H6 as _ <-; by apply silent_tells].
    assert (role w5 = RAFT_STATE_LEADER) as R' by (unfold same, role in *; congruence).
    eapply lectern_tells; [|exact H6|done..].
    intros cbs PA PV HPA. cbn [when]. keeps_solve. apply raft_send_appendentries_posts; [apply _|exact HPA].
Qed.

(** Honest messages in two stages. *)
Lemma tells_trans a w w1 w' : tells a w w1 -> tells a w1 w' ->
  word w' = word w1 -> commit_of w1 <= commit_of w' -> tells a w w'.
Proof.
  intros [Hc R] [Hc' R'] Hw Hm. split; [congruence|]. rewrite Hc in R'.
  etransitivity; [|exact R']. eapply user_calls_mono, R.
  - intros m. by apply honest_append_mono.
  - intros m. by apply honest_request_mono.
Qed.

(** The log and what makes it start at index 1. *)
Definition ground (w : world) := (log_state w, no_snapshot w).
Lemma ground_back w w' a : ground w' = ground w -> log_repr w' a -> no_snapshot w' ->
  log_repr w a /\ no_snapshot w.
Proof.
  unfold ground. intros E R S. split; [|by injection E as _ _ _ <-].
  eapply log_repr_same; [|exact R]. congruence.
Qed.

Lemma recv_entry_tells a ety w r w' : raft_recv_entry ety w = Ok r w' ->
  log_repr w' a -> no_snapshot w' -> 0 <= commit_of w -> tells a w w'.
Proof.
  intros H R S Hpos. unfold raft_recv_entry, raft_voting_change_is_in_progress,
    raft_snapshot_is_in_progress, raft_is_leader, raft_get_state, raft_get_current_idx in H.
  run_simp H. destruct (_ && _) in H; [run_ret H; by apply silent_tells|].
  destruct (_ && _) in H; [run_ret H; by apply silent_tells|]. run_simp H.
  destruct (bool_decide (state (srv w) = RAFT_STATE_LEADER)) eqn:Hl; cbn [negb] in H.
  2: { run_ret H. by apply silent_tells. }
  apply bool_decide_eq_true in Hl. run_bind H as ci w1 H1. apply log_get_current_idx_ro in H1 as <-.
  run_simp H. destruct (int_ok _); [|done]. run_bind H as u1 w1 H1. run_simp H.
  run_bind H as [e ety1] w2 H2.
  assert (silent w w2) as K2.
  { transitivity w1; [eapply keeps_silent; [|exact H1]|eapply keeps_silent; [|exact H2]];
      intros cbs; keeps_solve. }
  apply (silent_then a w w2); [done|]. destruct (truth e); [run_ret H; by apply silent_tells|].
  run_keeps H1 (same role) as R1. run_keeps H2 (same role) as R2.
  run_bind H as u3 w3 H3.
  assert (silent w3 w') as K3.
  { eapply keeps_silent; [|exact H]. intros cbs. keeps_solve. }
  run_keeps H (same ground) as G. run_keeps H (same word) as W. unfold same in G, W.
  assert (commit_of w3 <= commit_of w') as Hm.
  { clear -H. run_keeps H hist as K. apply K. }
  destruct (ground_back _ _ _ G R S) as [R3 S3]. run_keeps H3 (same lectern) as L3.
  apply (tells_then a w2 w3); [|done..].
  assert (0 <= commit_of w3) as Hpos3.
  { run_keeps H1 (same commit_of) as C1. run_keeps H2 (same commit_of) as C2.
    run_keeps H3 (same commit_of) as C3. unfold same in *. lia. }
  eapply lectern_tells; [|exact H3|done|done|done| |done].
  - intros cbs PA PV HPA. apply send_new_entry_posts; [apply _|exact HPA].
  - unfold same, role in *. congruence.
Qed.


Lemma periodic_tells a n w e w' : server_ok w a -> normal_entries w ->
  raft_periodic n w = Ok e w' -> no_snapshot w' -> 0 <= commit_of w -> tells a w w'.
Proof.
  intros Sok N H S Hpos. run_keeps H (same ground) as G.
  assert (log_repr w' a) as R.
  { eapply log_repr_same; [|apply Sok]. unfold same, ground in G. congruence. }
  unfold raft_periodic in H. run_simp H. destruct (int_ok _); [|done]. run_simp H.
  set (w1 := with_srv _ w) in H. assert (server_ok w1 a) as Sok1 by by apply (server_ok_same w).
  apply (silent_then a w w1); [done|].
  run_bind H as k w2 H2. apply raft_get_num_voting_nodes_ro in H2 as <-.
  run_bind H as u2 w2 H2. run_simp H. run_bind H as x w3 H3.
  run_keeps H2 (same entry_heap) as E2. run_keeps H3 (same entry_heap) as E3.
  assert (silent w3 w' /\ word w' = word w3 /\ commit_of w3 <= commit_of w' /\ ground w' = ground w3)
    as (K & W & Hm & G3).
  { destruct (truth x); [by run_ret H|]. unfold raft_get_last_applied_idx, raft_get_commit_idx,
      raft_snapshot_is_in_progress in H. split_and!.
    - eapply keeps_silent; [|exact H]. intros cbs. keeps_solve.
    - run_keeps H (same (fun w => (role_of w, snapshot_last_term (srv w)))) as K1.
      assert (keeps (stays polls) raft_apply_entry) as Ha by (apply raft_apply_entry_stays; apply _).
      run_keeps H (stays polls) as K2. destruct K2 as [_ K2].
      { unfold normal_entries, same in *. rewrite E3, E2. exact N. }
      unfold word. unfold same in K1. unfold polls in K2. 
      rewrite (roll_self_id w3 w') by congruence. congruence.
    - run_keeps H (same commit_of) as K. unfold same in K. lia.
    - run_keeps H (same ground) as K. exact K. }
  destruct (ground_back _ _ _ G3 R S) as [R3 S3]. apply (tells_then a w1 w3); [|done..].
  clear H K W Hm G3. run_keeps H2 (same ground) as G2. run_keeps H3 (same ground) as G3.
  destruct (ground_back _ _ _ G3 R3 S3) as [R2 S2].
  run_keeps H2 (same commit_of) as C2. run_keeps H3 (same commit_of) as C3. unfold same in C2, C3.
  change (commit_of w) with (commit_of w1) in Hpos.
  assert (role w2 = RAFT_STATE_LEADER ->
    tells a w2 w3 /\ word w3 = word w2 /\ commit_of w3 = commit_of w2) as Hlead.
  { intros Hr. unfold role in Hr. rewrite (bool_decide_true _ Hr) in H3.
    split_and!.
    - run_bind H3 as u4 w4 H4. injection H3 as _ <-. destruct (_ <=? _); cbn [when] in H4.
      + run_bind H4 as e4 w5 H5. injection H4 as _ <-. apply (send_all_tells a w2 e4); try done. congruence.
      + injection H4 as _ <-. by apply silent_tells.
    - run_keeps H3 (same word) as K. exact K.
    - run_keeps H3 (same commit_of) as K. exact K. }
  assert (w2 = w1 \/ exists u, raft_become_leader w1 = Ok u w2) as [->|[u HL]].
  { destruct (1 =? k); cbn [when] in H2; [|injection H2 as _ <-; by left].
    run_bind H2 as my w4 H4. apply raft_get_my_node_ro in H4 as <-. run_bind H2 as v w4 H4. apply node_read_ro in H4 as <-.
    destruct v; cbn [when] in H2; [|injection H2 as _ <-; by left].
    unfold raft_is_leader, raft_get_state in H2. run_simp H2.
    destruct (negb _) in H2; cbn [when] in H2; [right; by eexists|injection H2 as _ <-; by left]. }
  2: { pose proof (raft_become_leader_role _ _ _ HL) as [Hr _].
    destruct (Hlead Hr) as (K & Hw & Hc).
    apply (tells_trans a w1 w2); [|done|done|lia].
    apply (become_leader_tells a w1 u); try done. lia. }
  destruct (decide (state (srv w1) = RAFT_STATE_LEADER)) as [Hr|Hr]; [by apply Hlead|].
  rewrite (bool_decide_false _ Hr) in H3.
  destruct (_ && _) in H3; [|injection H3 as _ <-; by apply silent_tells].
  run_bind H3 as m w4 H4. apply raft_get_num_voting_nodes_ro in H4 as <-.
  destruct (1 <? m); [|injection H3 as _ <-; by apply silent_tells].
  run_bind H3 as my w4 H4. apply raft_get_my_node_ro in H4 as <-.
  run_bind H3 as v w4 H4. apply node_read_ro in H4 as <-.
  destruct v; [|injection H3 as _ <-; by apply silent_tells].
  clear H2. unfold raft_election_start, raft_get_current_idx in H3.
  run_bind H3 as ci w4 H4. apply log_get_current_idx_ro in H4 as <-. run_bind H3 as u4 w4 H4.
  run_keeps H4 (same stable_state) as K1. run_keeps H4 (same settings) as K2.
  apply (silent_then a w1 w4).
  - eapply keeps_silent; [|exact H4]. intros cbs. keeps_solve.
  - apply (become_candidate_tells a w4 x); [by apply (server_ok_same w1)|done].
Qed.

(** *** The interface *)

Lemma message_honest_run o w w' a a' :
  server_ok w a -> normal_entries w -> 0 <= commit_of w -> run_op o w = Ok tt w' ->
  log_repr w' a' -> no_snapshot w' -> tells a' w w'.
Proof.
  intros Sok N Hpos H R S. assert (0 <= commit_of w') as Hpos'.
  { apply run_op_hist in H as [(_ & ? & _) _]. lia. }
  destruct o as [n|p ae|p r|p vr|p r|ety|]; cbn [run_op] in H;
    run_bind H as x w1 H1; injection H as ->.
  - run_keeps H1 (same ground) as G.
    assert (a' = a) as ->.
    { apply (log_repr_unique w'); [done|]. eapply log_repr_same; [|apply Sok].
      unfold same, ground in G. congruence. }
    by apply (periodic_tells a n w x).
  - apply silent_tells. eapply keeps_silent; [|exact H1]. intros cbs. keeps_solve.
  - by apply (aer_tells a' p r w x).
  - apply silent_tells. eapply keeps_silent; [|exact H1]. intros cbs. keeps_solve.
  - by apply (response_counted_tells a' p r w x).
  - by apply (recv_entry_tells a' ety w x).
  - apply silent_tells. eapply keeps_silent; [|exact H1]. intros cbs. keeps_solve.
Qed.

(** C13: whatever call of the interface the user makes of a server in order, with
    whatever functions of its own that send, log, apply and name entries, the library
    asks it to send nothing but honest messages: an appendentries message only as a
    leader, with its own term, a piece of its own log behind the entry that precedes
    it, and a commit index it has reached; a vote request only as a candidate, with
    its own term, id and last entry.  A server in order ([server_ok]): its lists of
    members and entries are well formed, its log is empty or still holds its last
    entry, its timers are in range, and its functions that make the term and the vote
    persistent answer 0.  The entries in its memory are application entries, its
    commit index is not negative, and no snapshot was loaded and nothing evicted
    ([no_snapshot]) when the call returns. *)
Theorem messages_honest o w w' a a' :
  server_ok w a -> normal_entries w -> 0 <= commit_of w -> run_op o w = Ok tt w' ->
  log_repr w' a' -> no_snapshot w' -> tells a' w w'.
Proof. apply message_honest_run. Qed.
End Honest.

(** A follower with three entries stands for election. *)
Lemma messages_honest_witness :
  let w' := run_world (run_op (OpPeriodic 3000)) sim_log3 in
  vote_request w' sim_alog3 = mk_requestvote 1 1 3 2 /\
  EvRequestVote 2 (vote_request w' sim_alog3) ∈ user_data w' /\
  server_ok sim_log3 sim_alog3 /\ tells sim_alog3 sim_log3 w'.
Proof.
  split; [vm_compute; reflexivity|]. split; [vm_compute; set_solver|]. split; [exact sim_log3_ok|].
  apply (messages_honest (OpPeriodic 3000) sim_log3 _ sim_alog3 sim_alog3).
  - exact sim_log3_ok.
  - apply normal_entries_check. vm_compute. reflexivity.
  - vm_compute. discriminate.
  - apply run_ok. vm_compute. reflexivity.
  - eapply log_repr_same; [|apply sim_log3_ok]. vm_compute. reflexivity.
  - split; vm_compute; reflexivity.
Defined.
