(* ===== verification/Growth.v ===== *)
(** * How a log grows when no entry is deleted

    A user whose [log_offer] accepts every entry and whose [log_pop] refuses every
    deletion, as that of app/main.c: whatever the call, a server that goes on only
    appends to its log.  A call is inverted here: from the fact that it ended, and
    for an appendentries message that it returned 0, follows what it did. *)
From S2P Require Import Prelude Contiki Types Node Membership Log Server Election Replication.
From S2P Require Import Sim NodeFacts Frames History LogFacts MemberFacts ElectionFacts Roles.
From S2P Require Import Campaign Sending Receiving Fixed Conflict.

Section Growth.
Context {T : CTarget} {C : Contiki} {L : ContikiLaws C} {U : User}.
Implicit Types w : world.

Definition appends_only w : Prop := offers_accept w /\ exists e, pops_refuse w e.

Lemma pops_refuse_same w w' e : lg w' = lg w -> cb (srv w') = cb (srv w) ->
  pops_refuse w e -> pops_refuse w' e.
Proof. unfold pops_refuse. by intros -> ->. Qed.

Lemma appends_only_stable w w' : stable_state w' = stable_state w -> settings w' = settings w ->
  appends_only w -> appends_only w'.
Proof.
  intros HS HT [Ho [e He]]. split; [by eapply offers_accept_stable|]. exists e.
  eapply pops_refuse_same, He; [unfold stable_state, log_state in HS|unfold settings in HT]; congruence.
Qed.

(** What the server sets up in its log once and for all. *)
Definition log_setup (w : world) := (base (lg w), log_cb (lg w), log_raft (lg w)).

Lemma log_setup_lg w w' : lg w' = lg w -> log_setup w' = log_setup w.
Proof. unfold log_setup. by intros ->. Qed.
Lemma log_setup_stable w w' : stable_state w' = stable_state w -> log_setup w' = log_setup w.
Proof. intros HS. apply log_setup_lg. unfold stable_state, log_state in HS. congruence. Qed.
Lemma log_setup_outside w w' : outside_log w' = outside_log w -> log_setup w' = log_setup w.
Proof. unfold outside_log, log_setup. congruence. Qed.

Lemma appends_only_setup w w' : log_setup w' = log_setup w -> cb (srv w') = cb (srv w) ->
  appends_only w -> appends_only w'.
Proof.
  unfold log_setup, appends_only, offers_accept, pops_refuse. by intros [= _ -> ->] ->.
Qed.

(** A deletion never succeeds. *)
Lemma delete_nonzero idx w e w' : appends_only w -> raft_delete_entry_from_idx idx w = Ok e w' ->
  e <> 0.
Proof.
  intros [_ [e0 (He0 & Hcb & Hraft & f & Hf & Hans)]] H. unfold raft_delete_entry_from_idx in H.
  run_simp H. destruct (_ <? _); [|done]. run_bind H as u w1 H1.
  assert (lg w1 = lg w /\ cb (srv w1) = cb (srv w)) as [Hl Hc].
  { destruct (_ <=? _); cbn [when] in H1; [|by injection H1 as _ <-]. by injection H1 as _ <-. }
  unfold log_delete in H. run_simp H. destruct (0 =? idx); [by run_ret H|].
  run_bind H as q w2 Hq. apply log_find_ro in Hq as <-. destruct q as [p|]; [|by run_ret H].
  run_bind H as ety w2 He. apply entry_get_ro in He as <-. rewrite Hl, Hcb in H.
  cbn [deref_static] in H. run_simp H. rewrite Hc, Hf in H. unfold non_null in H. run_simp H.
  rewrite Hraft in H. unfold raft_get_udata, deref_static in H. run_simp H.
  run_bind H as x w3 Hx. unfold call in Hx. run_simp Hx. rewrite Hans in Hx.
  injection Hx as <- _. unfold truth in H. rewrite (proj2 (Z.eqb_neq _ _) He0) in H. by run_ret H.
Qed.

(** *** The two loops *)

(** The entries [es] of a message are already in the log from index [idx] on:
    each has the term of the entry the log holds, or is committed. *)
Definition present (w : world) (a : alog) (idx : Z) (es : list raft_entry_t) : Prop :=
  forall j y, es !! j = Some y -> exists x, al_get a (idx + Z.of_nat j) = Some x /\
    (ety_term x = ety_term y \/ idx + Z.of_nat j <= commit_of w).

Lemma present_cons w a idx y es x : al_get a idx = Some x ->
  (ety_term x = ety_term y \/ idx <= commit_of w) -> present w a (idx + 1) es ->
  present w a idx (y :: es).
Proof.
  intros Hx Ht H [|j] z Hz.
  - injection Hz as <-. exists x. rewrite Z.add_0_r. done.
  - destruct (H j z Hz) as (x' & Hx' & Hd). exists x'.
    replace (idx + Z.of_nat (S j)) with (idx + 1 + Z.of_nat j) by lia. done.
Qed.

Lemma recv_ae_match_inv ae w a n i es f w' :
  appends_only w -> log_repr w a -> 0 <= i -> 0 <= ae_prev_log_idx ae ->
  let at_ := ae_prev_log_idx ae + 1 + i in
  recv_ae_match ae n i es (at_ - 1) w = Ok f w' ->
  (w' = w /\ exists k, (k <= n)%nat /\ (k <= length es)%nat /\
     f = Next (i + Z.of_nat k) (drop k es) (at_ - 1 + Z.of_nat k) /\
     present w a at_ (take k es) /\ (k = n \/ al_get a (at_ + Z.of_nat k) = None)) \/
  exists e cur, f = GotoOut e cur /\ e <> 0.
Proof.
  intros Ha R Hi Hp. cbv zeta. revert i es Hi. induction n as [|n IH]; intros i es Hi H;
    cbn [recv_ae_match] in H.
  - run_ret H. left. split; [done|]. exists 0%nat. split_and!; try lia; [|done].
    rewrite drop_0. f_equal; lia.
  - unfold ae_index in H. rewrite bind_assoc in H. run_simp H. destruct (int_ok _); [|done].
    run_simp H. destruct (int_ok (ae_prev_log_idx ae + 1 + i)) eqn:Hok; [|done].
    apply int_ok_iff in Hok. unfold raft_get_entry_from_idx in H.
    destruct (log_get_at_idx_ok w a (ae_prev_log_idx ae + 1 + i) R ltac:(lia)) as (q & Hq & Hg).
    rewrite (bind_ok_l _ _ _ _ _ Hq) in H.
    destruct (al_get a (ae_prev_log_idx ae + 1 + i)) as [x|] eqn:Hx.
    + destruct Hg as (z & -> & Hz). rewrite (bind_ok_l _ _ _ _ _ (entry_get_ok _ _ _ Hz)) in H.
      destruct es as [|y es]; [done|]. run_simp H. destruct (_ && _) eqn:Hc.
      * run_bind H as e w1 Hd. apply delete_nonzero in Hd; [|done]. run_ret H. right.
        unfold truth. rewrite (proj2 (Z.eqb_neq _ _) Hd). by eexists _, _.
      * replace (ae_prev_log_idx ae + 1 + i) with (ae_prev_log_idx ae + 1 + (i + 1) - 1) in H by lia.
        apply IH in H as [(-> & k & Hk & Hl & -> & Hpr & He)|(e & c & -> & He)];
          [|by right; eexists _, _|lia].
        left. split; [done|]. exists (S k). cbn [length take drop]. split_and!; try lia.
        -- f_equal; lia.
        -- eapply present_cons; [done| |by replace (ae_prev_log_idx ae + 1 + i + 1)
             with (ae_prev_log_idx ae + 1 + (i + 1)) by lia].
           apply andb_false_iff in Hc as [Hc|Hc].
           ++ left. by apply negb_false_iff, Z.eqb_eq in Hc.
           ++ right. apply Z.ltb_ge in Hc. done.
        -- destruct He as [->|He]; [by left|right]. rewrite <- He. f_equal. lia.
    + cbn in Hg. subst q. run_ret H. left. split; [done|]. exists 0%nat. cbn.
      split_and!; try lia; [|done|right; by rewrite Z.add_0_r].
      f_equal; lia.
Qed.

Lemma appends_only_outside w w' : outside_log w' = outside_log w -> appends_only w -> appends_only w'.
Proof.
  intros HO [Ho [e (He & H1 & H2 & H3)]]. split; [by eapply offers_accept_same|]. exists e.
  unfold outside_log in HO. injection HO as E1 _ _ _ _ E2 E3. unfold pops_refuse. by rewrite E1, E2, E3.
Qed.

(** An append that ended. *)
Lemma append_normal_inv e0 w a r w' : appends_only w -> server_ok w a ->
  raft_entry_is_cfg_change e0 = false -> raft_append_entry e0 w = Ok r w' ->
  r = (0, with_ety_idx (al_last a + 1) e0) /\ server_ok w' (al_append e0 a) /\
  outside_log w' = outside_log w.
Proof.
  intros [Ho _] Sok Hn H. unfold raft_append_entry in H. rewrite normal_not_voting in H by done.
  cbn [when] in H. rewrite bind_ret_l in H. pose proof (so_log _ _ Sok) as R.
  assert (al_last a < INT_MAX) as Hmax.
  { pose proof (lr_last _ _ R). unfold log_append_entry in H. run_simp H.
    destruct (int_ok (base _ + _)); [|done]. run_simp H.
    destruct (int_ok (base _ + _ + 1)) eqn:Hi; [|done]. apply int_ok_iff in Hi. lia. }
  destruct (log_append_entry_run e0 w a R Hmax Hn Ho) as (w1 & H1 & R1 & O1 & _).
  rewrite H1 in H. injection H as <- <-. split; [done|]. split; [by eapply server_ok_append|done].
Qed.

Lemma recv_ae_append_inv ae w a n i es f w' :
  appends_only w -> server_ok w a -> Forall (fun e => raft_entry_is_cfg_change e = false) es ->
  recv_ae_append ae n i es (ae_prev_log_idx ae + i) w = Ok f w' ->
  exists m, (m <= n)%nat /\ (m <= length es)%nat /\ server_ok w' (al_appends (take m es) a) /\
    outside_log w' = outside_log w /\
    let cur := ae_prev_log_idx ae + i + Z.of_nat m in
    (m = n /\ f = Next (i + Z.of_nat m) (drop m es) cur) \/
    (m = length es /\ (m < n)%nat /\ f = GotoOut 0 cur).
Proof.
  revert w a i es. induction n as [|n IH]; intros w a i es Ha Sok Hn H; cbn [recv_ae_append] in H.
  { run_ret H. exists 0%nat. cbn. split_and!; try lia; try done. left. split; [done|].
    f_equal; lia. }
  destruct es as [|y es].
  { run_ret H. exists 0%nat. cbn. split_and!; try lia; try done. right. split_and!; [done|lia|].
    f_equal; lia. }
  apply Forall_cons in Hn as [Hy Hn]. run_bind H as r w1 H1.
  destruct (append_normal_inv y w a r w1 Ha Sok Hy H1) as (-> & Sok1 & O1).
  cbn [truth Z.eqb negb] in H. unfold ae_index in H. rewrite bind_assoc in H. run_simp H.
  destruct (int_ok _); [|done]. run_simp H. destruct (int_ok _); [|done].
  replace (ae_prev_log_idx ae + 1 + i) with (ae_prev_log_idx ae + (i + 1)) in H by lia.
  destruct (IH w1 (al_append y a) (i + 1) es) as (m & Hm1 & Hm2 & Sok2 & O2 & Hf); try done.
  { by eapply appends_only_outside. }
  exists (S m). cbn [take drop length]. split_and!; try lia; [exact Sok2|congruence|].
  cbv zeta in *. replace (ae_prev_log_idx ae + i + Z.of_nat (S m))
    with (ae_prev_log_idx ae + (i + 1) + Z.of_nat m) by lia.
  destruct Hf as [[-> ->]|(-> & Hlt & ->)]; [left|right; split_and!; done || lia].
  split; [done|]. f_equal. lia.
Qed.

(** *** The handler *)

(** What an appendentries message that returned 0 did to a server with log [a]. *)
Inductive ae_outcome (w : world) (a : alog) (ae : msg_appendentries_t)
    (r : msg_appendentries_response_t) (w' : world) : alog -> Prop :=
  | ae_refused : aer_success r = 0 -> commit_of w' = commit_of w -> ae_outcome w a ae r w' a
  | ae_taken k m : aer_success r = 1 -> term_of w <= ae_term ae -> term_of w' = ae_term ae ->
      consistent a ae ->
      let es := take k (ae_entries ae) in let new := take m (drop k (ae_entries ae)) in
      (length es = k) -> (length new = m) ->
      present w a (ae_prev_log_idx ae + 1) es ->
      (m = 0%nat \/ al_get a (ae_prev_log_idx ae + 1 + Z.of_nat k) = None) ->
      aer_current_idx r = ae_prev_log_idx ae + Z.of_nat (k + m) ->
      (commit_of w' = commit_of w \/
       commit_of w < ae_leader_commit ae /\ Z.of_nat (k + m) = Z.max 0 (ae_n_entries ae) /\
       commit_of w' = c_min (c_max (al_last (al_appends new a)) 1) (ae_leader_commit ae)) ->
      ae_outcome w a ae r w' (al_appends new a).

Lemma recv_ae_out_inv ae e s cur w x w' : recv_ae_out ae e s cur w = Ok x w' ->
  w' = w /\ fst x = e /\ aer_success (snd x) = s /\ aer_term (snd x) = term_of w /\
  (s <> 0 -> aer_current_idx (snd x) = cur).
Proof.
  intros H. unfold recv_ae_out, raft_get_current_term in H. run_simp H. run_bind H as ci w1 H1.
  assert (w1 = w /\ (s <> 0 -> ci = cur)) as [-> Hci].
  { destruct (Z.eqb_spec s 0) as [->|Hs].
    - apply log_get_current_idx_ro in H1 as <-. by split.
    - run_ret H1. by split. }
  run_simp H. destruct (int_ok _); [|done]. by run_ret H.
Qed.

Lemma recv_ae_commit_inv ae w a w' : server_ok w a -> recv_ae_commit ae w = Ok tt w' ->
  server_ok w' a /\ term_of w' = term_of w /\ lg w' = lg w /\ cb (srv w') = cb (srv w) /\
  (commit_of w' = commit_of w \/
   commit_of w < ae_leader_commit ae /\
   commit_of w' = c_min (c_max (al_last a) 1) (ae_leader_commit ae)).
Proof.
  intros Sok H. unfold recv_ae_commit, raft_get_commit_idx, raft_get_current_idx in H. run_simp H.
  destruct (Z.ltb_spec (commit_idx (srv w)) (ae_leader_commit ae)) as [Hlt|]; cbn [when] in H.
  - rewrite (bind_ok_l _ _ _ _ _ (log_get_current_idx_repr _ _ (so_log _ _ Sok))) in H.
    unfold raft_set_commit_idx in H. run_simp H. destruct (_ <=? _); [|done].
    run_bind H as ci w1 H1. apply log_get_current_idx_ro in H1 as <-. run_simp H.
    destruct (_ <=? _); [|done]. injection H as <-. split_and!; try done; [|by right].
    apply (server_ok_commit w); [done|eexists; by right|done].
  - injection H as <-. split_and!; try done. by left.
Qed.

Lemma recv_ae_entries_inv ae w a r w' :
  appends_only w -> server_ok w a -> Forall (fun e => raft_entry_is_cfg_change e = false) (ae_entries ae) ->
  0 <= ae_prev_log_idx ae -> consistent a ae -> term_of w = ae_term ae ->
  recv_ae_entries ae w = Ok (0, r) w' ->
  exists a', server_ok w' a' /\ log_setup w' = log_setup w /\ term_of w' = term_of w /\
    aer_term r = term_of w' /\ ae_outcome w a ae r w' a'.
Proof.
  intros Ha Sok Hn Hp Hc Ht H. unfold recv_ae_entries in H. run_bind H as f w1 H1.
  replace (ae_prev_log_idx ae) with (ae_prev_log_idx ae + 1 + 0 - 1) in H1 at 1 by lia.
  destruct (recv_ae_match_inv ae w a _ 0 _ f w1 Ha (so_log _ _ Sok) ltac:(lia) Hp H1)
    as [(-> & k & Hk & Hkl & -> & Hpr & Hend)|(e & c & -> & He)].
  2: { apply recv_ae_out_inv in H as (_ & He' & _). by cbn in He'. }
  rewrite Z.add_0_r in Hpr, Hend. clear H1. run_bind H as f w2 H2.
  replace (ae_prev_log_idx ae + 1 + 0 - 1 + Z.of_nat k) with (ae_prev_log_idx ae + (0 + Z.of_nat k))
    in H2 by lia.
  destruct (recv_ae_append_inv ae w a _ (0 + Z.of_nat k) _ f w2 Ha Sok (Forall_drop _ _ _ Hn) H2)
    as (m & Hm1 & Hm2 & Sok2 & O2 & Hf). cbv zeta in Hf.
  pose proof (appends_only_outside w w2 O2 Ha) as Ha2.
  assert (srv w2 = srv w) as S2 by (unfold outside_log in O2; congruence).
  set (new := take m (drop k (ae_entries ae))) in *.
  assert (length (take k (ae_entries ae)) = k) as L1 by (rewrite length_take; lia).
  assert (length new = m) as L2 by (unfold new; rewrite length_take; lia).
  assert (m = 0%nat \/ al_get a (ae_prev_log_idx ae + 1 + Z.of_nat k) = None) as Hnew.
  { destruct Hend as [->|]; [left; lia|by right]. }
  assert (forall x w3, commit_of w3 = commit_of w \/
       commit_of w < ae_leader_commit ae /\ Z.of_nat (k + m) = Z.max 0 (ae_n_entries ae) /\
       commit_of w3 = c_min (c_max (al_last (al_appends new a)) 1) (ae_leader_commit ae) ->
    server_ok w3 (al_appends new a) -> log_setup w3 = log_setup w -> term_of w3 = term_of w ->
    recv_ae_out ae 0 1 (ae_prev_log_idx ae + (0 + Z.of_nat k) + Z.of_nat m) w3 = Ok x w' ->
    x = (0, r) -> exists a', server_ok w' a' /\ log_setup w' = log_setup w /\
    term_of w' = term_of w /\ aer_term r = term_of w' /\ ae_outcome w a ae r w' a') as Hdone.
  { intros x w3 Hcm Sok3 Ha3 T3 Ho ->.
    apply recv_ae_out_inv in Ho as (-> & _ & Hs & Htr & Hcur). cbn [snd] in *.
    exists (al_appends new a). split_and!; try done.
    apply (ae_taken w a ae r w3 k m); try done; [lia|congruence|].
    rewrite Hcur by done. lia. }
  destruct Hf as [[-> ->]|(-> & Hlt & ->)].
  - run_bind H as u w3 H3. destruct u.
    destruct (recv_ae_commit_inv ae w2 _ w3 Sok2 H3) as (Sok3 & T3 & E3 & C3 & Hcm).
    unfold commit_of, term_of in *. rewrite S2 in *.
    apply (Hdone _ w3) in H; try done.
    + destruct Hcm as [Hcm|[Hcm1 Hcm2]]; [by left|right; split_and!; try done; lia].
    + rewrite (log_setup_lg w2 w3 E3). by apply log_setup_outside.
  - apply (Hdone _ w2) in H; try done.
    + left. unfold commit_of. by rewrite S2.
    + by apply log_setup_outside.
    + unfold term_of. by rewrite S2.
Qed.

Lemma raft_recv_appendentries_inv p ae w a r w' :
  appends_only w -> server_ok w a -> normal_message ae -> 0 <= ae_prev_log_idx ae <= INT_MAX ->
  raft_recv_appendentries p ae w = Ok (0, r) w' ->
  exists a', server_ok w' a' /\ log_setup w' = log_setup w /\ aer_term r = term_of w' /\
    ae_outcome w a ae r w' a'.
Proof.
  intros Ha Sok Hn Hp H. destruct (Z.ltb_spec (ae_term ae) (term_of w)) as [Hold|Hterm].
  { assert (stable_state w' = stable_state w /\ settings w' = settings w /\ aer_success r = 0 /\
      aer_term r = term_of w') as (E1 & E2 & E3 & E4).
    { unfold raft_recv_appendentries in H. run_bind H as u w1 H1.
      run_keeps H1 (same term_of) as T1.
      run_keeps H1 (same stable_state) as K1. run_keeps H1 (same settings) as K2. unfold same in *.
      unfold raft_is_candidate, raft_get_state, raft_get_current_term in H. run_simp H.
      change (current_term (srv w1)) with (term_of w1) in H. rewrite T1 in H.
      rewrite (proj2 (Z.eqb_neq (term_of w) (ae_term ae))), andb_false_r in H by lia.
      rewrite (proj2 (Z.ltb_ge (term_of w) (ae_term ae))) in H by lia.
      rewrite (proj2 (Z.ltb_lt (ae_term ae) (term_of w))) in H by lia.
      run_bind H as u2 w2 H2. run_keeps H2 (same stable_state) as K3. run_keeps H2 (same settings) as K4.
      unfold same in *. apply recv_ae_out_inv in H as (-> & _ & ? & ? & _). cbn in *.
      split_and!; congruence. }
    exists a. split_and!; [by apply (server_ok_same w)|by apply log_setup_stable|done|].
    apply ae_refused; [done|]. unfold stable_state in E1. unfold commit_of. congruence. }
  destruct (raft_recv_appendentries_enter p ae w a Sok Hterm) as (w1 & Hrun & K1 & K1' & T1 & _).
  rewrite Hrun in H. clear Hrun. unfold recv_ae_prev in H. rewrite !bind_upd_srv_l in H.
  set (w2 := with_srv _ (with_srv _ _)) in H.
  assert (stable_state w2 = stable_state w) as K2 by done.
  assert (settings w2 = settings w) as K2' by done. assert (term_of w2 = ae_term ae) as T2 by done.
  clearbody w2. clear K1 K1' T1 w1.
  pose proof (server_ok_same _ _ _ K2 K2' Sok) as Sok2.
  pose proof (appends_only_stable _ _ K2 K2' Ha) as Ha2.
  pose proof (log_setup_stable _ _ K2) as S2.
  assert (commit_of w2 = commit_of w) as C2 by (unfold stable_state in K2; unfold commit_of; congruence).
  assert (consistent a ae -> recv_ae_entries ae w2 = Ok (0, r) w' ->
    exists a', server_ok w' a' /\ log_setup w' = log_setup w /\ aer_term r = term_of w' /\
    ae_outcome w a ae r w' a') as Hgo.
  { intros Hc Hrun.
    destruct (recv_ae_entries_inv ae w2 a r w' Ha2 Sok2 Hn (proj1 Hp) Hc T2 Hrun)
      as (a' & ? & ? & T' & ? & Ho). exists a'. split_and!; try done.
    { congruence. }
    destruct Ho as [Hs Hcm|k m Hs _ Ht _ es new L1 L2 Hpr Hnew Hcur Hcm].
    - apply ae_refused; [done|congruence].
    - apply (ae_taken w a ae r w' k m); try done; [|by rewrite <- C2].
      unfold present in *. by rewrite <- C2. }
  destruct (Z.ltb_spec 0 (ae_prev_log_idx ae)) as [Hpos|]; [|apply Hgo; [left; lia|done]].
  unfold raft_get_entry_from_idx in H.
  destruct (log_get_at_idx_ok w2 a (ae_prev_log_idx ae) (so_log _ _ Sok2)
    ltac:(pose proof INT_MIN_MAX; lia)) as (q & Hq & Hg).
  rewrite (bind_ok_l _ _ _ _ _ Hq) in H.
  destruct (al_get a (ae_prev_log_idx ae)) as [x|] eqn:Hx.
  - destruct Hg as (z & -> & Hz). rewrite (bind_ok_l _ _ _ _ _ (entry_get_ok _ _ _ Hz)) in H.
    destruct (Z.eqb_spec (ety_term x) (to_uint (ae_prev_log_term ae))) as [Ht|Ht]; cbn [negb] in H.
    { apply Hgo; [right; by exists x|done]. }
    exfalso. run_bind H as ci w3 H3. apply log_get_current_idx_ro in H3 as <-. run_bind H as u w3 H3.
    run_keeps H3 (same stable_state) as K3. run_keeps H3 (same settings) as K3'.
    run_simp H. destruct (int_ok _); [|done]. run_bind H as e w4 H4.
    apply delete_nonzero in H4; [|by apply (appends_only_stable w2)].
    by apply recv_ae_out_inv in H as (_ & He & _).
  - cbn in Hg. subst q. run_bind H as u w3 H3.
    run_keeps H3 (same stable_state) as K3. run_keeps H3 (same settings) as K3'. unfold same in *.
    apply recv_ae_out_inv in H as (-> & _ & ? & ? & _). exists a.
    split_and!; [by apply (server_ok_same w2)|rewrite <- S2; by apply log_setup_stable|done|].
    apply ae_refused; [done|]. rewrite <- C2. unfold commit_of. unfold stable_state in K3. congruence.
Qed.

(** *** The other calls *)
Lemma recv_entry_inv ety w a r w' :
  appends_only w -> server_ok w a -> raft_entry_is_cfg_change ety = false ->
  raft_recv_entry ety w = Ok r w' ->
  log_state w' = log_state w \/
  role w = RAFT_STATE_LEADER /\ role_of w' = role_of w /\ log_setup w' = log_setup w /\
  log_repr w' (al_append (with_ety_term (to_uint (term_of w)) ety) a).
Proof.
  intros Ha Sok Hn H. unfold raft_recv_entry, raft_voting_change_is_in_progress,
    raft_snapshot_is_in_progress, raft_is_leader, raft_get_state, raft_get_current_idx in H.
  rewrite normal_not_voting in H by done. cbn [andb] in H. run_simp H.
  destruct (bool_decide (state (srv w) = RAFT_STATE_LEADER)) eqn:Hl; cbn [negb] in H.
  2: { run_ret H. by left. }
  apply bool_decide_eq_true in Hl. right. split; [exact Hl|].
  run_bind H as ci w1 H1. apply log_get_current_idx_ro in H1 as <-.
  run_simp H. destruct (int_ok _); [|done]. run_bind H as u1 w1 H1. run_simp H.
  run_keeps H1 (same stable_state) as K1. run_keeps H1 (same settings) as K1'.
  run_keeps H1 (same role_of) as K1r. unfold same in *.
  pose proof (server_ok_same _ _ _ K1 K1' Sok) as Sok1.
  pose proof (appends_only_stable _ _ K1 K1' Ha) as Ha1.
  assert (current_term (srv w1) = term_of w) as T1
    by (unfold role_of, term_of in *; congruence).
  rewrite T1 in H. set (e := with_ety_term _ _) in H.
  run_bind H as r2 w2 H2.
  destruct (append_normal_inv e w1 a r2 w2 Ha1 Sok1 Hn H2) as (-> & Sok2 & O2).
  cbn [truth Z.eqb negb] in H. rewrite normal_not_voting in H by done. cbn [when] in H.
  assert (role_of w2 = role_of w) as R2.
  { rewrite <- K1r. assert (srv w2 = srv w1) as E by (unfold outside_log in O2; congruence).
    unfold role_of, role, term_of. by rewrite E. }
  run_keeps H (same log_state) as K. run_keeps H (same role_of) as Kr. unfold same in *.
  split; [congruence|]. split; [|by eapply log_repr_same; [exact K|apply Sok2]].
  transitivity (log_setup w1); [|by apply log_setup_stable].
  transitivity (log_setup w2); [|by apply log_setup_outside].
  apply log_setup_lg. unfold log_state in K. congruence.
Qed.
End Growth.
