(* ===== verification/Acks.v ===== *)
(** * Votes and acknowledgements

    What a granted vote tells of the voter's log, and what a leader remembers of
    its peers: [match_idx] is 0 when it takes office, and afterwards the index
    that the peer acknowledged last in a response of the leader's term. *)
From S2P Require Import Prelude Contiki Types Node Membership Log Server Election Replication.
From S2P Require Import Sim NodeFacts Frames History LogFacts MemberFacts ElectionFacts Roles.
From S2P Require Import Campaign Sending Receiving Commit Fixed.

Section Votes.
Context {T : CTarget} {C : Contiki} {L : ContikiLaws C} {U : User}.

(** A vote is granted to candidates whose log is up to date only. *)
Lemma decide_granted_up_to_date p vr w a e r w' : server_ok w a ->
  recv_requestvote_decide p vr w = Ok (e, r) w' -> rvr_vote_granted r = 1 -> up_to_date a vr = true.
Proof.
  intros [] H Hr. unfold recv_requestvote_decide in H.
  rewrite (bind_ok_l _ _ _ _ _ (should_grant_vote_ok w a vr so_nodes so_self so_log so_last)) in H.
  destruct (_ && up_to_date a vr) eqn:Hg; [by apply andb_true_iff in Hg as [_ ?]|].
  destruct p; apply recv_requestvote_done_spec in H as (_ & -> & _); done.
Qed.

Lemma requestvote_granted_up_to_date p vr w a e r w' : server_ok w a ->
  raft_recv_requestvote p vr w = Ok (e, r) w' -> rvr_vote_granted r = 1 -> up_to_date a vr = true.
Proof.
  intros Sok H Hr. unfold raft_recv_requestvote in H. run_bind H as q w1 H1.
  assert (w1 = w) as ->. { destruct p; [by run_ret H1|by apply raft_get_node_ro in H1]. }
  unfold raft_get_current_term in H. run_simp H.
  destruct (_ <? _); [|by eapply decide_granted_up_to_date].
  run_bind H as e1 w1 Ht. run_keeps Ht (same stable_state) as K1. run_keeps Ht (same settings) as K2.
  destruct (truth e1); [by apply recv_requestvote_done_spec in H as (_ & -> & _)|].
  run_bind H as u w2 Hf. run_keeps Hf (same stable_state) as K3. run_keeps Hf (same settings) as K4.
  run_simp H. eapply decide_granted_up_to_date; [|exact H|done].
  apply (server_ok_same w2); [done|done|]. apply (server_ok_same w1); [done|done|].
  by apply (server_ok_same w).
Qed.
End Votes.

(** ** What a leader remembers of its peers *)
Section Marks.
Context {T : CTarget} {C : Contiki} {L : ContikiLaws C} {U : User}.

Definition marks (w : world) : gmap addr Z := match_idx <$> node_heap w.

Lemma marks_write w a n n' : node_heap w !! a = Some n -> match_idx n' = match_idx n ->
  marks (with_node_heap (<[a := n']> (node_heap w)) w) = marks w.
Proof.
  intros Hn E. unfold marks. cbn. rewrite fmap_insert, E. apply insert_id. by rewrite lookup_fmap, Hn.
Qed.

Lemma set_sufficient_marks p : keeps (same marks) (raft_node_set_has_sufficient_logs p).
Proof. apply node_write_same. intros w a n Hn. by apply (marks_write w a n). Qed.
Lemma set_next_marks p v : keeps (same marks) (raft_node_set_next_idx p v).
Proof. apply node_write_same. intros w a n Hn. by apply (marks_write w a n). Qed.
Lemma vote_for_me_marks p b : keeps (same marks) (raft_node_vote_for_me p b).
Proof. apply node_write_same. intros w a n Hn. apply (marks_write w a n); [done|]. by destruct b. Qed.

Lemma set_match_marks p v w u w' : raft_node_set_match_idx p v w = Ok u w' ->
  exists b, p = Some b /\ marks w' = <[b := v]> (marks w).
Proof.
  intros H. unfold raft_node_set_match_idx, node_write, node_get in H. destruct p as [b|]; [|done].
  run_simp H. destruct (node_heap w !! b) as [n|]; [|done]. run_simp H. injection H as _ <-.
  exists b. split; [done|]. unfold marks. cbn. by rewrite fmap_insert.
Qed.
End Marks.
#[export] Hint Resolve set_sufficient_marks set_next_marks vote_for_me_marks : keeps.

Section Office.
Context {T : CTarget} {C : Contiki} {L : ContikiLaws C} {U : User}.

(** *** A leader that keeps its office *)
Lemma periodic_marks n w e w' : nodes_wf w -> normal_entries w ->
  (1 < length (voting_nodes w))%nat -> role w = RAFT_STATE_LEADER ->
  raft_periodic n w = Ok e w' -> marks w' = marks w.
Proof.
  intros W N HV Hl H. unfold raft_periodic in H. run_simp H. destruct (int_ok _); [|done].
  run_simp H. set (w1 := with_srv _ w) in H.
  assert (nodes_wf w1) as W1 by (by apply (nodes_wf_view w)).
  rewrite (bind_ok_l _ _ _ _ _ (raft_get_num_voting_nodes_ok w1 W1)) in H.
  change (voting_nodes w1) with (voting_nodes w) in H.
  rewrite (proj2 (Z.eqb_neq 1 _)) in H by lia. cbn [when] in H. run_simp H.
  unfold role in Hl. change (state (srv w1)) with (state (srv w)) in H.
  rewrite Hl, bool_decide_eq_true_2 in H by done.
  assert (normal_entries w1 /\ marks w1 = marks w) as [N1 M1] by done. clearbody w1.
  pose proof (raft_apply_entry_stays (T := T) marks) as Ha.
  assert (stays marks w1 w') as K; [|by destruct (K N1) as [_ ->]].
  revert H. unfold raft_get_last_applied_idx, raft_get_commit_idx, raft_snapshot_is_in_progress.
  intros H. by run_keeps H (stays marks) as K.
Qed.

Lemma response_marks p r w e w' : role w = RAFT_STATE_LEADER ->
  raft_recv_requestvote_response p r w = Ok e w' -> marks w' = marks w.
Proof.
  intros Hl H. unfold raft_recv_requestvote_response in H. run_bind H as u w1 H1.
  run_keeps H1 (same marks) as K. run_keeps H1 (same role) as R. unfold same in *.
  unfold raft_is_candidate, raft_get_state, raft_get_current_term in H. run_simp H.
  rewrite <- R in Hl. unfold role in Hl. rewrite Hl in H. cbn in H. by run_ret H.
Qed.

(** *** Taking office *)
Definition unmatched (w : world) (a : addr) : Prop := marks w !! a = Some 0.

Lemma polls_votes_here w w' a : polls w' = polls w -> node_sat w' votes_here a = node_sat w votes_here a.
Proof.
  intros P. assert (roll w' = roll w) as R by (unfold polls in P; congruence).
  apply (roll_heap _ _ a) in R. unfold node_sat.
  destruct (node_heap w' !! a), (node_heap w !! a); cbn in *; congruence.
Qed.

(** What [raft_become_leader] does for one peer. *)
Definition instate (me : raft_server_private_t) (a : addr) : M world unit :=
  if is_self_ptr me a then ret tt
  else
    let! act := raft_node_is_active (Some a) in
    when act
      (let! ci := raft_get_current_idx in
       let! next := int_chk (ci + 1) in
       exec! raft_node_set_next_idx (Some a) next in
       exec! raft_node_set_match_idx (Some a) 0 in
       let! _ := raft_send_appendentries (Some a) in
       ret tt).

Lemma instate_polls me a : keeps (same polls) (instate me a).
Proof.
  assert (forall p v, keeps (same polls) (raft_node_set_next_idx p v)) as H1.
  { intros. by apply (node_write_indices polls). }
  assert (forall p v, keeps (same polls) (raft_node_set_match_idx p v)) as H2.
  { intros. by apply (node_write_indices polls). }
  unfold instate. unfold_accessors. keeps_solve.
Qed.

Lemma instate_unmatched me a v v' : instate me a v = Ok tt v' ->
  (forall b, unmatched v b -> unmatched v' b) /\
  (is_self_ptr me a = false -> node_sat v votes_here a = true -> unmatched v' a).
Proof.
  intros H. unfold instate in H. destruct (is_self_ptr me a); [by run_ret H|].
  run_bind H as act v1 H1. pose proof H1 as H0. apply node_read_ro in H0 as <-.
  destruct act; cbn [when] in H.
  - run_bind H as ci v2 H2. apply log_get_current_idx_ro in H2 as <-. run_simp H.
    destruct (int_ok _); [|done]. run_simp H. run_bind H as u2 v2 H2. run_bind H as u3 v3 H3.
    run_bind H as u4 v4 H4. run_ret H. run_keeps H4 (same marks) as K4.
    apply set_next_marks in H2. apply set_match_marks in H3 as (b & [= <-] & M3).
    unfold unmatched, same in *. rewrite K4, M3, H2. split.
    + intros b Hb. destruct (decide (a = b)) as [->|]; [by rewrite lookup_insert_eq|by rewrite lookup_insert_ne].
    + intros _ _. by rewrite lookup_insert_eq.
  - run_ret H. split; [done|]. intros _ Hv. exfalso.
    unfold raft_node_is_active, node_read, node_get in H1. unfold node_sat in Hv.
    destruct (node_heap _ !! a) as [n|] eqn:Hn; [|done]. run_simp H1. rewrite Hn in H1. run_simp H1.
    injection H1 as H1. unfold votes_here in Hv. by rewrite H1 in Hv.
Qed.

Lemma instate_all me l v v' : foreach l (instate me) v = Ok tt v' ->
  (forall b, unmatched v b -> unmatched v' b) /\
  forall a, a ∈ l -> is_self_ptr me a = false -> node_sat v votes_here a = true -> unmatched v' a.
Proof.
  revert v. induction l as [|x l IH]; intros v H; cbn [foreach] in H.
  { run_ret H. split; [done|]. by intros a ?%elem_of_nil. }
  run_bind H as u v1 H1. destruct u. pose proof (instate_polls me x v tt v1 H1) as P.
  destruct (instate_unmatched me x v v1 H1) as [U1 X1]. destruct (IH v1 H) as [U2 X2].
  split; [auto|]. intros a [->|Ha]%elem_of_cons Hs Hv; [auto|]. apply X2; [done|done|].
  by rewrite (polls_votes_here v v1).
Qed.

Lemma raft_become_leader_unmatched w w' : raft_become_leader w = Ok tt w' ->
  forall a, a ∈ nodes_list (srv w) -> is_self_ptr (srv w) a = false ->
    node_sat w votes_here a = true -> unmatched w' a.
Proof.
  intros H a Ha Hs Hv. unfold raft_become_leader in H. run_bind H as u w1 H1.
  run_keeps H1 (same node_heap) as K1. run_keeps H1 (same srv) as S1.
  run_bind H as u2 w2 H2. run_keeps H2 (same node_heap) as K2.
  run_keeps H2 (same (fun w => (nodes_list (srv w), node (srv w)))) as S2. run_simp H.
  set (w3 := with_srv _ w2) in H. unfold same in *.
  assert (nodes_list (srv w3) = nodes_list (srv w) /\ node (srv w3) = node (srv w) /\
    node_heap w3 = node_heap w) as (El & En & Eh) by (cbn; split_and!; congruence).
  destruct (instate_all (srv w3) (nodes_list (srv w3)) w3 w' H) as [_ Hd].
  apply Hd; [by rewrite El|unfold is_self_ptr in *; by rewrite En|unfold node_sat in *; by rewrite Eh].
Qed.

(** A vote that makes a server the leader. *)
Lemma elected_unmatched p r w e w' : raft_recv_requestvote_response p r w = Ok e w' ->
  role w <> RAFT_STATE_LEADER -> role w' = RAFT_STATE_LEADER ->
  forall a, a ∈ nodes_list (srv w') -> is_self_ptr (srv w') a = false ->
    node_sat w' votes_here a = true -> unmatched w' a.
Proof.
  intros H Hn Hl a Ha Hs Hv. unfold raft_recv_requestvote_response in H. run_bind H as u w1 H1.
  run_keeps H1 (same role) as R1. unfold same in R1.
  assert (forall m, keeps (same role) (m : M world Z) -> m w1 = Ok e w' -> False) as Hno
    by (intros m Hm Hr%Hm; unfold same in Hr; congruence).
  unfold raft_is_candidate, raft_get_state, raft_get_current_term in H. run_simp H.
  destruct (negb (bool_decide _)); [by run_ret H; congruence|].
  destruct (_ <? _).
  { exfalso. run_bind H as e1 w2 H2. run_keeps H2 (same role) as R2. unfold same in R2.
    destruct (truth e1); [run_ret H; congruence|].
    run_bind H as u2 w3 H3. run_simp H. injection H as _ <-. apply raft_become_follower_role in H3 as [R3 _].
    change (role w3 = RAFT_STATE_LEADER) in Hl. congruence. }
  destruct (negb _); [run_ret H; congruence|].
  destruct (_ =? RAFT_REQUESTVOTE_ERR_GRANTED).
  2: { exfalso. eapply Hno, H. unfold raft_node_is_voting. keeps_solve. }
  run_bind H as u2 w2 H2. run_keeps H2 (same role) as R2. unfold same in R2.
  run_bind H as nv w3 H3. apply raft_get_nvotes_for_me_ro in H3 as <-.
  run_bind H as nn w3 H3. apply raft_get_num_voting_nodes_ro in H3 as <-.
  run_bind H as u3 w3 H3. run_ret H. destruct (raft_votes_is_majority _ _); cbn [when] in H3.
  2: { run_ret H3. congruence. }
  destruct u3. run_keeps H3 (same (fun w => (nodes_list (srv w), node (srv w)))) as S3.
  assert (polls w' = polls w2) as P3 by (by eapply (raft_become_leader_indices polls) in H3).
  unfold same in S3. injection S3 as E1 E2. apply (raft_become_leader_unmatched w2 w' H3).
  - by rewrite <- E1.
  - unfold is_self_ptr in *. by rewrite <- E2.
  - by rewrite <- (polls_votes_here w2 w').
Qed.

(** *** A response *)

(** The index acknowledged by the node [p] is remembered in a response of the
    leader's term only. *)
Definition noted (p : ptr) (r : msg_appendentries_response_t) (w w' : world) : Prop :=
  marks w' = marks w \/
  exists b, p = Some b /\ marks w' = <[b := aer_current_idx r]> (marks w) /\
    aer_term r = term_of w /\ aer_success r <> 0.

Lemma recv_aer_success_marks p r m w e w' : recv_aer_success p r m w = Ok e w' ->
  marks w' = marks w \/ exists b, p = Some b /\ marks w' = <[b := aer_current_idx r]> (marks w).
Proof.
  intros H. unfold recv_aer_success in H. destruct (_ <=? m); [run_ret H; by left|].
  unfold raft_get_current_idx in H. run_bind H as ci w1 H1. apply log_get_current_idx_ro in H1 as <-.
  run_simp H. destruct (_ <=? ci); [|done]. run_simp H. destruct (int_ok _); [|done].
  run_simp H. run_bind H as u1 w1 H1. run_bind H as u2 w2 H2. apply set_next_marks in H1.
  apply set_match_marks in H2 as (b & -> & M2). right. exists b. split; [done|].
  assert (forall p, keeps (same marks) (check_sufficient_logs p r)) as Hc.
  { intros q. unfold check_sufficient_logs. unfold_accessors. keeps_solve. }
  unfold raft_node_get_next_idx, raft_get_entry_from_idx in H.
  run_keeps H (same marks) as K. unfold same in *. congruence.
Qed.

Lemma recv_aer_marks p r w e w' : raft_recv_appendentries_response p r w = Ok e w' -> noted p r w w'.
Proof.
  intros H. unfold raft_recv_appendentries_response, raft_get_current_idx at 1 in H.
  run_bind H as ci w0 H0. apply log_get_current_idx_ro in H0 as <-.
  run_bind H as u w1 H1. run_keeps H1 (same marks) as M1. run_keeps H1 (same term_of) as T1.
  unfold same in M1, T1.
  assert (forall m, keeps (same marks) (m : M world Z) -> m w1 = Ok e w' -> noted p r w w') as Hno.
  { intros m Hm Hr%Hm. left. unfold same in Hr. congruence. }
  unfold raft_is_leader, raft_get_state, raft_get_current_term in H. run_simp H.
  destruct (negb _); [eapply Hno, H; keeps_solve|]. run_simp H.
  destruct (_ <? _); [eapply Hno, H; keeps_solve|].
  destruct (Z.eqb_spec (current_term (srv w1)) (aer_term r)) as [Ht|]; cbn [negb] in H;
    [|eapply Hno, H; keeps_solve].
  run_bind H as m w2 H2. apply node_read_ro in H2 as <-.
  destruct (Z.eqb_spec 0 (aer_success r)).
  { eapply Hno, H. unfold recv_aer_failure. unfold_accessors. keeps_solve. }
  apply recv_aer_success_marks in H as [M|(b & -> & M)]; [left; congruence|].
  right. exists b. split; [done|]. split; [congruence|]. split; [|done]. unfold term_of in *. congruence.
Qed.

(** *** The commit index *)

(** Time and requests do not commit. *)
Lemma periodic_commit n : keeps (same commit_of) (raft_periodic n).
Proof. keeps_solve. Qed.
Lemma requestvote_commit p vr : keeps (same commit_of) (raft_recv_requestvote p vr).
Proof. keeps_solve. Qed.
Lemma response_commit p r : keeps (same commit_of) (raft_recv_requestvote_response p r).
Proof. keeps_solve. Qed.

(** Among several voting members an entry is not committed when it arrives. *)
Lemma recv_entry_uncommitted ety w r w' : nodes_wf w -> normal_entries w ->
  raft_entry_is_cfg_change ety = false -> (1 < length (voting_nodes w))%nat ->
  raft_recv_entry ety w = Ok r w' -> commit_of w' = commit_of w.
Proof.
  intros W N Hn HV H. unfold raft_recv_entry, raft_voting_change_is_in_progress,
    raft_snapshot_is_in_progress in H. run_simp H.
  destruct (_ && _); [by run_ret H|]. destruct (_ && _); [by run_ret H|].
  run_bind H as l w1 H1. apply raft_is_leader_ro in H1 as <-. destruct (negb l); [by run_ret H|].
  unfold raft_get_current_idx at 1 in H. run_bind H as ci w1 H1. apply log_get_current_idx_ro in H1 as <-.
  run_simp H. destruct (int_ok _); [|done]. run_bind H as u w1 H1. run_simp H.
  run_keeps H1 (same (fun w => (roll w, entry_heap w))) as K1. run_keeps H1 (same commit_of) as C1.
  unfold same in *. run_bind H as x w2 H2. run_keeps H2 (same commit_of) as C2.
  assert (stays roll w1 w2) as S2.
  { eapply (raft_append_entry_stays (T := T) roll); [|exact H2]. done. }
  assert (normal_entries w1) as N1 by (unfold normal_entries in *; assert (entry_heap w1 = entry_heap w)
    as -> by congruence; done).
  destruct (S2 N1) as [N2 R2]. destruct x as [e0 ety0]. destruct (truth e0); [run_ret H; congruence|].
  run_bind H as u3 w3 H3. run_keeps H3 (same (fun w => (roll w, entry_heap w))) as K3.
  run_keeps H3 (same commit_of) as C3. unfold same in *.
  assert (roll w3 = roll w) as R3 by congruence.
  rewrite (bind_ok_l _ _ _ _ _ (raft_get_num_voting_nodes_ok w3 (roll_nodes_wf _ _ R3 W))) in H.
  rewrite (roll_voting _ _ R3) in H. rewrite (proj2 (Z.eqb_neq 1 _)) in H by lia. cbn [when] in H.
  run_keeps H (same commit_of) as C4. unfold same in *. congruence.
Qed.

(** A server that accepts entries of a term is not a candidate. *)
Lemma recv_ae_role p ae w a r w' : server_ok w a -> term_of w <= ae_term ae ->
  raft_recv_appendentries p ae w = Ok r w' -> role w' <> RAFT_STATE_CANDIDATE.
Proof.
  intros Sok Ht H. destruct (raft_recv_appendentries_enter p ae w a Sok Ht)
    as (w1 & Hrun & _ & _ & _ & R & _). rewrite Hrun in H. apply recv_ae_prev_role in H as [= -> _].
  rewrite R. case_decide; [done|]. tauto.
Qed.
End Office.

(** ** Where votes come from *)
Section Casting.
Context {T : CTarget} {C : Contiki} {L : ContikiLaws C} {U : User}.

Definition term_vote (w : world) := (term_of w, vote_of w).

(** No vote is cast. *)
Definition unvoted (w w' : world) : Prop := term_vote w' = term_vote w \/ vote_of w' = -1.

#[export] Instance unvoted_preorder : PreOrder unvoted.
Proof.
  split; [by left|]. intros w1 w2 w3 [E1|V1] [E2|V2]; unfold unvoted; try by right.
  - left. congruence.
  - right. unfold term_vote in E2. congruence.
Qed.

Lemma unvoted_of {A} (m : M world A) : keeps (same term_vote) m -> keeps unvoted m.
Proof. intros H w a w' Hm. left. by apply (H w a w'). Qed.

Lemma set_term_unvoted t : keeps unvoted (raft_set_current_term t).
Proof.
  intros w e w' H. apply raft_set_current_term_spec in H. unfold unvoted, term_vote.
  case_decide.
  - destruct H as (_ & _ & H). case_decide; [by right; apply H|left]. destruct H. congruence.
  - left. unfold hist_of in H. congruence.
Qed.
End Casting.
#[export] Hint Resolve set_term_unvoted : keeps.
#[export] Hint Extern 3 (keeps unvoted _) =>
  (apply unvoted_of;
   first [apply keeps_same_modify; intros; reflexivity
         |solve [eauto 3 with keeps typeclass_instances]]) : keeps.

Section Casts.
Context {T : CTarget} {C : Contiki} {L : ContikiLaws C} {U : User}.

Lemma recv_ae_unvoted p ae : keeps unvoted (raft_recv_appendentries p ae).
Proof. unfold raft_recv_appendentries. unfold_accessors. keeps_solve. Qed.
Lemma recv_aer_unvoted p r : keeps unvoted (raft_recv_appendentries_response p r).
Proof.
  unfold raft_recv_appendentries_response, recv_aer_success, recv_aer_failure,
    raft_node_set_next_idx, raft_node_set_match_idx. unfold_accessors. keeps_solve.
Qed.
Lemma recv_rvr_unvoted p r : keeps unvoted (raft_recv_requestvote_response p r).
Proof.
  unfold raft_recv_requestvote_response, raft_node_vote_for_me, raft_node_is_voting.
  unfold_accessors. keeps_solve.
Qed.
Lemma recv_entry_unvoted e : keeps unvoted (raft_recv_entry e).
Proof. apply unvoted_of. keeps_solve. Qed.

(** A vote request that grants no vote casts none. *)
Lemma requestvote_unvoted p vr w e r w' : raft_recv_requestvote p vr w = Ok (e, r) w' ->
  rvr_vote_granted r = 1 \/ unvoted w w'.
Proof.
  intros H. unfold raft_recv_requestvote in H. run_bind H as q w1 H1.
  assert (w1 = w) as ->. { destruct p; [by run_ret H1|by apply raft_get_node_ro in H1]. }
  assert (forall w, recv_requestvote_decide q vr w = Ok (e, r) w' ->
    rvr_vote_granted r = 1 \/ unvoted w w') as Hdec.
  { clear H. intros v H. unfold recv_requestvote_decide in H. run_bind H as g w1 Hg.
    apply should_grant_vote_ro in Hg as <-.
    assert (forall p e v0, keeps unvoted (recv_requestvote_done p e v0)) as Hd by (intros; keeps_solve).
    destruct g; [|right; by destruct q; apply Hd in H].
    run_bind H as l w2 Hl. apply raft_is_leader_ro in Hl as <-. run_bind H as c w2 Hc.
    assert (w2 = v) as ->. { destruct l; [by run_ret Hc|by apply raft_is_candidate_ro in Hc]. }
    run_simp H. destruct (negb c); [|done]. run_bind H as e1 w3 H3. run_simp H.
    pose proof H as H'. apply recv_requestvote_done_spec in H' as (_ & -> & _).
    apply raft_vote_for_nodeid_spec in H3 as (Ht & _ & _ & Hv).
    destruct (Z.eqb_spec e1 0) as [->|]; [by left|right]. rewrite decide_False in Hv by done.
    etransitivity; [|by eapply Hd]. left. unfold term_vote in *. cbn. unfold term_of, vote_of in *. cbn. congruence. }
  unfold raft_get_current_term in H. run_simp H. destruct (_ <? _); [|by apply Hdec].
  run_bind H as e1 w1 H2. apply set_term_unvoted in H2. destruct (truth e1).
  { right. assert (keeps unvoted (recv_requestvote_done q e1 0)) as Hd by keeps_solve.
    etransitivity; [done|]. by apply Hd in H. }
  run_bind H as u w2 H3. run_keeps H3 (same term_vote) as K3. run_simp H.
  destruct (Hdec _ H) as [|Hu]; [by left|right]. etransitivity; [exact H2|].
  etransitivity; [by left; exact K3|]. exact Hu.
Qed.

(** Time: a server votes for itself only. *)
Definition seated (w w' : world) : Prop := normal_entries w ->
  normal_entries w' /\ roll w' = roll w /\ (unvoted w w' \/ vote_of w' = self_id w).

#[export] Instance seated_preorder : PreOrder seated.
Proof.
  split; [intros w N; split_and!; [done..|by left]|].
  intros w1 w2 w3 H1 H2 N1. destruct (H1 N1) as (N2 & R2 & V2). destruct (H2 N2) as (N3 & R3 & V3).
  split; [done|]. split; [congruence|]. rewrite (roll_self_id w1 w2 R2) in V3.
  destruct V3 as [[E|V]|V]; [|by left; right|by right].
  destruct V2 as [Hu|V]; [left; etransitivity; [exact Hu|by left]|right].
  unfold term_vote in E. congruence.
Qed.

Lemma seated_of {A} (m : M world A) : keeps (stays roll) m -> keeps (same term_vote) m -> keeps seated m.
Proof.
  intros H1 H2 w a w' Hm N. destruct (H1 w a w' Hm N) as [N' R']. split_and!; [done..|].
  left. left. by apply (H2 w a w').
Qed.
Lemma roll_of_polls {A} (m : M world A) : keeps (stays polls) m -> keeps (stays roll) m.
Proof.
  intros H w a w' Hm N. destruct (H w a w' Hm N) as [N' P']. split; [done|].
  unfold polls in P'. congruence.
Qed.

Lemma raft_become_candidate_seated : keeps seated raft_become_candidate.
Proof.
  assert (forall (m : M world unit) w u w', keeps (same roll) m -> keeps (same entry_heap) m ->
    keeps (same term_vote) m -> m w = Ok u w' -> seated w w') as Hm.
  { intros m w u w' Hr He Ht H. eapply seated_of, H; [by apply stays_of|done]. }
  intros w e w' H. unfold raft_become_candidate, raft_get_current_term in H.
  run_bind H as u w1 H1. transitivity w1; [eapply Hm, H1; keeps_solve|]. clear H1. run_simp H.
  destruct (int_ok _); [|done]. run_bind H as r w2 H2.
  assert (seated w1 w2) as S2.
  { intros N. run_keeps H2 (same entry_heap) as E2. run_keeps H2 (same roll) as R2.
    split_and!; [unfold normal_entries in *; by rewrite E2|done|]. left. by apply set_term_unvoted in H2. }
  transitivity w2; [exact S2|]. destruct (truth r); [by run_ret H|]. clear S2 H2.
  run_bind H as u3 w3 H3. transitivity w3.
  { pose proof (vote_for_me_roll (C := C) (U := U)) as Hv. unfold clear_votes in H3.
    run_keeps H3 (same roll) as K1. unfold raft_node_vote_for_me in H3.
    run_keeps H3 (same entry_heap) as K2. run_keeps H3 (same term_vote) as K3.
    intros N. split_and!; [unfold normal_entries in *; by rewrite K2|done|by left; left]. }
  clear H3. run_simp H. run_bind H as v w4 H4. transitivity w4.
  { run_keeps H4 (same entry_heap) as E4. run_keeps H4 (same roll) as R4. intros N.
    split_and!; [unfold normal_entries in *; by rewrite E4|done|]. unfold raft_vote in H4.
    assert (forall i, raft_vote_for_nodeid i w3 = Ok v w4 -> unvoted w3 w4 \/ vote_of w4 = i) as Hi.
    { intros i Hv. apply raft_vote_for_nodeid_spec in Hv as (Ht & _ & _ & Hv). case_decide; [by right|].
      left. left. unfold term_vote. congruence. }
    destruct (node (srv w3)) as [b|] eqn:Hb; [|destruct (Hi (-1) H4) as [|]; [by left|by left; right]].
    unfold raft_node_get_id in H4. destruct (node_heap w3 !! b) as [n|] eqn:Hn.
    2: { run_bind H4 as i w5 H5. unfold node_read, node_get in H5. run_simp H5. by rewrite Hn in H5. }
    rewrite (bind_ok_l _ _ _ _ _ (node_read_ok _ w3 b n Hn)) in H4.
    destruct (Hi _ H4) as [|Hv]; [by left|right]. rewrite Hv. unfold self_id, node_id_at.
    by rewrite Hb, Hn. }
  clear H4. run_simp H. unfold raft_set_state in H. run_simp H.
  match type of H with ?m ?w0 = _ => set (w5 := w0) in H; set (k := m) in H end.
  assert (seated w4 w5) as S5 by (intros N; split_and!; [done..|by left; left]).
  transitivity w5; [exact S5|].
  assert (keeps (same (fun w => (roll w, entry_heap w, term_vote w))) k) as Hk.
  { unfold k. keeps_solve; by apply keeps_same_modify. }
  apply Hk in H. unfold same in H. intros N.
  assert (roll w' = roll w5 /\ entry_heap w' = entry_heap w5 /\ term_vote w' = term_vote w5)
    as (R & E & V) by (split_and!; congruence).
  split_and!; [unfold normal_entries in *; by rewrite E|done|by left; left].
Qed.

Lemma raft_become_leader_seated : keeps seated raft_become_leader.
Proof.
  apply seated_of; [|keeps_solve]. apply roll_of_polls. apply raft_become_leader_stays; apply _.
Qed.
Lemma raft_apply_entry_seated : keeps seated raft_apply_entry.
Proof. apply seated_of; [apply raft_apply_entry_stays; apply _|keeps_solve]. Qed.
Lemma timeout_seated v : keeps seated (upd_srv (with_timeout_elapsed v)).
Proof. apply seated_of; [apply stays_of|]; by apply keeps_same_modify. Qed.
Lemma send_all_seated : keeps seated raft_send_appendentries_all.
Proof. apply seated_of; [apply stays_of|]; keeps_solve. Qed.
Hint Resolve raft_become_candidate_seated raft_become_leader_seated raft_apply_entry_seated
  timeout_seated send_all_seated : keeps.
Lemma raft_periodic_seated n : keeps seated (raft_periodic n).
Proof.
  assert (forall p, keeps seated (log_msg p)) as Hlog.
  { intros p. apply seated_of; [apply stays_of|]; keeps_solve. }
  unfold raft_periodic, raft_election_start. unfold_accessors. keeps_solve.
Qed.
End Casts.
