(* ===== verification/Network.v ===== *)
(** * Servers that exchange messages

    A network of servers whose program sends what the library asks it to send,
    answers the messages it receives, and stops when a handler reports an error.
    Mail is never consumed: a letter may be delivered any number of times, in any
    order, or never.  An appendentries message arrives with its first entry only,
    as in app/main.c.  Between the calls the user's data and the random numbers
    change in any way. *)
From S2P Require Import Prelude Contiki Types Node Membership Log Server Election Replication.
From S2P Require Import Sim NodeFacts Frames History LogFacts MemberFacts ElectionFacts Roles.
From S2P Require Import Campaign Sending Receiving Fixed Ranges Conflict Cluster Outbox Growth.

Section Network.
Context {T : CTarget} {C : Contiki} {L : ContikiLaws C} {U : User} (Pu : udata -> Prop).
Implicit Types w : world.

(** ** The network *)
Inductive letter :=
  | Ask (m : msg_requestvote_t)
  | Vote (to : Z) (r : msg_requestvote_response_t)
  | Append (m : msg_appendentries_t)
  | Ack (to : Z) (r : msg_appendentries_response_t).

(** The servers by their id, and the letters sent so far by their sender. *)
Record network := mk_network {
  host : gmap Z world;
  mail : Z -> letter -> Prop
}.

(** The message as the receiver's library gets it. *)
Definition delivered (m : msg_appendentries_t) : msg_appendentries_t :=
  mk_appendentries (ae_term m) (ae_prev_log_idx m) (ae_prev_log_term m) (ae_leader_commit m)
    (ae_n_entries m) (take 1 (ae_entries m)).

(** What happens at server [i], and its answer. *)
Inductive visit (ml : Z -> letter -> Prop) (i : Z) (w w' : world) : option letter -> Prop :=
  | visit_outside u g : Pu u -> w' = with_user_data u (with_rand_state g w) ->
      visit ml i w w' None
  | visit_periodic n e : raft_periodic n w = Ok e w' -> visit ml i w w' None
  | visit_entry e r : raft_entry_is_cfg_change e = false -> entry_typed e ->
      raft_recv_entry e w = Ok r w' -> visit ml i w w' None
  | visit_ask p j m r : ml j (Ask m) -> raft_recv_requestvote p m w = Ok (0, r) w' ->
      visit ml i w w' (Some (Vote j r))
  | visit_vote p j r e : ml j (Vote i r) -> node_of_sender w p j ->
      raft_recv_requestvote_response p r w = Ok e w' -> visit ml i w w' None
  | visit_append p j m r : ml j (Append m) ->
      raft_recv_appendentries p (delivered m) w = Ok (0, r) w' ->
      visit ml i w w' (Some (Ack j r))
  | visit_ack p j r e : ml j (Ack i r) -> node_of_sender w p j ->
      raft_recv_appendentries_response p r w = Ok e w' -> visit ml i w w' None.

Lemma visit_mono (ml ml' : Z -> letter -> Prop) i w w' ans : (forall j l, ml j l -> ml' j l) ->
  visit ml i w w' ans -> visit ml' i w w' ans.
Proof.
  intros Hl [u g Hu H|n e H|e r Hn Ht H|p j m r Hm H|p j r e Hm Hp H|p j m r Hm H|p j r e Hm Hp H].
  - by eapply visit_outside.
  - by eapply visit_periodic.
  - by eapply visit_entry.
  - eapply visit_ask; [by apply Hl|exact H].
  - eapply visit_vote; [by apply Hl|exact Hp|exact H].
  - eapply visit_append; [by apply Hl|exact H].
  - eapply visit_ack; [by apply Hl|exact Hp|exact H].
Qed.

(** What the library may have asked its user to send on the way to state [w]. *)
Definition honest_letter (w : world) (l : letter) : Prop :=
  exists a, log_repr w a /\
    match l with
    | Ask m => honest_request w a m
    | Append m => honest_append w a m
    | Vote _ _ | Ack _ _ => False
    end.

Definition sent_mail (ml : Z -> letter -> Prop) (i : Z) (w' : world) (ans : option letter)
    (j : Z) (l : letter) : Prop :=
  ml j l \/ (j = i /\ (honest_letter w' l \/ ans = Some l)).

Inductive network_step (n : network) : network -> Prop :=
  | network_visit i w w' ans : host n !! i = Some w -> visit (mail n) i w w' ans ->
      network_step n (mk_network (<[i := w']> (host n)) (sent_mail (mail n) i w' ans)).

(** ** The state of the hosts and the mail *)
Record host_ok (i : Z) (w : world) (a : alog) : Prop := {
  ho_server : server_ok w a;
  ho_snapshot : no_snapshot w;
  ho_normal : normal_entries w;
  ho_appends : appends_only w;
  ho_typed : typed Pu w;
  ho_commit : 0 <= commit_of w;
  ho_id : self_id w = i
}.

Definition letter_ok (j : Z) (l : letter) : Prop :=
  match l with
  | Ask m => rv_typed m /\ rv_candidate_id m = j
  | Vote _ r => rvr_typed r
  | Append m => ae_typed m /\ normal_message m /\ 0 <= ae_prev_log_idx m /\
      ae_n_entries m = Z.of_nat (length (ae_entries m))
  | Ack _ r => aer_typed r
  end.

Record network_ok (n : network) : Prop := {
  nk_host i w : host n !! i = Some w -> exists a, host_ok i w a;
  nk_mail j l : mail n j l -> letter_ok j l
}.

(** ** A call at a host *)
Definition op_normal (o : raft_op) : Prop :=
  match o with
  | OpRecvAppendentries _ ae => normal_message ae
  | OpRecvEntry e => raft_entry_is_cfg_change e = false
  | _ => True
  end.

Lemma op_roll o w u w' : nodes_wf w -> normal_entries w -> op_normal o ->
  run_op o w = Ok u w' -> normal_entries w' /\ roll w' = roll w.
Proof.
  intros W N Ho H. assert (other_call o \/ ((exists p vr, o = OpRecvRequestvote p vr) \/
    exists p r, o = OpRecvRequestvoteResponse p r)) as [Hc|[(p & vr & ->)|(p & r & ->)]]
    by (destruct o; cbn in Ho; eauto 6).
  - by destruct (other_call_votes o w u w' W N Hc H) as (? & ? & _).
  - cbn in H. run_bind H as e w1 H1. run_ret H.
    assert (stays polls w w') as K by (eapply (raft_recv_requestvote_stays polls); try apply _; eauto).
    destruct (K N) as [N' P']. split; [done|]. unfold polls in P'. congruence.
  - cbn in H. run_bind H as e w1 H1. run_ret H.
    by destruct (response_votes p r w e w' H1 N) as (? & ? & _).
Qed.

Definition fixture (w : world) := (settings w, snapshot_last_idx (srv w)).

Lemma op_fixture o : keeps (same fixture) (run_op o).
Proof. destruct o; cbn; keeps_solve. Qed.

(** The calls that do not append. *)
Definition op_reads_log (o : raft_op) : Prop :=
  match o with OpRecvEntry _ | OpRecvAppendentries _ _ => False | _ => True end.

Lemma op_log o : op_reads_log o -> keeps (same log_state) (run_op o).
Proof. destruct o; cbn; try done; intros _; keeps_solve. Qed.

Lemma server_ok_roll w w' a a' : server_ok w a -> roll w' = roll w -> settings w' = settings w ->
  log_repr w' a' -> al_ok a' -> server_ok w' a'.
Proof.
  intros [W S _ _ Ht Hp] R Hs Hl Hok. split; [by apply (roll_nodes_wf w)|by apply (roll_self_wf w)|done|done| |];
    unfold settings, timer_ok, persists in *; injection Hs as E1 E2 _; by rewrite ?E1, ?E2.
Qed.

Lemma host_kept i o w a w' a' : host_ok i w a -> op_normal o -> op_typed o ->
  run_op o w = Ok tt w' -> log_repr w' a' -> al_ok a' -> log_setup w' = log_setup w ->
  host_ok i w' a'.
Proof.
  intros [Sok S N Ha Ty Hcm Hid] Hn Ht H R Hok Hset.
  destruct (op_roll o w tt w' (so_nodes _ _ Sok) N Hn H) as [N' R'].
  pose proof (op_fixture o w tt w' H) as F. unfold same, fixture in F.
  assert (settings w' = settings w /\ snapshot_last_idx (srv w') = snapshot_last_idx (srv w))
    as [F1 F2] by (split; congruence). clear F.
  split.
  - by apply (server_ok_roll w w' a).
  - destruct S as [S1 S2]. unfold log_setup in Hset. split; congruence.
  - done.
  - apply (appends_only_setup w); [done| |done]. unfold settings in F1. congruence.
  - by destruct (run_op_tyr Pu o Ht _ _ _ Ty H).
  - apply run_op_hist in H as [(_ & ? & _) _]. lia.
  - by rewrite (roll_self_id w w' R').
Qed.

(** How a visit changes the log. *)
Inductive growth (ml : Z -> letter -> Prop) (w w' : world) (a : alog) : alog -> Prop :=
  | grow_none : growth ml w w' a a
  | grow_propose e : role w = RAFT_STATE_LEADER -> role_of w' = role_of w ->
      ety_term e = to_uint (term_of w) -> growth ml w w' a (al_append e a)
  | grow_accept j m y : ml j (Append m) -> take 1 (ae_entries m) = [y] ->
      term_of w <= ae_term m -> term_of w' = ae_term m -> consistent a (delivered m) ->
      al_get a (ae_prev_log_idx m + 1) = None -> growth ml w w' a (al_append y a).

Lemma al_ok_append e a : al_ok (al_append e a).
Proof. right. rewrite al_append_last. eexists. apply al_append_get. Qed.

Lemma host_read i o w a w' : host_ok i w a -> op_reads_log o -> op_normal o -> op_typed o ->
  run_op o w = Ok tt w' -> host_ok i w' a.
Proof.
  intros Ho Hr Hn Ht H. pose proof (op_log o Hr w tt w' H) as K. unfold same in K.
  apply (host_kept i o w a w' a); try done.
  - eapply log_repr_same; [exact K|apply (ho_server _ _ _ Ho)].
  - apply (so_last _ _ (ho_server _ _ _ Ho)).
  - apply log_setup_lg. unfold log_state in K. congruence.
Qed.

Lemma visit_host ml i w a w' ans : (forall j l, ml j l -> letter_ok j l) -> host_ok i w a ->
  visit ml i w w' ans -> exists a', host_ok i w' a' /\ growth ml w w' a a'.
Proof.
  intros Hml Ho H. destruct H as [u g Hu ->|n e H|e r Hn Ht H|p j m r Hm H|p j r e Hm Hp H|p j m r Hm H|p j r e Hm Hp H].
  - exists a. split; [|constructor]. destruct Ho as [? ? ? ? [] ? ?]. split; try done.
    by apply (server_ok_same w).
  - exists a. split; [|constructor]. apply (host_read i (OpPeriodic n) w); try done.
    cbn. by rewrite (bind_ok_l _ _ _ _ _ H).
  - assert (run_op (OpRecvEntry e) w = Ok tt w') as Hop by (cbn; by rewrite (bind_ok_l _ _ _ _ _ H)).
    pose proof (ho_server _ _ _ Ho) as Sok.
    destruct (recv_entry_inv e w a r w' (ho_appends _ _ _ Ho) Sok Hn H)
      as [K|(Hl & Hr & Hs & R)].
    + exists a. split; [|constructor]. apply (host_kept i (OpRecvEntry e) w a); try done.
      * by eapply log_repr_same, Sok.
      * apply Sok.
      * apply log_setup_lg. unfold log_state in K. congruence.
    + exists (al_append (with_ety_term (to_uint (term_of w)) e) a).
      split; [|by apply grow_propose].
      apply (host_kept i (OpRecvEntry e) w a); try done. apply al_ok_append.
  - destruct (Hml _ _ Hm) as [Ht _]. exists a. split; [|constructor].
    apply (host_read i (OpRecvRequestvote p m) w); try done. cbn. by rewrite (bind_ok_l _ _ _ _ _ H).
  - pose proof (Hml _ _ Hm) as Ht. exists a. split; [|constructor].
    apply (host_read i (OpRecvRequestvoteResponse p r) w); try done. cbn. by rewrite (bind_ok_l _ _ _ _ _ H).
  - destruct (Hml _ _ Hm) as (Ht & Hn & Hprev & _).
    assert (normal_message (delivered m)) as Hn' by by apply Forall_take.
    assert (ae_typed (delivered m)) as Ht' by (destruct Ht; split; try done; by apply Forall_take).
    destruct (raft_recv_appendentries_inv p (delivered m) w a r w' (ho_appends _ _ _ Ho)
      (ho_server _ _ _ Ho) Hn') as (a' & Sok' & Hs & _ & Hout); [|done|].
    { destruct (aet_prev _ Ht'). cbn in *. lia. }
    exists a'. split.
    + apply (host_kept i (OpRecvAppendentries p (delivered m)) w a); try done; [|apply Sok'..].
      cbn. by rewrite (bind_ok_l _ _ _ _ _ H).
    + destruct Hout as [|k n Hsu Hle HT Hc es new L1 L2 Hpr Hnew Hcur Hcm]; [constructor|].
      cbn [delivered ae_entries ae_term ae_prev_log_idx] in *.
      destruct n as [|n].
      { unfold new. rewrite take_0. constructor. }
      destruct (take 1 (ae_entries m)) as [|y [|z l]] eqn:He.
      * unfold new in L2. by rewrite drop_nil in L2.
      * destruct k as [|k]; [|unfold new in L2; cbn in L2; by rewrite drop_nil in L2].
        destruct Hnew as [|Hnew]; [done|]. rewrite Z.add_0_r in Hnew.
        unfold new. cbn [drop take]. rewrite take_nil. cbn.
        eapply grow_accept; done.
      * apply (f_equal length) in He. rewrite length_take in He. cbn [length] in He. lia.
  - pose proof (Hml _ _ Hm) as Ht. exists a. split; [|constructor].
    apply (host_read i (OpRecvAppendentriesResponse p r) w); try done. cbn. by rewrite (bind_ok_l _ _ _ _ _ H).
Qed.

(** *** The letters are in order *)
Lemma al_entries_elem w a e : log_repr w a -> e ∈ al_entries a -> exists p, entry_heap w !! p = Some e.
Proof.
  intros R He. apply list_elem_of_lookup in He as [k Hk].
  destruct (Forall2_lookup_r _ _ _ _ _ (lr_heap _ _ R) Hk) as (p & _ & Hp). by exists p.
Qed.

Lemma al_from_sub a idx : al_from a idx ⊆ al_entries a.
Proof.
  intros e (k & Hk)%list_elem_of_lookup. unfold al_from in Hk. rewrite lookup_drop in Hk.
  apply list_elem_of_lookup. by eexists.
Qed.

Lemma honest_letter_ok i w a l : host_ok i w a -> honest_letter w l -> letter_ok i l.
Proof.
  intros [Sok S N Ha Ty Hcm Hid] (a' & R & Hl). pose proof (so_log _ _ Sok) as R'.
  pose proof (log_repr_bound _ _ R). pose proof (lr_max _ _ R). pose proof (lr_last _ _ R).
  pose proof (ty_srv _ _ Ty) as Tsrv. pose proof INT_MIN_MAX.
  destruct l as [m| |m|]; try done; destruct Hl as [_ Hl].
  - subst m. split; [|exact Hid]. split; cbn.
    + apply (sv_term _ _ Tsrv).
    + destruct (so_self _ _ Sok) as (b & Hb & Hbl). unfold self_id. rewrite Hb.
      destruct (nw_heap _ (so_nodes _ _ Sok) b Hbl) as [n Hn]. unfold node_id_at. rewrite Hn. cbn.
      apply (nt_id n). by apply (ty_nodes _ _ Ty b).
    + unfold is_int. lia.
    + apply is_int_to_int.
  - destruct Hl as (next & c & Hn & Hc & ->).
    assert (forall e, e ∈ al_from a' next -> exists p, entry_heap w !! p = Some e) as He.
    { intros e He. eapply al_entries_elem; [exact R|]. by apply al_from_sub in He. }
    split; [split; cbn|split; [|split]]; cbn.
    + apply (sv_term _ _ Tsrv).
    + unfold prev_of. destruct (1 <? next); unfold is_int; cbn; lia.
    + unfold prev_of. destruct (1 <? next); [|unfold is_int; cbn; lia]. cbn.
      destruct (al_get _ _); [apply is_int_to_int|apply (sv_snap_term _ _ Tsrv)].
    + pose proof (sv_commit _ _ Tsrv). unfold is_int, commit_of in *. lia.
    + assert (length (al_from a' next) <= length (al_entries a'))%nat
        by (unfold al_from; rewrite length_drop; lia).
      pose proof (lr_len _ _ R). pose proof (lr_base _ _ R). unfold is_int. lia.
    + apply Forall_forall. intros e [p Hp]%He. by apply (ty_entries _ _ Ty p).
    + apply Forall_forall. intros e [p Hp]%He. by apply (N p).
    + unfold prev_of. destruct (Z.ltb_spec 1 next); cbn; lia.
    + done.
Qed.

Lemma answer_ok ml i w a w' ans l : (forall j l, ml j l -> letter_ok j l) -> host_ok i w a ->
  visit ml i w w' ans -> ans = Some l -> letter_ok i l.
Proof.
  intros Hml Ho H. pose proof (ho_typed _ _ _ Ho) as Ty.
  destruct H as [| | |p j m r Hm H| |p j m r Hm H|]; try done; intros [= <-]; cbn.
  - destruct (Hml _ _ Hm) as [Ht _]. by destruct (raft_recv_requestvote_tyr Pu p m Ht _ _ _ Ty H).
  - destruct (Hml _ _ Hm) as (Ht & _).
    assert (ae_typed (delivered m)) as Ht' by (destruct Ht; split; try done; by apply Forall_take).
    by destruct (raft_recv_appendentries_tyr Pu p _ Ht' _ _ _ Ty H).
Qed.

(** Every reachable network is in order. *)
Lemma network_step_ok n n' : network_ok n -> network_step n n' -> network_ok n'.
Proof.
  intros [Hh Hm] [i w w' ans Hi Hv]. destruct (Hh i w Hi) as [a Ho].
  destruct (visit_host (mail n) i w a w' ans Hm Ho Hv) as (a' & Ho' & _). split; cbn.
  - intros j v. rewrite lookup_insert_Some. intros [[<- <-]|[_ Hj]]; [by exists a'|by apply Hh].
  - intros j l [Hl|[-> [Hl|Hl]]]; [by apply Hm|by apply (honest_letter_ok i w' a')|].
    by apply (answer_ok (mail n) i w a w' ans).
Qed.

(** ** The network as a cluster *)

(** The cluster has the servers of the network, and its vote responses. *)
Definition votes_posted (n : network) (c : cluster) : Prop :=
  server c = host n /\ forall j to r, mail n j (Vote to r) -> (j, to, r) ∈ responses c.

Lemma sent_vote ml i w' ans j to r : sent_mail ml i w' ans j (Vote to r) ->
  ml j (Vote to r) \/ (j = i /\ ans = Some (Vote to r)).
Proof. intros [H|[-> [(a & _ & [])|H]]]; auto. Qed.

(** A step of the network is a step of the cluster. *)
Lemma network_cluster_step n n' c : network_ok n -> votes_posted n c -> network_step n n' ->
  exists c', cluster_step c c' /\ votes_posted n' c'.
Proof.
  intros [Hh Hm] [Hs Hr] [i w w' ans Hi Hv]. rewrite <- Hs in Hi.
  assert (forall c', cluster_step c c' -> server c' = <[i := w']> (server c) ->
    (forall j to r, (j, to, r) ∈ responses c -> (j, to, r) ∈ responses c') ->
    (forall to r, ans = Some (Vote to r) -> (i, to, r) ∈ responses c') ->
    exists c', cluster_step c c' /\
      votes_posted (mk_network (<[i := w']> (host n)) (sent_mail (mail n) i w' ans)) c') as Hdone.
  { intros c' Hstep Hs' Hr' Ha. exists c'. split; [done|]. split; [cbn; congruence|].
    intros j to r [Hl|[-> Hl]]%sent_vote; auto. }
  assert (forall o, other_call o -> run_op o w = Ok tt w' -> (forall to r, ans <> Some (Vote to r)) ->
    exists c', cluster_step c c' /\
      votes_posted (mk_network (<[i := w']> (host n)) (sent_mail (mail n) i w' ans)) c') as Hcall.
  { intros o Ho H Hans. eapply Hdone; [by eapply step_call|done|done|].
    intros to r Hx. by destruct (Hans to r). }
  destruct Hv as [u g Hu ->|k e H|e r Hn Ht H|p j m r Hl H|p j r e Hl Hp H|p j m r Hl H|p j r e Hl Hp H].
  - eapply Hdone; [by apply step_outside|done..].
  - apply (Hcall (OpPeriodic k)); [done| |done]. cbn. by rewrite (bind_ok_l _ _ _ _ _ H).
  - apply (Hcall (OpRecvEntry e)); [done| |done]. cbn. by rewrite (bind_ok_l _ _ _ _ _ H).
  - destruct (Hm _ _ Hl) as [_ <-]. eapply Hdone; [by eapply step_request|done|..].
    + intros. by right.
    + intros to r' [= <- <-]. by left.
  - eapply Hdone; [by eapply (step_response _ i j p r); eauto|done..].
  - destruct (Hm _ _ Hl) as (_ & Hn & _).
    apply (Hcall (OpRecvAppendentries p (delivered m))); [by apply Forall_take| |done].
    cbn. by rewrite (bind_ok_l _ _ _ _ _ H).
  - apply (Hcall (OpRecvAppendentriesResponse p r)); [done| |done].
    cbn. by rewrite (bind_ok_l _ _ _ _ _ H).
Qed.

Lemma network_cluster n n' c : network_ok n -> votes_posted n c -> rtc network_step n n' ->
  network_ok n' /\ exists c', rtc cluster_step c c' /\ votes_posted n' c'.
Proof.
  intros Hok Hc Hs. revert c Hok Hc. induction Hs as [n|n n1 n2 H1 _ IH]; intros c Hok Hc.
  { split; [done|]. by exists c. }
  destruct (network_cluster_step n n1 c Hok Hc H1) as (c1 & Hs1 & Hc1).
  destruct (IH c1) as (Hok' & c2 & Hs2 & Hc2); [by eapply network_step_ok|done|].
  split; [done|]. exists c2. split; [by eapply rtc_l|done].
Qed.

(** The start of a network. *)
Record opening (V : gset Z) (n : network) : Prop := {
  op_ready i w : host n !! i = Some w -> ready V i w;
  op_hosts i w : host n !! i = Some w -> host_ok i w (mk_alog 0 []);
  op_mail j l : ~ mail n j l
}.

Lemma opening_ok V n : opening V n -> network_ok n.
Proof. intros [_ H1 H2]. split; [eauto|]. intros j l Hl. by destruct (H2 j l). Qed.

Lemma opening_cluster V n : opening V n -> votes_posted n (mk_cluster (host n) []).
Proof. intros [_ _ H]. split; [done|]. intros j to r Hl. by destruct (H j (Vote to r)). Qed.

(** Election safety over two moments of a run. *)
Lemma network_election_safety V n0 n1 n2 i1 i2 w1 w2 :
  (1 < stdpp.base.size V)%nat -> opening V n0 ->
  rtc network_step n0 n1 -> rtc network_step n1 n2 ->
  host n1 !! i1 = Some w1 -> host n2 !! i2 = Some w2 ->
  role w1 = RAFT_STATE_LEADER -> role w2 = RAFT_STATE_LEADER -> term_of w1 = term_of w2 ->
  i1 = i2.
Proof.
  intros HV Ho H1 H2 Hi1 Hi2 L1 L2 Ht.
  destruct (network_cluster _ _ _ (opening_ok V n0 Ho) (opening_cluster V n0 Ho) H1)
    as (Hok1 & c1 & Hs1 & Hc1).
  destruct (network_cluster _ _ _ Hok1 Hc1 H2) as (_ & c2 & Hs2 & Hc2).
  destruct Hc1 as [E1 _], Hc2 as [E2 _].
  apply (cluster_election_safety V (mk_cluster (host n0) []) c1 c2 i1 i2 w1 w2); try done;
    [apply (op_ready _ _ Ho)|by rewrite E1|by rewrite E2].
Qed.
End Network.
