(* ===== verification/Ledger.v ===== *)
(** * An abstract specification of replication

    What Raft promises of the logs, without servers and messages: each term has at
    most one reign, the log of its leader while it leads; a log grows by an entry
    its server proposes in its own reign, or by an entry of somebody's reign behind
    the same predecessors.  Logs in reachable ledgers match. *)
From S2P Require Import Prelude Types.

Record ledger := mk_ledger {
  held : gmap Z (list raft_entry_t)  (** the log of each server *);
  reign : gmap Z (Z * list raft_entry_t)  (** per term: the leader and its log *)
}.

(** An entry [e] behind the log [l]. *)
Definition grow (i : Z) (l : list raft_entry_t) (g : ledger) : ledger :=
  mk_ledger (<[i := l]> (held g)) (reign g).

Inductive ledger_step (g : ledger) : ledger -> Prop :=
  | ledger_elect i t l : held g !! i = Some l -> reign g !! t = None ->
      ledger_step g (mk_ledger (held g) (<[t := (i, l)]> (reign g)))
  | ledger_propose i t l e : held g !! i = Some l -> reign g !! t = Some (i, l) ->
      ety_term e = t ->
      ledger_step g (mk_ledger (<[i := l ++ [e]]> (held g)) (<[t := (i, l ++ [e])]> (reign g)))
  | ledger_accept j t i l pre y suf : held g !! j = Some pre -> reign g !! t = Some (i, l) ->
      l = pre ++ y :: suf -> ledger_step g (grow j (pre ++ [y]) g).

(** The logs of a ledger: those held and those of the reigns. *)
Definition in_ledger (g : ledger) (l : list raft_entry_t) : Prop :=
  (exists i, held g !! i = Some l) \/ exists t i, reign g !! t = Some (i, l).

(** Two logs match: where both have an entry of the same term at an index, they
    are the same up to it. *)
Definition logs_match (l l' : list raft_entry_t) : Prop :=
  forall k x y, l !! k = Some x -> l' !! k = Some y -> ety_term x = ety_term y ->
    take (S k) l = take (S k) l'.

(** Every entry of a log is in the reign of its term, behind the same entries. *)
Definition rooted (g : ledger) (l : list raft_entry_t) : Prop :=
  forall k x, l !! k = Some x -> exists i r, reign g !! ety_term x = Some (i, r) /\
    take (S k) l = take (S k) r.

Definition ledger_ok (g : ledger) : Prop := forall l, in_ledger g l -> rooted g l.

Lemma rooted_match g l l' : rooted g l -> rooted g l' -> logs_match l l'.
Proof.
  intros H H' k x y Hx Hy Ht. destruct (H k x Hx) as (i & r & Hr & E).
  destruct (H' k y Hy) as (i' & r' & Hr' & E'). congruence.
Qed.

(** A reign that grows keeps the roots. *)
Lemma rooted_mono g g' l :
  (forall t i r, reign g !! t = Some (i, r) -> exists r', reign g' !! t = Some (i, r ++ r')) ->
  rooted g l -> rooted g' l.
Proof.
  intros Hg H k x Hx. destruct (H k x Hx) as (i & r & Hr & E).
  destruct (Hg _ _ _ Hr) as (r' & Hr'). exists i, (r ++ r'). split; [done|].
  rewrite E. assert (length (take (S k) l) = S k) as Hl.
  { rewrite length_take. apply lookup_lt_Some in Hx. lia. }
  rewrite E, length_take in Hl. by rewrite take_app_le by lia.
Qed.

Lemma rooted_snoc g l e i r r' : rooted g l -> reign g !! ety_term e = Some (i, r) ->
  r = (l ++ [e]) ++ r' -> rooted g (l ++ [e]).
Proof.
  intros H Hr -> k x Hx. apply lookup_app_Some in Hx as [Hx|[Hk Hx]].
  - destruct (H k x Hx) as (j & s & Hs & E). exists j, s. split; [done|].
    rewrite <- E. apply take_app_le. apply lookup_lt_Some in Hx. lia.
  - apply list_lookup_singleton_Some in Hx as [Hk' <-]. exists i, ((l ++ [e]) ++ r'). split; [done|].
    symmetry. apply take_app_le. rewrite length_app. cbn. lia.
Qed.

Lemma rooted_prefix g l l' : rooted g (l ++ l') -> rooted g l.
Proof.
  intros H k x Hx. destruct (H k x) as (i & r & Hr & E); [by apply lookup_app_l_Some|].
  exists i, r. split; [done|]. rewrite <- E. symmetry. apply take_app_le.
  apply lookup_lt_Some in Hx. lia.
Qed.

Lemma ledger_step_ok g g' : ledger_ok g -> ledger_step g g' -> ledger_ok g'.
Proof.
  intros Hok Hs. destruct Hs as [i t l Hl Ht|i t l e Hl Ht He|j t i l pre y suf Hj Ht Hl].
  - assert (forall s j r, reign g !! s = Some (j, r) -> exists r',
      <[t := (i, l)]> (reign g) !! s = Some (j, r ++ r')) as Hgrow.
    { intros s j r Hr. exists []. rewrite app_nil_r, lookup_insert_ne by congruence. done. }
    intros l' Hl'. apply (rooted_mono g); [exact Hgrow|]. apply Hok.
    destruct Hl' as [[k Hk]|(s & k & Hk)]; [by left; exists k|]. cbn in Hk.
    apply lookup_insert_Some in Hk as [[_ [= -> ->]]|[_ Hk]]; [by left; exists k|by right; exists s, k].
  - assert (forall s j r, reign g !! s = Some (j, r) -> exists r',
      <[t := (i, l ++ [e])]> (reign g) !! s = Some (j, r ++ r')) as Hgrow.
    { intros s j r Hr. destruct (decide (t = s)) as [->|Hne].
      - rewrite lookup_insert_eq. exists [e]. congruence.
      - exists []. by rewrite app_nil_r, lookup_insert_ne. }
    assert (rooted (mk_ledger (<[i := l ++ [e]]> (held g)) (<[t := (i, l ++ [e])]> (reign g)))
      (l ++ [e])) as Hnew.
    { eapply (rooted_snoc _ _ _ i _ []); [|rewrite He; apply lookup_insert_eq|by rewrite app_nil_r].
      apply (rooted_mono g); [exact Hgrow|]. apply Hok. left. by exists i. }
    intros l' [[k Hk]|(s & k & Hk)]; cbn in Hk; apply lookup_insert_Some in Hk.
    + destruct Hk as [[_ <-]|[_ Hk]]; [exact Hnew|].
      apply (rooted_mono g); [exact Hgrow|]. apply Hok. left. by exists k.
    + destruct Hk as [[_ [= _ <-]]|[_ Hk]]; [exact Hnew|].
      apply (rooted_mono g); [exact Hgrow|]. apply Hok. right. by exists s, k.
  - intros l' [[k Hk]|(s & k & Hk)]; cbn in Hk.
    + apply lookup_insert_Some in Hk as [[_ <-]|[_ Hk]]; [|by apply Hok; left; exists k].
      apply (rooted_prefix _ _ suf). rewrite <- app_assoc. cbn. rewrite <- Hl.
      apply (Hok l). right. by exists t, i.
    + apply (Hok l'). right. by exists s, k.
Qed.

(** Before anything is proposed. *)
Definition blank (g : ledger) : Prop :=
  (forall i l, held g !! i = Some l -> l = []) /\ reign g = ∅.

Lemma blank_ok g : blank g -> ledger_ok g.
Proof.
  intros [Hh Hr] l [[i Hi]|(t & i & Ht)]; [|by rewrite Hr in Ht].
  rewrite (Hh _ _ Hi). by intros [|k] x Hx.
Qed.

(** In every ledger reached from a blank one, all logs match. *)
Lemma ledger_match g0 g l l' : blank g0 -> rtc ledger_step g0 g ->
  in_ledger g l -> in_ledger g l' -> logs_match l l'.
Proof.
  intros H0 Hs Hl Hl'. assert (ledger_ok g) as Hok.
  { apply blank_ok in H0. induction Hs; [done|]. eauto using ledger_step_ok. }
  by apply (rooted_match g); apply Hok.
Qed.
