(* ===== verification/Council.v ===== *)
(** * An abstract specification of agreement

    Raft without messages: the ledger of [Ledger.v] with the servers' terms,
    their votes, each with the log the voter had, and their acknowledgements of
    parts of a reign's log.  An entry of a term is chosen when a majority
    acknowledged it in that term.  Every later reign has the chosen entries
    (leader completeness), so that all chosen parts agree. *)
From S2P Require Import Prelude Types Ledger.

Record council := mk_council {
  book : ledger;
  epoch : gmap Z Z  (** the term of each server *);
  ballots : list (Z * Z * Z * list raft_entry_t)  (** voter, term, candidate, the voter's log *);
  taken : list (Z * Z * nat)  (** server, term, how many entries of the reign it holds *)
}.

(** The log [s] is at least as up to date as [l] (section 5.4.1 of the paper). *)
Definition at_least (s l : list raft_entry_t) : Prop :=
  l = [] \/ exists x y, last s = Some x /\ last l = Some y /\
    (ety_term y < ety_term x \/ (ety_term y = ety_term x /\ (length l <= length s)%nat)).

Section Agreement.
Context (V : gset Z).

Definition quorum (Q : gset Z) : Prop :=
  Q ⊆ V /\ (stdpp.base.size V < 2 * stdpp.base.size Q)%nat.

Inductive council_step (c : council) : council -> Prop :=
  | council_advance i s t : epoch c !! i = Some s -> s <= t ->
      council_step c (mk_council (book c) (<[i := t]> (epoch c)) (ballots c) (taken c))
  | council_vote j t x l : epoch c !! j = Some t -> held (book c) !! j = Some l ->
      (forall x' l', (j, t, x', l') ∉ ballots c) ->
      council_step c (mk_council (book c) (epoch c) ((j, t, x, l) :: ballots c) (taken c))
  | council_elect i t l Q : epoch c !! i = Some t -> held (book c) !! i = Some l ->
      reign (book c) !! t = None -> quorum Q ->
      (forall j, j ∈ Q -> exists l', (j, t, i, l') ∈ ballots c /\ at_least l l') ->
      council_step c (mk_council (mk_ledger (held (book c)) (<[t := (i, l)]> (reign (book c))))
                        (epoch c) (ballots c) (taken c))
  | council_propose i t l e : epoch c !! i = Some t -> held (book c) !! i = Some l ->
      reign (book c) !! t = Some (i, l) -> ety_term e = t ->
      council_step c (mk_council (mk_ledger (<[i := l ++ [e]]> (held (book c)))
                                   (<[t := (i, l ++ [e])]> (reign (book c))))
                        (epoch c) (ballots c) (taken c))
  | council_accept j t i l pre y suf : epoch c !! j = Some t -> held (book c) !! j = Some pre ->
      reign (book c) !! t = Some (i, l) -> l = pre ++ y :: suf ->
      council_step c (mk_council (grow j (pre ++ [y]) (book c)) (epoch c) (ballots c) (taken c))
  | council_take j t k l i r : epoch c !! j = Some t -> held (book c) !! j = Some l ->
      reign (book c) !! t = Some (i, r) -> (k <= length r)%nat -> take k l = take k r ->
      council_step c (mk_council (book c) (epoch c) (ballots c) ((j, t, k) :: taken c)).

(** The ledger of a council takes the steps of the ledger. *)
Lemma council_step_ledger c c' : council_step c c' -> rtc ledger_step (book c) (book c').
Proof.
  intros []; try done; apply rtc_once; cbn; [by apply ledger_elect|by apply ledger_propose|
    by eapply ledger_accept].
Qed.

(** ** Chosen entries *)

(** Entry [p] of the reign of [t] is of that term, and a majority holds the reign
    up to it. *)
Definition chosen (c : council) (t : Z) (p : nat) : Prop :=
  exists i r x Q, reign (book c) !! t = Some (i, r) /\ r !! p = Some x /\ ety_term x = t /\
    quorum Q /\ forall j, j ∈ Q -> exists k, (p < k)%nat /\ (j, t, k) ∈ taken c.

(** The log [l] is part of what was chosen in term [t]. *)
Definition settled (c : council) (t : Z) (l : list raft_entry_t) : Prop :=
  exists p i r, chosen c t p /\ reign (book c) !! t = Some (i, r) /\ l `prefix_of` take (S p) r.

(** ** The invariant *)
Record council_ok (c : council) : Prop := {
  co_ledger : ledger_ok (book c);
  co_epoch j l : held (book c) !! j = Some l ->
    exists t, epoch c !! j = Some t /\ forall x, x ∈ l -> ety_term x <= t;
  co_reign t i r : reign (book c) !! t = Some (i, r) ->
    exists s r' Q, r = s ++ r' /\ (forall x, x ∈ s -> ety_term x < t) /\
      (forall x, x ∈ r' -> ety_term x = t) /\ quorum Q /\
      forall j, j ∈ Q -> exists l, (j, t, i, l) ∈ ballots c /\ at_least s l;
  co_ballot j t x l : (j, t, x, l) ∈ ballots c ->
    exists t' l', epoch c !! j = Some t' /\ t <= t' /\
      held (book c) !! j = Some l' /\ l `prefix_of` l';
  co_taken j t k : (j, t, k) ∈ taken c ->
    exists t' l i r, epoch c !! j = Some t' /\ t <= t' /\ held (book c) !! j = Some l /\
      reign (book c) !! t = Some (i, r) /\ (k <= length r)%nat /\ take k l = take k r;
  co_order j t t' x l k : (j, t', x, l) ∈ ballots c -> (j, t, k) ∈ taken c -> t < t' ->
    (k <= length l)%nat
}.

(** A reign grows, what was acknowledged stays. *)
Record council_le (c c' : council) : Prop := {
  cl_reign t i r : reign (book c) !! t = Some (i, r) ->
    exists r', reign (book c') !! t = Some (i, r ++ r');
  cl_held j l : held (book c) !! j = Some l -> exists l', held (book c') !! j = Some (l ++ l');
  cl_epoch j t : epoch c !! j = Some t -> exists t', epoch c' !! j = Some t' /\ t <= t';
  cl_ballots : ballots c ⊆ ballots c';
  cl_taken : taken c ⊆ taken c'
}.

#[export] Instance council_le_preorder : PreOrder council_le.
Proof.
  split.
  - intros c. split; try done.
    + intros t i r Hr. exists []. by rewrite app_nil_r.
    + intros j l Hl. exists []. by rewrite app_nil_r.
    + intros j t Ht. by exists t.
  - intros c1 c2 c3 [R1 H1 E1 B1 T1] [R2 H2 E2 B2 T2]. split; [| | |set_solver..].
    + intros t i r Hr. destruct (R1 _ _ _ Hr) as [r1 Hr1]. destruct (R2 _ _ _ Hr1) as [r2 Hr2].
      exists (r1 ++ r2). by rewrite app_assoc.
    + intros j l Hl. destruct (H1 _ _ Hl) as [l1 Hl1]. destruct (H2 _ _ Hl1) as [l2 Hl2].
      exists (l1 ++ l2). by rewrite app_assoc.
    + intros j t Ht. destruct (E1 _ _ Ht) as (t1 & Ht1 & L1). destruct (E2 _ _ Ht1) as (t2 & Ht2 & L2).
      exists t2. split; [done|lia].
Qed.

Lemma insert_grows {A} (m : gmap Z (list A)) i l e j l0 : m !! i = Some l -> m !! j = Some l0 ->
  exists l', <[i := l ++ [e]]> m !! j = Some (l0 ++ l').
Proof.
  intros Hi Hj. destruct (decide (i = j)) as [->|Hne].
  - exists [e]. rewrite lookup_insert_eq. congruence.
  - exists []. by rewrite app_nil_r, lookup_insert_ne.
Qed.

Lemma council_step_le c c' : council_step c c' -> council_le c c'.
Proof.
  assert (forall j t, epoch c !! j = Some t -> exists t', epoch c !! j = Some t' /\ t <= t') as He
    by (intros j t Ht; by exists t).
  assert (forall t i r, reign (book c) !! t = Some (i, r) ->
    exists r', reign (book c) !! t = Some (i, r ++ r')) as Hr
    by (intros t i r Hr; exists []; by rewrite app_nil_r).
  assert (forall j l, held (book c) !! j = Some l -> exists l', held (book c) !! j = Some (l ++ l'))
    as Hh by (intros j l Hl; exists []; by rewrite app_nil_r).
  intros Hs. destruct Hs as [i s t Hs Hle|j t x l Ht Hl Hn|i t l Q Ht Hl Hk HQ Hv|i t l e Ht Hl Hk He0
    |j t i l pre y suf Ht Hl Hk E|j t k l i r Ht Hl Hk Hkl E]; split; cbn; try done; try set_solver.
  - intros j u Hu. destruct (decide (i = j)) as [->|Hne].
    + exists t. rewrite lookup_insert_eq. split; [done|]. assert (u = s) as -> by congruence. lia.
    + exists u. rewrite lookup_insert_ne by done. split; [done|lia].
  - intros u j r Hu. exists []. rewrite app_nil_r, lookup_insert_ne by congruence. done.
  - intros u j r Hu. destruct (decide (t = u)) as [->|Hne].
    + exists [e]. rewrite lookup_insert_eq. congruence.
    + exists []. by rewrite app_nil_r, lookup_insert_ne.
  - intros j l0. by apply insert_grows.
  - intros j' l0. by apply insert_grows.
Qed.

(** *** What the invariant gives *)
Lemma reign_bound c t i r x : council_ok c -> reign (book c) !! t = Some (i, r) -> x ∈ r ->
  ety_term x <= t.
Proof.
  intros Ok Hr Hx. destruct (co_reign _ Ok _ _ _ Hr) as (s & r' & _ & -> & Hs & Hr' & _).
  apply elem_of_app in Hx as [Hx|Hx]; [specialize (Hs x Hx)|specialize (Hr' x Hx)]; lia.
Qed.

Lemma take_whole {A} (l r : list A) k : (k <= length r)%nat -> take k l = take k r ->
  (k <= length l)%nat.
Proof. intros Hk E. apply (f_equal length) in E. rewrite !length_take in E. lia. Qed.

Lemma take_prefix_of {A} (l r : list A) : l `prefix_of` r -> take (length l) r = l.
Proof. intros [s ->]. apply take_app_length. Qed.

Lemma take_take_le {A} (l : list A) n k : (k <= n)%nat -> take k (take n l) = take k l.
Proof. intros Hk. rewrite take_take. f_equal. lia. Qed.

Lemma take_shorter {A} (l r : list A) k n : (k <= n)%nat -> take n l = take n r -> take k l = take k r.
Proof. intros Hk E. by rewrite <- (take_take_le l n k), E, take_take_le. Qed.

(** A rooted log is the part of the reign of its last entry's term. *)
Lemma rooted_last g l x : rooted g l -> last l = Some x ->
  exists i r, reign g !! ety_term x = Some (i, r) /\ take (length l) r = l.
Proof.
  intros H Hx. rewrite last_lookup in Hx. destruct (H _ _ Hx) as (i & r & Hr & E).
  exists i, r. split; [done|]. apply lookup_lt_Some in Hx.
  replace (S (pred (length l))) with (length l) in E by lia. by rewrite <- E, take_ge.
Qed.

(** *** Every step keeps it *)
Lemma council_ok_le c c' : council_ok c -> council_le c c' -> ledger_ok (book c') ->
  (forall j l, held (book c') !! j = Some l ->
    exists t, epoch c' !! j = Some t /\ forall x, x ∈ l -> ety_term x <= t) ->
  (forall t i r, reign (book c') !! t = Some (i, r) ->
    (exists r0 r1, reign (book c) !! t = Some (i, r0) /\ r = r0 ++ r1 /\
       forall x, x ∈ r1 -> ety_term x = t) \/
    ((forall x, x ∈ r -> ety_term x < t) /\ exists Q, quorum Q /\
       forall j, j ∈ Q -> exists l, (j, t, i, l) ∈ ballots c' /\ at_least r l)) ->
  (forall j t x l, (j, t, x, l) ∈ ballots c' -> (j, t, x, l) ∈ ballots c \/
    (epoch c' !! j = Some t /\ held (book c') !! j = Some l)) ->
  (forall j t k, (j, t, k) ∈ taken c' -> (j, t, k) ∈ taken c \/
    exists l i r, epoch c' !! j = Some t /\ held (book c') !! j = Some l /\
      reign (book c') !! t = Some (i, r) /\ (k <= length r)%nat /\ take k l = take k r) ->
  council_ok c'.
Proof.
  intros Ok Le Lok He Hr Hb Ht.
  assert (forall j t x l, (j, t, x, l) ∈ ballots c' ->
    exists t' l', epoch c' !! j = Some t' /\ t <= t' /\ held (book c') !! j = Some l' /\ l `prefix_of` l')
    as Hballot.
  { intros j t x l [Hold|[H1 H2]]%Hb; [|by exists t, l].
    destruct (co_ballot _ Ok _ _ _ _ Hold) as (t' & l' & E1 & Hle & H1 & Hp).
    destruct (cl_epoch _ _ Le _ _ E1) as (u & Hu & Hle'). destruct (cl_held _ _ Le _ _ H1) as (l2 & Hl2).
    exists u, (l' ++ l2). split_and!; try done; [lia|]. by apply prefix_app_r. }
  assert (forall j t k, (j, t, k) ∈ taken c' -> exists t' l i r, epoch c' !! j = Some t' /\ t <= t' /\
    held (book c') !! j = Some l /\ reign (book c') !! t = Some (i, r) /\ (k <= length r)%nat /\
    take k l = take k r) as Htaken.
  { intros j t k [Hold|(l & i & r & H1 & H2 & H3 & H4 & H5)]%Ht; [|by exists t, l, i, r].
    destruct (co_taken _ Ok _ _ _ Hold) as (t' & l & i & r & E1 & Hle & H1 & H2 & Hk & E).
    destruct (cl_epoch _ _ Le _ _ E1) as (u & Hu & Hle'). destruct (cl_held _ _ Le _ _ H1) as (l2 & Hl2).
    destruct (cl_reign _ _ Le _ _ _ H2) as (r2 & Hr2). exists u, (l ++ l2), i, (r ++ r2).
    split_and!; try done; [lia|rewrite length_app; lia|].
    pose proof (take_whole _ _ _ Hk E). by rewrite !take_app_le by done. }
  split; try done.
  - intros t i r [(r0 & r1 & H0 & -> & H1)|(H1 & Q & HQ & HQ')]%Hr.
    + destruct (co_reign _ Ok _ _ _ H0) as (s & r' & Q & -> & Hs & Hr' & HQ & HQ').
      exists s, (r' ++ r1), Q. split_and!; try done; [by rewrite app_assoc| |].
      * intros x [Hx|Hx]%elem_of_app; auto.
      * intros j Hj. destruct (HQ' j Hj) as (l & Hl & Hup). exists l.
        split; [by apply (cl_ballots _ _ Le)|done].
    + exists r, [], Q. split_and!; try done; [by rewrite app_nil_r|]. by intros x ?%elem_of_nil.
  - intros j t t' x l k Hbal Htk Hlt. destruct (Htaken j t k Htk) as (u & lj & i & r & E1 & Hle & H1 & H2 & Hk & E).
    pose proof (take_whole _ _ _ Hk E) as Hkl.
    destruct (Hb _ _ _ _ Hbal) as [Hbold|[E1' H1']]; [|by assert (l = lj) as -> by congruence].
    destruct (Ht _ _ _ Htk) as [Htold|(l2 & i2 & r2 & E2 & _)]; [by apply (co_order _ Ok j t t' x l)|].
    destruct (co_ballot _ Ok _ _ _ _ Hbold) as (u1 & _ & E3 & Hle3 & _).
    destruct (cl_epoch _ _ Le _ _ E3) as (u2 & E4 & Hle4). assert (u2 = t) as -> by congruence. lia.
Qed.

Lemma council_step_ok c c' : council_ok c -> council_step c c' -> council_ok c'.
Proof.
  intros Ok Hs. pose proof (council_step_le c c' Hs) as Le.
  assert (ledger_ok (book c')) as Lok.
  { pose proof (co_ledger _ Ok) as H. pose proof (council_step_ledger c c' Hs) as Hl.
    clear - H Hl. induction Hl; eauto using ledger_step_ok. }
  assert (forall t i r, reign (book c) !! t = Some (i, r) -> exists r0 r1,
    reign (book c) !! t = Some (i, r0) /\ r = r0 ++ r1 /\ forall x, x ∈ r1 -> ety_term x = t) as Hsame.
  { intros t i r Hr. exists r, []. split_and!; [done|by rewrite app_nil_r|by intros x ?%elem_of_nil]. }
  apply (council_ok_le c c' Ok Le Lok); pose proof (co_epoch _ Ok) as He.
  all: destruct Hs as [i s t Hs Hle|j t x l Ht Hl Hn|i t l Q Ht Hl Hk HQ Hv|i t l e Ht Hl Hk He0
    |j t i l pre y suf Ht Hl Hk E|j t k l i r Ht Hl Hk Hkl E]; cbn in *; auto.
  - intros j l Hl. destruct (He j l Hl) as (u & Hu & Hx). destruct (decide (i = j)) as [->|Hne].
    + exists t. rewrite lookup_insert_eq. split; [done|]. intros x Hxl. specialize (Hx x Hxl).
      assert (u = s) as -> by congruence. lia.
    + exists u. by rewrite lookup_insert_ne.
  - intros j l0. rewrite lookup_insert_Some. intros [[<- <-]|[_ Hj]]; [|by apply He].
    exists t. split; [done|]. intros x [Hx|Hx]%elem_of_app.
    + destruct (He i l Hl) as (u & Hu & Hxu). assert (u = t) as -> by congruence. auto.
    + apply list_elem_of_singleton in Hx as ->. lia.
  - intros j' l0. rewrite lookup_insert_Some. intros [[<- <-]|[_ Hj]]; [|by apply He].
    exists t. split; [done|]. intros x Hx. apply (reign_bound c t i l x Ok Hk). rewrite E.
    replace (pre ++ y :: suf) with ((pre ++ [y]) ++ suf) by by rewrite <- app_assoc.
    apply elem_of_app. by left.
  - intros u j r. rewrite lookup_insert_Some. intros [[<- [= <- <-]]|[_ Hu]]; [right|left; auto].
    split; [|by exists Q]. intros x Hx. destruct (He i l Hl) as (u & Hu & Hxu).
    assert (u = t) as -> by congruence. specialize (Hxu x Hx).
    destruct (decide (ety_term x = t)) as [Hxt|]; [|lia]. exfalso.
    apply list_elem_of_lookup in Hx as [k Hx].
    assert (rooted (book c) l) as R by (apply (co_ledger _ Ok); left; by exists i).
    destruct (R k x Hx) as (i' & r' & Hr' & _). rewrite Hxt in Hr'. congruence.
  - intros u j r. rewrite lookup_insert_Some. intros [[<- [= <- <-]]|[_ Hu]]; left; [|auto].
    exists l, [e]. split_and!; try done. by intros x ->%list_elem_of_singleton.
  - intros j' t' x' l' [[= -> -> -> ->]|Hb]%elem_of_cons; auto.
  - intros j' t' k' [[= -> -> ->]|Hb]%elem_of_cons; [right|by left]. by exists l, i, r.
Qed.

(** ** Leader completeness *)

(** A later reign has what was chosen. *)
Lemma council_completeness c t p t' i i' r r' : council_ok c -> chosen c t p ->
  reign (book c) !! t = Some (i, r) -> reign (book c) !! t' = Some (i', r') -> t <= t' ->
  take (S p) r' = take (S p) r.
Proof.
  intros Ok (i0 & r0 & z & Q & Hr0 & Hz & Hzt & HQ & Htk) Hr. assert (r0 = r) as -> by congruence.
  clear Hr0 i0. pose proof (lookup_lt_Some _ _ _ Hz) as Hlen.
  intros Hr' Hle. revert t' Hle i' r' Hr'.
  apply (Zlt_lower_bound_ind (fun t' => forall i' r', reign (book c) !! t' = Some (i', r') -> take (S p) r' = take (S p) r)).
  intros t' IH Hle i' r' Hr'.
  destruct (decide (t' = t)) as [->|Hne]; [congruence|]. assert (t < t') as Hlt by lia. clear Hle Hne.
  destruct (co_reign _ Ok _ _ _ Hr') as (s & r2 & Q' & E & Hs & _ & HQ' & Hv).
  destruct (quorums_meet V Q Q') as (j & Hj & Hj'); [apply HQ|apply HQ'|apply HQ|apply HQ'|].
  destruct (Htk j Hj) as (k & Hpk & Hk). destruct (Hv j Hj') as (l & Hl & Hup).
  pose proof (co_order _ Ok _ _ _ _ _ _ Hl Hk Hlt) as Hkl.
  destruct (co_ballot _ Ok _ _ _ _ Hl) as (_ & lj & _ & _ & Hheld & Hpre).
  destruct (co_taken _ Ok _ _ _ Hk) as (_ & lj' & i2 & rr & _ & _ & Hheld' & Hrr & _ & Ek).
  assert (lj' = lj) as -> by congruence. assert (rr = r) as -> by congruence.
  (* the voter's log has the chosen entries *)
  assert (take (S p) l = take (S p) r) as El.
  { destruct Hpre as [l2 ->]. rewrite <- (take_app_le l l2) by lia.
    by apply (take_shorter _ _ _ k); [lia|]. }
  assert (forall w, in_ledger (book c) w -> rooted (book c) w) as Rt by apply (co_ledger _ Ok).
  assert (rooted (book c) l) as Rl.
  { destruct Hpre as [l2 E2]. apply (rooted_prefix _ _ l2). rewrite <- E2. apply Rt. left. by exists j. }
  assert (rooted (book c) s) as Rs.
  { apply (rooted_prefix _ _ r2). rewrite <- E. apply Rt. right. by exists t', i'. }
  assert (l !! p = Some z) as Hlz by (rewrite <- (lookup_take_lt l (S p)), El, lookup_take_lt by lia; done).
  destruct Hup as [->|(x & y & Hx & Hy & Hxy)]; [done|].
  destruct (rooted_last _ _ _ Rs Hx) as (ix & rx & Hrx & Ex).
  destruct (rooted_last _ _ _ Rl Hy) as (iy & ry & Hry & Ey).
  assert (t <= ety_term y) as Hty.
  { rewrite <- Hzt. apply (reign_bound c _ iy ry z Ok Hry). rewrite <- Ey in Hlz.
    rewrite lookup_take_Some in Hlz. by eapply list_elem_of_lookup_2, Hlz. }
  assert (ety_term x < t') as Hxt'.
  { apply Hs. rewrite last_lookup in Hx. by eapply list_elem_of_lookup_2. }
  assert ((S p <= length s)%nat -> take (S p) s = take (S p) r -> take (S p) r' = take (S p) r) as Hdone.
  { intros H1 H2. by rewrite E, take_app_le. }
  destruct Hxy as [Hxy|[Hxy Hlen']].
  - assert (take (S p) rx = take (S p) r) as IHx by (apply (IH (ety_term x)) with ix; [lia|done]).
    destruct (decide (S p <= length s)%nat) as [Hps|Hps].
    + apply Hdone; [done|]. rewrite <- IHx, <- Ex. by rewrite take_take_le.
    + exfalso. rewrite last_lookup in Hx. pose proof (lookup_lt_Some _ _ _ Hx) as Hxl.
      rewrite <- Ex in Hx at 2. apply lookup_take_Some in Hx as [Hx _].
      rewrite <- (lookup_take_lt rx (S p)), IHx, lookup_take_lt in Hx by lia.
      pose proof (reign_bound c t i r x Ok Hr ltac:(by eapply list_elem_of_lookup_2)). lia.
  - assert (ry = rx) as -> by congruence. apply Hdone; [lia|].
    rewrite <- El, <- Ey, <- Ex. rewrite !take_take_le by lia. done.
Qed.

(** What is settled is in every later reign. *)
Lemma settled_later c t l t' i' r' : council_ok c -> settled c t l ->
  reign (book c) !! t' = Some (i', r') -> t <= t' -> l `prefix_of` r'.
Proof.
  intros Ok (p & i & r & Hc & Hr & Hp) Hr' Hle. etransitivity; [exact Hp|].
  rewrite <- (council_completeness c t p t' i i' r r' Ok Hc Hr Hr' Hle). apply prefix_take.
Qed.

(** What is settled agrees. *)
Lemma settled_agree c t1 t2 l1 l2 : council_ok c -> settled c t1 l1 -> settled c t2 l2 ->
  l1 `prefix_of` l2 \/ l2 `prefix_of` l1.
Proof.
  intros Ok H1 H2. destruct (decide (t1 <= t2)) as [Hle|Hle].
  - destruct (H2) as (p & i & r & _ & Hr & Hp).
    apply (prefix_weak_total l1 l2 r); [by eapply settled_later|].
    etransitivity; [exact Hp|apply prefix_take].
  - destruct (H1) as (p & i & r & _ & Hr & Hp).
    apply (prefix_weak_total l1 l2 r); [|eapply settled_later; [done|done|done|lia]].
    etransitivity; [exact Hp|apply prefix_take].
Qed.

Lemma chosen_le c c' t p : council_le c c' -> chosen c t p -> chosen c' t p.
Proof.
  intros Le (i & r & x & Q & Hr & Hx & Ht & HQ & Htk). destruct (cl_reign _ _ Le _ _ _ Hr) as (r' & Hr').
  exists i, (r ++ r'), x, Q. split; [done|]. split; [by apply lookup_app_l_Some|].
  split; [done|]. split; [done|].
  intros j Hj. destruct (Htk j Hj) as (k & Hk & Hin). exists k. split; [done|]. by apply (cl_taken _ _ Le).
Qed.

Lemma settled_le c c' t l : council_le c c' -> settled c t l -> settled c' t l.
Proof.
  intros Le (p & i & r & Hc & Hr & Hp). destruct (cl_reign _ _ Le _ _ _ Hr) as (r' & Hr').
  exists p, i, (r ++ r'). split_and!; try done; [by apply (chosen_le c)|].
  etransitivity; [exact Hp|]. destruct Hc as (i0 & r0 & x & _ & Hr0 & Hx & _).
  assert (r0 = r) as -> by congruence. apply lookup_lt_Some in Hx. by rewrite take_app_le by lia.
Qed.

Lemma settled_shorter c t l l' : l' `prefix_of` l -> settled c t l -> settled c t l'.
Proof. intros Hl (p & i & r & Hc & Hr & Hp). exists p, i, r. split_and!; try done. by etransitivity. Qed.

(** ** Runs *)
Lemma council_steps_le c c' : rtc council_step c c' -> council_le c c'.
Proof. induction 1; [done|]. etransitivity; [by eapply council_step_le|done]. Qed.

Lemma council_steps_ok c c' : council_ok c -> rtc council_step c c' -> council_ok c'.
Proof. intros Ok Hs. induction Hs; eauto using council_step_ok. Qed.

Lemma council_steps_ledger c c' : rtc council_step c c' -> rtc ledger_step (book c) (book c').
Proof. induction 1; [done|]. etransitivity; [by eapply council_step_ledger|done]. Qed.

(** A council that has not met. *)
Record unmet (c : council) : Prop := {
  un_book : blank (book c);
  un_epoch j l : held (book c) !! j = Some l -> is_Some (epoch c !! j);
  un_ballots : ballots c = [];
  un_taken : taken c = []
}.

Lemma unmet_ok c : unmet c -> council_ok c.
Proof.
  intros [Hb He Hv Ht]. destruct (Hb) as [Hh Hr]. split; rewrite ?Hv, ?Ht.
  - by apply blank_ok.
  - intros j l Hl. destruct (He j l Hl) as [t Htj]. exists t. split; [done|].
    rewrite (Hh j l Hl). by intros x ?%elem_of_nil.
  - intros t i r. by rewrite Hr.
  - by intros j t x l ?%elem_of_nil.
  - by intros j t k ?%elem_of_nil.
  - by intros j t t' x l k ?%elem_of_nil.
Qed.
End Agreement.
