(* ===== verification/Matching.v ===== *)
(** * Log matching

    The logs of a network of servers implement the abstract ledger, as long as no
    log has been full: the appends of the servers are proposals of the leader of a
    term or copies from the reign of a term.  Hence logs that have an entry of the
    same term at the same index are the same up to it. *)
From S2P Require Import Prelude Contiki Types Node Membership Log Server Election Replication.
From S2P Require Import Sim NodeFacts Frames History LogFacts MemberFacts ElectionFacts Roles.
From S2P Require Import Campaign Sending Receiving Fixed Ranges Conflict Cluster Outbox Growth.
From S2P Require Import Network Ledger.

Section Matching.
Context {T : CTarget} {C : Contiki} {L : ContikiLaws C} {U : User} (Pu : udata -> Prop).
Implicit Types w : world.
Abbreviation host_ok := (host_ok Pu).
Abbreviation visit := (visit Pu).
Abbreviation network_step := (network_step Pu).
Abbreviation network_ok := (network_ok Pu).

(** ** What a visit does to the role *)
Lemma visit_op ml i w w' ans : visit ml i w w' ans ->
  (exists u g, w' = with_user_data u (with_rand_state g w)) \/ exists o, run_op o w = Ok tt w'.
Proof.
  intros [u g _ ->|n e H|e r _ _ H|p j m r _ H|p j r e _ _ H|p j m r _ H|p j r e _ _ H];
    [by left; exists u, g|right..].
  - exists (OpPeriodic n). cbn. by rewrite (bind_ok_l _ _ _ _ _ H).
  - exists (OpRecvEntry e). cbn. by rewrite (bind_ok_l _ _ _ _ _ H).
  - exists (OpRecvRequestvote p m). cbn. by rewrite (bind_ok_l _ _ _ _ _ H).
  - exists (OpRecvRequestvoteResponse p r). cbn. by rewrite (bind_ok_l _ _ _ _ _ H).
  - exists (OpRecvAppendentries p (delivered m)). cbn. by rewrite (bind_ok_l _ _ _ _ _ H).
  - exists (OpRecvAppendentriesResponse p r). cbn. by rewrite (bind_ok_l _ _ _ _ _ H).
Qed.

Record role_moves (w w' : world) : Prop := {
  rm_leader : role w' = RAFT_STATE_LEADER ->
    term_of w' = term_of w /\ (role w = RAFT_STATE_LEADER \/ role w = RAFT_STATE_CANDIDATE);
  rm_candidate : role w' = RAFT_STATE_CANDIDATE ->
    role_of w' = role_of w \/ term_of w < term_of w';
  rm_term : term_of w <= term_of w'
}.

Lemma visit_role V cast ml i w w' ans : (1 < stdpp.base.size V)%nat ->
  server_inv V cast i w -> visit ml i w w' ans -> role_moves w w'.
Proof.
  intros HV Si [(u & g & ->)|[o H]]%visit_op.
  { split; [by auto|by left|done]. }
  pose proof (run_op_hist o w tt w' H) as [[Ht _] _].
  destruct (role_transitions_run o w tt w' (si_nodes _ _ _ _ Si) H);
    split; unfold role_of in *; try done; intros Hr; try (split; [congruence|]); try congruence.
  - left. congruence.
  - by left.
  - right. congruence.
  - exfalso. rewrite (voting_size V cast i w Si) in HV. lia.
  - right. lia.
Qed.

(** ** Representation *)

(** No host has ever dropped an entry. *)
Definition roomy (n : network) : Prop :=
  forall i w, host n !! i = Some w -> count (lg w) <= Z.of_nat MAX_ENTRIES.

(** A message is a piece of the log [l]. *)
Definition piece (m : msg_appendentries_t) (l : list raft_entry_t) : Prop :=
  ae_entries m <> [] -> 0 <= ae_prev_log_idx m /\
  ae_entries m `prefix_of` drop (Z.to_nat (ae_prev_log_idx m)) l /\
  (ae_prev_log_idx m <> 0 -> exists x, l !! Z.to_nat (ae_prev_log_idx m - 1) = Some x /\
     ety_term x = to_uint (ae_prev_log_term m)).

Lemma piece_grow m l l' : piece m l -> piece m (l ++ l').
Proof.
  intros H Hne. destruct (H Hne) as (Hp & Hpre & Hx). split; [done|]. split.
  - destruct Hpre as [r Hr].
    assert (Z.to_nat (ae_prev_log_idx m) <= length l)%nat as Hlen.
    { assert (length (drop (Z.to_nat (ae_prev_log_idx m)) l) <> 0%nat) as Hd.
      { rewrite Hr, length_app. destruct (ae_entries m); [done|cbn; lia]. }
      rewrite length_drop in Hd. lia. }
    rewrite drop_app_le by done. rewrite Hr. exists (r ++ l'). by rewrite <- app_assoc.
  - intros Hnz. destruct (Hx Hnz) as (x & Hl & Ht). exists x. split; [|done].
    by apply lookup_app_l_Some.
Qed.

(** The key of a term in the ledger is its value in the entries. *)
Lemma to_uint_inj s t : is_int s -> is_int t -> to_uint s = to_uint t -> s = t.
Proof.
  intros Hs Ht E. assert (forall z, is_int z -> to_int (to_uint z) = z) as Hz.
  { intros z Hz. by apply to_int_to_uint. }
  by rewrite <- (Hz s Hs), <- (Hz t Ht), E.
Qed.

Section Tracked.
Context (V : gset Z).

(** The ledger [g] describes the network [n]; [cast] are the votes so far. *)
Record tracked (cast : Z -> Z -> Z -> Prop) (n : network) (g : ledger) : Prop := {
  tk_held i w : host n !! i = Some w ->
    exists a, host_ok i w a /\ al_first a = 1 /\ held g !! i = Some (al_entries a);
  tk_lead i w : host n !! i = Some w -> role w = RAFT_STATE_LEADER ->
    exists l, held g !! i = Some l /\ reign g !! to_uint (term_of w) = Some (i, l);
  tk_past k i l : reign g !! k = Some (i, l) ->
    exists w s, host n !! i = Some w /\ k = to_uint s /\ is_int s /\ s <= term_of w /\
      (s = term_of w -> role w <> RAFT_STATE_CANDIDATE) /\ elected V cast s i;
  tk_idx k i l : reign g !! k = Some (i, l) ->
    forall p x, l !! p = Some x -> ety_idx x = Z.of_nat p + 1;
  tk_mail i m : mail n i (Append m) ->
    exists l, reign g !! to_uint (ae_term m) = Some (i, l) /\ piece m l
}.

Lemma term_typed i w a : host_ok i w a -> is_int (term_of w).
Proof. intros Ho. apply (sv_term _ _ (ty_srv _ _ (ho_typed _ _ _ _ Ho))). Qed.

(** Logs that were never full hold all their entries. *)
Lemma whole_length a : al_first a = 1 -> al_last a = Z.of_nat (length (al_entries a)).
Proof. unfold al_first. lia. Qed.

Lemma whole_get a k : al_first a = 1 -> 1 <= k -> al_get a k = al_entries a !! Z.to_nat (k - 1).
Proof.
  intros Hf Hk. pose proof (whole_length a Hf). unfold al_get. rewrite Hf.
  destruct (Z.leb_spec 1 k); [|lia]. destruct (Z.leb_spec k (al_last a)); [done|].
  symmetry. apply lookup_ge_None. lia.
Qed.

Lemma whole_append e a : al_first a = 1 -> al_last (al_append e a) <= Z.of_nat MAX_ENTRIES ->
  (length (al_entries a) <= MAX_ENTRIES)%nat ->
  al_first (al_append e a) = 1 /\
  al_entries (al_append e a) = al_entries a ++ [with_ety_idx (al_last a + 1) e].
Proof.
  intros Hf Hl Hc. pose proof (whole_length a Hf). rewrite al_append_last in Hl.
  assert (al_entries (al_append e a) = al_entries a ++ [with_ety_idx (al_last a + 1) e]) as E.
  { unfold al_append, al_make_room. rewrite decide_False by lia. done. }
  split; [|done]. unfold al_first. rewrite E, al_append_last, length_app. cbn. lia.
Qed.

(** An honest message is a piece of the sender's log. *)
Lemma honest_piece i w a m : host_ok i w a -> al_first a = 1 -> honest_append w a m ->
  role w = RAFT_STATE_LEADER /\ ae_term m = term_of w /\ piece m (al_entries a).
Proof.
  intros Ho Hf (Hr & next & c & Hn & _ & ->). split; [done|]. split; [done|].
  intros Hne. cbn [ae_prev_log_idx ae_prev_log_term ae_entries] in *.
  assert (fst (prev_of w a next) = next - 1) as Hp.
  { unfold prev_of. destruct (Z.ltb_spec 1 next); cbn; lia. }
  rewrite Hp. unfold al_from in *. rewrite Hf in *.
  assert (Z.to_nat (next - 1) < length (al_entries a))%nat as Hlt.
  { destruct (decide (length (al_entries a) <= Z.to_nat (next - 1))%nat); [|lia].
    by rewrite drop_ge in Hne by lia. }
  split; [lia|]. split; [done|]. intros Hnz.
  unfold prev_of. rewrite (proj2 (Z.ltb_lt 1 next)) by lia. cbn [snd].
  rewrite whole_get by lia. destruct (lookup_lt_is_Some_2 (al_entries a) (Z.to_nat (next - 1 - 1)))
    as [x Hx]; [lia|]. exists x. rewrite Hx. split; [done|]. symmetry. apply to_uint_to_int.
  pose proof (so_log _ _ (ho_server _ _ _ _ Ho)) as R.
  destruct (al_entries_elem w a x R) as [p Hpx]; [by eapply list_elem_of_lookup_2|].
  apply (et_term x). by apply (ty_entries _ _ (ho_typed _ _ _ _ Ho) p).
Qed.

(** ** One visit *)
Section Visit.
Context (cast cast' : Z -> Z -> Z -> Prop) (n : network) (i : Z) (w w' : world) (a a' : alog).
Context (ans : option letter).
Context (Hcast : forall j t x, cast j t x -> cast' j t x).
Context (Hi : host n !! i = Some w) (Ho' : host_ok i w' a').
Context (Hmoves : role_moves w w').
Context (Helected : role w' = RAFT_STATE_LEADER -> elected V cast' (term_of w') i).
Context (Hvote : forall m, ans <> Some (Append m)).

Abbreviation n' := (mk_network (<[i := w']> (host n)) (sent_mail (mail n) i w' ans)).

(** The ledger after the visit: [i] holds [a'], the reigns went on, and if [i]
    leads its log is that of its reign. *)
Record turn (g g' : ledger) : Prop := {
  tn_first : al_first a' = 1;
  tn_held : held g' = <[i := al_entries a']> (held g);
  tn_grow k j l : reign g !! k = Some (j, l) ->
    exists l', reign g' !! k = Some (j, l ++ l') /\ (j <> i -> l' = []);
  tn_new k j l' : reign g' !! k = Some (j, l') ->
    reign g !! k = Some (j, l') \/
    (j = i /\ k = to_uint (term_of w') /\ role w' = RAFT_STATE_LEADER /\ l' = al_entries a');
  tn_lead : role w' = RAFT_STATE_LEADER ->
    reign g' !! to_uint (term_of w') = Some (i, al_entries a')
}.

Lemma turn_tracked g g' : tracked cast n g -> turn g g' -> tracked cast' n' g'.
Proof.
  intros Tr Tn. split; cbn.
  - intros j v. rewrite (tn_held _ _ Tn). rewrite lookup_insert_Some.
    intros [[<- <-]|[Hne Hj]].
    + exists a'. split; [done|]. split; [apply Tn|]. by rewrite lookup_insert_eq.
    + rewrite lookup_insert_ne by done. by apply (tk_held _ _ _ Tr).
  - intros j v. rewrite (tn_held _ _ Tn). rewrite lookup_insert_Some.
    intros [[<- <-]|[Hne Hj]] Hr.
    + exists (al_entries a'). rewrite lookup_insert_eq. split; [done|]. by apply (tn_lead _ _ Tn).
    + rewrite lookup_insert_ne by done. destruct (tk_lead _ _ _ Tr j v Hj Hr) as (l & Hl & Hk).
      exists l. split; [done|]. destruct (tn_grow _ _ Tn _ _ _ Hk) as (l' & Hl' & Hnil).
      rewrite Hnil, app_nil_r in Hl' by congruence. done.
  - intros k j l' Hk. destruct (tn_new _ _ Tn k j l' Hk) as [Hl|(-> & -> & Hr & _)].
    + destruct (tk_past _ _ _ Tr k j l' Hl) as (v & s & Hv & -> & Hs & Hle & Hc & He).
      destruct (decide (j = i)) as [->|Hne].
      * assert (v = w) as -> by congruence. exists w', s. rewrite lookup_insert_eq.
        pose proof (rm_term _ _ Hmoves). split_and!; try done; [lia| |by eapply elected_mono].
        intros Hst Hcand. destruct (rm_candidate _ _ Hmoves Hcand) as [E|]; [|lia].
        unfold role_of in E. apply Hc; congruence.
      * exists v, s. rewrite lookup_insert_ne by done. split_and!; try done. by eapply elected_mono.
    + exists w', (term_of w'). rewrite lookup_insert_eq. split_and!; try done; [|congruence|auto].
      by apply (term_typed i w' a').
  - intros k j l' Hk. destruct (tn_new _ _ Tn k j l' Hk) as [Hl|(_ & _ & _ & ->)].
    { by apply (tk_idx _ _ _ Tr k j). }
    intros p x Hx. rewrite (lr_idx _ _ (so_log _ _ (ho_server _ _ _ _ Ho')) p x Hx).
    rewrite (tn_first _ _ Tn). lia.
  - intros j m [Hm|[-> [(b & R & Hm)|Hm]]]; [| |by destruct (Hvote m)].
    + destruct (tk_mail _ _ _ Tr j m Hm) as (l & Hl & Hp).
      destruct (tn_grow _ _ Tn _ _ _ Hl) as (l' & Hl' & _). exists (l ++ l').
      split; [done|by apply piece_grow].
    + assert (b = a') as -> by (apply (log_repr_unique w'); [done|apply (ho_server _ _ _ _ Ho')]).
      destruct (honest_piece i w' a' m Ho' (tn_first _ _ Tn) Hm) as (Hr & -> & Hp).
      exists (al_entries a'). split; [|done]. by apply (tn_lead _ _ Tn).
Qed.

Context (g : ledger) (Tr : tracked cast n g) (Hok : ledger_ok g).
Context (Ho : host_ok i w a) (Hfirst : al_first a = 1) (Hheld : held g !! i = Some (al_entries a)).
Context (Huniq : forall t x y, elected V cast' t x -> elected V cast' t y -> x = y).

(** The step of the ledger that a visit takes. *)
Inductive moves : ledger -> Prop :=
  | moves_none : a' = a -> moves g
  | moves_elect : a' = a -> role w = RAFT_STATE_CANDIDATE -> role w' = RAFT_STATE_LEADER ->
      term_of w' = term_of w -> reign g !! to_uint (term_of w') = None ->
      moves (mk_ledger (held g) (<[to_uint (term_of w') := (i, al_entries a)]> (reign g)))
  | moves_propose e : al_entries a' = al_entries a ++ [e] -> term_of w' = term_of w ->
      reign g !! to_uint (term_of w) = Some (i, al_entries a) -> ety_term e = to_uint (term_of w) ->
      moves (mk_ledger (<[i := al_entries a ++ [e]]> (held g))
               (<[to_uint (term_of w) := (i, al_entries a ++ [e])]> (reign g)))
  | moves_accept j y suf : al_entries a' = al_entries a ++ [y] -> role w' <> RAFT_STATE_LEADER ->
      reign g !! to_uint (term_of w') = Some (j, al_entries a ++ y :: suf) ->
      moves (grow i (al_entries a ++ [y]) g).

Lemma moves_ledger g' : moves g' -> rtc ledger_step g g'.
Proof.
  intros [_|_ _ _ _ Hn|e _ _ Hk He|j y suf _ _ Hk]; [done|apply rtc_once..].
  - by apply ledger_elect.
  - by apply ledger_propose.
  - by eapply ledger_accept.
Qed.

(** The reign of the term of a new leader, if any, is its own and recent. *)
Lemma past_reign k j l : reign g !! k = Some (j, l) -> k = to_uint (term_of w') ->
  role w' = RAFT_STATE_LEADER -> j = i /\ role w = RAFT_STATE_LEADER.
Proof.
  intros Hk -> Hr. destruct (tk_past _ _ _ Tr _ _ _ Hk) as (v & s & Hv & E & Hs & Hle & Hc & He).
  apply to_uint_inj in E as <-; [|by apply (term_typed i w' a')|done].
  assert (j = i) as -> by (apply (Huniq (term_of w')); [by eapply elected_mono|auto]).
  split; [done|]. destruct (rm_leader _ _ Hmoves Hr) as [Ht [|Hcand]]; [done|].
  assert (v = w) as -> by congruence. by destruct Hc.
Qed.

Lemma turn_none : a' = a -> exists g', moves g' /\ turn g g'.
Proof.
  intros Ha. assert (held g = <[i := al_entries a']> (held g)) as Hh by (by rewrite Ha, insert_id).
  destruct (decide (role w' = RAFT_STATE_LEADER)) as [Hr|Hr].
  2: { exists g. split; [by apply moves_none|]. split; try done; [by rewrite Ha| |by left].
       intros k j l Hl. exists []. by rewrite app_nil_r. }
  destruct (rm_leader _ _ Hmoves Hr) as [Ht Hor].
  destruct (reign g !! to_uint (term_of w')) as [[j l]|] eqn:Hk.
  - destruct (past_reign _ _ _ Hk eq_refl Hr) as [-> Hl].
    destruct (tk_lead _ _ _ Tr i w Hi Hl) as (l' & Hl' & Hk').
    assert (l' = al_entries a') as -> by (rewrite Ha; congruence). rewrite <- Ht in Hk'.
    exists g. split; [by apply moves_none|]. split; try done; [by rewrite Ha| |by left].
    intros k j l1 Hl1. exists []. by rewrite app_nil_r.
  - assert (role w = RAFT_STATE_CANDIDATE) as Hcand.
    { destruct Hor as [Hl|]; [|done]. destruct (tk_lead _ _ _ Tr i w Hi Hl) as (l & _ & Hk').
      congruence. }
    eexists. split; [by apply moves_elect|].
    split; cbn; [by rewrite Ha|done|..].
    + intros k j l Hl. exists []. rewrite app_nil_r, lookup_insert_ne by congruence. done.
    + intros k j l. rewrite lookup_insert_Some. intros [[<- [= <- <-]]|[_ Hl]]; [right|by left].
      by rewrite Ha.
    + intros _. by rewrite lookup_insert_eq, Ha.
Qed.

Lemma turn_propose e : a' = al_append e a -> al_last a' <= Z.of_nat MAX_ENTRIES ->
  role w = RAFT_STATE_LEADER -> role_of w' = role_of w -> ety_term e = to_uint (term_of w) ->
  exists g', moves g' /\ turn g g'.
Proof.
  intros Ha Hmax Hr [= Hr' Ht] He. pose proof (so_log _ _ (ho_server _ _ _ _ Ho)) as R.
  destruct (whole_append e a Hfirst) as [F E]; [by rewrite <- Ha|apply (lr_cap _ _ R)|].
  rewrite <- Ha in F, E. destruct (tk_lead _ _ _ Tr i w Hi Hr) as (l & Hl & Hk).
  assert (l = al_entries a) as -> by congruence.
  eexists. split; [by apply (moves_propose (with_ety_idx (al_last a + 1) e))|].
  split; cbn; [done|by rewrite E|..].
  - intros k j l Hj. destruct (decide (k = to_uint (term_of w))) as [->|Hne].
    + exists [with_ety_idx (al_last a + 1) e]. rewrite lookup_insert_eq. split; [congruence|].
      intros Hji. congruence.
    + exists []. by rewrite app_nil_r, lookup_insert_ne.
  - intros k j l. rewrite lookup_insert_Some. intros [[<- [= <- <-]]|[_ Hj]]; [right|by left].
    rewrite Ht. split_and!; [done|done|congruence|done].
  - intros _. by rewrite Ht, lookup_insert_eq, E.
Qed.

(** The log of a server that accepts an entry is the part of the sender's log
    before it. *)
Lemma accepted_prefix j m y l : reign g !! to_uint (ae_term m) = Some (j, l) -> piece m l ->
  take 1 (ae_entries m) = [y] -> consistent a (delivered m) ->
  al_get a (ae_prev_log_idx m + 1) = None ->
  exists suf, l = al_entries a ++ y :: suf /\ ae_prev_log_idx m = al_last a.
Proof.
  intros Hk Hp Hy Hc Hnone. pose proof (whole_length a Hfirst) as Hlen.
  destruct (ae_entries m) as [|y' es] eqn:He; [done|]. cbn in Hy. injection Hy as ->.
  destruct Hp as (Hp & [r Hr] & Hprev); [by rewrite He|]. rewrite He in Hr.
  set (p := ae_prev_log_idx m) in *.
  assert (al_last a < p + 1) as Hend.
  { rewrite whole_get in Hnone by lia. apply lookup_ge_None in Hnone. lia. }
  assert (p = al_last a /\ take (Z.to_nat p) l = al_entries a) as [Hpl Htake].
  { destruct (decide (p = 0)) as [Hz|Hnz].
    - assert (al_entries a = []) as E by (apply nil_length_inv; lia). rewrite E, Hz. cbn in *.
      rewrite E in Hlen. cbn in Hlen. by split; [lia|].
    - destruct Hc as [|(x & Hx & Hxt)]; [by fold p in Hnz|]. cbn [delivered ae_prev_log_idx ae_prev_log_term] in *.
      fold p in Hx. rewrite whole_get in Hx by lia.
      destruct (Hprev Hnz) as (x' & Hx' & Hxt').
      assert (p = al_last a) as Hpl by (apply lookup_lt_Some in Hx; lia). split; [done|].
      assert (rooted g (al_entries a) /\ rooted g l) as [R1 R2].
      { split; apply Hok; [left; by exists i|right; by eexists _, _]. }
      pose proof (rooted_match g _ _ R1 R2 _ x x' Hx Hx' ltac:(congruence)) as E.
      replace (S (Z.to_nat (p - 1))) with (Z.to_nat p) in E by lia.
      rewrite <- E. apply take_ge. lia. }
  exists (es ++ r). split; [|done]. rewrite <- Htake at 1.
  by rewrite <- (take_drop (Z.to_nat p) l) at 1; rewrite Hr.
Qed.

Lemma turn_accept j m y : a' = al_append y a -> al_last a' <= Z.of_nat MAX_ENTRIES ->
  mail n j (Append m) -> take 1 (ae_entries m) = [y] ->
  term_of w' = ae_term m -> consistent a (delivered m) ->
  al_get a (ae_prev_log_idx m + 1) = None ->
  exists g', moves g' /\ turn g g'.
Proof.
  intros Ha Hmax Hm Hy Ht Hc Hnone. pose proof (so_log _ _ (ho_server _ _ _ _ Ho)) as R.
  destruct (tk_mail _ _ _ Tr j m Hm) as (l & Hk & Hp).
  destruct (accepted_prefix j m y l Hk Hp Hy Hc Hnone) as (suf & Hl & Hpl).
  destruct (whole_append y a Hfirst) as [F E]; [by rewrite <- Ha|apply (lr_cap _ _ R)|].
  rewrite <- Ha in F, E.
  assert (with_ety_idx (al_last a + 1) y = y) as Hidx.
  { pose proof (tk_idx _ _ _ Tr _ _ _ Hk (length (al_entries a)) y) as Hi'.
    rewrite Hl, list_lookup_middle in Hi' by done. specialize (Hi' eq_refl).
    rewrite (whole_length a Hfirst). destruct y. cbn in *. by rewrite <- Hi'. }
  rewrite Hidx in E.
  assert (role w' <> RAFT_STATE_LEADER) as Hr.
  { intros Hr. rewrite <- Ht in Hk. destruct (past_reign _ _ _ Hk eq_refl Hr) as [-> Hlead].
    destruct (tk_lead _ _ _ Tr i w Hi Hlead) as (l' & Hl' & Hk').
    destruct (rm_leader _ _ Hmoves Hr) as [Ht' _]. rewrite Ht' in Hk.
    assert (l = al_entries a) as El by congruence. rewrite El in Hl.
    apply (f_equal length) in Hl. rewrite length_app in Hl. cbn in Hl. lia. }
  exists (grow i (al_entries a ++ [y]) g).
  split; [apply (moves_accept j y suf); try done; by rewrite Ht, Hk, Hl|]. split; cbn; try done.
  - by rewrite E.
  - intros k j' l' Hl'. exists []. by rewrite app_nil_r.
  - by left.
Qed.
End Visit.

(** ** Runs *)
Lemma growth_last ml w w' a a' : growth ml w w' a a' -> al_last a <= al_last a'.
Proof. intros []; rewrite ?al_append_last; lia. Qed.

Lemma host_count i w a : host_ok i w a -> count (lg w) = al_last a.
Proof.
  intros Ho. pose proof (lr_last _ _ (so_log _ _ (ho_server _ _ _ _ Ho))).
  destruct (ho_snapshot _ _ _ _ Ho). lia.
Qed.

Lemma roomy_back n n' : network_ok n -> network_step n n' -> roomy n' -> roomy n.
Proof.
  intros [Hh Hm] [i w w' ans Hi Hv] Hr j v Hj. destruct (decide (j = i)) as [->|Hne].
  - assert (v = w) as -> by congruence. destruct (Hh i w Hi) as [a Ho].
    destruct (visit_host Pu (mail n) i w a w' ans Hm Ho Hv) as (a' & Ho' & Hg).
    pose proof (Hr i w' ltac:(cbn; by rewrite lookup_insert_eq)).
    pose proof (host_count _ _ _ Ho). pose proof (host_count _ _ _ Ho').
    pose proof (growth_last _ _ _ _ _ Hg). lia.
  - apply (Hr j v). cbn. by rewrite lookup_insert_ne.
Qed.

Lemma roomy_steps_back n n' : network_ok n -> rtc network_step n n' -> roomy n' -> roomy n.
Proof.
  intros Hok Hs Hr. induction Hs as [n|n n1 n2 H1 _ IH]; [done|].
  apply (roomy_back n n1); [done|done|]. apply IH; [by eapply network_step_ok|done].
Qed.

Lemma visit_answer ml i w w' ans m : visit ml i w w' ans -> ans <> Some (Append m).
Proof. by intros []. Qed.

(** The network is a cluster, and its logs a ledger. *)
Record followed (n : network) (g : ledger) : Prop := {
  fw_cluster : exists cast c, cluster_inv V cast c /\ votes_posted n c /\ tracked cast n g;
  fw_ledger : exists g0, blank g0 /\ rtc ledger_step g0 g
}.

Lemma ledger_reached_ok g : (exists g0, blank g0 /\ rtc ledger_step g0 g) -> ledger_ok g.
Proof.
  intros (g0 & H0%blank_ok & Hs). induction Hs; [done|]. eauto using ledger_step_ok.
Qed.

(** A visit: the votes, the logs and the ledger before and after it. *)
Record passage (cast : Z -> Z -> Z -> Prop) (n : network) (g : ledger) (i : Z) (w w' : world)
    (ans : option letter) (cast' : Z -> Z -> Z -> Prop) (a a' : alog) (g' : ledger) : Prop := {
  ps_old : host_ok i w a;
  ps_first : al_first a = 1;
  ps_held : held g !! i = Some (al_entries a);
  ps_new : host_ok i w' a';
  ps_growth : growth (mail n) w w' a a';
  ps_roles : role_moves w w';
  ps_cast j t x : cast j t x -> cast' j t x;
  ps_votes j t x : cast' j t x -> cast j t x \/ (j = i /\ t = term_of w' /\ x = vote_of w');
  ps_moves : moves i w w' a a' g g';
  ps_turn : turn i w' a' g g';
  ps_tracked : tracked cast' (mk_network (<[i := w']> (host n)) (sent_mail (mail n) i w' ans)) g'
}.

Lemma network_passage cast c n g i w w' ans : (1 < stdpp.base.size V)%nat -> network_ok n ->
  cluster_inv V cast c -> votes_posted n c -> tracked cast n g -> ledger_ok g ->
  host n !! i = Some w -> visit (mail n) i w w' ans ->
  let n' := mk_network (<[i := w']> (host n)) (sent_mail (mail n) i w' ans) in
  roomy n' -> exists cast' c' a a' g', cluster_inv V cast' c' /\ votes_posted n' c' /\
    passage cast n g i w w' ans cast' a a' g'.
Proof.
  intros HV Hok HI Hp Tr Lok Hi Hv n' Hroom.
  assert (network_step n n') as Hs by by apply (network_visit Pu n i w w' ans).
  destruct (network_cluster_step Pu n n' c Hok Hp Hs) as (c' & Hc & Hp').
  destruct (cluster_step_votes V cast c c' i w' HV HI Hc) as (cast' & HI' & Hcast & Hvotes).
  { destruct Hp as [-> _], Hp' as [-> _]. done. }
  destruct Hok as [Hh Hm]. destruct (tk_held _ _ _ Tr i w Hi) as (a & Ho & Hf & Hheld).
  destruct (visit_host Pu (mail n) i w a w' ans Hm Ho Hv) as (a' & Ho' & Hgr).
  assert (server c !! i = Some w) as Hci by (destruct Hp as [-> _]; done).
  assert (server c' !! i = Some w') as Hci'
    by (destruct Hp' as [-> _]; cbn; by rewrite lookup_insert_eq).
  pose proof (visit_role V cast _ i w w' ans HV (ci_server _ _ _ HI i w Hci) Hv) as Hmv.
  assert (role w' = RAFT_STATE_LEADER -> elected V cast' (term_of w') i) as Hel
    by apply (si_leader _ _ _ _ (ci_server _ _ _ HI' i w' Hci')).
  assert (forall t x y, elected V cast' t x -> elected V cast' t y -> x = y) as Huniq
    by (intros t x y; by apply elected_unique, (ci_once _ _ _ HI')).
  assert (al_last a' <= Z.of_nat MAX_ENTRIES) as Hmax.
  { rewrite <- (host_count i w' a' Ho'). apply (Hroom i). cbn. by rewrite lookup_insert_eq. }
  assert (exists g', moves i w w' a a' g g' /\ turn i w' a' g g') as (g' & Hg' & Tn).
  { destruct Hgr as [|e Hr Hr' He|j m y Hml Hy _ Ht Hc' Hn].
    - by apply (turn_none cast cast' n i w w' a a).
    - by apply (turn_propose cast n i w w' a _ Hi g Tr Ho Hf Hheld e).
    - by apply (turn_accept cast cast' n i w w' a _ Hcast Hi Ho' Hmv Hel g Tr Lok Ho Hf Hheld Huniq j m y). }
  exists cast', c', a, a', g'. split; [done|]. split; [done|]. split; try done.
  by apply (turn_tracked cast cast' n i w w' a' ans Hcast Hi Ho' Hmv Hel
    (fun m => visit_answer _ _ _ _ _ m Hv) g g').
Qed.

Lemma followed_step n n' g : (1 < stdpp.base.size V)%nat -> network_ok n -> followed n g ->
  network_step n n' -> roomy n' -> exists g', rtc ledger_step g g' /\ followed n' g'.
Proof.
  intros HV Hok [(cast & c & HI & Hp & Tr) Hg] [i w w' ans Hi Hv] Hroom.
  destruct (network_passage cast c n g i w w' ans HV Hok HI Hp Tr (ledger_reached_ok g Hg) Hi Hv Hroom)
    as (cast' & c' & a & a' & g' & HI' & Hp' & Ps).
  assert (rtc ledger_step g g') as Hs by (eapply moves_ledger; apply Ps).
  exists g'. split; [done|]. split; [exists cast', c'; split_and!; try done; apply Ps|].
  destruct Hg as (g0 & H0 & Hrun). exists g0. split; [done|]. by etransitivity.
Qed.

Lemma followed_run n n' g : (1 < stdpp.base.size V)%nat -> network_ok n -> followed n g ->
  rtc network_step n n' -> roomy n' -> exists g', rtc ledger_step g g' /\ followed n' g'.
Proof.
  intros HV Hok Hf Hs Hr. revert g Hok Hf. induction Hs as [n|n n1 n2 H1 Hs IH]; intros g Hok Hf.
  { by exists g. }
  pose proof (network_step_ok Pu n n1 Hok H1) as Hok1.
  assert (roomy n1) as Hr1 by by eapply roomy_steps_back.
  destruct (followed_step n n1 g HV Hok Hf H1 Hr1) as (g1 & G1 & Hf1).
  destruct (IH Hr g1 Hok1 Hf1) as (g2 & G2 & Hf2). exists g2. split; [by etransitivity|done].
Qed.

(** At the start every log is empty, and nothing was voted. *)
Lemma opening_tracked n : opening Pu V n -> exists g, blank g /\
  tracked (fun _ _ _ => False) n g /\ forall j l, held g !! j = Some l -> is_Some (host n !! j).
Proof.
  intros [Hr Hh Hm]. exists (mk_ledger ((fun _ => []) <$> host n) ∅). split; [|split].
  - split; [|done]. intros i l. cbn. rewrite lookup_fmap. by destruct (host n !! i); intros [= <-].
  - split.
    + intros i w Hi. exists (mk_alog 0 []). split; [by apply Hh|]. split; [done|].
      cbn. by rewrite lookup_fmap, Hi.
    + intros i w Hi Hl. by rewrite (rd_role _ _ _ (Hr i w Hi)) in Hl.
    + done.
    + done.
    + intros i m Hl. by destruct (Hm i (Append m)).
  - intros j l. cbn. rewrite lookup_fmap. destruct (host n !! j); [by eexists|done].
Qed.

Lemma opening_followed n : opening Pu V n -> exists g, blank g /\ followed n g.
Proof.
  intros Ho. destruct (opening_tracked n Ho) as (g & Hb & Tr & _). exists g. split; [done|].
  split; [|by exists g]. exists (fun _ _ _ => False), (mk_cluster (host n) []).
  split; [apply ready_inv; [done|apply Ho]|]. split; [by apply (opening_cluster Pu V)|done].
Qed.

(** The logs of the network are those of a ledger that took the steps of the
    abstract specification. *)
Lemma network_follows_ledger n0 n : (1 < stdpp.base.size V)%nat -> opening Pu V n0 ->
  rtc network_step n0 n -> roomy n ->
  exists g0 g, blank g0 /\ rtc ledger_step g0 g /\
    (forall i w a, host n !! i = Some w -> log_repr w a -> held g !! i = Some (al_entries a)) /\
    (forall i w, host n !! i = Some w -> role w = RAFT_STATE_LEADER ->
       exists l, held g !! i = Some l /\ reign g !! to_uint (term_of w) = Some (i, l)).
Proof.
  intros HV Ho Hs Hr. destruct (opening_followed n0 Ho) as (g0 & Hb & Hf).
  destruct (followed_run n0 n g0 HV (opening_ok _ _ _ Ho) Hf Hs Hr)
    as (g & Hg & [(cast & c & _ & _ & Tr) _]).
  exists g0, g. split_and!; try done.
  - intros i w a Hi R. destruct (tk_held _ _ _ Tr i w Hi) as (b & Hb' & _ & Hheld).
    by rewrite (log_repr_unique w a b R (so_log _ _ (ho_server _ _ _ _ Hb'))).
  - apply (tk_lead _ _ _ Tr).
Qed.

Lemma network_log_matching n0 n i j w v a b k x y :
  (1 < stdpp.base.size V)%nat -> opening Pu V n0 -> rtc network_step n0 n -> roomy n ->
  host n !! i = Some w -> host n !! j = Some v -> log_repr w a -> log_repr v b ->
  al_get a k = Some x -> al_get b k = Some y -> ety_term x = ety_term y ->
  forall k', k' <= k -> al_get a k' = al_get b k'.
Proof.
  intros HV Ho Hs Hr Hi Hj Ra Rb Hx Hy Ht k' Hk.
  destruct (opening_followed n0 Ho) as (g0 & Hb & Hf).
  destruct (followed_run n0 n g0 HV (opening_ok _ _ _ Ho) Hf Hs Hr)
    as (g & Hg & [(cast & c & _ & _ & Tr) _]).
  destruct (tk_held _ _ _ Tr i w Hi) as (a' & Ha & Fa & Ga).
  destruct (tk_held _ _ _ Tr j v Hj) as (b' & Hb' & Fb & Gb).
  rewrite (log_repr_unique w a a' Ra (so_log _ _ (ho_server _ _ _ _ Ha))) in *.
  rewrite (log_repr_unique v b b' Rb (so_log _ _ (ho_server _ _ _ _ Hb'))) in *.
  assert (1 <= k) as Hk1.
  { unfold al_get in Hx. rewrite Fa in Hx. by destruct (Z.leb_spec 1 k); [|]. }
  destruct (decide (k' < 1)) as [Hlow|Hlow].
  { unfold al_get. rewrite Fa, Fb. by destruct (Z.leb_spec 1 k'); [lia|]. }
  rewrite whole_get in * by lia.
  assert (logs_match (al_entries a') (al_entries b')) as Hm.
  { apply (ledger_match g0 g); [done|done| |]; left; by eexists. }
  pose proof (Hm _ _ _ Hx Hy Ht) as E.
  rewrite <- (lookup_take_lt _ (S (Z.to_nat (k - 1)))) by lia. rewrite E.
  by rewrite lookup_take_lt, (whole_get b' k') by lia.
Qed.
End Tracked.
End Matching.
