(* ===== verification/Visits.v ===== *)
(** * What a visit does to votes, acknowledgements and commitments

    The facts about the calls of the library that agreement needs, for a visit of
    [Network.v]: who is voted for, what a leader notes of its peers, when the
    commit index moves. *)
From S2P Require Import Prelude Contiki Types Node Membership Log Server Election Replication.
From S2P Require Import Sim NodeFacts Frames History LogFacts MemberFacts ElectionFacts Roles.
From S2P Require Import Campaign Sending Receiving Commit Fixed Ranges Conflict Cluster Outbox Growth.
From S2P Require Import Acks Network Ledger Matching.

(** ** The commit index stays within the log *)
Section Within.
Context {T : CTarget} {C : Contiki} {L : ContikiLaws C} {U : User}.
Implicit Types w : world.

(** What is committed is in the log. *)
Definition within (w : world) : Prop := commit_of w <= base (lg w) + count (lg w).

Definition settles {A} (m : M world A) : Prop :=
  forall w x w', m w = Ok x w' -> commit_of w' = commit_of w \/ within w'.

Lemma settles_same {A} (m : M world A) : keeps (same commit_of) m -> settles m.
Proof. intros H w x w' Hm. left. by apply (H w x w'). Qed.
Lemma settles_after {A B} (m : M world A) (k : A -> M world B) :
  keeps (same commit_of) m -> (forall x, settles (k x)) -> settles (bind m k).
Proof.
  intros Hm Hk w y w' H. run_bind H as x w1 H1. apply Hm in H1. unfold same in H1.
  rewrite <- H1. by eapply Hk.
Qed.
Lemma settles_before {A B} (m : M world A) (k : A -> M world B) : settles m ->
  (forall x, keeps (same (fun w => (commit_of w, lg w))) (k x)) -> settles (bind m k).
Proof.
  intros Hm Hk w y w' H. run_bind H as x w1 H1. apply Hk in H. unfold same in H. injection H as E1 E2.
  destruct (Hm _ _ _ H1) as [|Hw]; [left; congruence|right]. unfold within in *. by rewrite E1, E2.
Qed.

Lemma raft_set_commit_idx_settles i : settles (raft_set_commit_idx i).
Proof.
  intros w x w' H. unfold raft_set_commit_idx, raft_get_current_idx in H. run_simp H.
  destruct (_ <=? _); [|done]. run_bind H as ci w1 H1. pose proof H1 as H2.
  apply log_get_current_idx_ro in H2 as <-. run_simp H. destruct (Z.leb_spec i ci); [|done].
  injection H as <- <-. right. unfold log_get_current_idx, log_count in H1. run_simp H1.
  unfold int_chk in H1. destruct (int_ok _); [|done]. run_ret H1. unfold within, commit_of. cbn. lia.
Qed.

Lemma recv_ae_commit_settles ae : settles (recv_ae_commit ae).
Proof.
  unfold recv_ae_commit. apply settles_after; [keeps_solve|]. intros commit.
  destruct (_ <? _); cbn [when]; [|apply settles_same; keeps_solve].
  apply settles_after; [keeps_solve|]. intros ci. apply raft_set_commit_idx_settles.
Qed.

Lemma recv_ae_entries_settles ae : settles (recv_ae_entries ae).
Proof.
  unfold recv_ae_entries. apply settles_after; [keeps_solve|].
  intros [e c|i es c]; [apply settles_same; keeps_solve|]. apply settles_after; [keeps_solve|].
  intros [e c'|i' es' c']; [apply settles_same; keeps_solve|].
  apply settles_before; [apply recv_ae_commit_settles|]. intros _. keeps_solve.
Qed.

Lemma recv_ae_prev_settles p ae : settles (recv_ae_prev p ae).
Proof.
  unfold recv_ae_prev. repeat (apply settles_after; [keeps_solve|intros _]).
  destruct (_ <? _); [|apply recv_ae_entries_settles]. apply settles_after; [keeps_solve|].
  intros [q|]; [|apply settles_same; keeps_solve]. apply settles_after; [keeps_solve|].
  intros e. destruct (negb _); [apply settles_same; unfold_accessors; keeps_solve|apply recv_ae_entries_settles].
Qed.

Lemma raft_recv_appendentries_settles p ae : settles (raft_recv_appendentries p ae).
Proof.
  unfold raft_recv_appendentries. apply settles_after; [unfold_accessors; keeps_solve|]. intros _.
  apply settles_after; [keeps_solve|]. intros cand. apply settles_after; [keeps_solve|]. intros ct.
  destruct (_ && _); [apply settles_after; [keeps_solve|intros _; apply recv_ae_prev_settles]|].
  destruct (_ <? _).
  - apply settles_after; [keeps_solve|]. intros e. destruct (truth e); [apply settles_same; keeps_solve|].
    apply settles_after; [keeps_solve|intros _; apply recv_ae_prev_settles].
  - destruct (_ <? _); [apply settles_same; keeps_solve|apply recv_ae_prev_settles].
Qed.
End Within.

Section Effects.
Context {T : CTarget} {C : Contiki} {L : ContikiLaws C} {U : User} (Pu : udata -> Prop).
Implicit Types w : world.
Abbreviation host_ok := (host_ok Pu).
Abbreviation visit := (visit Pu).

Section Visit.
Context (ml : Z -> letter -> Prop) (Hml : forall j l, ml j l -> letter_ok j l).
Context (i : Z) (w w' : world) (a a' : alog) (ans : option letter).
Context (Ho : host_ok i w a) (Ho' : host_ok i w' a').

Lemma visit_roll : visit ml i w w' ans -> roll w' = roll w.
Proof.
  pose proof (so_nodes _ _ (ho_server _ _ _ _ Ho)) as W. pose proof (ho_normal _ _ _ _ Ho) as N.
  assert (forall o, op_normal o -> run_op o w = Ok tt w' -> roll w' = roll w) as Hop.
  { intros o Hn H. by destruct (op_roll o w tt w' W N Hn H). }
  intros [u g Hu ->|n e H|e r Hn Ht H|p j m r Hm H|p j r e Hm Hp H|p j m r Hm H|p j r e Hm Hp H]; [done|..].
  - apply (Hop (OpPeriodic n)); [done|]. cbn. by rewrite (bind_ok_l _ _ _ _ _ H).
  - apply (Hop (OpRecvEntry e)); [done|]. cbn. by rewrite (bind_ok_l _ _ _ _ _ H).
  - apply (Hop (OpRecvRequestvote p m)); [done|]. cbn. by rewrite (bind_ok_l _ _ _ _ _ H).
  - apply (Hop (OpRecvRequestvoteResponse p r)); [done|]. cbn. by rewrite (bind_ok_l _ _ _ _ _ H).
  - destruct (Hml _ _ Hm) as (_ & Hn & _).
    apply (Hop (OpRecvAppendentries p (delivered m))); [by apply Forall_take|].
    cbn. by rewrite (bind_ok_l _ _ _ _ _ H).
  - apply (Hop (OpRecvAppendentriesResponse p r)); [done|]. cbn. by rewrite (bind_ok_l _ _ _ _ _ H).
Qed.

(** What an appendentries message did. *)
Lemma append_outcome p j m r : ml j (Append m) ->
  raft_recv_appendentries p (delivered m) w = Ok (0, r) w' ->
  aer_term r = term_of w' /\ ae_outcome w a (delivered m) r w' a'.
Proof.
  intros Hm H. destruct (Hml _ _ Hm) as (Ht & Hn & Hprev & _).
  destruct (raft_recv_appendentries_inv p (delivered m) w a r w' (ho_appends _ _ _ _ Ho)
    (ho_server _ _ _ _ Ho)) as (b & Sok & _ & Hr & Hout); [by apply Forall_take| |done|].
  { pose proof (aet_prev _ Ht). unfold is_int in *. cbn. lia. }
  assert (b = a') as -> by (by apply (log_repr_unique w'); [apply Sok|apply (ho_server _ _ _ _ Ho')]).
  done.
Qed.

(** A candidate appends nothing. *)
Lemma visit_candidate : visit ml i w w' ans -> role w' = RAFT_STATE_CANDIDATE -> a' = a.
Proof.
  pose proof (so_log _ _ (ho_server _ _ _ _ Ho)) as R.
  pose proof (so_log _ _ (ho_server _ _ _ _ Ho')) as R'.
  assert (log_state w' = log_state w -> a' = a) as Hsame.
  { intros E. by apply (log_repr_unique w'); [|eapply log_repr_same]. }
  intros [u g Hu ->|n e H|e r Hn Ht H|p j m r Hm H|p j r e Hm Hp H|p j m r Hm H|p j r e Hm Hp H] Hc.
  - by apply Hsame.
  - apply Hsame. by run_keeps H (same log_state) as K.
  - destruct (recv_entry_inv e w a r w' (ho_appends _ _ _ _ Ho) (ho_server _ _ _ _ Ho) Hn H)
      as [K|(Hl & Hr & _)]; [by apply Hsame|]. injection Hr as Hr _. congruence.
  - apply Hsame. by run_keeps H (same log_state) as K.
  - apply Hsame. by run_keeps H (same log_state) as K.
  - destruct (append_outcome p j m r Hm H) as [_ Hout]. remember a' as b eqn:E in Hout.
    destruct Hout as [_ _|k n _ Ht _ _ es new _ _ _ _ _ _]; [done|].
    by destruct (recv_ae_role p (delivered m) w a (0, r) w' (ho_server _ _ _ _ Ho) Ht H).
  - apply Hsame. by run_keeps H (same log_state) as K.
Qed.

(** A vote is for the server itself, or granted to a candidate that asked and
    whose log is up to date. *)
Lemma visit_casts : visit ml i w w' ans -> unvoted w w' \/ vote_of w' = i \/
  exists j m, ml j (Ask m) /\ rv_term m = term_of w' /\ vote_of w' = j /\ up_to_date a m = true.
Proof.
  intros [u g Hu ->|n e H|e r Hn Ht H|p j m r Hm H|p j r e Hm Hp H|p j m r Hm H|p j r e Hm Hp H].
  - left. by left.
  - destruct (raft_periodic_seated n w e w' H (ho_normal _ _ _ _ Ho)) as (_ & _ & [|Hv]); [by left|].
    right. left. by rewrite (ho_id _ _ _ _ Ho) in Hv.
  - left. by eapply recv_entry_unvoted.
  - destruct (requestvote_unvoted p m w 0 r w' H) as [Hg|]; [|by left]. right. right.
    destruct (Hml _ _ Hm) as [_ Hj].
    destruct (raft_recv_requestvote_granted p m w 0 r w' H Hg) as (_ & _ & Ht & Hv & _).
    exists j, m. split_and!; try done; [congruence|].
    by eapply requestvote_granted_up_to_date; [apply (ho_server _ _ _ _ Ho)|..].
  - left. by eapply recv_rvr_unvoted.
  - left. by eapply recv_ae_unvoted.
  - left. by eapply recv_aer_unvoted.
Qed.

Context (V : gset Z) (HV : (1 < stdpp.base.size V)%nat).
Context (cast : Z -> Z -> Z -> Prop) (Si : server_inv V cast i w).

Lemma voters_enough : (1 < length (voting_nodes w))%nat.
Proof. rewrite <- (voting_size V cast i w Si). exact HV. Qed.

(** The commit index moves with an appendentries message or a response. *)
Lemma visit_commit : visit ml i w w' ans -> commit_of w' = commit_of w \/
  (exists p j m r, ml j (Append m) /\ ans = Some (Ack j r) /\
     raft_recv_appendentries p (delivered m) w = Ok (0, r) w') \/
  (exists p j r e, ml j (Ack i r) /\ node_of_sender w p j /\
     raft_recv_appendentries_response p r w = Ok e w').
Proof.
  intros [u g Hu ->|n e H|e r Hn Ht H|p j m r Hm H|p j r e Hm Hp H|p j m r Hm H|p j r e Hm Hp H].
  - by left.
  - left. by eapply periodic_commit.
  - left. eapply recv_entry_uncommitted; [apply (ho_server _ _ _ _ Ho)|apply (ho_normal _ _ _ _ Ho)|done| |done].
    apply voters_enough.
  - left. by eapply requestvote_commit.
  - left. by eapply response_commit.
  - right. left. by exists p, j, m, r.
  - right. right. by exists p, j, r, e.
Qed.

(** The commit index stays within the log. *)
Lemma visit_within : visit ml i w w' ans -> commit_of w <= al_last a -> commit_of w' <= al_last a'.
Proof.
  intros Hv Hc. pose proof (so_log _ _ (ho_server _ _ _ _ Ho)) as R.
  pose proof (so_log _ _ (ho_server _ _ _ _ Ho')) as R'.
  assert (al_last a <= al_last a') as Hgrow.
  { destruct (visit_host Pu ml i w a w' ans Hml Ho Hv) as (b & Hb & Hg).
    rewrite (log_repr_unique w' a' b R' (so_log _ _ (ho_server _ _ _ _ Hb))).
    by eapply growth_last. }
  destruct (visit_commit Hv) as [Hk|[(p & j & m & r & _ & _ & H)|(p & j & r & e & Hm & _ & H)]]; [lia| |].
  - apply raft_recv_appendentries_settles in H as [Hk|Hk]; [lia|]. unfold within in Hk.
    rewrite (lr_last _ _ R'). lia.
  - destruct (Z.eq_dec (commit_of w') (commit_of w)) as [|Hne]; [lia|].
    destruct (commit_majority_run p r w a e w' (so_nodes _ _ (ho_server _ _ _ _ Ho)) R)
      as (_ & _ & _ & _ & _ & (x & Hx & _) & _); try done; [apply (Hml _ _ Hm)|].
    destruct (Z.le_gt_cases (commit_of w') (al_last a)) as [|Hgt]; [lia|].
    by rewrite al_get_past in Hx.
Qed.

(** A leader notes what is acknowledged in its term. *)
Lemma visit_marks : visit ml i w w' ans -> role w = RAFT_STATE_LEADER ->
  marks w' = marks w \/ exists j r b, ml j (Ack i r) /\ node_id_at w b = Some j /\
    marks w' = <[b := aer_current_idx r]> (marks w) /\ aer_term r = term_of w /\ aer_success r <> 0.
Proof.
  pose proof (so_nodes _ _ (ho_server _ _ _ _ Ho)) as W. pose proof (ho_normal _ _ _ _ Ho) as N.
  intros [u g Hu ->|n e H|e r Hn Ht H|p j m r Hm H|p j r e Hm Hp H|p j m r Hm H|p j r e Hm Hp H] Hl.
  - by left.
  - left. by apply (periodic_marks n w e w'); [..|apply voters_enough| |].
  - left. apply (raft_recv_entry_stays (T := T) marks) in H; [|done]. by destruct (H N).
  - left. by run_keeps H (same marks) as K.
  - left. by eapply response_marks.
  - left. destruct (Hml _ _ Hm) as (_ & Hn & _).
    apply (raft_recv_appendentries_stays (T := T) marks) in H; [|by apply Forall_take]. by destruct (H N).
  - destruct (recv_aer_marks p r w e w' H) as [|(b & -> & M & Ht & Hs)]; [by left|right].
    exists j, r, b. done.
Qed.

(** A new leader has noted nothing. *)
Lemma visit_elected : visit ml i w w' ans -> role w <> RAFT_STATE_LEADER ->
  role w' = RAFT_STATE_LEADER -> forall b, b ∈ nodes_list (srv w') ->
  is_self_ptr (srv w') b = false -> node_sat w' votes_here b = true -> unmatched w' b.
Proof.
  pose proof (so_nodes _ _ (ho_server _ _ _ _ Ho)) as W. intros Hv Hn Hl.
  assert (forall o, (forall p r, o <> OpRecvRequestvoteResponse p r) -> run_op o w = Ok tt w' -> False) as Hno.
  { intros o Hr H. pose proof voters_enough.
    destruct (role_transitions_run o w tt w' W H); unfold role_of in *; try congruence;
      try (by edestruct Hr); lia. }
  destruct Hv as [u g Hu ->|n e H|e r Hn' Ht H|p j m r Hm H|p j r e Hm Hp H|p j m r Hm H|p j r e Hm Hp H];
    [done|exfalso..| |exfalso|exfalso].
  - apply (Hno (OpPeriodic n)); [done|]. cbn. by rewrite (bind_ok_l _ _ _ _ _ H).
  - apply (Hno (OpRecvEntry e)); [done|]. cbn. by rewrite (bind_ok_l _ _ _ _ _ H).
  - apply (Hno (OpRecvRequestvote p m)); [done|]. cbn. by rewrite (bind_ok_l _ _ _ _ _ H).
  - by eapply elected_unmatched.
  - apply (Hno (OpRecvAppendentries p (delivered m))); [done|]. cbn. by rewrite (bind_ok_l _ _ _ _ _ H).
  - apply (Hno (OpRecvAppendentriesResponse p r)); [done|]. cbn. by rewrite (bind_ok_l _ _ _ _ _ H).
Qed.
End Visit.
End Effects.
