(* ===== verification/Timers.v ===== *)
(** * Time passes

    The election timeout is drawn below twice its configured value, and
    [raft_periodic] never fails at a server in order: before the election timeout
    it counts the time, when the timeout passed the server stands for election,
    and in both cases it applies a committed entry if there is one. *)
From S2P Require Import Prelude Contiki Types Node Membership Log Server Election Replication.
From S2P Require Import Sim NodeFacts Frames History LogFacts MemberFacts ElectionFacts Roles.
From S2P Require Import Campaign Sending Receiving Commit Fixed Ranges Liveness Outbox.

(** ** The election timeout *)
Section Draws.
Context {T : CTarget} {C : Contiki} {L : ContikiLaws C} {U : User}.
Implicit Types w : world.

(** The configured timeouts stay, a drawn one is below twice its value, and the
    time that passed is only ever reset. *)
Definition timing (w : world) :=
  (election_timeout (srv w), request_timeout (srv w), snapshot_in_progress (srv w),
   election_timeout_rand (srv w), timeout_elapsed (srv w)).
Record timed (w w' : world) : Prop := {
  tm_election : election_timeout (srv w') = election_timeout (srv w);
  tm_request : request_timeout (srv w') = request_timeout (srv w);
  tm_snapshot : snapshot_in_progress (srv w') = snapshot_in_progress (srv w);
  tm_drawn : timer_ok w -> election_timeout_rand (srv w) < 2 * election_timeout (srv w) ->
    election_timeout_rand (srv w') < 2 * election_timeout (srv w);
  tm_elapsed : timeout_elapsed (srv w') = timeout_elapsed (srv w) \/ timeout_elapsed (srv w') = 0
}.

#[export] Instance timed_preorder : PreOrder timed.
Proof.
  split; [by split; auto|]. intros w1 w2 w3 [E1 Q1 S1 R1 L1] [E2 Q2 S2 R2 L2].
  split; [congruence|congruence|congruence| |].
  - intros Ht Hr. rewrite E1 in R2. apply R2; [|by apply R1]. unfold timer_ok in *. by rewrite E1.
  - destruct L2 as [->|]; [done|by right].
Qed.

Lemma timed_of {A} (m : M world A) : keeps (same timing) m -> keeps timed m.
Proof.
  intros H w a w' Hm. specialize (H w a w' Hm). unfold same, timing in H.
  injection H as E1 E2 E3 E4 E5. split; [done|done|done|by rewrite E4|by left].
Qed.

Lemma reset_timed : keeps timed (upd_srv (with_timeout_elapsed 0)).
Proof. intros w [] w' [= <-]. split; auto. Qed.

Lemma randomize_timed : keeps timed raft_randomize_election_timeout.
Proof.
  intros w u w' H. run_keeps H (same (fun w => (election_timeout (srv w), request_timeout (srv w),
    snapshot_in_progress (srv w), timeout_elapsed (srv w)))) as K;
    [unfold raft_randomize_election_timeout; keeps_solve; by apply keeps_same_modify|].
  unfold same in K. injection K as K1 K2 K3 K4. split; [done|done|done| |by left]. intros Ht _.
  destruct (raft_randomize_election_timeout_ok w Ht) as (w1 & H1 & B). rewrite H in H1.
  injection H1 as _ <-. lia.
Qed.
End Draws.
#[export] Hint Resolve randomize_timed reset_timed : keeps.
#[export] Hint Extern 3 (keeps timed _) =>
  (apply timed_of;
   first [apply keeps_same_modify; intros; reflexivity
         |solve [eauto 3 with keeps typeclass_instances]]) : keeps.

Section Timing.
Context {T : CTarget} {C : Contiki} {L : ContikiLaws C} {U : User}.

Lemma raft_become_follower_timed : keeps timed raft_become_follower.
Proof. unfold raft_become_follower, raft_set_state. keeps_solve. Qed.
Hint Resolve raft_become_follower_timed : keeps.
Lemma raft_become_candidate_timed : keeps timed raft_become_candidate.
Proof. unfold raft_become_candidate, raft_set_state. unfold_accessors. keeps_solve. Qed.
Hint Resolve raft_become_candidate_timed : keeps.
Lemma raft_become_leader_timed : keeps timed raft_become_leader.
Proof.
  unfold raft_become_leader, raft_set_state, raft_node_set_next_idx, raft_node_set_match_idx.
  unfold_accessors. keeps_solve.
Qed.
Hint Resolve raft_become_leader_timed : keeps.
Lemma raft_send_appendentries_all_timed : keeps timed raft_send_appendentries_all.
Proof. unfold raft_send_appendentries_all. unfold_accessors. keeps_solve. Qed.
Hint Resolve raft_send_appendentries_all_timed : keeps.
(** [raft_periodic] counts the time that passed, and the rest may reset it. *)
Lemma raft_periodic_timed n w e w' : raft_periodic n w = Ok e w' ->
  timed (with_srv (with_timeout_elapsed (timeout_elapsed (srv w) + n) (srv w)) w) w'.
Proof.
  intros H. unfold raft_periodic in H. rewrite bind_gets_l, bind_int_chk_l in H.
  destruct (int_ok _); [|done]. rewrite bind_upd_srv_l in H.
  match type of H with ?m ?w0 = _ => assert (keeps timed m) as K; [|by apply K in H] end.
  unfold raft_election_start. unfold_accessors. keeps_solve.
Qed.
Lemma raft_recv_requestvote_timed p vr : keeps timed (raft_recv_requestvote p vr).
Proof. unfold raft_recv_requestvote, recv_requestvote_decide. unfold_accessors. keeps_solve. Qed.
Lemma raft_recv_requestvote_response_timed p r : keeps timed (raft_recv_requestvote_response p r).
Proof.
  unfold raft_recv_requestvote_response, raft_node_vote_for_me, raft_node_is_voting.
  unfold_accessors. keeps_solve.
Qed.
Lemma raft_recv_appendentries_timed p ae : keeps timed (raft_recv_appendentries p ae).
Proof. unfold raft_recv_appendentries, recv_ae_prev. unfold_accessors. keeps_solve. Qed.
Lemma raft_recv_appendentries_response_timed p r : keeps timed (raft_recv_appendentries_response p r).
Proof.
  unfold raft_recv_appendentries_response, recv_aer_success, recv_aer_failure,
    raft_node_set_next_idx, raft_node_set_match_idx. unfold_accessors. keeps_solve.
Qed.
Lemma raft_recv_entry_timed e : keeps timed (raft_recv_entry e).
Proof. apply timed_of. keeps_solve. Qed.
End Timing.
#[export] Hint Resolve raft_recv_requestvote_timed
  raft_recv_requestvote_response_timed raft_recv_appendentries_timed
  raft_recv_appendentries_response_timed raft_recv_entry_timed : keeps.

(** ** The passage of time *)
Section Time.
Context {T : CTarget} {C : Contiki} {L : ContikiLaws C} {U : User}.
Implicit Types w : world.

(** What applying an entry leaves alone. *)
Definition poised (w : world) :=
  (role_of w, vote_of w, log_state w, node_state w, settings w, election_timeout_rand (srv w),
   snapshot_in_progress (srv w), timeout_elapsed (srv w)).

Lemma raft_apply_entry_total w a : log_repr w a -> normal_entries w ->
  INT_MIN <= applied_of w + 1 <= INT_MAX -> exists e w', raft_apply_entry w = Ok e w'.
Proof.
  intros R N Hb. unfold raft_apply_entry, raft_snapshot_is_in_progress. rewrite bind_gets_l.
  destruct (truth _); [by eexists _, _|]. rewrite bind_gets_l.
  destruct (_ =? _); [by eexists _, _|]. unfold applied_of in Hb.
  rewrite bind_int_chk_l, (proj2 (int_ok_iff _)) by done.
  destruct (log_get_at_idx_ok w a (last_applied_idx (srv w) + 1) R Hb) as (q & Hq & Hg).
  unfold raft_get_entry_from_idx. rewrite (bind_ok_l _ _ _ _ _ Hq).
  destruct q as [p|]; [|by eexists _, _]. destruct (al_get a _) as [e|]; [|done].
  destruct Hg as (p' & [= <-] & He). rewrite (bind_ok_l _ _ _ _ _ (entry_get_ok _ _ _ He)).
  rewrite (bind_ok_l _ _ _ _ _ (log_msg_run _ _)), bind_upd_srv_l. set (w1 := with_srv _ _).
  assert (exists r u, (match applylog (cb (srv w)) with
    | Some f => call (fun u => f u e (last_applied_idx (srv w) + 1 - 1)) | None => ret 0 end) w1
    = Ok r (with_user_data u w1)) as (r & u & Hr).
  { destruct (applylog _) as [f|]; [|exists 0, (user_data w1); by destruct w1].
    unfold call. rewrite bind_gets_l. destruct (f _ _ _) as [r u]. by exists r, u. }
  rewrite (bind_ok_l _ _ _ _ _ Hr). destruct (_ =? r); [by eexists _, _|].
  rewrite (N p e He). cbn [negb].
  destruct (_ =? voting_cfg_change_log_idx _); cbn [when]; [rewrite bind_upd_srv_l|rewrite bind_ret_l];
    by eexists _, _.
Qed.

(** The end of [raft_periodic]. *)
Definition catch_up : M world Z :=
  let! la := raft_get_last_applied_idx in
  let! commit := raft_get_commit_idx in
  let! snapshot := raft_snapshot_is_in_progress in
  if (la <? commit) && negb snapshot then
    let! e := raft_apply_entry in
    ret (if negb (-1 =? e) then e else 0)
  else ret 0.

Lemma catch_up_total w a : log_repr w a -> normal_entries w -> is_int (applied_of w) ->
  is_int (commit_of w) -> exists e w', catch_up w = Ok e w' /\ poised w' = poised w /\
    rtc (user_call (cb (srv w)) (fun _ => False) (fun _ => False)) (user_data w) (user_data w').
Proof.
  intros R N Ha Hc. unfold catch_up, raft_get_last_applied_idx, raft_get_commit_idx,
    raft_snapshot_is_in_progress. rewrite !bind_gets_l. unfold is_int, applied_of, commit_of in *.
  destruct (Z.ltb_spec (last_applied_idx (srv w)) (commit_idx (srv w))); cbn [andb];
    [|by eexists _, _]. destruct (negb _); [|by eexists _, _].
  destruct (raft_apply_entry_total w a R N) as (e & w' & H'); [unfold applied_of; lia|].
  rewrite (bind_ok_l _ _ _ _ _ H'). eexists _, w'. split; [reflexivity|]. split.
  - apply (raft_apply_entry_stays (T := T) poised) in H'. by destruct (H' N).
  - apply (raft_apply_entry_posts (T := T) (cb (srv w)) (fun _ => True)
      (fun _ => False) (fun _ => False)) in H'. by destruct (H' eq_refl I) as (_ & _ & ?).
Qed.

Lemma raft_periodic_eq n w : (1 < length (voting_nodes w))%nat -> nodes_wf w ->
  role w <> RAFT_STATE_LEADER -> INT_MIN <= timeout_elapsed (srv w) + n <= INT_MAX ->
  let w0 := with_srv (with_timeout_elapsed (timeout_elapsed (srv w) + n) (srv w)) w in
  raft_periodic n w = (let! e :=
    (if (election_timeout_rand (srv w) <=? timeout_elapsed (srv w) + n)
            && negb (truth (snapshot_in_progress (srv w))) then
      let! n := raft_get_num_voting_nodes in
      if 1 <? n then
        let! my := raft_get_my_node in
        let! voting := raft_node_is_voting my in
        if voting : bool then raft_election_start else ret 0
      else ret 0
    else ret 0) in
    if truth e then ret e else catch_up) w0.
Proof.
  intros HV W Hr Hb w0. unfold raft_periodic. rewrite bind_gets_l, bind_int_chk_l.
  rewrite (proj2 (int_ok_iff _)) by done. rewrite bind_upd_srv_l. fold w0.
  assert (nodes_wf w0) as W0 by by apply (nodes_wf_same w).
  rewrite (bind_ok_l _ _ _ _ _ (raft_get_num_voting_nodes_ok w0 W0)).
  change (voting_nodes w0) with (voting_nodes w). rewrite (proj2 (Z.eqb_neq 1 _)) by lia.
  cbn [when]. rewrite bind_ret_l, bind_gets_l. unfold role in Hr.
  change (state (srv w0)) with (state (srv w)). by rewrite bool_decide_eq_false_2 by done.
Qed.

(** Before the timeout. *)
Lemma raft_periodic_waits n w a : server_ok w a -> normal_entries w ->
  is_int (applied_of w) -> is_int (commit_of w) -> (1 < length (voting_nodes w))%nat ->
  role w <> RAFT_STATE_LEADER -> INT_MIN <= timeout_elapsed (srv w) + n <= INT_MAX ->
  timeout_elapsed (srv w) + n < election_timeout_rand (srv w) ->
  exists e w', raft_periodic n w = Ok e w' /\ role_of w' = role_of w /\
    log_state w' = log_state w /\ election_timeout_rand (srv w') = election_timeout_rand (srv w) /\
    timeout_elapsed (srv w') = timeout_elapsed (srv w) + n.
Proof.
  intros Sok N Ha Hc HV Hr Hb Hlt. rewrite raft_periodic_eq by (done || apply Sok).
  rewrite (proj2 (Z.leb_gt _ _)) by done. cbn [andb]. rewrite bind_ret_l. cbn [truth Z.eqb negb].
  set (w0 := with_srv _ w).
  destruct (catch_up_total w0 a) as (e & w' & H' & P' & _); try done.
  { eapply log_repr_same; [|apply Sok]. done. }
  exists e, w'. split; [done|].
  change (role_of w) with (role_of w0). change (log_state w) with (log_state w0).
  change (election_timeout_rand (srv w)) with (election_timeout_rand (srv w0)).
  change (timeout_elapsed (srv w) + n) with (timeout_elapsed (srv w0)).
  unfold poised in P'. split_and!; congruence.
Qed.

(** When the timeout passed, with the requests that are sent. *)
Lemma raft_periodic_stands n w a : server_ok w a -> normal_entries w ->
  is_int (applied_of w) -> is_int (commit_of w) -> (1 < length (voting_nodes w))%nat ->
  role w <> RAFT_STATE_LEADER -> INT_MIN <= timeout_elapsed (srv w) + n <= INT_MAX ->
  election_timeout_rand (srv w) <= timeout_elapsed (srv w) + n ->
  snapshot_in_progress (srv w) = 0 -> self_votes w -> INT_MIN <= term_of w < INT_MAX ->
  exists e w' u u', raft_periodic n w = Ok e w' /\ log_repr w' a /\
    role w' = RAFT_STATE_CANDIDATE /\ term_of w' = term_of w + 1 /\ vote_of w' = self_id w' /\
    roll w' = roll w /\ cb (srv w') = cb (srv w) /\ u' = foldl (ask w' a) u (electorate w') /\
    rtc (user_call (cb (srv w)) (fun _ => False) (fun _ => False)) u' (user_data w').
Proof.
  intros Sok N Ha Hc HV Hr Hb Hle Hsn Hself Ht. rewrite raft_periodic_eq by (done || apply Sok).
  rewrite (proj2 (Z.leb_le _ _)) by done. rewrite Hsn. cbn [truth Z.eqb negb andb].
  set (w0 := with_srv _ w). assert (server_ok w0 a) as Sok0 by by apply (server_ok_same w).
  pose proof (so_nodes _ _ Sok0) as W0. pose proof (so_self _ _ Sok0) as S0.
  rewrite bind_assoc. rewrite (bind_ok_l _ _ _ _ _ (raft_get_num_voting_nodes_ok w0 W0)).
  change (voting_nodes w0) with (voting_nodes w). rewrite (proj2 (Z.ltb_lt 1 _)) by lia.
  rewrite bind_assoc. rewrite (bind_ok_l _ _ _ _ _ (raft_get_my_node_ok w0 W0 S0)).
  destruct Hself as (s & Hs & Hsv). change (node (srv w0)) with (node (srv w)). rewrite Hs.
  unfold node_sat in Hsv. destruct (node_heap w !! s) as [ns|] eqn:Hns; [|done].
  apply andb_true_iff in Hsv as [_ Hvoting]. unfold raft_node_is_voting.
  rewrite bind_assoc, (bind_ok_l _ _ _ _ _ (node_read_ok _ w0 s ns Hns)), Hvoting.
  unfold raft_election_start, raft_get_current_idx.
  rewrite bind_assoc, (bind_ok_l _ _ _ _ _ (log_get_current_idx_repr _ _ (so_log _ _ Sok0))).
  rewrite bind_assoc, (bind_ok_l _ _ _ _ _ (log_msg_run _ _)). set (w1 := with_user_data _ w0).
  assert (server_ok w1 a) as Sok1 by by apply (server_ok_same w0).
  destruct (raft_become_candidate_run w1 a Sok1 Ht)
    as (w2 & H2 & Sok2 & R2 & T2 & V2 & _ & _ & _ & _ & E2 & U2).
  set (u := campaign_opened w1) in U2.
  rewrite (bind_ok_l _ _ _ _ _ H2). cbn [truth Z.eqb negb].
  pose proof (raft_become_candidate_roll w1 0 w2 H2) as Hroll. unfold same in Hroll.
  run_keeps H2 (same (fun w => (cb (srv w), applied_of w, commit_of w, entry_heap w))) as K2.
  unfold same in K2. injection K2 as K2c K2a K2m K2e.
  assert (normal_entries w2) as N2 by (unfold normal_entries in *; by rewrite K2e).
  destruct (catch_up_total w2 a) as (e & w' & H' & P' & U'); [apply Sok2|done|by rewrite K2a|by rewrite K2m|].
  assert (role_of w' = role_of w2 /\ vote_of w' = vote_of w2 /\ log_state w' = log_state w2 /\
    node_state w' = node_state w2 /\ settings w' = settings w2) as (P1 & P2 & P3 & P4 & P5)
    by (unfold poised in P'; split_and!; congruence).
  assert (node_heap w' = node_heap w2 /\ nodes_list (srv w') = nodes_list (srv w2) /\
    node (srv w') = node (srv w2)) as (Hh & Hl & Hn) by (unfold node_state in P4; split_and!; congruence).
  assert (cb (srv w') = cb (srv w2)) as Hcb by (unfold settings in P5; congruence).
  assert (self_id w' = self_id w2) as Hid by (unfold self_id, node_id_at; by rewrite Hh, Hn).
  injection P1 as Pr Pt. exists e, w', u, (user_data w2). split; [done|].
  split; [eapply log_repr_same, Sok2; done|]. split; [congruence|]. split; [by rewrite Pt|].
  split; [rewrite P2, Hid, V2; symmetry; by apply (roll_self_id w1 w2)|].
  split; [transitivity (roll w2); [|done]; unfold roll; unfold node_state in P4; congruence|].
  split; [by rewrite Hcb, K2c|]. split; [|by rewrite <- K2c].
  assert (electorate w' = electorate w2) as ->.
  { unfold electorate, is_self_ptr, node_sat. by rewrite Hh, Hl, Hn. }
  rewrite U2. unfold ask, logged, vote_request. by rewrite Hh, Hcb, Pt, Hid.
Qed.

(** *** The time that passed is bounded *)
Lemma raft_election_start_resets w a e w' : server_ok w a -> INT_MIN <= term_of w ->
  raft_election_start w = Ok e w' -> timeout_elapsed (srv w') = 0.
Proof.
  intros Sok Hmin H. unfold raft_election_start, raft_get_current_idx in H.
  rewrite (bind_ok_l _ _ _ _ _ (log_get_current_idx_repr _ _ (so_log _ _ Sok))) in H.
  rewrite (bind_ok_l _ _ _ _ _ (log_msg_run _ _)) in H. set (w0 := with_user_data _ w) in *.
  assert (server_ok w0 a) as Sok0 by by apply (server_ok_same w).
  destruct (Z.lt_ge_cases (term_of w) INT_MAX) as [Hlt|Hge].
  - destruct (raft_become_candidate_run w0 a Sok0 (conj Hmin Hlt))
      as (w1 & H1 & _ & _ & _ & _ & _ & _ & E1 & _). rewrite H in H1. by injection H1 as _ ->.
  - exfalso. unfold raft_become_candidate, raft_get_current_term in H.
    rewrite (bind_ok_l _ _ _ _ _ (log_msg_run _ _)), bind_gets_l, bind_int_chk_l in H.
    destruct (int_ok _) eqn:Hok; [|done]. apply int_ok_iff in Hok. unfold term_of in Hge. cbn in Hok. lia.
Qed.

Lemma raft_send_appendentries_all_resets w e w' : raft_send_appendentries_all w = Ok e w' ->
  timeout_elapsed (srv w') = 0.
Proof.
  intros H. unfold raft_send_appendentries_all in H. rewrite bind_upd_srv_l in H.
  match type of H with ?m ?w0 = _ => assert (keeps (same (fun w => timeout_elapsed (srv w))) m) as K end;
    [unfold_accessors; keeps_solve|]. by apply K in H.
Qed.

Lemma raft_periodic_bounded n w a e w' : server_ok w a -> (1 < length (voting_nodes w))%nat ->
  self_votes w -> snapshot_in_progress (srv w) = 0 -> INT_MIN <= term_of w ->
  raft_periodic n w = Ok e w' -> timeout_elapsed (srv w') = 0 \/
    timeout_elapsed (srv w') < Z.max (election_timeout_rand (srv w)) (request_timeout (srv w)).
Proof.
  intros Sok HV Hself Hsn Hmin H.
  assert (forall w1, catch_up w1 = Ok e w' -> timeout_elapsed (srv w') = timeout_elapsed (srv w1)) as Hend.
  { intros w1 H1. unfold catch_up in H1.
    run_keeps H1 (same (fun w => timeout_elapsed (srv w))) as K. exact K. }
  unfold raft_periodic in H. rewrite bind_gets_l, bind_int_chk_l in H. destruct (int_ok _); [|done].
  rewrite bind_upd_srv_l in H. set (w0 := with_srv _ w) in *.
  assert (server_ok w0 a) as Sok0 by by apply (server_ok_same w). pose proof (so_nodes _ _ Sok0) as W0.
  rewrite (bind_ok_l _ _ _ _ _ (raft_get_num_voting_nodes_ok w0 W0)) in H.
  change (voting_nodes w0) with (voting_nodes w) in H. rewrite (proj2 (Z.eqb_neq 1 _)) in H by lia.
  cbn [when] in H. rewrite bind_ret_l, bind_gets_l in H. run_bind H as x w1 H1.
  assert (timeout_elapsed (srv w1) = 0 \/ timeout_elapsed (srv w1)
    < Z.max (election_timeout_rand (srv w)) (request_timeout (srv w))) as Hx.
  { destruct (bool_decide _) in H1.
    - destruct (Z.leb_spec (request_timeout (srv w0)) (timeout_elapsed (srv w0))) as [Hle|Hlt];
        cbn [when] in H1; run_bind H1 as u w2 H2; injection H1 as _ <-.
      + run_bind H2 as r w3 H3. injection H2 as <- <-. left. by apply raft_send_appendentries_all_resets in H3.
      + injection H2 as _ <-. right. cbn in *. lia.
    - change (snapshot_in_progress (srv w0)) with (snapshot_in_progress (srv w)) in H1. rewrite Hsn in H1.
      cbn [truth Z.eqb negb] in H1. rewrite andb_true_r in H1.
      destruct (Z.leb_spec (election_timeout_rand (srv w0)) (timeout_elapsed (srv w0))) as [Hle|Hlt].
      + left. rewrite (bind_ok_l _ _ _ _ _ (raft_get_num_voting_nodes_ok w0 W0)) in H1.
        change (voting_nodes w0) with (voting_nodes w) in H1. rewrite (proj2 (Z.ltb_lt 1 _)) in H1 by lia.
        rewrite (bind_ok_l _ _ _ _ _ (raft_get_my_node_ok w0 W0 (so_self _ _ Sok0))) in H1.
        destruct Hself as (s & Hs & Hsv). change (node (srv w0)) with (node (srv w)) in H1. rewrite Hs in H1.
        unfold node_sat in Hsv. destruct (node_heap w !! s) as [ns|] eqn:Hns; [|done].
        apply andb_true_iff in Hsv as [_ Hvoting]. unfold raft_node_is_voting in H1.
        rewrite (bind_ok_l _ _ _ _ _ (node_read_ok _ w0 s ns Hns)), Hvoting in H1.
        by eapply raft_election_start_resets.
      + injection H1 as _ <-. right. cbn in *. lia. }
  destruct (truth x); [by run_ret H|]. apply Hend in H. by rewrite H.
Qed.
End Time.
