(* ===== verification/Claims.v ===== *)
(** * What a message claims

    A vote request describes the log of the candidate, an appendentries message a
    part of the log of the leader and an index that is committed.  What an honest
    server writes into a message is so when it writes it, and stays so. *)
From S2P Require Import Prelude Contiki Types Node Membership Log Server Election Replication.
From S2P Require Import Sim NodeFacts Frames History LogFacts MemberFacts ElectionFacts Roles.
From S2P Require Import Campaign Sending Receiving Commit Fixed Ranges Conflict Cluster Outbox Growth.
From S2P Require Import Acks Network Ledger Council Matching.

Section Claims.
Context {T : CTarget} {C : Contiki} {L : ContikiLaws C} {U : User} (V : gset Z).

(** ** What a message claims *)

(** A vote request describes the log [l] of the candidate. *)
Definition asks (l : list raft_entry_t) (m : msg_requestvote_t) : Prop :=
  rv_last_log_idx m = Z.of_nat (length l) /\
  to_uint (rv_last_log_term m) = match last l with Some x => ety_term x | None => 0 end.

(** The first [k] entries of [l] were chosen in a term up to [t]. *)
Definition committed (c : council) (k t : Z) (l : list raft_entry_t) : Prop :=
  k <= 0 \/ (k <= Z.of_nat (length l) /\ exists s, s <= t /\ settled V c s (take (Z.to_nat k) l)).

(** An appendentries message is a part of the log [l] behind the entry it names,
    or names an entry that no log has. *)
Definition stretch (m : msg_appendentries_t) (l : list raft_entry_t) : Prop :=
  0 <= ae_prev_log_idx m /\
  (ae_prev_log_idx m <= Z.of_nat (length l) /\
   ae_entries m `prefix_of` drop (Z.to_nat (ae_prev_log_idx m)) l /\
   (ae_prev_log_idx m <> 0 -> exists x, l !! Z.to_nat (ae_prev_log_idx m - 1) = Some x /\
      ety_term x = to_uint (ae_prev_log_term m)) \/
   ae_entries m = [] /\ ae_prev_log_idx m <> 0 /\ to_uint (ae_prev_log_term m) = 0).

(** It claims no more committed than it shows. *)
Definition promised (c : council) (m : msg_appendentries_t) (l : list raft_entry_t) : Prop :=
  ae_leader_commit m <= ae_prev_log_idx m + Z.of_nat (length (ae_entries m)) /\
  committed c (ae_leader_commit m) (ae_term m) l.

Lemma committed_grows c c' k t t' l l' : council_le c c' -> t <= t' -> l `prefix_of` l' ->
  committed c k t l -> committed c' k t' l'.
Proof.
  intros Le Ht [r ->] [Hk|(Hk & s & Hs & Hset)]; [by left|right]. rewrite length_app. split; [lia|].
  exists s. split; [lia|]. rewrite take_app_le by lia. by eapply settled_le.
Qed.

Lemma stretch_grows m l l' : l `prefix_of` l' -> stretch m l -> stretch m l'.
Proof.
  intros [r ->] [H0 [(Hl & [s Hs] & Hx)|Hx]]; (split; [done|]); [left|by right].
  rewrite length_app. split; [lia|]. split.
  - rewrite drop_app_le by lia. rewrite Hs. exists (s ++ r). by rewrite <- app_assoc.
  - intros Hnz. destruct (Hx Hnz) as (x & Hx' & Ht). exists x. split; [|done]. by apply lookup_app_l_Some.
Qed.

Lemma promised_grows c c' m l l' : council_le c c' -> l `prefix_of` l' ->
  promised c m l -> promised c' m l'.
Proof. intros Le Hl [H1 H2]. split; [done|]. by eapply committed_grows. Qed.

(** A candidate whose request passes the comparison of section 5.4.1 has a log
    that is at least as up to date. *)
Lemma asks_at_least a m l : al_first a = 1 -> up_to_date a m = true -> asks l m ->
  (forall x, x ∈ al_entries a -> 1 <= ety_term x) -> at_least l (al_entries a).
Proof.
  intros Hf Hup [Hi Ht] Hpos. pose proof (whole_length a Hf) as Hlen.
  destruct (decide (al_entries a = [])) as [|Hne]; [by left|].
  assert (exists y, last (al_entries a) = Some y /\ al_last_term a = ety_term y) as (y & Hy & Hly).
  { destruct (al_entries a) as [|z zs] eqn:Ha; [done|]. rewrite <- Ha in *.
    assert (0 < length (al_entries a))%nat as Hl by (rewrite Ha; cbn; lia).
    destruct (lookup_lt_is_Some_2 (al_entries a) (pred (length (al_entries a)))) as [y Hy]; [lia|].
    exists y. rewrite last_lookup. split; [done|]. unfold al_last_term.
    rewrite whole_get by lia. replace (Z.to_nat (al_last a - 1)) with (pred (length (al_entries a))) by lia.
    by rewrite Hy. }
  assert (1 <= ety_term y) as Hy1.
  { apply Hpos. rewrite last_lookup in Hy. by eapply list_elem_of_lookup_2. }
  unfold up_to_date in Hup. rewrite Hly, Ht in Hup.
  assert (0 < al_last a) by (destruct (al_entries a); [done|cbn in Hlen; lia]).
  rewrite (proj2 (Z.eqb_neq (al_last a) 0)) in Hup by lia. cbn [orb] in Hup.
  right. destruct (last l) as [x|] eqn:Hx.
  - exists x, y. split_and!; try done. apply orb_true_iff in Hup as [Hlt%Z.ltb_lt|Heq]; [by left|right].
    apply andb_true_iff in Heq as [He%Z.eqb_eq Hle%Z.leb_le]. split; [congruence|]. lia.
  - exfalso. apply orb_true_iff in Hup as [Hlt%Z.ltb_lt|Heq]; [lia|].
    apply andb_true_iff in Heq as [He%Z.eqb_eq _]. lia.
Qed.

Lemma at_least_refl l : at_least l l.
Proof.
  destruct (last l) as [x|] eqn:Hx; [|left; by apply last_None]. right. exists x, x.
  split_and!; try done. right. split; lia.
Qed.

Lemma committed_shorter c k k' t l : k <= k' -> committed c k' t l -> committed c k t l.
Proof.
  intros Hk [Hk'|(Hl & s & Hs & Hset)]; [left; lia|]. destruct (decide (k <= 0)); [by left|right].
  split; [lia|]. exists s. split; [done|]. eapply settled_shorter, Hset.
  rewrite <- (take_take_le l (Z.to_nat k') (Z.to_nat k)) by lia. apply prefix_take.
Qed.

(** *** An honest message claims what is so *)
Lemma honest_asks w a m : al_first a = 1 -> is_uint (al_last_term a) -> honest_request w a m ->
  asks (al_entries a) m.
Proof.
  intros Hf Hty [_ ->]. pose proof (whole_length a Hf) as Hlen. split; cbn; [done|].
  rewrite to_uint_to_int by done. unfold al_last_term. rewrite last_lookup.
  destruct (al_entries a) as [|x l] eqn:Ha.
  - unfold al_get. rewrite Ha, lookup_nil. by destruct (_ && _).
  - rewrite whole_get by (try done; cbn in Hlen; lia). rewrite Ha. cbn in Hlen. rewrite Hlen.
    by replace (Z.to_nat (Z.of_nat (S (length l)) - 1)) with (length l) by lia.
Qed.

Lemma honest_stretch w a m : al_first a = 1 -> snapshot_last_term (srv w) = 0 ->
  (forall x, x ∈ al_entries a -> is_uint (ety_term x)) -> honest_append w a m ->
  stretch m (al_entries a).
Proof.
  intros Hf Hs Hty (_ & next & k & Hn & _ & ->). pose proof (whole_length a Hf) as Hlen.
  unfold stretch. cbn [ae_prev_log_idx ae_prev_log_term ae_entries]. unfold prev_of, al_from. rewrite Hf.
  destruct (Z.ltb_spec 1 next) as [H1|H1]; cbn [fst snd].
  2: { split; [lia|]. left. split; [lia|]. split; [by replace (next - 1) with 0 by lia|lia]. }
  split; [lia|]. rewrite whole_get by lia.
  destruct (decide (next - 1 <= Z.of_nat (length (al_entries a)))) as [Hle|Hle]; [left|right].
  - split; [done|]. split; [done|]. intros _.
    destruct (lookup_lt_is_Some_2 (al_entries a) (Z.to_nat (next - 1 - 1))) as [x Hx]; [lia|].
    exists x. rewrite Hx. split; [done|]. rewrite to_uint_to_int; [done|]. apply Hty.
    by eapply list_elem_of_lookup_2.
  - rewrite drop_ge by lia. split; [done|]. split; [lia|].
    rewrite (lookup_ge_None_2 (al_entries a)) by lia. rewrite Hs. apply to_uint_small.
    pose proof INT_MIN_MAX. lia.
Qed.

Lemma honest_promised c w a m : al_first a = 1 ->
  committed c (commit_of w) (term_of w) (al_entries a) -> honest_append w a m ->
  promised c m (al_entries a).
Proof.
  intros Hf Hc (_ & next & k & Hn & Hk & ->). unfold promised.
  cbn [ae_prev_log_idx ae_entries ae_leader_commit ae_term].
  split; [|by eapply committed_shorter; [apply Hk|]].
  assert (fst (prev_of w a next) = next - 1) as Hp.
  { unfold prev_of. destruct (Z.ltb_spec 1 next); cbn; lia. }
  rewrite Hp. unfold al_from. rewrite Hf, length_drop. destruct Hc as [|[Hl _]]; lia.
Qed.
End Claims.
