(* ===== verification/Sessions.v ===== *)
(** * The servers in the council

    A visit of a server is a sequence of steps of the council of [Council.v]: its
    term advances, it votes, takes office, appends or accepts an entry, and
    acknowledges what it holds.  [governed] says how the state of the servers and
    the letters on the way correspond to the council; every visit keeps it, as
    long as no log has been full. *)
From S2P Require Import Prelude Contiki Types Node Membership Log Server Election Replication.
From S2P Require Import Sim NodeFacts Frames History LogFacts MemberFacts ElectionFacts Roles.
From S2P Require Import Campaign Sending Receiving Commit Fixed Ranges Conflict Cluster Outbox Growth.
From S2P Require Import Acks Network Ledger Council Matching Visits Claims.

Section Council.
Context {T : CTarget} {C : Contiki} {L : ContikiLaws C} {U : User} (Pu : udata -> Prop).
Context (V : gset Z) (HV : (1 < stdpp.base.size V)%nat).
Implicit Types w : world.
Abbreviation host_ok := (host_ok Pu).
Abbreviation visit := (visit Pu).
Abbreviation network_step := (network_step Pu).
Abbreviation network_ok := (network_ok Pu).
Abbreviation tracked := (tracked Pu V).
Abbreviation passage := (passage Pu V).

(** ** The network and the council

    [cast] are the votes as the cluster of [Cluster.v] sees them. *)
Record governed (cast : Z -> Z -> Z -> Prop) (n : network) (c : council) : Prop := {
  gv_epoch i w : host n !! i = Some w -> epoch c !! i = Some (term_of w);
  gv_term i w : host n !! i = Some w -> 0 <= term_of w;
  gv_role i w : host n !! i = Some w ->
    role w = RAFT_STATE_CANDIDATE \/ role w = RAFT_STATE_LEADER -> 1 <= term_of w;
  gv_snap i w : host n !! i = Some w -> snapshot_last_term (srv w) = 0;
  gv_reign t i l : reign (book c) !! t = Some (i, l) -> 1 <= t;
  gv_cast j t x : cast j t x -> exists l, (j, t, x, l) ∈ ballots c;
  gv_ballot j t x l : (j, t, x, l) ∈ ballots c -> cast j t x;
  gv_up j t x l w lx : (j, t, x, l) ∈ ballots c -> host n !! x = Some w ->
    held (book c) !! x = Some lx ->
    t <= term_of w /\ (role w = RAFT_STATE_CANDIDATE -> term_of w = t -> at_least lx l);
  gv_ask x m w lx : mail n x (Ask m) -> host n !! x = Some w -> held (book c) !! x = Some lx ->
    rv_term m <= term_of w /\
    (role w = RAFT_STATE_CANDIDATE -> term_of w = rv_term m -> asks lx m);
  gv_append i m : mail n i (Append m) -> exists l, reign (book c) !! ae_term m = Some (i, l) /\
    stretch m l /\ promised V c m l;
  gv_ack j i r : mail n j (Ack i r) -> aer_success r <> 0 ->
    aer_current_idx r <= 0 \/ (j, aer_term r, Z.to_nat (aer_current_idx r)) ∈ taken c;
  gv_match i w b j m : host n !! i = Some w -> role w = RAFT_STATE_LEADER ->
    b ∈ nodes_list (srv w) -> is_self_ptr (srv w) b = false -> node_sat w votes_here b = true ->
    node_id_at w b = Some j -> marks w !! b = Some m ->
    m <= 0 \/ (j, term_of w, Z.to_nat m) ∈ taken c;
  gv_own i w l : host n !! i = Some w -> role w = RAFT_STATE_LEADER ->
    held (book c) !! i = Some l -> (i, term_of w, length l) ∈ taken c;
  gv_commit i w l : host n !! i = Some w -> held (book c) !! i = Some l ->
    committed V c (commit_of w) (term_of w) l;
  gv_applied i w : host n !! i = Some w -> applied_of w <= commit_of w
}.

Lemma to_uint_term i w a : host_ok i w a -> 0 <= term_of w -> to_uint (term_of w) = term_of w.
Proof. intros Ho Ht. pose proof (term_typed Pu i w a Ho) as [_ Hm]. by apply to_uint_small. Qed.

(** The servers that hold an entry, with the leader, are a quorum. *)
Lemma counted_quorum cast i w l : server_inv V cast i w -> NoDup l ->
  (forall b, b ∈ l -> b ∈ nodes_list (srv w) /\ is_self_ptr (srv w) b = false /\
     node_sat w votes_here b = true) ->
  Z.of_nat (length (voting_nodes w)) < 2 * (1 + Z.of_nat (length l)) ->
  quorum V (list_to_set (ids_at w l) ∪ {[i]}).
Proof.
  intros Si Hnd Hl Hm. pose proof (si_nodes _ _ _ _ Si) as W. pose proof (voting_size V cast i w Si) as E.
  split.
  - apply union_subseteq. split; [|pose proof (si_member _ _ _ _ Si); set_solver].
    intros j Hj. apply elem_of_list_to_set, ids_at_elem in Hj as (b & Hb & Hjb).
    destruct (Hl b Hb) as (Hin & _ & Hv). rewrite <- (si_voting _ _ _ _ Si).
    apply elem_of_list_to_set, ids_at_elem. exists b. split; [|done]. by apply filter_elem.
  - rewrite size_union, size_singleton, ids_at_size, E; [lia|done|done|by intros b []%Hl|].
    intros j Hj ->%elem_of_singleton. apply elem_of_list_to_set, ids_at_elem in Hj as (b & Hb & Hjb).
    destruct (Hl b Hb) as (Hin & Hs & _). unfold is_self_ptr in Hs. apply bool_decide_eq_false in Hs.
    apply Hs. destruct (si_self _ _ _ _ Si) as (s & Hns & Hsl). rewrite Hns. f_equal.
    pose proof (si_id _ _ _ _ Si) as Hid. unfold self_id in Hid. rewrite Hns in Hid.
    destruct (nw_heap _ W s Hsl) as [ns Hn]. unfold node_id_at in Hid. rewrite Hn in Hid.
    apply (nw_ids _ W s b i); try done. unfold node_id_at. rewrite Hn. cbn in *. congruence.
Qed.

Lemma holds_spec w k b : holds w k b = true -> is_self_ptr (srv w) b = false /\
  node_sat w votes_here b = true /\ exists m, marks w !! b = Some m /\ k <= m.
Proof.
  unfold holds, node_sat, marks. rewrite lookup_fmap. intros H. apply andb_true_iff in H as [Hs H].
  destruct (node_heap w !! b) as [nd|]; [|done]. apply andb_true_iff in H as [Hv Hle%Z.leb_le].
  split; [by apply negb_true_iff|]. split; [done|]. by exists (match_idx nd).
Qed.

Lemma roll_votes_here w w' b : roll w' = roll w -> node_sat w' votes_here b = node_sat w votes_here b.
Proof.
  intros R. apply (roll_heap _ _ b) in R. unfold node_sat.
  destruct (node_heap w' !! b), (node_heap w !! b); cbn in *; congruence.
Qed.

(** ** One visit *)
Section Step.
Context (cast cast' : Z -> Z -> Z -> Prop) (n : network) (c : council) (cl cl' : cluster).
Context (i : Z) (w w' : world) (a a' : alog) (ans : option letter) (g' : ledger).
Context (Gv : governed cast n c) (Cok : council_ok V c) (Nok : network_ok n).
Context (HI : cluster_inv V cast cl) (Hcl : votes_posted n cl).
Abbreviation n' := (mk_network (<[i := w']> (host n)) (sent_mail (mail n) i w' ans)).
Context (HI' : cluster_inv V cast' cl') (Hcl' : votes_posted n' cl').
Context (Hi : host n !! i = Some w) (Hv : visit (mail n) i w w' ans).
Context (Tr : tracked cast n (book c)) (Ps : passage cast n (book c) i w w' ans cast' a a' g').

Lemma old_server : server_inv V cast i w.
Proof. apply (ci_server _ _ _ HI). destruct Hcl as [-> _]. done. Qed.
Lemma new_server : server_inv V cast' i w'.
Proof. apply (ci_server _ _ _ HI'). destruct Hcl' as [-> _]. cbn. by rewrite lookup_insert_eq. Qed.
Ltac unpack := destruct Ps as [Ho Hf Hheld Ho' Hgr Hmv Hcast Hvotes Hmoves Htn Htr'].

Lemma new_term : 0 <= term_of w' /\
  (role w' = RAFT_STATE_CANDIDATE \/ role w' = RAFT_STATE_LEADER -> 1 <= term_of w').
Proof.
  unpack. pose proof (gv_term _ _ _ Gv i w Hi). pose proof (rm_term _ _ Hmv).
  split; [lia|]. intros [Hr|Hr].
  - destruct (rm_candidate _ _ Hmv Hr) as [[= E1 E2]|]; [|lia].
    rewrite E2. apply (gv_role _ _ _ Gv i w Hi). left. congruence.
  - destruct (rm_leader _ _ Hmv Hr) as [E2 Hor]. rewrite E2.
    apply (gv_role _ _ _ Gv i w Hi). tauto.
Qed.

(** *** The term and the vote *)
Abbreviation epoch1 := (<[i := term_of w']> (epoch c)).

Lemma step_epoch : council_step V c (mk_council (book c) epoch1 (ballots c) (taken c)).
Proof.
  unpack. apply (council_advance V c i (term_of w)); [by apply (gv_epoch _ _ _ Gv)|].
  apply (rm_term _ _ Hmv).
Qed.

(** The vote of [i], if it is new, is on the list [bs]. *)
Record polled (bs : list (Z * Z * Z * list raft_entry_t)) : Prop := {
  pl_step : rtc (council_step V) (mk_council (book c) epoch1 (ballots c) (taken c))
              (mk_council (book c) epoch1 bs (taken c));
  pl_cast j t x : cast' j t x -> exists l, (j, t, x, l) ∈ bs;
  pl_ballot j t x l : (j, t, x, l) ∈ bs -> cast' j t x;
  pl_new j t x l : (j, t, x, l) ∈ bs -> (j, t, x, l) ∈ ballots c \/
    (j = i /\ t = term_of w' /\ x = vote_of w' /\ l = al_entries a /\ x <> -1 /\ ~ cast i t x)
}.

Lemma step_vote : exists bs, polled bs.
Proof.
  unpack. set (t' := term_of w').
  assert (forall j t x l, (j, t, x, l) ∈ ballots c -> cast' j t x) as Hold.
  { intros j t x l Hb. by apply Hcast, (gv_ballot _ _ _ Gv j t x l). }
  assert ((exists l, (i, t', vote_of w', l) ∈ ballots c) \/
    ~ exists l, (i, t', vote_of w', l) ∈ ballots c) as Hdec.
  { destruct (decide (Exists (fun b => b.1 = (i, t', vote_of w')) (ballots c))) as [He|He].
    - left. apply Exists_exists in He as ([b l] & Hb & E). cbn in E. subst b. by exists l.
    - right. intros [l Hl]. apply He, Exists_exists. by exists (i, t', vote_of w', l). }
  destruct (decide (vote_of w' = -1)) as [Hnone|Hsome].
  { exists (ballots c). split; [done| |done|by left].
    intros j t x Hc. destruct (Hvotes j t x Hc) as [H|(-> & -> & ->)]; [by apply (gv_cast _ _ _ Gv)|].
    by destruct (ci_some _ _ _ HI' _ _ _ Hc). }
  assert (cast' i t' (vote_of w')) as Hmine by by apply (si_vote _ _ _ _ new_server).
  destruct Hdec as [[l Hl]|Hnew].
  { exists (ballots c). split; [done| |done|by left].
    intros j t x Hc. destruct (Hvotes j t x Hc) as [H|(-> & -> & ->)]; [by apply (gv_cast _ _ _ Gv)|by exists l]. }
  assert (~ cast i t' (vote_of w')) as Hfresh by (intros H; by apply Hnew, (gv_cast _ _ _ Gv)).
  exists ((i, t', vote_of w', al_entries a) :: ballots c). split.
  - apply rtc_once.
    refine (council_vote V (mk_council _ _ _ _) i t' (vote_of w') (al_entries a) _ _ _); cbn;
      [by rewrite lookup_insert_eq|done|].
    intros x' l' Hb. apply Hfresh. pose proof (gv_ballot _ _ _ Gv _ _ _ _ Hb) as Hc.
    by rewrite (ci_once _ _ _ HI' _ _ _ _ Hmine (Hcast _ _ _ Hc)).
  - intros j t x Hc. destruct (Hvotes j t x Hc) as [H|(-> & -> & ->)].
    + destruct (gv_cast _ _ _ Gv _ _ _ H) as [l Hl]. exists l. by right.
    + exists (al_entries a). by left.
  - intros j t x l [[= -> -> -> ->]|Hb]%elem_of_cons; [done|by eapply Hold].
  - intros j t x l [[= -> -> -> ->]|Hb]%elem_of_cons; [right; by split_and!|by left].
Qed.

Lemma entry_positive l x : in_ledger (book c) l -> x ∈ l -> 1 <= ety_term x.
Proof.
  intros Hl [k Hk]%list_elem_of_lookup. destruct (co_ledger _ _ Cok l Hl k x Hk) as (j & r & Hr & _).
  by eapply (gv_reign _ _ _ Gv).
Qed.

(** A candidate keeps its log and its term. *)
Lemma step_candidate : role w' = RAFT_STATE_CANDIDATE -> term_of w' = term_of w ->
  role w = RAFT_STATE_CANDIDATE /\ a' = a.
Proof.
  unpack. intros Hr Ht. split; [|by eapply (visit_candidate Pu (mail n) (nk_mail _ _ Nok) i w w' a a' ans)].
  destruct (rm_candidate _ _ Hmv Hr) as [[= E _]|]; [congruence|lia].
Qed.

Lemma step_up bs : polled bs -> forall j t x l wx lx, (j, t, x, l) ∈ bs ->
  host n' !! x = Some wx -> held g' !! x = Some lx ->
  t <= term_of wx /\ (role wx = RAFT_STATE_CANDIDATE -> term_of wx = t -> at_least lx l).
Proof.
  intros Pl j t x l wx lx Hb Hx Hlx. pose proof step_candidate as Hcand.
  unpack. cbn in Hx. rewrite (tn_held _ _ _ _ _ Htn) in Hlx.
  destruct (pl_new _ Pl j t x l Hb) as [Hold|(-> & -> & -> & -> & Hne & Hfresh)].
  - destruct (decide (i = x)) as [->|Hix].
    + rewrite lookup_insert_eq in Hx; rewrite lookup_insert_eq in Hlx. injection Hx as <-. injection Hlx as <-.
      destruct (gv_up _ _ _ Gv j t x l w (al_entries a) Hold Hi Hheld) as [Hle Hup].
      pose proof (rm_term _ _ Hmv). split; [lia|]. intros Hr Ht.
      destruct (Hcand Hr) as [Hr' ->]; [lia|]. apply Hup; [done|lia].
    + rewrite lookup_insert_ne in Hx by done; rewrite lookup_insert_ne in Hlx by done. by eapply (gv_up _ _ _ Gv).
  - destruct (decide (i = vote_of w')) as [Hix|Hix].
    + rewrite <- Hix, lookup_insert_eq in Hx; rewrite <- Hix, lookup_insert_eq in Hlx. injection Hx as <-. injection Hlx as <-.
      split; [done|]. intros Hr _.
      rewrite (visit_candidate Pu (mail n) (nk_mail _ _ Nok) i w w' a a' ans Ho Ho' Hv Hr).
      apply at_least_refl.
    + rewrite lookup_insert_ne in Hx by done; rewrite lookup_insert_ne in Hlx by done.
      destruct (visit_casts Pu (mail n) (nk_mail _ _ Nok) i w w' a a' ans Ho Ho' Hv)
        as [[E|E]|[E|(j & m & Hm & Ht & Hj & Hup)]]; [|done|congruence|].
      * exfalso. apply Hfresh. injection E as E1 E2. rewrite E1, E2.
        apply (si_vote _ _ _ _ old_server). congruence.
      * rewrite Hj in *. destruct (gv_ask _ _ _ Gv j m wx lx Hm Hx Hlx) as [Hle Hask]. rewrite <- Ht.
        split; [done|]. intros Hr Htx. apply (asks_at_least a m lx Hf Hup); [by apply Hask|].
        intros y Hy. eapply entry_positive, Hy. left. by exists i.
Qed.

(** *** The log *)
Lemma step_moves bs : polled bs ->
  rtc (council_step V) (mk_council (book c) epoch1 bs (taken c)) (mk_council g' epoch1 bs (taken c)).
Proof.
  intros Pl. pose proof new_term as [Hpos _]. unpack. pose proof (to_uint_term i w' a' Ho' Hpos) as Hk.
  destruct Hmoves as [_|Ha Hr Hr' Ht Hn|e Ha Ht Hn He|j y suf Ha Hr Hn]; [done|apply rtc_once..].
  - rewrite Hk in *. destruct (si_leader _ _ _ _ new_server Hr') as (Q & HQ1 & HQ2 & HQ3).
    refine (council_elect V (mk_council _ _ _ _) i (term_of w') (al_entries a) Q _ _ _ _ _); cbn; try done.
    + by rewrite lookup_insert_eq.
    + intros j Hj. destruct (pl_cast _ Pl j _ _ (HQ3 j Hj)) as [l Hl]. exists l. split; [done|].
      destruct (pl_new _ Pl _ _ _ _ Hl) as [Hold|(-> & _ & _ & -> & _)]; [|apply at_least_refl].
      destruct (gv_up _ _ _ Gv _ _ _ _ w (al_entries a) Hold Hi Hheld) as [_ Hup]. by apply Hup.
  - rewrite Ht in Hk. rewrite Hk in *.
    refine (council_propose V (mk_council _ _ _ _) i (term_of w) (al_entries a) e _ _ _ _); cbn; try done.
    by rewrite Ht, lookup_insert_eq.
  - rewrite Hk in *.
    refine (council_accept V (mk_council _ _ _ _) i (term_of w') j _ (al_entries a) y suf _ _ _ eq_refl);
      cbn; try done. by rewrite lookup_insert_eq.
Qed.

(** *** Acknowledgements *)

(** The log of a follower agrees with the reign up to the entry the message
    names. *)
Lemma named_prefix m j l : reign (book c) !! ae_term m = Some (j, l) -> stretch m l ->
  consistent a (delivered m) ->
  let k := Z.to_nat (ae_prev_log_idx m) in
  (k <= length l)%nat /\ take k (al_entries a) = take k l /\
  ae_entries m `prefix_of` drop k l.
Proof.
  unpack. intros Hl [H0 Hst] Hc k. destruct Hc as [Hz|(x & Hx & Hxt)]; cbn in *.
  { unfold k. rewrite Hz. cbn. split; [lia|]. split; [done|].
    destruct Hst as [(_ & Hp & _)|(_ & Hnz & _)]; [|done]. by rewrite Hz in Hp. }
  assert (1 <= ae_prev_log_idx m) as H1.
  { unfold al_get in Hx. rewrite Hf in Hx. by destruct (Z.leb_spec 1 (ae_prev_log_idx m)). }
  rewrite whole_get in Hx by done.
  assert (1 <= ety_term x) as Hpos.
  { eapply (entry_positive (al_entries a)); [left; by exists i|by eapply list_elem_of_lookup_2]. }
  destruct Hst as [(Hlen & Hp & Hprev)|(_ & _ & Hz)]; [|lia].
  destruct (Hprev ltac:(lia)) as (y & Hy & Hyt). split; [lia|]. split; [|done].
  assert (rooted (book c) (al_entries a) /\ rooted (book c) l) as [R1 R2].
  { split; apply (co_ledger _ _ Cok); [left; by exists i|right; by eexists _, _]. }
  pose proof (rooted_match _ _ _ R1 R2 _ x y Hx Hy ltac:(congruence)) as E.
  by replace (S (Z.to_nat (ae_prev_log_idx m - 1))) with k in E by lia.
Qed.

(** An entry that is present agrees with the reign. *)
Lemma present_agrees m j l y : reign (book c) !! ae_term m = Some (j, l) ->
  term_of w <= ae_term m -> 0 <= ae_prev_log_idx m ->
  l !! Z.to_nat (ae_prev_log_idx m) = Some y -> present w a (ae_prev_log_idx m + 1) [y] ->
  take (S (Z.to_nat (ae_prev_log_idx m))) (al_entries a)
  = take (S (Z.to_nat (ae_prev_log_idx m))) l.
Proof.
  unpack. intros Hl Ht H0 Hy Hpr. destruct (Hpr 0%nat y eq_refl) as (x & Hx & Hxy).
  rewrite Z.add_0_r in *. rewrite whole_get in Hx by lia.
  replace (ae_prev_log_idx m + 1 - 1) with (ae_prev_log_idx m) in Hx by lia.
  destruct Hxy as [Hxy|Hcm].
  - assert (rooted (book c) (al_entries a) /\ rooted (book c) l) as [R1 R2].
    { split; apply (co_ledger _ _ Cok); [left; by exists i|right; by eexists _, _]. }
    by apply (rooted_match _ _ _ R1 R2 _ x y).
  - destruct (gv_commit _ _ _ Gv i w _ Hi Hheld) as [|(Hlen & s & Hs & Hset)]; [lia|].
    pose proof (settled_later V c s _ _ _ _ Cok Hset Hl ltac:(lia)) as Hp.
    apply take_prefix_of in Hp. rewrite length_take in Hp.
    apply (take_shorter _ _ _ (Z.to_nat (commit_of w))); [lia|].
    rewrite <- Hp at 1. f_equal. lia.
Qed.

(** What a message that was accepted tells of the log: the acknowledged entries
    are those of the reign, and what is committed is acknowledged. *)
Lemma step_append p j m r : mail n j (Append m) ->
  raft_recv_appendentries p (delivered m) w = Ok (0, r) w' ->
  (aer_success r = 0 /\ commit_of w' = commit_of w) \/
  exists l k, reign (book c) !! term_of w' = Some (j, l) /\ term_of w' = ae_term m /\
    aer_current_idx r = Z.of_nat k /\ (k <= length l)%nat /\
    take k (al_entries a') = take k l /\
    (commit_of w' = commit_of w \/
     commit_of w' = ae_leader_commit m /\ ae_leader_commit m <= Z.of_nat k).
Proof.
  intros Hm H. pose proof named_prefix as Hnamed. pose proof present_agrees as Hpres.
  unpack. destruct (nk_mail _ _ Nok j _ Hm) as (_ & _ & Hp0 & Hn).
  destruct (gv_append _ _ _ Gv j m Hm) as (l & Hl & Hst & Hprom & _).
  destruct (append_outcome Pu (mail n) (nk_mail _ _ Nok) i w w' a a' Ho Ho' p j m r Hm H) as [_ Hout].
  remember a' as b eqn:Eb in Hout.
  destruct Hout as [Hs Hcm|k1 k2 Hs Hle Ht Hc es new L1 L2 Hpr Hnew Hcur Hcm]; [by left|right].
  cbn [delivered ae_term ae_prev_log_idx ae_leader_commit ae_n_entries ae_entries] in *.
  destruct (Hnamed m j l Hl Hst Hc) as (Hk & Hbase & Hpre). set (k := Z.to_nat (ae_prev_log_idx m)) in *.
  assert ((k + (k1 + k2) <= length l)%nat /\
    take (k + (k1 + k2)) (al_entries a') = take (k + (k1 + k2)) l) as [Hlen Heq].
  { subst a'. destruct (ae_entries m) as [|y ys] eqn:He.
    - unfold es, new in *. cbn in *. rewrite take_nil in L1. cbn in L1. subst k1.
      cbn in *. rewrite take_nil in L2. cbn in L2. subst k2. cbn. by rewrite Nat.add_0_r.
    - assert (l !! k = Some y) as Hy.
      { destruct Hpre as [s Hs']. rewrite <- (Nat.add_0_r k), <- lookup_drop, Hs'. done. }
      pose proof (lookup_lt_Some _ _ _ Hy).
      destruct k1 as [|[|k1]]; [|unfold es, new in *; cbn in *|by unfold es in L1; cbn in L1].
      + destruct k2 as [|[|k2]]; [cbn; by rewrite Nat.add_0_r| |by unfold new in L2; cbn in L2].
        replace (k + (0 + 1))%nat with (S k) by lia. split; [lia|].
        assert (new = [y]) as Enew by done. clearbody new. subst new.
        change (al_appends [y] a) with (al_append y a) in *.
        destruct Hnew as [|Hnone]; [done|]. rewrite Z.add_0_r in Hnone.
        rewrite whole_get in Hnone by lia.
        replace (Z.to_nat (ae_prev_log_idx m + 1 - 1)) with k in Hnone by lia.
        apply lookup_ge_None in Hnone. rewrite take_ge in Hbase by done.
        pose proof (whole_length a Hf). pose proof (whole_length _ (tn_first _ _ _ _ _ Htn)) as Hlast.
        pose proof (lr_cap _ _ (so_log _ _ (ho_server _ _ _ _ Ho'))).
        destruct (whole_append y a Hf) as [_ ->]; [lia|apply (lr_cap _ _ (so_log _ _ (ho_server _ _ _ _ Ho)))|].
        assert (length (al_entries a) = k) as Hka by (rewrite Hbase, length_take; lia).
        rewrite take_ge by (rewrite length_app; cbn; lia). rewrite (take_S_r _ _ _ Hy), <- Hbase.
        do 2 f_equal. assert (to_uint (ae_term m) = ae_term m) as Hk'.
        { rewrite <- Ht. eapply to_uint_term; [exact Ho'|]. pose proof (rm_term _ _ Hmv).
          pose proof (gv_term _ _ _ Gv i w Hi). lia. }
        rewrite <- Hk' in Hl. pose proof (tk_idx _ _ _ _ _ Tr _ _ _ Hl k y Hy) as Hidx.
        replace (al_last a + 1) with (ety_idx y) by lia. by destruct y.
      + destruct k2 as [|k2]; [|done]. cbn.
        replace (k + 1)%nat with (S k) by lia. split; [lia|]. by apply (Hpres m j l y). }
  exists l, (k + (k1 + k2))%nat. rewrite Ht.
  assert (aer_current_idx r = Z.of_nat (k + (k1 + k2))) as Hcur' by lia.
  do 5 (split; [done|]). destruct Hcm as [Hcm|(Hlt & Hcount & Hcm)]; [by left|right].
  pose proof (take_whole _ _ _ Hlen Heq). pose proof (whole_length _ (tn_first _ _ _ _ _ Htn)).
  rewrite Eb in Hcm. rewrite Hcm. pose proof (ho_commit _ _ _ _ Ho).
  unfold c_min, c_max. destruct (Z.ltb_spec (al_last a') 1); destruct (_ <? _) eqn:E;
    try apply Z.ltb_lt in E; lia.
Qed.

Lemma step_log_grows : al_entries a `prefix_of` al_entries a'.
Proof.
  unpack. destruct Hmoves as [E|E _ _ _ _|e E _ _ _|j y suf E _ _]; rewrite E; try done; by eexists.
Qed.

(** What [i] acknowledges is on the list [tk]. *)
Record kept (bs : list (Z * Z * Z * list raft_entry_t)) (tk : list (Z * Z * nat)) : Prop := {
  kp_step : rtc (council_step V) (mk_council g' epoch1 bs (taken c)) (mk_council g' epoch1 bs tk);
  kp_old : taken c ⊆ tk;
  kp_own : role w' = RAFT_STATE_LEADER -> (i, term_of w', length (al_entries a')) ∈ tk;
  kp_ack j r : ans = Some (Ack j r) -> aer_success r <> 0 ->
    (i, aer_term r, Z.to_nat (aer_current_idx r)) ∈ tk
}.

Lemma step_take bs tk j l k : reign g' !! term_of w' = Some (j, l) -> (k <= length l)%nat ->
  take k (al_entries a') = take k l ->
  council_step V (mk_council g' epoch1 bs tk) (mk_council g' epoch1 bs ((i, term_of w', k) :: tk)).
Proof.
  unpack. intros Hl Hk E.
  refine (council_take V (mk_council _ _ _ _) i (term_of w') k (al_entries a') j l _ _ Hl Hk E); cbn.
  - by rewrite lookup_insert_eq.
  - by rewrite (tn_held _ _ _ _ _ Htn), lookup_insert_eq.
Qed.

Lemma visit_acks : (exists p j m r, mail n j (Append m) /\ ans = Some (Ack j r) /\
    raft_recv_appendentries p (delivered m) w = Ok (0, r) w') \/
  forall j r, ans <> Some (Ack j r).
Proof.
  clear - Hv. destruct Hv as [| | | | |p j m r Hm H|]; [by right..| |by right]. left. by exists p, j, m, r.
Qed.

Lemma step_takes bs : exists tk, kept bs tk.
Proof.
  pose proof new_term as [Hpos _]. pose proof (fun tk => step_take bs tk) as Htake.
  pose proof step_append as Happ. pose proof visit_acks as Hacks.
  unpack. pose proof (to_uint_term i w' a' Ho' Hpos) as Hk.
  assert (exists tk, rtc (council_step V) (mk_council g' epoch1 bs (taken c)) (mk_council g' epoch1 bs tk) /\
    taken c ⊆ tk /\
    (role w' = RAFT_STATE_LEADER -> (i, term_of w', length (al_entries a')) ∈ tk)) as (tk & Hs & Hsub & Hown).
  { destruct (decide (role w' = RAFT_STATE_LEADER)) as [Hr|Hr]; [|by exists (taken c)].
    exists ((i, term_of w', length (al_entries a')) :: taken c).
    pose proof (tn_lead _ _ _ _ _ Htn Hr) as Hl. rewrite Hk in Hl. split; [|split; [set_solver|by left]].
    apply rtc_once. by eapply Htake. }
  destruct Hacks as [(p & j & m & r & Hm & Hans & H)|Hno].
  2: { exists tk. split; try done. intros j r E. by destruct (Hno j r). }
  destruct (Happ p j m r Hm H) as [[Hz _]|(l & k & Hl & Ht & Hcur & Hlen & E & _)].
  { exists tk. split; try done. intros j' r'. rewrite Hans. by intros [= <- <-]. }
  destruct (tn_grow _ _ _ _ _ Htn _ _ _ Hl) as (l' & Hl' & _).
  destruct (append_outcome Pu (mail n) (nk_mail _ _ Nok) i w w' a a' Ho Ho' p j m r Hm H) as [Hrt _].
  exists ((i, term_of w', k) :: tk). split.
  - etransitivity; [exact Hs|]. apply rtc_once. eapply Htake; [exact Hl'|rewrite length_app; lia|].
    by rewrite take_app_le.
  - set_solver.
  - intros Hr. right. auto.
  - intros j' r'. rewrite Hans. intros [= <- <-] _. rewrite Hrt, Hcur, Nat2Z.id. by left.
Qed.

(** *** Commitment *)

(** The entries a leader commits are chosen. *)
Lemma step_chosen p j r e : mail n j (Ack i r) -> node_of_sender w p j ->
  raft_recv_appendentries_response p r w = Ok e w' -> commit_of w' <> commit_of w ->
  a' = a /\ commit_of w' <= Z.of_nat (length (al_entries a)) /\
  settled V c (term_of w) (take (Z.to_nat (commit_of w')) (al_entries a)).
Proof.
  intros Hm Hp H Hne. pose proof new_server as Si'. unpack.
  pose proof (so_nodes _ _ (ho_server _ _ _ _ Ho)) as W. pose proof (so_log _ _ (ho_server _ _ _ _ Ho)) as R.
  assert (a' = a) as ->.
  { apply (log_repr_unique w'); [apply (so_log _ _ (ho_server _ _ _ _ Ho'))|].
    eapply log_repr_same, R. by run_keeps H (same log_state) as K. }
  pose proof (nk_mail _ _ Nok j _ Hm) as Hty. cbn in Hty.
  assert (INT_MIN <= aer_current_idx r <= INT_MAX) as Hint by apply Hty.
  destruct (commit_majority_run p r w a e w' W R Hint H Hne)
    as (Hl & Ht & Hs & Hlt & Hidx & (x & Hx & Hxt) & Hmaj).
  pose proof (ho_commit _ _ _ _ Ho) as Hc0. set (k := commit_of w') in *.
  pose proof (whole_length a Hf) as Hlen. split; [done|].
  assert (k <= al_last a) as Hkl.
  { unfold al_get in Hx. destruct (Z.leb_spec k (al_last a)); [done|]. by rewrite andb_false_r in Hx. }
  split; [lia|]. rewrite whole_get in Hx by lia. set (q := Z.to_nat (k - 1)) in *.
  assert (reign (book c) !! term_of w = Some (i, al_entries a)) as Hr.
  { destruct (tk_lead _ _ _ _ _ Tr i w Hi Hl) as (l & Hl1 & Hl2).
    rewrite (to_uint_term i w a Ho) in Hl2 by (by apply (gv_term _ _ _ Gv i)). congruence. }
  rewrite (to_uint_term i w a Ho) in Hxt by (by apply (gv_term _ _ _ Gv i)).
  exists q, i, (al_entries a). split; [|split; [done|]].
  2: { by replace (S q) with (Z.to_nat k) by lia. }
  exists i, (al_entries a), x, (list_to_set (ids_at w' (replicas w' k)) ∪ {[i]}).
  split; [done|]. split; [done|]. split; [done|].
  pose proof (visit_roll Pu (mail n) (nk_mail _ _ Nok) i w w' a a ans Ho Ho' Hv) as Hroll.
  split.
  { apply (counted_quorum cast' i w' (replicas w' k) Si'); [apply filter_nodup, (nw_nodup _ (si_nodes _ _ _ _ Si'))| |done].
    intros b [Hb Hh]%filter_elem. apply holds_spec in Hh as (H1 & H2 & _). done. }
  intros j0 [Hj|Hj]%elem_of_union.
  2: { apply elem_of_singleton in Hj as ->. exists (length (al_entries a)).
       split; [lia|]. by apply (gv_own _ _ _ Gv i w). }
  apply elem_of_list_to_set, ids_at_elem in Hj as (b & [Hb Hh]%filter_elem & Hj).
  apply holds_spec in Hh as (H1 & H2 & m0 & Hm0 & Hle).
  assert (nodes_list (srv w') = nodes_list (srv w) /\ node (srv w') = node (srv w)) as [El En]
    by (unfold roll in Hroll; split; congruence).
  rewrite (roll_id w w' b Hroll) in Hj. rewrite El in Hb.
  assert (is_self_ptr (srv w) b = false) as H1' by (unfold is_self_ptr in *; by rewrite <- En).
  assert (node_sat w votes_here b = true) as H2' by by rewrite <- (roll_votes_here w w').
  assert (forall m1, marks w !! b = Some m1 -> k <= m1 ->
    exists k0, (q < k0)%nat /\ (j0, term_of w, k0) ∈ taken c) as Hold.
  { intros m1 Hm1 Hkm. destruct (gv_match _ _ _ Gv i w b j0 m1 Hi Hl Hb H1' H2' Hj Hm1) as [|Htk]; [lia|].
    exists (Z.to_nat m1). split; [lia|done]. }
  destruct (recv_aer_marks p r w e w' H) as [E|(b1 & -> & E & _ & _)]; rewrite E in Hm0; [by eapply Hold|].
  destruct (decide (b1 = b)) as [->|Hneb]; [|rewrite lookup_insert_ne in Hm0 by done; by eapply Hold].
  cbn in Hp. assert (j = j0) as -> by congruence. exists (Z.to_nat k). split; [lia|].
  rewrite <- Ht, Hidx. destruct (gv_ack _ _ _ Gv j0 i r Hm Hs); [lia|done].
Qed.

Lemma step_commit : committed V c (commit_of w') (term_of w') (al_entries a').
Proof.
  pose proof step_append as Happ. pose proof step_chosen as Hch.
  destruct (decide (commit_of w' = commit_of w)) as [E|Hne].
  { unpack. rewrite E. apply (committed_grows V c c _ (term_of w) _ (al_entries a)); [done|apply (rm_term _ _ Hmv)| |].
    - by eapply step_log_grows.
    - by apply (gv_commit _ _ _ Gv i w). }
  destruct (visit_commit Pu (mail n) i w w' a a' ans (ps_old _ _ _ _ _ _ _ _ _ _ _ _ _ Ps)
    (ps_new _ _ _ _ _ _ _ _ _ _ _ _ _ Ps) V HV cast old_server Hv)
    as [|[(p & j & m & r & Hm & _ & H)|(p & j & r & e & Hm & Hp & H)]]; [done|..].
  - destruct (Happ p j m r Hm H) as [[_ ?]|(l & k & Hl & Ht & _ & Hk & E & [?|[Hc Hle]])]; [done|done|].
    destruct (gv_append _ _ _ Gv j m Hm) as (l0 & Hl0 & _ & _ & Hcm). rewrite Ht in *.
    assert (l0 = l) as -> by congruence. rewrite Hc.
    destruct Hcm as [|(Hlen & s & Hs & Hset)]; [by left|right].
    pose proof (take_whole _ _ _ Hk E). split; [lia|]. exists s. split; [done|].
    by rewrite (take_shorter _ l (Z.to_nat (ae_leader_commit m)) k ltac:(lia) E).
  - destruct (Hch p j r e Hm Hp H Hne) as (-> & Hlen & Hset). right. split; [done|].
    exists (term_of w). split; [|done]. unpack. apply (rm_term _ _ Hmv).
Qed.

(** *** The council after the visit *)
Section After.
Context (bs : list (Z * Z * Z * list raft_entry_t)) (tk : list (Z * Z * nat)).
Context (Pl : polled bs) (Kp : kept bs tk).
Abbreviation c' := (mk_council g' epoch1 bs tk).

Lemma step_council : rtc (council_step V) c c'.
Proof.
  etransitivity; [apply rtc_once, step_epoch|]. etransitivity; [apply (pl_step _ Pl)|].
  etransitivity; [by apply step_moves|]. apply (kp_step _ _ Kp).
Qed.

Lemma step_le : council_le c c'.
Proof. apply (council_steps_le V), step_council. Qed.

Lemma entry_typed_uint x : x ∈ al_entries a' -> is_uint (ety_term x).
Proof.
  unpack. intros Hx. destruct (al_entries_elem w' a' x (so_log _ _ (ho_server _ _ _ _ Ho')) Hx) as [p Hp].
  apply (et_term x). by apply (ty_entries _ _ (ho_typed _ _ _ _ Ho') p).
Qed.

Lemma new_snapshot : snapshot_last_term (srv w') = 0.
Proof.
  rewrite <- (gv_snap _ _ _ Gv i w Hi). destruct (visit_op Pu (mail n) i w w' ans Hv) as [(u & g & ->)|[o H]]; [done|].
  assert (keeps (same (fun w => snapshot_last_term (srv w))) (run_op o)) as Hk by (destruct o; cbn; keeps_solve).
  by apply Hk in H.
Qed.

Lemma new_applied : applied_of w' <= commit_of w'.
Proof.
  pose proof (gv_applied _ _ _ Gv i w Hi) as Hle.
  destruct (visit_op Pu (mail n) i w w' ans Hv) as [(u & g & ->)|[o H]]; [done|].
  apply run_op_hist in H as [(_ & _ & _ & Ha) _]. auto.
Qed.

Lemma visit_sends m : ans <> Some (Ask m).
Proof. clear - Hv. by destruct Hv. Qed.

(** The letters that [i] sends. *)
Lemma new_ask m : honest_letter w' (Ask m) -> rv_term m = term_of w' /\ asks (al_entries a') m.
Proof.
  pose proof entry_typed_uint as Hty.
  unpack. intros (b & R & Hm). assert (b = a') as -> by (apply (log_repr_unique w'); [done|apply (ho_server _ _ _ _ Ho')]).
  split; [by destruct Hm as [_ ->]|]. eapply honest_asks; [apply (tn_first _ _ _ _ _ Htn)| |exact Hm].
  unfold al_last_term. destruct (al_get a' (al_last a')) as [x|] eqn:Hx.
  - apply Hty. unfold al_get in Hx. destruct (_ && _); [|done]. by eapply list_elem_of_lookup_2.
  - pose proof (is_uint_to_uint 0) as H0. rewrite to_uint_small in H0; [done|].
    pose proof INT_MAX_ge. lia.
Qed.

Lemma new_append m : honest_letter w' (Append m) -> exists l, reign g' !! ae_term m = Some (i, l) /\
  stretch m l /\ promised V c' m l.
Proof.
  pose proof step_commit as Hcm. pose proof new_snapshot as Hsn. pose proof entry_typed_uint as Hty.
  pose proof new_term as [Hpos _]. pose proof step_le as Le.
  unpack. intros (b & R & Hm). assert (b = a') as -> by (apply (log_repr_unique w'); [done|apply (ho_server _ _ _ _ Ho')]).
  pose proof (tn_first _ _ _ _ _ Htn) as Hf'. pose proof Hm as (Hr & next & k & _ & _ & E).
  assert (ae_term m = term_of w') as -> by by rewrite E.
  pose proof (tn_lead _ _ _ _ _ Htn Hr) as Hl. rewrite (to_uint_term i w' a' Ho' Hpos) in Hl.
  exists (al_entries a'). split; [done|]. split; [by eapply honest_stretch|].
  eapply promised_grows; [exact Le|reflexivity|]. by eapply honest_promised.
Qed.

(** The letters on the way after the visit. *)
Lemma posted j l : sent_mail (mail n) i w' ans j l -> mail n j l \/ j = i /\ (honest_letter w' l \/ ans = Some l).
Proof. done. Qed.

Lemma after_ask x m v lx : mail n' x (Ask m) -> host n' !! x = Some v -> held g' !! x = Some lx ->
  rv_term m <= term_of v /\ (role v = RAFT_STATE_CANDIDATE -> term_of v = rv_term m -> asks lx m).
Proof.
  pose proof step_candidate as Hcand. pose proof new_ask as Hnew. pose proof visit_sends as Hsends.
  unpack. cbn [host mail]. rewrite (tn_held _ _ _ _ _ Htn).
  intros [Hm|[-> [Hm|Hm]]]; [|destruct (Hnew m Hm) as [E Hasks]|by destruct (Hsends m)].
  - rewrite !lookup_insert_Some. intros [[<- <-]|[Hne Hx]] [[E <-]|[Hne' Hlx]]; try done.
    + destruct (gv_ask _ _ _ Gv i m w (al_entries a) Hm Hi Hheld) as [Hle Hasks].
      pose proof (rm_term _ _ Hmv). split; [lia|]. intros Hr Ht.
      destruct (Hcand Hr) as [Hr' ->]; [lia|]. apply Hasks; [done|lia].
    + by eapply (gv_ask _ _ _ Gv).
  - rewrite !lookup_insert_eq. intros [= <-] [= <-]. split; [lia|done].
Qed.

Lemma after_append j m : mail n' j (Append m) -> exists l, reign g' !! ae_term m = Some (j, l) /\
  stretch m l /\ promised V c' m l.
Proof.
  pose proof step_le as Le. pose proof new_append as Hnew. unpack. cbn [mail].
  intros [Hm|[-> [Hm|Hm]]]; [|by apply Hnew|by destruct (visit_answer Pu _ _ _ _ _ m Hv Hm)].
  destruct (gv_append _ _ _ Gv j m Hm) as (l & Hl & Hs & Hp).
  destruct (cl_reign _ _ Le _ _ _ Hl) as [l' Hl']. exists (l ++ l'). split; [exact Hl'|].
  assert (l `prefix_of` l ++ l') as Hpre by by exists l'.
  split; [by eapply stretch_grows|by eapply promised_grows].
Qed.

Lemma after_ack j k r : mail n' j (Ack k r) -> aer_success r <> 0 ->
  aer_current_idx r <= 0 \/ (j, aer_term r, Z.to_nat (aer_current_idx r)) ∈ tk.
Proof.
  cbn [mail]. intros [Hm|[-> [(b & _ & [])|Hm]]] Hs.
  - destruct (gv_ack _ _ _ Gv j k r Hm Hs); [by left|right]. by apply (kp_old _ _ Kp).
  - right. by eapply (kp_ack _ _ Kp).
Qed.

Lemma after_match k v b j m : host n' !! k = Some v -> role v = RAFT_STATE_LEADER ->
  b ∈ nodes_list (srv v) -> is_self_ptr (srv v) b = false -> node_sat v votes_here b = true ->
  node_id_at v b = Some j -> marks v !! b = Some m ->
  m <= 0 \/ (j, term_of v, Z.to_nat m) ∈ tk.
Proof.
  pose proof old_server as Si. unpack. cbn [host]. rewrite lookup_insert_Some.
  intros [[<- <-]|[Hne Hk]] Hl Hb Hs Hp Hj Hm.
  2: { destruct (gv_match _ _ _ Gv k v b j m Hk Hl Hb Hs Hp Hj Hm); [by left|right]. by apply (kp_old _ _ Kp). }
  pose proof (visit_roll Pu (mail n) (nk_mail _ _ Nok) i w w' a a' ans Ho Ho' Hv) as Hroll.
  destruct (decide (role w = RAFT_STATE_LEADER)) as [Hw|Hw].
  2: { left. pose proof (visit_elected Pu (mail n) i w w' a a' ans Ho Ho' V HV cast Si
         Hv Hw Hl b Hb Hs Hp) as Hu. unfold unmatched in Hu. rewrite Hu in Hm. by injection Hm as <-. }
  destruct (rm_leader _ _ Hmv Hl) as [Ht _]. rewrite Ht.
  assert (nodes_list (srv w') = nodes_list (srv w) /\ node (srv w') = node (srv w)) as [El En]
    by (unfold roll in Hroll; split; congruence).
  rewrite El in Hb. rewrite (roll_id w w' b Hroll) in Hj. rewrite (roll_votes_here w w' b Hroll) in Hp.
  assert (is_self_ptr (srv w) b = false) as Hs' by (unfold is_self_ptr in *; by rewrite <- En).
  assert (forall m0, marks w !! b = Some m0 -> m0 <= 0 \/ (j, term_of w, Z.to_nat m0) ∈ tk) as Hold.
  { intros m0 Hm0. destruct (gv_match _ _ _ Gv i w b j m0 Hi Hw Hb Hs' Hp Hj Hm0); [by left|right].
    by apply (kp_old _ _ Kp). }
  destruct (visit_marks Pu (mail n) (nk_mail _ _ Nok) i w w' a a' ans Ho Ho' V HV cast Si Hv Hw)
    as [E|(j1 & r & b1 & Hack & Hj1 & E & Htr & Hsu)]; rewrite E in Hm; [by apply Hold|].
  rewrite lookup_insert_Some in Hm. destruct Hm as [[-> <-]|[_ Hm]]; [|by apply Hold].
  assert (j1 = j) as -> by congruence. rewrite <- Htr.
  destruct (gv_ack _ _ _ Gv j i r Hack Hsu); [by left|right]. by apply (kp_old _ _ Kp).
Qed.

Lemma after_commit k v l : host n' !! k = Some v -> held g' !! k = Some l ->
  committed V c' (commit_of v) (term_of v) l.
Proof.
  pose proof step_le as Le. pose proof step_commit as Hcm. unpack. cbn [host].
  rewrite (tn_held _ _ _ _ _ Htn), !lookup_insert_Some.
  intros [[<- <-]|[Hne Hk]] [[E <-]|[Hne' Hl]]; try done.
  - by eapply committed_grows; [exact Le|..].
  - eapply committed_grows; [exact Le|reflexivity|reflexivity|]. by apply (gv_commit _ _ _ Gv k).
Qed.

Lemma step_governed : governed cast' n' c'.
Proof.
  pose proof new_term as [Hpos Hrole]. pose proof new_snapshot as Hsnap. pose proof (step_up bs Pl) as Hup.
  pose proof new_applied as Happ. unpack. pose proof (tn_held _ _ _ _ _ Htn) as Eh.
  split; cbn [host book epoch ballots taken].
  - intros j v. rewrite !lookup_insert_Some. intros [[<- <-]|[Hne Hj]]; [by left|right].
    split; [done|]. by apply (gv_epoch _ _ _ Gv).
  - intros j v. rewrite lookup_insert_Some. intros [[<- <-]|[Hne Hj]]; [done|].
    by apply (gv_term _ _ _ Gv j).
  - intros j v. rewrite lookup_insert_Some. intros [[<- <-]|[Hne Hj]]; [done|].
    by apply (gv_role _ _ _ Gv j).
  - intros j v. rewrite lookup_insert_Some. intros [[<- <-]|[Hne Hj]]; [done|].
    by apply (gv_snap _ _ _ Gv j).
  - intros t j l Hl. destruct (tn_new _ _ _ _ _ Htn _ _ _ Hl) as [H|(_ & -> & Hr & _)];
      [by eapply (gv_reign _ _ _ Gv)|]. rewrite (to_uint_term i w' a' Ho' Hpos). auto.
  - apply (pl_cast _ Pl).
  - apply (pl_ballot _ Pl).
  - exact Hup.
  - exact after_ask.
  - exact after_append.
  - exact after_ack.
  - exact after_match.
  - intros j v l. rewrite Eh, !lookup_insert_Some. intros [[<- <-]|[Hne Hj]] Hl [[E <-]|[Hne' Hlj]]; try done.
    + by apply (kp_own _ _ Kp).
    + apply (kp_old _ _ Kp). by apply (gv_own _ _ _ Gv j v).
  - exact after_commit.
  - intros j v. rewrite lookup_insert_Some. intros [[<- <-]|[Hne Hj]]; [done|].
    by apply (gv_applied _ _ _ Gv j).
Qed.
End After.

(** A visit is a sequence of steps of the council. *)
Lemma visit_council : exists c', rtc (council_step V) c c' /\ book c' = g' /\ governed cast' n' c'.
Proof.
  destruct step_vote as [bs Pl]. destruct (step_takes bs) as [tk Kp].
  exists (mk_council g' epoch1 bs tk). split; [by apply step_council|]. split; [done|].
  by apply step_governed.
Qed.
End Step.
End Council.
