(* ===== verification/Agreement.v ===== *)
(** * Agreement

    The servers of a network implement the council of [Council.v], as long as no
    log has been full, and the commit index of a server never passes what was
    chosen.  Hence a later leader has every entry that some server has committed,
    and no two servers commit different entries at an index. *)
From S2P Require Import Prelude Contiki Types Node Membership Log Server Election Replication.
From S2P Require Import Sim NodeFacts Frames History LogFacts MemberFacts ElectionFacts Roles.
From S2P Require Import Campaign Sending Receiving Commit Fixed Ranges Conflict Cluster Outbox Growth.
From S2P Require Import Acks Network Ledger Council Matching Visits Claims Sessions.

Section Agreement.
Context {T : CTarget} {C : Contiki} {L : ContikiLaws C} {U : User} (Pu : udata -> Prop).
Context (V : gset Z) (HV : (1 < stdpp.base.size V)%nat).
Implicit Types w : world.
Abbreviation host_ok := (host_ok Pu).
Abbreviation visit := (visit Pu).
Abbreviation network_step := (network_step Pu).
Abbreviation network_ok := (network_ok Pu).
Abbreviation tracked := (tracked Pu V).
Abbreviation passage := (passage Pu V).
Abbreviation governed := (governed V).

(** ** Runs *)

(** The network [n] implements the council [c]. *)
Record convened (n : network) (c : council) : Prop := {
  cv_network : network_ok n;
  cv_votes : exists cast cl, cluster_inv V cast cl /\ votes_posted n cl /\
    tracked cast n (book c) /\ governed cast n c;
  cv_council : council_ok V c
}.

Lemma convened_step n n' c : convened n c -> network_step n n' -> roomy n' ->
  exists c', rtc (council_step V) c c' /\ convened n' c'.
Proof.
  intros [Nok (cast & cl & HI & Hp & Tr & Gv) Cok] Hs Hr.
  assert (network_ok n') as Nok' by by eapply network_step_ok.
  destruct Hs as [i w w' ans Hi Hv].
  destruct (network_passage Pu V cast cl n (book c) i w w' ans HV Nok HI Hp Tr (co_ledger _ _ Cok) Hi Hv Hr)
    as (cast' & cl' & a & a' & g' & HI' & Hp' & Ps).
  destruct (visit_council Pu V HV cast cast' n c cl cl' i w w' a a' ans g' Gv Cok Nok HI Hp HI' Hp' Hi Hv Tr Ps)
    as (c' & Hc & Hb & Gv').
  exists c'. split; [done|]. split; [done| |by eapply council_steps_ok].
  exists cast', cl'. split_and!; try done. rewrite Hb. apply Ps.
Qed.

Lemma convened_run n n' c : convened n c -> rtc network_step n n' -> roomy n' ->
  exists c', rtc (council_step V) c c' /\ convened n' c'.
Proof.
  intros Hc Hs Hr. revert c Hc. induction Hs as [n|n n1 n2 H1 Hs IH]; intros c Hc; [by exists c|].
  pose proof (network_step_ok Pu n n1 (cv_network _ _ Hc) H1) as Hok1.
  destruct (convened_step n n1 c Hc H1) as (c1 & Hc1 & Hv1); [by eapply roomy_steps_back|].
  destruct (IH Hr c1 Hv1) as (c2 & Hc2 & Hv2). exists c2. split; [by etransitivity|done].
Qed.

(** The start: nothing was voted, committed or applied. *)
Record newborn (w : world) : Prop := {
  nb_term : term_of w = 0;
  nb_commit : commit_of w = 0;
  nb_applied : applied_of w = 0;
  nb_snap : snapshot_last_term (srv w) = 0
}.

Lemma opening_convened n : opening Pu V n -> (forall i w, host n !! i = Some w -> newborn w) ->
  exists c, unmet c /\ convened n c.
Proof.
  intros Op Hnew. pose proof (opening_ok Pu V n Op) as Nok.
  destruct (opening_tracked Pu V n Op) as (g & Hb & Tr & Hg). pose proof Op as [Hr Hh Hm].
  set (c := mk_council g (term_of <$> host n) [] []).
  assert (unmet c) as Hu.
  { split; try done. intros j l Hl. cbn. rewrite lookup_fmap.
    by apply fmap_is_Some, (Hg j l). }
  exists c. split; [done|]. split; [done| |by apply unmet_ok].
  exists (fun _ _ _ => False), (mk_cluster (host n) []). split; [by apply ready_inv|].
  split; [by apply (opening_cluster Pu V)|]. split; [done|].
  assert (forall i w, host n !! i = Some w -> role w = RAFT_STATE_FOLLOWER) as Hrole
    by (intros i w Hi; apply (rd_role _ _ _ (Hr i w Hi))).
  split; cbn; try done.
  - intros i w Hi. by rewrite lookup_fmap, Hi.
  - intros i w Hi. by rewrite (nb_term _ (Hnew i w Hi)).
  - intros i w Hi. rewrite (Hrole i w Hi). by intros [|].
  - intros i w Hi. apply (nb_snap _ (Hnew i w Hi)).
  - intros t i l. destruct Hb as [_ ->]. by rewrite lookup_empty.
  - by intros j t x l ?%elem_of_nil.
  - by intros j t x l w lx ?%elem_of_nil.
  - intros x m w lx Hx. by destruct (Hm x (Ask m)).
  - intros i m Hx. by destruct (Hm i (Append m)).
  - intros j i r Hx. by destruct (Hm j (Ack i r)).
  - intros i w b j m Hi. by rewrite (Hrole i w Hi).
  - intros i w l Hi. by rewrite (Hrole i w Hi).
  - intros i w l Hi _. left. by rewrite (nb_commit _ (Hnew i w Hi)).
  - intros i w Hi. by rewrite (nb_applied _ (Hnew i w Hi)), (nb_commit _ (Hnew i w Hi)).
Qed.

End Agreement.

(** ** What the council says of the servers *)
Section Agreed.
Context {T : CTarget} {C : Contiki} {L : ContikiLaws C} {U : User} (Pu : udata -> Prop).
Context (V : gset Z).
Implicit Types w : world.
Abbreviation convened := (convened Pu V).

Lemma convened_log n c i w a : convened n c -> host n !! i = Some w -> log_repr w a ->
  al_first a = 1 /\ held (book c) !! i = Some (al_entries a) /\ 0 <= commit_of w /\
  committed V c (commit_of w) (term_of w) (al_entries a).
Proof.
  intros [_ (cast & cl & _ & _ & Tr & Gv) _] Hi R. destruct (tk_held _ _ _ _ _ Tr i w Hi) as (b & Ho & Hf & Hb).
  assert (b = a) as -> by (by apply (log_repr_unique w); [apply (ho_server _ _ _ _ Ho)|]).
  split_and!; try done; [apply (ho_commit _ _ _ _ Ho)|by apply (gv_commit _ _ _ _ Gv i)].
Qed.

Lemma convened_leader n c i w a : convened n c -> host n !! i = Some w -> log_repr w a ->
  role w = RAFT_STATE_LEADER -> reign (book c) !! term_of w = Some (i, al_entries a).
Proof.
  intros Hc Hi R Hl. destruct (convened_log n c i w a Hc Hi R) as (_ & Hheld & _).
  destruct Hc as [_ (cast & cl & _ & _ & Tr & Gv) _].
  destruct (tk_lead _ _ _ _ _ Tr i w Hi Hl) as (l & Hl' & Hk).
  destruct (tk_held _ _ _ _ _ Tr i w Hi) as (b & Ho & _).
  rewrite (to_uint_term Pu i w b Ho (gv_term _ _ _ _ Gv i w Hi)) in Hk. congruence.
Qed.

Lemma convened_epoch n c i w : convened n c -> host n !! i = Some w -> epoch c !! i = Some (term_of w).
Proof. intros [_ (cast & cl & _ & _ & _ & Gv) _]. apply (gv_epoch _ _ _ _ Gv). Qed.
Lemma convened_applied n c i w : convened n c -> host n !! i = Some w -> applied_of w <= commit_of w.
Proof. intros [_ (cast & cl & _ & _ & _ & Gv) _]. apply (gv_applied _ _ _ _ Gv). Qed.

(** Two logs that agree on their first [n] entries. *)
Lemma whole_agree a b n k : al_first a = 1 -> al_first b = 1 ->
  take (Z.to_nat n) (al_entries a) = take (Z.to_nat n) (al_entries b) -> k <= n ->
  al_get a k = al_get b k.
Proof.
  intros Fa Fb E Hk. destruct (decide (1 <= k)) as [H1|H1].
  - rewrite !whole_get by done. rewrite <- (lookup_take_lt _ (Z.to_nat n)) by lia. rewrite E.
    by rewrite lookup_take_lt by lia.
  - unfold al_get. rewrite Fa, Fb. by destruct (Z.leb_spec 1 k); [lia|].
Qed.

(** Committed entries at two moments agree. *)
Lemma committed_agree n1 n2 c1 c2 i1 i2 w1 w2 a1 a2 k :
  convened n1 c1 -> convened n2 c2 -> rtc (council_step V) c1 c2 ->
  host n1 !! i1 = Some w1 -> host n2 !! i2 = Some w2 -> log_repr w1 a1 -> log_repr w2 a2 ->
  k <= commit_of w1 -> k <= commit_of w2 -> al_get a1 k = al_get a2 k.
Proof.
  intros C1 C2 Hs Hi1 Hi2 R1 R2 K1 K2.
  destruct (convened_log n1 c1 i1 w1 a1 C1 Hi1 R1) as (F1 & _ & _ & M1).
  destruct (convened_log n2 c2 i2 w2 a2 C2 Hi2 R2) as (F2 & _ & _ & M2).
  apply (committed_shorter V c1 k) in M1; [|done]. apply (committed_shorter V c2 k) in M2; [|done].
  apply (whole_agree a1 a2 k); try done. destruct M1 as [Hk|(L1 & s1 & _ & S1)].
  { by replace (Z.to_nat k) with 0%nat by lia. }
  destruct M2 as [Hk|(L2 & s2 & _ & S2)]; [by replace (Z.to_nat k) with 0%nat by lia|].
  apply (settled_le V c1 c2) in S1; [|by eapply council_steps_le].
  destruct (settled_agree V c2 s1 s2 _ _ (cv_council _ _ _ _ C2) S1 S2) as [Hp|Hp];
    apply take_prefix_of in Hp; rewrite length_take, take_take in Hp.
  - rewrite <- Hp. f_equal. lia.
  - rewrite <- Hp. f_equal. lia.
Qed.

(** A leader has what was committed before, in a term up to its own. *)
Lemma committed_led n1 n2 c1 c2 i1 i2 w1 w2 a1 a2 k :
  convened n1 c1 -> convened n2 c2 -> rtc (council_step V) c1 c2 ->
  host n1 !! i1 = Some w1 -> host n2 !! i2 = Some w2 -> log_repr w1 a1 -> log_repr w2 a2 ->
  role w2 = RAFT_STATE_LEADER -> term_of w1 <= term_of w2 -> k <= commit_of w1 ->
  al_get a1 k = al_get a2 k.
Proof.
  intros C1 C2 Hs Hi1 Hi2 R1 R2 Hl Ht K1.
  destruct (convened_log n1 c1 i1 w1 a1 C1 Hi1 R1) as (F1 & _ & _ & M1).
  destruct (convened_log n2 c2 i2 w2 a2 C2 Hi2 R2) as (F2 & _ & _ & _).
  pose proof (convened_leader n2 c2 i2 w2 a2 C2 Hi2 R2 Hl) as Hr.
  apply (committed_shorter V c1 k) in M1; [|done].
  apply (whole_agree a1 a2 k); try done. destruct M1 as [Hk|(L1 & s & Hs' & S)].
  { by replace (Z.to_nat k) with 0%nat by lia. }
  apply (settled_le V c1 c2) in S; [|by eapply council_steps_le].
  pose proof (settled_later V c2 s _ _ _ _ (cv_council _ _ _ _ C2) S Hr ltac:(lia)) as Hp.
  apply take_prefix_of in Hp. rewrite length_take in Hp. rewrite <- Hp. f_equal. lia.
Qed.

(** What is committed is in the log. *)
Lemma committed_present n c i w a k : convened n c -> host n !! i = Some w -> log_repr w a ->
  1 <= k <= commit_of w -> is_Some (al_get a k).
Proof.
  intros Hc Hi R Hk. destruct (convened_log n c i w a Hc Hi R) as (F & _ & _ & [|(Hl & _)]); [lia|].
  rewrite whole_get by (done || lia). apply lookup_lt_is_Some_2. lia.
Qed.
End Agreed.
