(* ===== verification/AppFacts.v ===== *)
(** * The application: packets, bounds, start *)
From S2P Require Import Prelude Contiki Types Node Membership Log Server Election Replication.
From S2P Require Import Wire App Sim NodeFacts Frames History LogFacts MemberFacts.
From S2P Require Import ElectionFacts Roles Campaign Sending Lifecycle.

#[local] Remove Hints sim_user : typeclass_instances.

(** ** What is sent *)
Section Packets.
Context {C : Contiki} {P : Platform C}.

Implicit Types (s u : app_state).

(** From [s] to [s'] the bytes [packet] were sent and nothing else was. *)
Record sent (packet : list Z) (s s' : app_state) : Prop := {
  sent_net : netflood s' =
    netflood_send (netflood_seq s mod 256) (packetbuf_copyfrom packet (netflood s));
  sent_id : sv_node_id s' = sv_node_id s;
  sent_seq : netflood_seq s' = netflood_seq s + 1;
  sent_room : length (stage_buffer s') = PACKETBUF_SIZE;
  sent_defined : undefined s' = undefined s || negb (int_ok (netflood_seq s + 1))
}.

(** The layout of a packet: receiver, sender, type, message. *)
Definition packet_of (dest src : Z) (t : peer_message_type_e) (bs : list Z) : list Z :=
  put_int dest ++ put_int src ++ message_code t :: bs.

Lemma store_ok off bs s : (off + length bs <= length (stage_buffer s))%nat ->
  store off bs s = with_stage_buffer
    (take off (stage_buffer s) ++ bs ++ drop (off + length bs) (stage_buffer s)) s.
Proof. intros H. unfold store. by rewrite decide_True. Qed.

Lemma splice_length {A} off (bs l : list A) : (off + length bs <= length l)%nat ->
  length (take off l ++ bs ++ drop (off + length bs) l) = length l.
Proof. intros H. rewrite !length_app, length_take, length_drop. lia. Qed.

Lemma stored_length off bs s n : (off + length bs <= length (stage_buffer s))%nat ->
  length (stage_buffer s) = n ->
  length (stage_buffer (with_stage_buffer
    (take off (stage_buffer s) ++ bs ++ drop (off + length bs) (stage_buffer s)) s)) = n.
Proof. intros H <-. by apply splice_length. Qed.

Lemma mask_code t : Z.land 255 (message_code t) = message_code t.
Proof. by destruct t. Qed.

Lemma send_data_sent bs rest nodeid s :
  stage_buffer s = (bs ++ rest) -> (length bs + 4 <= PACKETBUF_SIZE)%nat ->
  length (stage_buffer s) = PACKETBUF_SIZE ->
  sent (put_int nodeid ++ put_int (sv_node_id s) ++ bs) s (send_data (length bs) nodeid s).
Proof.
  intros Hb Hfit HP. unfold send_data. rewrite Hb, take_app_length.
  change (2 * sizeof_short)%nat with 4%nat. change sizeof_short with 2%nat.
  rewrite (store_ok 4) by lia.
  set (s1 := with_stage_buffer _ s).
  assert (length (stage_buffer s1) = PACKETBUF_SIZE) as L1 by (apply stored_length; [lia|done]).
  rewrite (store_ok 0) by (rewrite L1; cbn; lia). set (s2 := with_stage_buffer _ s1).
  assert (length (stage_buffer s2) = PACKETBUF_SIZE) as L2
    by (apply stored_length; [rewrite L1; cbn; lia|done]).
  rewrite (store_ok 2) by (rewrite L2; cbn; lia). set (s3 := with_stage_buffer _ s2).
  assert (length (stage_buffer s3) = PACKETBUF_SIZE) as L3
    by (apply stored_length; [rewrite L2; cbn; lia|done]).
  assert (take (length bs + 4) (stage_buffer s3)
          = (put_int nodeid ++ put_int (sv_node_id s) ++ bs)) as ->.
  { destruct (stage_buffer s) as [|x1 [|x2 [|x3 [|x4 l]]]] eqn:E; cbn in HP; try lia.
    unfold s3, s2, s1. rewrite ?E, Nat.add_comm. cbn.
    by rewrite drop_0, take_0, app_nil_l, take_app_length. }
  unfold with_netflood. cbn [netflood netflood_seq stage_buffer sv_node_id undefined
    with_netflood_seq].
  case_match eqn:Hi; split; cbn [netflood netflood_seq stage_buffer sv_node_id undefined
    with_netflood_seq mark_undefined]; try done.
  - change (netflood_seq s3) with (netflood_seq s) in Hi. rewrite Hi, orb_false_r. done.
  - change (netflood_seq s3) with (netflood_seq s) in Hi. rewrite Hi, orb_true_r. done.
Qed.

(** The buffer after the type and the message are written. *)
Lemma stage_message_ok t bs u : (1 + length bs <= PACKETBUF_SIZE)%nat ->
  exists rest,
    store 1 bs (store 0 [Z.land 255 (message_code t)] (memset_stage u))
    = with_stage_buffer (message_code t :: bs ++ rest) u /\
    (1 + length bs + length rest = PACKETBUF_SIZE)%nat.
Proof.
  intros H. rewrite mask_code. destruct PACKETBUF_SIZE as [|n] eqn:E; [lia|].
  rewrite (store_ok 0) by (cbn; rewrite E, length_replicate; cbn; lia).
  rewrite store_ok; cbn [stage_buffer with_stage_buffer memset_stage]; rewrite E; cbn.
  - exists (drop (length bs) (replicate n 0)). split; [done|].
    rewrite length_drop, length_replicate. lia.
  - rewrite drop_0, length_replicate. lia.
Qed.

Lemma sent_stage packet u v s' : sent packet (with_stage_buffer v u) s' -> sent packet u s'.
Proof. intros [H1 H2 H3 H4 H5]. by split. Qed.

Lemma send_message_sent t bs dest u : (5 + length bs <= PACKETBUF_SIZE)%nat ->
  sent (packet_of dest (sv_node_id u) t bs) u (send_message t bs dest u).
Proof.
  intros H. unfold send_message.
  destruct (stage_message_ok t bs u) as (rest & -> & Hrest); [lia|].
  set (u' := with_stage_buffer _ u).
  apply (sent_stage _ u (message_code t :: bs ++ rest)).
  apply (send_data_sent (message_code t :: bs) rest dest u'); cbn; [done|lia|].
  rewrite length_app. lia.
Qed.

(** *** The entries of an appendentries packet *)

(** The entries that fit. *)
Fixpoint staged (n off : nat) (etys : list raft_entry_t) : list raft_entry_t :=
  match n, etys with
  | O, _ | _, [] => []
  | S n', ety :: rest =>
      ety :: match rest with
             | [] => []
             | _ =>
                 if decide (PACKETBUF_SIZE <= off + sizeof_entry + sizeof_entry)%nat then []
                 else staged n' (off + sizeof_entry) rest
             end
  end.

Definition entry_bytes (etys : list raft_entry_t) : list Z :=
  concat (map (encode_entry 0) etys).

Lemma entry_bytes_length etys : length (entry_bytes etys) = (sizeof_entry * length etys)%nat.
Proof.
  unfold entry_bytes. induction etys as [|e l IH]; [done|].
  cbn [map concat length]. rewrite length_app, IH, encode_entry_length. unfold sizeof_entry. lia.
Qed.

Lemma staged_prefix n off etys : staged n off etys `prefix_of` etys.
Proof.
  revert n off. induction etys as [|e l IH]; intros [|n] off; cbn; try apply prefix_nil.
  destruct l as [|e' l]; [by exists []|].
  apply prefix_cons. case_decide; [apply prefix_nil|apply IH].
Qed.

Lemma staged_all n off etys : length etys = n ->
  (off + sizeof_entry * n < PACKETBUF_SIZE)%nat -> staged n off etys = etys.
Proof.
  revert n off. induction etys as [|e l IH]; intros n off <- H; [done|].
  cbn [staged length]. f_equal. destruct l as [|e' l]; [done|].
  cbn [length] in H. unfold sizeof_entry in *. rewrite decide_False by lia.
  apply (IH (length (e' :: l))); [done|]. cbn [length]. lia.
Qed.

(** The copies end before the buffer does. *)
Lemma staged_end n off etys : (off + sizeof_entry < PACKETBUF_SIZE)%nat ->
  (off + sizeof_entry * length (staged n off etys) < PACKETBUF_SIZE)%nat.
Proof.
  revert n off. induction etys as [|e l IH]; intros [|n] off H; cbn [staged length]; try lia.
  destruct l as [|e' l]; [unfold sizeof_entry in *; cbn [length]; lia|]. case_decide as D; [cbn [length]; lia|].
  assert (off + sizeof_entry + sizeof_entry < PACKETBUF_SIZE)%nat as H' by lia.
  specialize (IH n _ H'). cbn [length]. lia.
Qed.

Lemma stage_entries_ok n etys pre rest s :
  stage_buffer s = (pre ++ rest) -> length (stage_buffer s) = PACKETBUF_SIZE ->
  (length pre + sizeof_entry < PACKETBUF_SIZE)%nat -> (n <> O -> etys <> []) ->
  let st := staged n (length pre) etys in
  stage_entries n (length pre) etys s
  = ((length pre + sizeof_entry * length st)%nat,
     with_stage_buffer (pre ++ entry_bytes st ++ drop (sizeof_entry * length st) rest) s).
Proof.
  revert n pre rest s. induction etys as [|e l IH]; intros [|n] pre rest s Hb HP Hoff Hne;
    cbn [staged stage_entries].
  - unfold sizeof_entry. cbn. rewrite Nat.add_0_r, drop_0, <- Hb. by destruct s.
  - by destruct Hne.
  - unfold sizeof_entry. cbn. rewrite Nat.add_0_r, drop_0, <- Hb. by destruct s.
  - assert (store (length pre) (encode_entry 0 e) s
      = with_stage_buffer ((pre ++ encode_entry 0 e) ++ drop sizeof_entry rest) s) as ->.
    { rewrite store_ok by (rewrite encode_entry_length; lia). rewrite Hb, encode_entry_length.
      rewrite take_app_length, <- drop_drop, drop_app_length, <- app_assoc. done. }
    set (s1 := with_stage_buffer _ s).
    assert (length (pre ++ encode_entry 0 e) = length pre + sizeof_entry)%nat as Hpre
      by (by rewrite length_app, encode_entry_length).
    assert (entry_bytes [e] = encode_entry 0 e) as He1 by (unfold entry_bytes; cbn; done).
    assert (length (stage_buffer s1) = PACKETBUF_SIZE) as L1.
    { unfold s1. cbn [stage_buffer with_stage_buffer]. rewrite length_app, Hpre, length_drop.
      rewrite Hb, length_app in HP. lia. }
    destruct l as [|e' l].
    + cbn [length]. rewrite He1. rewrite (Nat.mul_1_r sizeof_entry), app_assoc. done.
    + case_decide as D.
      * cbn [length]. rewrite He1. rewrite (Nat.mul_1_r sizeof_entry), app_assoc. done.
      * rewrite <- Hpre. rewrite (IH n (pre ++ encode_entry 0 e) (drop sizeof_entry rest) s1);
          [|done|done|rewrite Hpre; lia|done].
        set (st := staged n (length (pre ++ encode_entry 0 e)) (e' :: l)).
        cbn [length]. rewrite Hpre. f_equal; [lia|].
        unfold s1. unfold with_stage_buffer. cbn [sv_node_id netflood_seq netflood undefined].
        f_equal. change (entry_bytes (e :: st)) with (encode_entry 0 e ++ entry_bytes st).
        rewrite drop_drop, <- !app_assoc. do 4 f_equal. lia.
Qed.

(** The packet [app_send_appendentries] sends. *)
Lemma app_send_appendentries_sent u n m :
  (24 < PACKETBUF_SIZE)%nat -> (0 < ae_n_entries m -> ae_entries m <> []) ->
  let st := staged (Z.to_nat (ae_n_entries m)) 11 (ae_entries m) in
  (15 + sizeof_entry * length st <= PACKETBUF_SIZE)%nat ->
  sent (packet_of (id n) (sv_node_id u) MSG_APPENDENTRIES
          (encode_appendentries m ++ entry_bytes st))
    u (snd (app_send_appendentries u n m)).
Proof.
  intros HP Hne st Hst. unfold app_send_appendentries.
  destruct (stage_message_ok MSG_APPENDENTRIES (encode_appendentries m ++ put_int 0) u)
    as (rest & -> & Hrest); [cbn; lia|].
  change (length (encode_appendentries m ++ put_int 0)) with 12%nat in Hrest.
  set (u' := with_stage_buffer _ u).
  set (pre := message_code MSG_APPENDENTRIES :: encode_appendentries m).
  change (1 + sizeof_appendentries - sizeof_ptr)%nat with (length pre).
  assert (stage_buffer u' = (pre ++ put_int 0 ++ rest)) as Hu'.
  { unfold u', pre. cbn [stage_buffer with_stage_buffer]. by rewrite <- app_assoc. }
  rewrite (stage_entries_ok _ _ pre (put_int 0 ++ rest) u' Hu').
  2:{ rewrite Hu', length_app. cbn. lia. }
  2:{ unfold pre, sizeof_entry. cbn. lia. }
  2:{ intros Hn. apply Hne. lia. }
  cbn [snd]. change (length pre) with 11%nat. fold st.
  set (tail := drop _ _). set (u2 := with_stage_buffer _ u').
  assert (length (pre ++ entry_bytes st) = 11 + sizeof_entry * length st)%nat as Hlen
    by (rewrite length_app, entry_bytes_length; done).
  rewrite <- Hlen. apply (sent_stage _ u (pre ++ entry_bytes st ++ tail)).
  assert (u2 = with_stage_buffer (pre ++ entry_bytes st ++ tail) u) as <- by done.
  change (packet_of _ _ _ _)
    with (put_int (id n) ++ put_int (sv_node_id u2) ++ pre ++ entry_bytes st).
  apply (send_data_sent (pre ++ entry_bytes st) tail).
  - unfold u2. cbn [stage_buffer with_stage_buffer]. by rewrite <- app_assoc.
  - lia.
  - unfold u2, tail. cbn [stage_buffer with_stage_buffer].
    rewrite !length_app, entry_bytes_length, length_drop, length_app.
    change (length pre) with 11%nat. change (length (put_int 0)) with 2%nat. lia.
Qed.
End Packets.

(** ** What is received *)
Section Delivery.
Context {C : Contiki} {P : Platform C}.

Implicit Types (u : app_state) (w : world).

Lemma load_ok pre bs post n off w : length pre = off -> length bs = n ->
  load (pre ++ bs ++ post) off n w = Ok bs w.
Proof.
  intros <- <-. unfold load. rewrite decide_True by (rewrite !length_app; lia).
  by rewrite drop_app_length, take_app_length.
Qed.

(** A packet is dropped unless it is addressed to the receiver; otherwise its
    message goes to the handler of its type. *)
Lemma recv_packet dest src t bs junk w : uint16 src ->
  recv (packet_of dest src t bs ++ junk) w =
  if sv_node_id (user_data w) =? to_uint dest
  then (exec! dispatch (message_code t) (packet_of dest src t bs ++ junk) 4 src in ret 1) w
  else Ok 1 w.
Proof.
  intros Hs. set (mem := (packet_of dest src t bs ++ junk)).
  assert (mem = ([] ++ put_int dest ++ put_int src ++ message_code t :: bs ++ junk)) as E0
    by (unfold mem, packet_of; by rewrite <- !app_assoc).
  assert (mem = (put_int dest ++ put_int src ++ message_code t :: bs ++ junk)) as E2 by done.
  assert (mem = ((put_int dest ++ put_int src) ++ [message_code t] ++ bs ++ junk)) as E4 by done.
  unfold recv. rewrite E0 at 1. rewrite (bind_ok_l _ _ _ _ _ (load_ok [] (put_int dest) _ _ _ w eq_refl eq_refl)).
  rewrite bind_gets_l. rewrite <- (app_nil_r (put_int dest)), uint_at_put.
  destruct (_ =? _); cbn [negb]; [|done].
  rewrite E2 at 1. rewrite (bind_ok_l _ _ _ _ _ (load_ok (put_int dest) (put_int src) _ _ _ w eq_refl eq_refl)).
  rewrite <- (app_nil_r (put_int src)), uint_at_put, (uint16_to_uint src Hs). cbv zeta.
  rewrite E4 at 1. by rewrite (bind_ok_l _ _ _ _ _ (load_ok (put_int dest ++ put_int src) [message_code t] (bs ++ junk) _ _ w eq_refl eq_refl)).
Qed.

(** The message of a packet, behind the header and the type. *)
Lemma load_message dest src t bs post n w : length bs = n ->
  load (packet_of dest src t bs ++ post) (4 + 1) n w = Ok bs w.
Proof.
  intros Hn. assert (packet_of dest src t bs ++ post
    = ((put_int dest ++ put_int src ++ [message_code t]) ++ bs ++ post)) as -> by done.
  by apply load_ok.
Qed.

Lemma load_entries_ok pre etys post i w : Forall entry16 etys ->
  (sizeof_entry * (i + length etys) <= PAYLOAD_SIZE)%nat ->
  load_entries (pre ++ entry_bytes etys ++ post) (length etys) i (length pre) w
  = Ok (map (pair 0) etys) w.
Proof.
  intros Hes. revert pre i. induction Hes as [|e l He Hl IH]; intros pre i Hi; [done|].
  cbn [length load_entries map] in *.
  rewrite decide_True by (unfold sizeof_entry in *; lia). rewrite bind_ret_l.
  change (entry_bytes (e :: l)) with (encode_entry 0 e ++ entry_bytes l).
  rewrite <- app_assoc, (bind_ok_l _ _ _ _ _ (load_ok pre (encode_entry 0 e) _ _ _ w eq_refl eq_refl)).
  assert (length pre + sizeof_entry = length (pre ++ encode_entry 0 e))%nat as ->
    by (by rewrite length_app).
  rewrite app_assoc. rewrite (bind_ok_l _ _ _ _ _ (IH (pre ++ encode_entry 0 e) (i + 1)%nat ltac:(lia))).
  by rewrite entry_roundtrip.
Qed.

(** More entries than the buffer on the stack holds. *)
Lemma load_entries_overrun mem n i off w : n <> O ->
  (PAYLOAD_SIZE < sizeof_entry * (i + n))%nat ->
  load_entries mem n i off w = Fault WildDeref.
Proof.
  revert i off. induction n as [|n IH]; intros i off Hn Hi; [done|]. cbn [load_entries].
  case_decide as D; [|done]. rewrite bind_ret_l. unfold load. case_decide; [|done].
  rewrite bind_ret_l. unfold bind. rewrite IH; [done| |].
  - intros ->. unfold sizeof_entry in *. lia.
  - unfold sizeof_entry in *. lia.
Qed.

Lemma wire_chain_sent etys : wire_chain (map (pair 0) etys) = take 1 etys.
Proof. by destruct etys as [|e [|]]. Qed.

(** What a node makes of a packet with a vote request, or a response, in it. *)
Lemma recv_requestvote dest src m junk w : uint16 src -> requestvote16 m ->
  recv (packet_of dest src MSG_REQUESTVOTE (encode_requestvote m) ++ junk) w =
  if sv_node_id (user_data w) =? to_uint dest
  then (let! node := raft_get_node (to_int src) in
        exec! answer_requestvote node src m in ret 1) w
  else Ok 1 w.
Proof.
  intros Hs Hm. rewrite recv_packet by done. destruct (_ =? _); [|done].
  unfold dispatch. rewrite message_of_code_code.
  unfold handle_msg_requestvote. rewrite bind_assoc. apply bind_cong. intros p w' _.
  rewrite bind_assoc, (bind_ok_l _ _ _ _ _ (load_message _ _ _ (encode_requestvote m) _ sizeof_requestvote w' eq_refl)).
  by rewrite requestvote_roundtrip.
Qed.

Lemma recv_requestvote_response dest src r junk w : uint16 src -> requestvote_response16 r ->
  recv (packet_of dest src MSG_REQUESTVOTE_RESPONSE (encode_requestvote_response r) ++ junk) w =
  if sv_node_id (user_data w) =? to_uint dest
  then (let! node := raft_get_node (to_int src) in exec! count_vote node r in ret 1) w
  else Ok 1 w.
Proof.
  intros Hs Hr. rewrite recv_packet by done. destruct (_ =? _); [|done].
  unfold dispatch. rewrite message_of_code_code.
  unfold handle_msg_requestvote_response. rewrite bind_assoc. apply bind_cong. intros p w' _.
  rewrite bind_assoc, (bind_ok_l _ _ _ _ _ (load_message _ _ _ (encode_requestvote_response r) _ sizeof_requestvote_response w' eq_refl)).
  by rewrite requestvote_response_roundtrip.
Qed.

Lemma recv_appendentries_response dest src r junk w : uint16 src -> appendentries_response16 r ->
  recv (packet_of dest src MSG_APPENDENTRIES_RESPONSE (encode_appendentries_response r) ++ junk) w =
  if sv_node_id (user_data w) =? to_uint dest
  then (let! node := raft_get_node (to_int src) in
        exec! match node with
              | None => ret tt
              | Some _ => let! _ := raft_recv_appendentries_response node r in ret tt
              end in ret 1) w
  else Ok 1 w.
Proof.
  intros Hs Hr. rewrite recv_packet by done. destruct (_ =? _); [|done].
  unfold dispatch. rewrite message_of_code_code.
  unfold handle_msg_appendentries_response. rewrite bind_assoc. apply bind_cong. intros [p|] w' _; [|done].
  rewrite bind_assoc, (bind_ok_l _ _ _ _ _ (load_message _ _ _ (encode_appendentries_response r) _ sizeof_appendentries_response w' eq_refl)).
  by rewrite appendentries_response_roundtrip.
Qed.

(** C34: a vote request put on the network by the callback is delivered: only
    the peer it is sent to reacts, and that peer answers exactly the request the
    library made, as coming from the sender. *)
Theorem requestvote_delivered u n m :
  (13 <= PACKETBUF_SIZE)%nat -> requestvote16 m -> uint16 (sv_node_id u) ->
  exists packet, sent packet u (snd (app_send_requestvote u n m)) /\
    forall junk w, recv (packet ++ junk) w =
      if sv_node_id (user_data w) =? to_uint (id n)
      then (let! node := raft_get_node (to_int (sv_node_id u)) in
            exec! answer_requestvote node (sv_node_id u) m in ret 1) w
      else Ok 1 w.
Proof.
  intros HP Hm Hu. eexists. split; [by apply send_message_sent|]. intros junk w.
  by apply recv_requestvote.
Qed.

(** The responses are delivered: the peer a response is sent to processes
    the response the library produced, an appendentries response only when it
    knows the sender. *)
Theorem responses_delivered u dest rvr aer :
  (13 <= PACKETBUF_SIZE)%nat -> uint16 (sv_node_id u) ->
  requestvote_response16 rvr -> appendentries_response16 aer ->
  (exists packet,
    sent packet u (send_message MSG_REQUESTVOTE_RESPONSE (encode_requestvote_response rvr) dest u) /\
    forall junk w, recv (packet ++ junk) w =
      if sv_node_id (user_data w) =? to_uint dest
      then (let! node := raft_get_node (to_int (sv_node_id u)) in
            exec! count_vote node rvr in ret 1) w
      else Ok 1 w) /\
  (exists packet,
    sent packet u (send_message MSG_APPENDENTRIES_RESPONSE (encode_appendentries_response aer) dest u) /\
    forall junk w, recv (packet ++ junk) w =
      if sv_node_id (user_data w) =? to_uint dest
      then (let! node := raft_get_node (to_int (sv_node_id u)) in
            exec! match node with
                  | None => ret tt
                  | Some _ => let! _ := raft_recv_appendentries_response node aer in ret tt
                  end in ret 1) w
      else Ok 1 w).
Proof.
  intros HP Hu Hv Ha. split; (eexists; split; [apply send_message_sent; cbn; lia|]; intros junk w).
  - by apply recv_requestvote_response.
  - by apply recv_appendentries_response.
Qed.
End Delivery.

(** ** Appendentries messages *)
Section Entries.
Context {C : Contiki} {P : Platform C}.

Implicit Types (u : app_state) (w : world).

(** What the handler runs once the header and the entries are loaded. *)
Lemma handle_appendentries_loaded dest src m body junk w :
  appendentries16 m ->
  let mem := (packet_of dest src MSG_APPENDENTRIES (encode_appendentries m ++ body) ++ junk) in
  handle_msg_appendentries mem 4 src w =
  (let! node := raft_get_node (to_int src) in
   let! l := load_entries mem (Z.to_nat (ae_n_entries m)) 0 15 in
   answer_appendentries node src
     (mk_appendentries (ae_term m) (ae_prev_log_idx m) (ae_prev_log_term m) (ae_leader_commit m)
        (ae_n_entries m) (wire_chain l))) w.
Proof.
  intros Hm mem. unfold handle_msg_appendentries. apply bind_cong. intros node w' _.
  assert (mem = (packet_of dest src MSG_APPENDENTRIES (encode_appendentries m) ++ body ++ junk))
    as -> by (unfold mem, packet_of; by rewrite <- !app_assoc).
  rewrite (bind_ok_l _ _ _ _ _ (load_message dest src _ (encode_appendentries m) _ _ w' eq_refl)).
  rewrite appendentries_roundtrip by done. cbn [ae_n_entries]. apply bind_cong. intros l w'' _.
  by rewrite appendentries_roundtrip.
Qed.

(** The packet the callback sends, when the entries fit. *)
Lemma appendentries_staged u n m :
  ae_n_entries m = Z.of_nat (length (ae_entries m)) -> (24 < PACKETBUF_SIZE)%nat ->
  (15 + sizeof_entry * length (ae_entries m) <= PACKETBUF_SIZE)%nat ->
  sent (packet_of (id n) (sv_node_id u) MSG_APPENDENTRIES
          (encode_appendentries m ++ entry_bytes (ae_entries m)))
    u (snd (app_send_appendentries u n m)).
Proof.
  intros Hn HP Hfit.
  assert (Z.to_nat (ae_n_entries m) = length (ae_entries m)) as Hnat by lia.
  assert (staged (length (ae_entries m)) 11 (ae_entries m) = ae_entries m) as Hst
    by (apply staged_all; [done|lia]).
  rewrite <- Hst at 1. rewrite <- Hnat. apply app_send_appendentries_sent; [done| |].
  - intros Hpos Hnil. rewrite Hnil in Hn. cbn in Hn. lia.
  - by rewrite Hnat, Hst.
Qed.

(** What its receiver does. *)
Lemma appendentries_received dest src m junk w :
  appendentries16 m -> Forall entry16 (ae_entries m) -> uint16 src ->
  ae_n_entries m = Z.of_nat (length (ae_entries m)) ->
  (15 + sizeof_entry * length (ae_entries m) <= PACKETBUF_SIZE)%nat ->
  recv (packet_of dest src MSG_APPENDENTRIES
          (encode_appendentries m ++ entry_bytes (ae_entries m)) ++ junk) w =
  if sv_node_id (user_data w) =? to_uint dest
  then (let! node := raft_get_node (to_int src) in
        exec! answer_appendentries node src
          (mk_appendentries (ae_term m) (ae_prev_log_idx m) (ae_prev_log_term m)
             (ae_leader_commit m) (ae_n_entries m) (take 1 (ae_entries m))) in ret 1) w
  else Ok 1 w.
Proof.
  intros Hm Hes Hu Hn Hfit.
  assert (Z.to_nat (ae_n_entries m) = length (ae_entries m)) as Hnat by lia.
  rewrite recv_packet by done. destruct (_ =? _); [|done].
  unfold dispatch. rewrite message_of_code_code.
  set (l := ae_entries m) in *.
  rewrite (bind_cong_l _ _ _ _ (handle_appendentries_loaded _ _ m (entry_bytes l) junk w Hm)).
  rewrite bind_assoc, Hnat. apply bind_cong. intros node w' _.
  assert (packet_of dest src MSG_APPENDENTRIES (encode_appendentries m ++ entry_bytes l) ++ junk
    = ((packet_of dest src MSG_APPENDENTRIES (encode_appendentries m))
       ++ entry_bytes l ++ junk)) as -> by (unfold packet_of; by rewrite <- !app_assoc).
  change 15%nat with (length (packet_of dest src MSG_APPENDENTRIES (encode_appendentries m))).
  rewrite bind_assoc.
  rewrite (bind_ok_l _ _ _ _ _ (load_entries_ok _ l junk 0 w' Hes
    ltac:(unfold PAYLOAD_SIZE, HEADER_SIZE; lia))).
  by rewrite wire_chain_sent.
Qed.

(** C35: an appendentries message whose entries fit a packet is delivered with
    its header, but only the first of its entries can be reached by the library:
    the links between the entries are not sent, so that at most one entry of a
    message is stored per round. *)
Theorem appendentries_delivered u n m :
  appendentries16 m -> Forall entry16 (ae_entries m) -> uint16 (sv_node_id u) ->
  ae_n_entries m = Z.of_nat (length (ae_entries m)) ->
  (24 < PACKETBUF_SIZE)%nat ->
  (15 + sizeof_entry * length (ae_entries m) <= PACKETBUF_SIZE)%nat ->
  exists packet, sent packet u (snd (app_send_appendentries u n m)) /\
    forall junk w, recv (packet ++ junk) w =
      if sv_node_id (user_data w) =? to_uint (id n)
      then (let! node := raft_get_node (to_int (sv_node_id u)) in
            exec! answer_appendentries node (sv_node_id u)
              (mk_appendentries (ae_term m) (ae_prev_log_idx m) (ae_prev_log_term m)
                 (ae_leader_commit m) (ae_n_entries m) (take 1 (ae_entries m))) in ret 1) w
      else Ok 1 w.
Proof.
  intros Hm Hes Hu Hn HP Hfit. eexists. split; [by apply appendentries_staged|].
  intros junk w. by apply appendentries_received.
Qed.

(** C40: a message may announce more entries than it carries, and more than the
    buffer the receiver keeps on its stack for them: the entries that do not fit
    the packet are left out, but their number is sent as it is.  The receiver
    then writes past the end of that buffer or reads past the end of the
    packet. *)
Theorem appendentries_overrun u n m junk w p :
  appendentries16 m -> uint16 (sv_node_id u) ->
  ae_n_entries m = Z.of_nat (length (ae_entries m)) ->
  PACKETBUF_SIZE = 128%nat -> 10 < ae_n_entries m ->
  sv_node_id (user_data w) = to_uint (id n) ->
  raft_get_node (to_int (sv_node_id u)) w = Ok p w ->
  exists packet, sent packet u (snd (app_send_appendentries u n m)) /\
    (length packet <= PACKETBUF_SIZE)%nat /\
    recv (packet ++ junk) w = Fault WildDeref.
Proof.
  intros Hm Hu Hn HP Hlarge Hdest Hp.
  set (st := staged (Z.to_nat (ae_n_entries m)) 11 (ae_entries m)).
  pose proof (staged_end (Z.to_nat (ae_n_entries m)) 11 (ae_entries m)) as Hend. fold st in Hend.
  assert (15 + sizeof_entry * length st <= PACKETBUF_SIZE)%nat as Hfit
    by (unfold sizeof_entry in *; lia).
  eexists. split; [apply app_send_appendentries_sent; [lia| |done]|].
  { intros _ Hnil. rewrite Hnil in Hn. cbn in Hn. lia. }
  fold st. split.
  { unfold packet_of. rewrite !length_app. cbn [length].
    rewrite length_app, entry_bytes_length. cbn [length put_int].
    change (length (encode_appendentries m)) with 10%nat. lia. }
  rewrite recv_packet by done. rewrite Hdest, Z.eqb_refl.
  unfold dispatch. rewrite message_of_code_code.
  rewrite (bind_cong_l _ _ _ _ (handle_appendentries_loaded _ _ m _ junk w Hm)).
  rewrite bind_assoc, (bind_ok_l _ _ _ _ _ Hp).
  unfold bind. rewrite load_entries_overrun; [done|lia|].
  unfold PAYLOAD_SIZE, HEADER_SIZE, sizeof_entry. lia.
Qed.

(** C38: the callbacks stay within the buffer of the program.  Whatever the
    message and however many entries it has, staging it and making room for the
    header writes at most [PACKETBUF_SIZE] bytes, and nothing else the callbacks
    do is undefined while the sequence number is below [INT_MAX]. *)
Theorem callbacks_in_bounds u n rv ae t bs dest :
  PACKETBUF_SIZE = 128%nat -> undefined u = false -> int_ok (netflood_seq u + 1) = true ->
  (0 < ae_n_entries ae -> ae_entries ae <> []) -> (length bs <= sizeof_requestvote)%nat ->
  Forall (fun u' => undefined u' = false /\ length (stage_buffer u') = PACKETBUF_SIZE /\
            sv_node_id u' = sv_node_id u /\ netflood_seq u' = netflood_seq u + 1)
    [snd (app_send_requestvote u n rv); snd (app_send_appendentries u n ae);
     send_message t bs dest u].
Proof.
  intros HP Hu Hseq Hne Hbs.
  assert (forall packet u', sent packet u u' ->
    undefined u' = false /\ length (stage_buffer u') = PACKETBUF_SIZE /\
    sv_node_id u' = sv_node_id u /\ netflood_seq u' = netflood_seq u + 1) as Hsent.
  { intros packet u' [_ ? ? ? Hd]. rewrite Hd, Hu, Hseq. done. }
  repeat apply List.Forall_cons; [..|apply List.Forall_nil]; eapply Hsent.
  - apply send_message_sent. cbn. lia.
  - apply app_send_appendentries_sent; [lia|done|].
    pose proof (staged_end (Z.to_nat (ae_n_entries ae)) 11 (ae_entries ae)).
    unfold sizeof_entry in *. lia.
  - apply send_message_sent. unfold sizeof_requestvote in Hbs. lia.
Qed.
End Entries.
