(* ===== verification/AppStart.v ===== *)
(** * The application: its start and its client *)
From S2P Require Import Prelude Contiki Types Node Membership Log Server Election Replication.
From S2P Require Import Wire App Sim NodeFacts Frames History LogFacts MemberFacts.
From S2P Require Import ElectionFacts Roles Campaign Sending Lifecycle AppFacts.

#[local] Remove Hints sim_user : typeclass_instances.

(** ** The start of the program *)
Section Start.
Context {C : Contiki} {L : ContikiLaws C} {P : Platform C}.

Implicit Types w : world.

Lemma fresh_same w w' : stable_state w' = stable_state w -> hist_of w' = hist_of w ->
  role_of w' = role_of w -> snapshot_last_idx (srv w') = snapshot_last_idx (srv w) ->
  timer_ok w' -> fresh w -> fresh w'.
Proof.
  intros HS HH HR Hs Ht [].
  assert (log_state w' = log_state w /\ node_state w' = node_state w /\
          voting_cfg_change_log_idx (srv w') = voting_cfg_change_log_idx (srv w))
    as (E1 & E2 & E3) by (unfold stable_state in HS; split_and!; congruence).
  injection E1 as E1 E1' E1''. injection E2 as E2 E2' E2'' E2''' E2''''.
  split; try congruence.
  unfold pools_empty in *. congruence.
Qed.

(** A started server with more members is still one. *)
Lemma started_grow self cbs w w' : started self cbs w ->
  nodes_wf w' -> nodes_list (srv w) ⊆ nodes_list (srv w') ->
  node (srv w') = node (srv w) ->
  (forall b, b ∈ nodes_list (srv w) -> node_id_at w' b = node_id_at w b) ->
  log_state w' = log_state w -> settings w' = settings w ->
  role_of w' = role_of w -> hist_of w' = hist_of w ->
  snapshot_last_idx (srv w') = snapshot_last_idx (srv w) ->
  started self cbs w'.
Proof.
  intros [[W1 (a & Hn & Ha) R Hok Ht Hper] Hs Hr Hh Hself Hcb Hlog] W' Hin Hnode Hids Hl Hset Hr' Hh' Hsn.
  pose proof Hset as Hset'. injection Hset' as Hc He _. split; try congruence.
  - split; [done| |by eapply log_repr_same|done| |].
    + exists a. split; [congruence|by apply Hin].
    + unfold timer_ok in *. congruence.
    + unfold persists in *. by rewrite Hc.
  - unfold no_snapshot in *. injection Hl as -> _ _. by rewrite Hsn.
  - unfold self_id in *. by rewrite Hnode, Hn, Hids in *.
  - by injection Hl as -> _ _.
Qed.

Lemma raft_funcs_persist : cbs_persist raft_funcs.
Proof. split; by intros f [= <-]. Qed.

(** The library after its creation and its settings, before any node. *)
Definition settle : M world unit :=
  exec! raft_new in
  let! u := gets user_data in
  exec! raft_set_callbacks raft_funcs u in
  exec! raft_set_election_timeout ELECTION_TIMEOUT in
  raft_set_request_timeout REQUEST_TIMEOUT.

Lemma settle_ok w : pools_empty w -> 0 < CLOCK_SECOND -> CLOCK_SECOND * 100 <= 32768 ->
  exists w', settle w = Ok tt w' /\ fresh w' /\ cb (srv w') = raft_funcs /\
    (log_cb (lg w'), log_raft (lg w')) = (SServer, SServer) /\
    settings w' = (raft_funcs, CLOCK_SECOND * 50, CLOCK_SECOND * 8) /\
    CLOCK_SECOND * 50 <= election_timeout_rand (srv w') < CLOCK_SECOND * 100 /\
    user_data w' = user_data w.
Proof.
  intros Hp Hc1 Hc2.
  assert (forall k, 0 <= k < 100 -> to_int (T := sky) (CLOCK_SECOND * k) = CLOCK_SECOND * k) as Hk.
  { intros k Hk. apply to_int_small. change INT_MAX with 32767. nia. }
  unfold settle. destruct (raft_new_ok (T := sky) w Hp) as (w1 & H1 & F1 & _ & U1).
  rewrite (bind_ok_l _ _ _ _ _ H1), bind_gets_l.
  destruct (raft_set_callbacks_fresh (T := sky) raft_funcs (user_data w1) w1 F1)
    as (w2 & H2 & F2 & Hcb2 & Hlog2 & _ & U2).
  rewrite (bind_ok_l _ _ _ _ _ H2). unfold ELECTION_TIMEOUT, REQUEST_TIMEOUT. rewrite !Hk by lia.
  destruct (raft_set_election_timeout_run (T := sky) (CLOCK_SECOND * 50) w2)
    as (w3 & H3 & E3 & B3 & S3 & Hh3 & R3 & C3 & Sn3 & U3); [lia|change INT_MAX with 32767; lia|].
  rewrite (bind_ok_l _ _ _ _ _ H3). eexists. split; [reflexivity|].
  assert (log_state w3 = log_state w2) as Kl by (unfold stable_state in S3; congruence).
  split_and!; cbn; try lia; try congruence.
  - apply (fresh_same w2); try done. split; cbn; rewrite E3; [lia|]. change INT_MAX with 32767. lia.
  - by injection Kl as -> _ _.
  - unfold settings. cbn. by rewrite E3, C3, Hcb2.
  - rewrite U3, U2, U1; [done|]. unfold log_quiet. rewrite Hcb2. by intros f [= <-].
Qed.

(** The calls of [main_process] that [settle] makes. *)
Lemma settle_then {A} (k : unit -> M world A) w :
  bind settle k w =
  (exec! raft_new in
   let! u := gets user_data in
   exec! raft_set_callbacks raft_funcs u in
   exec! raft_set_election_timeout ELECTION_TIMEOUT in
   exec! raft_set_request_timeout REQUEST_TIMEOUT in k tt) w.
Proof.
  unfold settle. rewrite bind_assoc. apply bind_cong. intros [] w1 _.
  rewrite bind_assoc. apply bind_cong. intros u w2 _.
  rewrite bind_assoc. apply bind_cong. intros [] w3 _.
  rewrite bind_assoc. apply bind_cong. intros [] w4 _. apply bind_cong. by intros [] w5 _.
Qed.

Lemma main_process_run node_id w :
  pools_empty w -> 1 <= node_id <= 5 -> 0 < CLOCK_SECOND -> CLOCK_SECOND * 100 <= 32768 ->
  exists w', main_process node_id w = Ok tt w' /\
    started node_id raft_funcs w' /\
    members w' = map Node.init
      (node_id :: List.filter (fun i => negb (i =? node_id)) [1; 2; 3; 4; 5]) /\
    sv_node_id (user_data w') = node_id /\
    election_timeout (srv w') = CLOCK_SECOND * 50 /\
    CLOCK_SECOND * 50 <= election_timeout_rand (srv w') < CLOCK_SECOND * 100 /\
    request_timeout (srv w') = CLOCK_SECOND * 8 /\
    netflood (user_data w') =
      netflood_open (to_int (CLOCK_SECOND * 2)) 132 (netflood (user_data w)).
Proof.
  intros Hp Hid Hc1 Hc2.
  assert (to_uint (T := sky) node_id = node_id) as Hu by (apply uint16_to_uint; unfold uint16; lia).
  assert (to_int (T := sky) (to_uint node_id) = node_id) as Hi
    by (rewrite Hu; apply to_int_small; change INT_MAX with 32767; lia).
  unfold main_process, update_app. rewrite !bind_modify_l. set (w0 := with_rand_state _ _).
  destruct (settle_ok w0 Hp Hc1 Hc2) as (w4 & H4 & F4 & Hcb4 & Hlog4 & Set4 & B4 & U4).
  rewrite <- (settle_then (fun _ => _)), (bind_ok_l _ _ _ _ _ H4).
  destruct (add_self_started (T := sky) raft_funcs (to_int (to_uint node_id)) w4 F4 raft_funcs_persist Hcb4 Hlog4)
    as (p & w5 & H5 & S5 & M5 & Set5 & B5 & U5).
  rewrite (bind_ok_l _ _ _ _ _ H5).
  set (ids := List.filter (fun i => negb (i =? node_id)) [1; 2; 3; 4; 5]).
  destruct (raft_add_nodes_run (T := sky) ids w5) as (w6 & H6 & W6 & M6 & I6 & N6 & D6); [apply S5|].
  assert (foreach [1; 2; 3; 4; 5] (fun i => if i =? to_uint node_id then ret tt
    else let! _ := raft_add_node i false in ret tt) w5 = Ok tt w6) as H6'
    by (by rewrite foreach_skip, Hu).
  rewrite (bind_ok_l _ _ _ _ _ H6'). unfold next_random. rewrite !bind_assoc, bind_gets_l.
  run_keeps H6 (same log_state) as K1. run_keeps H6 (same settings) as K2.
  run_keeps H6 (same role_of) as K3. run_keeps H6 (same hist_of) as K4.
  run_keeps H6 (same (fun w => (snapshot_last_idx (srv w), election_timeout_rand (srv w)))) as K5.
  run_keeps H6 (same user_data) as K6. unfold same in *. injection K5 as K5 K7.
  assert (settings w6 = (raft_funcs, CLOCK_SECOND * 50, CLOCK_SECOND * 8)) as Set6 by congruence.
  injection Set6 as _ Et6 Rt6. rewrite B5 in K7.
  destruct (random_rand _) as [r g]. rewrite bind_assoc, !bind_modify_l. cbv beta.
  rewrite bind_ret_l, bind_modify_l. eexists. split; [reflexivity|].
  split_and!; try done; cbn; rewrite ?K7; try lia.
  - apply (started_grow _ _ w5); [by rewrite <- Hi|..]; try done.
    by apply (nodes_wf_same w6).
  - change (members w6 = map Node.init (node_id :: ids)). rewrite M6, M5, Hi. unfold ids.
    assert (node_id = 1 \/ node_id = 2 \/ node_id = 3 \/ node_id = 4 \/ node_id = 5) as Hn by lia.
    destruct Hn as [->|[->|[->|[->| ->]]]]; reflexivity.
  - rewrite K6, U5, U4. exact Hu.
  - by rewrite K6, U5, U4.
Qed.

(** C36: the start of the program.  On empty pools and with a tick for which the
    timeouts fit an [int], [main_process] ends, and leaves the server of a
    cluster of five voting members with its own node first, in the state every
    theorem about the library starts from: a follower of term 0 that has not
    voted, with an empty log and the callbacks of the program, among them
    functions that store the term and the vote without error. *)
Theorem main_process_establishes node_id w :
  pools_empty w -> 1 <= node_id <= 5 -> 0 < CLOCK_SECOND -> CLOCK_SECOND * 100 <= 32768 ->
  exists w', main_process node_id w = Ok tt w' /\
    started node_id raft_funcs w' /\
    members w' = map Node.init
      (node_id :: List.filter (fun i => negb (i =? node_id)) [1; 2; 3; 4; 5]) /\
    sv_node_id (user_data w') = node_id /\
    election_timeout (srv w') = CLOCK_SECOND * 50 /\
    CLOCK_SECOND * 50 <= election_timeout_rand (srv w') < CLOCK_SECOND * 100 /\
    request_timeout (srv w') = CLOCK_SECOND * 8.
Proof.
  intros Hp Hid Hc1 Hc2.
  destruct (main_process_run node_id w Hp Hid Hc1 Hc2) as (w' & ? & ? & ? & ? & ? & ? & ? & _).
  by exists w'.
Qed.
End Start.

(** ** The client *)
Section Client.
Context {C : Contiki} {P : Platform C}.

Implicit Types w : world.

(** The proposal of the bytes of a value to the library. *)
Definition propose {A} (v : Z) (a : A) : M world A :=
  let! i := next_random in
  let! _ := raft_recv_entry (client_entry i (put_int v)) in ret a.

Lemma update_app_ok f w : update_app f w = Ok tt (with_user_data (f (user_data w)) w).
Proof. done. Qed.

(** A known leader is not taken for an unknown one. *)
Lemma no_leader_known i : 0 <= i <= 32767 -> no_leader (to_uint i) = false.
Proof.
  intros Hi. unfold no_leader. change (16 <? int_bits) with false. cbv iota.
  rewrite (uint16_to_uint i) by (unfold uint16; lia).
  rewrite (uint16_to_uint i) by (unfold uint16; lia).
  change (to_uint (-1)) with 65535. apply Z.eqb_neq. lia.
Qed.

(** The value a client draws, and the state after the draw. *)
Definition drawn w : Z := Z.rem (fst (random_rand (rand_state w))) 10.
Definition after_draw w : world := with_rand_state (snd (random_rand (rand_state w))) w.

(** The client of a server that knows the leader, once the message is staged. *)
Lemma client_known_leader w a ld :
  (7 <= PACKETBUF_SIZE)%nat -> node_heap w !! a = Some ld -> 0 <= id ld <= 32767 ->
  current_leader (srv w) = Some a ->
  exists rest, (3 + length rest = PACKETBUF_SIZE)%nat /\
    let buffer := (message_code MSG_CLIENT :: put_int (drawn w) ++ rest) in
    client_new_message w =
      (if negb (id ld =? sv_node_id (user_data w))
       then update_app (send_data (1 + sizeof_client_message) (id ld))
       else handle_msg_client buffer 0 (id ld))
      (with_user_data (with_stage_buffer buffer (user_data w)) (after_draw w)).
Proof.
  intros HP Ha Hid Hl.
  destruct (stage_message_ok MSG_CLIENT (put_int (drawn w)) (user_data w)) as (rest & Hst & Hrest);
    [cbn; lia|]. exists rest. split; [exact Hrest|]. cbv zeta. rewrite <- Hst.
  unfold client_new_message, next_random. rewrite bind_assoc, bind_gets_l.
  unfold drawn, after_draw in *. destruct (random_rand _) as [r g]. cbn [fst snd] in *.
  rewrite bind_assoc, bind_modify_l, bind_ret_l.
  unfold raft_get_current_leader, raft_get_current_leader_node. rewrite bind_assoc, bind_gets_l.
  cbn [srv with_rand_state]. rewrite Hl.
  unfold raft_node_get_id. rewrite (bind_ok_l _ _ _ _ _ (node_read_ok Node.get_id (with_rand_state g w) a ld Ha)).
  unfold Node.get_id. rewrite no_leader_known, (uint16_to_uint (id ld)) by (done || unfold uint16; lia).
  rewrite !(bind_ok_l _ _ _ _ _ (update_app_ok _ _)), bind_gets_l.
  cbn [user_data with_user_data with_rand_state]. by rewrite Hst.
Qed.

(** C37: a client draws a value below ten.  When the server knows no leader
    nothing else happens.  When another server is the leader, one packet is sent,
    and on arrival that server alone proposes the value to its library.  When the
    server is the leader itself it proposes the value directly. *)
Theorem client_new_message_spec w a ld :
  (7 <= PACKETBUF_SIZE)%nat -> uint16 (sv_node_id (user_data w)) ->
  node_heap w !! a = Some ld -> 0 <= id ld <= 32767 ->
  (current_leader (srv w) = None -> client_new_message w = Ok tt (after_draw w)) /\
  (current_leader (srv w) = Some a -> id ld <> sv_node_id (user_data w) ->
    exists packet u, client_new_message w = Ok tt (with_user_data u (after_draw w)) /\
      sent packet (user_data w) u /\
      forall junk w', recv (packet ++ junk) w' =
        if sv_node_id (user_data w') =? id ld then propose (drawn w) 1 w' else Ok 1 w') /\
  (current_leader (srv w) = Some a -> id ld = sv_node_id (user_data w) ->
    exists buffer, client_new_message w =
      propose (drawn w) tt
        (with_user_data (with_stage_buffer buffer (user_data w)) (after_draw w))).
Proof.
  intros HP Hsv Ha Hid. split; [|split].
  - intros Hl. unfold client_new_message, next_random, after_draw. rewrite bind_assoc, bind_gets_l.
    destruct (random_rand _) as [r g]. rewrite bind_assoc, bind_modify_l, bind_ret_l.
    unfold raft_get_current_leader, raft_get_current_leader_node. rewrite bind_assoc, bind_gets_l.
    cbn [srv with_rand_state]. by rewrite Hl.
  - intros Hl Hne. destruct (client_known_leader w a ld HP Ha Hid Hl) as (rest & Hrest & ->).
    destruct (Z.eqb_spec (id ld) (sv_node_id (user_data w))); [done|]. cbn [negb].
    rewrite update_app_ok. cbn [user_data with_user_data].
    set (buffer := (message_code MSG_CLIENT :: put_int (drawn w) ++ rest)).
    eexists (packet_of (id ld) (sv_node_id (user_data w)) MSG_CLIENT (put_int (drawn w))), _.
    split; [reflexivity|]. split.
    + apply (sent_stage _ _ buffer).
      apply (send_data_sent (message_code MSG_CLIENT :: put_int (drawn w)) rest (id ld)
               (with_stage_buffer buffer (user_data w))); cbn; [done|lia|exact Hrest].
    + intros junk w'. rewrite recv_packet, (uint16_to_uint (id ld)) by (done || unfold uint16; lia).
      destruct (_ =? _); [|done].
      unfold dispatch. rewrite message_of_code_code. unfold handle_msg_client, propose.
      rewrite bind_assoc. apply bind_cong. intros i w'' _. rewrite bind_assoc.
      rewrite (bind_ok_l _ _ _ _ _ (load_message _ _ _ (put_int (drawn w)) _ sizeof_client_message w'' eq_refl)).
      rewrite bind_assoc. by apply bind_cong.
  - intros Hl Heq. destruct (client_known_leader w a ld HP Ha Hid Hl) as (rest & Hrest & ->).
    rewrite Heq, Z.eqb_refl. cbn [negb]. eexists. unfold handle_msg_client, propose.
    apply bind_cong. intros i w'' _.
    by rewrite (bind_ok_l _ _ _ _ _ (load_ok [message_code MSG_CLIENT] (put_int (drawn w)) rest _ _ w'' eq_refl eq_refl)).
Qed.

End Client.

(** [leader_node_id == -1] is a test only where [int] has 16 bits: with a wider
    [int] the unknown leader is the node 65535. *)
Lemma no_leader_target :
  no_leader (T := sky) 65535 = true /\ no_leader (T := native32) 65535 = false.
Proof. by split. Qed.
