(* ===== verification/AppSafety.v ===== *)
(** * The application under arbitrary traffic

    A node of the cluster after its start: the packets it receives, the ticks of
    its periodic process and the proposals of its client, in any order.  What the
    library guarantees of single calls holds of every such run. *)
From S2P Require Import Prelude Contiki Types Node Membership Log Server Election Replication.
From S2P Require Import Wire App Sim NodeFacts Frames History LogFacts MemberFacts.
From S2P Require Import ElectionFacts Roles Campaign Sending Receiving Lifecycle Ranges Conflict.
From S2P Require Import AppFacts AppStart.

#[local] Remove Hints sim_user : typeclass_instances.

(** ** Rounds *)
Section Rounds.
Context {C : Contiki} {Pl : Platform C}.

(** What resumes a process of the program: a packet, or a timer. *)
Inductive app_event :=
  | EvPacket (mem : list Z)
  | EvPeriodic
  | EvClient.

Definition app_round (e : app_event) : M world unit :=
  match e with
  | EvPacket mem => let! _ := recv mem in ret tt
  | EvPeriodic => raft_periodic_process
  | EvClient => client_process
  end.

Definition app_run (es : list app_event) : M world unit := foreach es app_round.

(** *** The history *)
Lemma next_random_keeps {X} (f : world -> X) `{!IgnTimer f} : keeps (same f) next_random.
Proof. unfold next_random. keeps_solve. Qed.
Lemma update_app_keeps {X} (f : world -> X) `{!IgnUser f} g : keeps (same f) (update_app g).
Proof. unfold update_app. keeps_solve. Qed.
Lemma load_ro mem off n : readonly (load mem off n).
Proof. unfold load. keeps_solve. Qed.
Hint Resolve next_random_keeps update_app_keeps load_ro : keeps.
Lemma load_entries_ro mem n i off : readonly (load_entries mem n i off).
Proof. revert i off. induction n as [|n IH]; intros i off; cbn [load_entries]; keeps_solve. Qed.
Hint Resolve load_entries_ro : keeps.
Lemma raft_get_current_leader_ro : readonly raft_get_current_leader.
Proof.
  unfold raft_get_current_leader, raft_get_current_leader_node. unfold_accessors. keeps_solve.
Qed.
Hint Resolve raft_get_current_leader_ro : keeps.

Lemma handle_msg_client_hist mem off sender : keeps hist (handle_msg_client mem off sender).
Proof. unfold handle_msg_client. keeps_solve. Qed.
Hint Resolve handle_msg_client_hist : keeps.
Lemma dispatch_hist t mem off sender : keeps hist (dispatch t mem off sender).
Proof.
  unfold dispatch, handle_msg_appendentries, answer_appendentries,
    handle_msg_appendentries_response, handle_msg_requestvote, answer_requestvote,
    handle_msg_requestvote_response, count_vote, handle_msg_client_response.
  unfold_accessors. keeps_solve.
Qed.
Hint Resolve dispatch_hist : keeps.

Lemma app_round_hist e : keeps hist (app_round e).
Proof.
  destruct e; cbn [app_round]; unfold recv, raft_periodic_process, client_process,
    client_new_message; keeps_solve.
Qed.

(** *** The callbacks stay registered *)
Lemma app_round_cb e : keeps (same (fun w => cb (srv w))) (app_round e).
Proof.
  destruct e; cbn [app_round]; unfold recv, dispatch, raft_periodic_process, client_process,
    client_new_message, handle_msg_appendentries, answer_appendentries,
    handle_msg_appendentries_response, handle_msg_requestvote, answer_requestvote,
    handle_msg_requestvote_response, count_vote, handle_msg_client, handle_msg_client_response;
    unfold_accessors; keeps_solve.
Qed.
Lemma app_run_cb es w u w' : app_run es w = Ok u w' -> cb (srv w') = cb (srv w).
Proof. intros H. by eapply (keeps_foreach (same (fun w => cb (srv w)))), H; [apply app_round_cb]. Qed.
Lemma main_process_cb i w u w' : main_process i w = Ok u w' -> cb (srv w') = raft_funcs.
Proof.
  intros H. unfold main_process in H. run_bind H as u1 w1 H1. run_bind H as u2 w2 H2.
  run_bind H as u3 w3 H3. run_simp H. unfold raft_set_callbacks, log_set_callbacks in H.
  rewrite bind_assoc, bind_upd_srv_l in H. set (w4 := with_srv _ _) in H.
  unfold raft_set_election_timeout, raft_set_request_timeout in H.
  run_keeps H (same (fun w => cb (srv w))) as K; [by apply keeps_same_modify..|exact K].
Qed.

(** Over any sequence of packets, of any bytes, and timer events, the term,
    the commit index and the applied index of a node never decrease, the applied
    index stays within the commit index, and a vote cast in a term is kept during
    that term. *)
Theorem app_run_history es w u w' : app_run es w = Ok u w' ->
  term_of w <= term_of w' /\ commit_of w <= commit_of w' /\ applied_of w <= applied_of w' /\
  (applied_of w <= commit_of w -> applied_of w' <= commit_of w') /\
  (term_of w = term_of w' -> vote_of w <> -1 -> vote_of w' = vote_of w).
Proof.
  intros H. assert (keeps hist (app_run es)) as K by (apply keeps_foreach; [apply _|apply app_round_hist]).
  by apply K in H as [(? & ? & ? & ?) ?].
Qed.
End Rounds.

(** ** The types *)
Section AppTypes.
Context {C : Contiki} {L : ContikiLaws C} {Pl : Platform C}.

(** The static variables: a buffer of [PACKETBUF_SIZE] bytes, an [unsigned
    short] and an [int] (unless it overflowed). *)
Record app_typed (u : app_state) : Prop := {
  at_bytes : Forall is_uchar (stage_buffer u);
  at_size : length (stage_buffer u) = PACKETBUF_SIZE;
  at_id : uint16 (sv_node_id u);
  at_seq : undefined u = true \/ is_int (netflood_seq u)
}.

Lemma put_int_bytes z : Forall is_uchar (put_int z).
Proof.
  pose proof (to_uint_range z). unfold put_int, is_uchar.
  repeat constructor; try (apply Z.mod_pos_bound; lia); [apply Z.div_pos; lia|].
  apply Z.div_lt_upper_bound; lia.
Qed.
Lemma mod_byte z : is_uchar (z mod 256).
Proof. apply Z.mod_pos_bound. lia. Qed.

(** Lists of bytes. *)
Create HintDb bytes.
#[local] Hint Resolve put_int_bytes mod_byte Forall_app_2 Forall_take Forall_drop : bytes.
#[local] Hint Constructors Forall : bytes.
Lemma encode_entry_bytes n e : Forall is_uchar (encode_entry n e).
Proof. unfold encode_entry. eauto 10 with bytes. Qed.
Lemma encode_requestvote_bytes m : Forall is_uchar (encode_requestvote m).
Proof. unfold encode_requestvote. eauto 10 with bytes. Qed.
Lemma encode_requestvote_response_bytes m : Forall is_uchar (encode_requestvote_response m).
Proof. unfold encode_requestvote_response. eauto 10 with bytes. Qed.
Lemma encode_appendentries_bytes m : Forall is_uchar (encode_appendentries m).
Proof. unfold encode_appendentries. eauto 10 with bytes. Qed.
Lemma encode_appendentries_response_bytes m : Forall is_uchar (encode_appendentries_response m).
Proof. unfold encode_appendentries_response. eauto 10 with bytes. Qed.
Lemma message_code_byte t : is_uchar (Z.land 255 (message_code t)).
Proof. rewrite mask_code. destruct t; cbn; unfold is_uchar; lia. Qed.
#[local] Hint Resolve encode_entry_bytes encode_requestvote_bytes
  encode_requestvote_response_bytes encode_appendentries_bytes
  encode_appendentries_response_bytes message_code_byte : bytes.

(** *** The buffer *)
Lemma store_typed off bs u : Forall is_uchar bs -> app_typed u -> app_typed (store off bs u).
Proof.
  intros Hb [H1 H2 H3 H4]. unfold store. case_decide as Hd; split; cbn; try done.
  - eauto 6 with bytes.
  - by rewrite splice_length.
  - by left.
Qed.
Lemma memset_stage_typed u : app_typed u -> app_typed (memset_stage u).
Proof.
  intros [H1 H2 H3 H4]. split; cbn; try done; [|by rewrite length_replicate].
  apply Forall_replicate. by unfold is_uchar.
Qed.
#[local] Hint Resolve store_typed memset_stage_typed : bytes.
Lemma send_data_typed len i u : app_typed u -> app_typed (send_data len i u).
Proof.
  intros H. pose proof (at_bytes u H). unfold send_data.
  set (v := store sizeof_short _ _).
  assert (app_typed v) as [H1 H2 H3 _] by (unfold v; eauto 8 with bytes).
  cbv zeta. case_match eqn:Hi; split; cbn in *; try done; [right|by left]. by apply int_ok_iff.
Qed.
#[local] Hint Resolve send_data_typed : bytes.
Lemma send_message_typed t bs i u : Forall is_uchar bs -> app_typed u ->
  app_typed (send_message t bs i u).
Proof. intros Hb H. unfold send_message. eauto 8 with bytes. Qed.
Lemma stage_entries_typed n off es u : app_typed u -> app_typed (snd (stage_entries n off es u)).
Proof.
  revert off es u. induction n as [|n IH]; intros off es u H; cbn [stage_entries]; [done|].
  destruct es as [|e es]; cbn [snd].
  - destruct H. split; try done. by left.
  - assert (app_typed (store off (encode_entry 0 e) u)) as H' by eauto with bytes.
    destruct es as [|e' es]; [done|]. case_decide; [done|]. by apply IH.
Qed.

Lemma ok_result_0 u : app_typed u -> ok_result app_typed (0, u).
Proof. intros H. split; [apply is_int_small; cbn; lia|done]. Qed.

Lemma raft_funcs_typed : cbs_typed app_typed raft_funcs.
Proof.
  assert (forall u, app_typed u -> ok_result app_typed (-1, u)) as Hm.
  { intros u H. split; [apply is_int_small; cbn; lia|done]. }
  split; try (intros f [= <-] **; (apply ok_result_0 || apply Hm); done).
  - intros f [= <-] u n m Hu _ _. apply ok_result_0, send_message_typed; [|done].
    eauto with bytes.
  - intros f [= <-] u n m Hu _ _. unfold app_send_appendentries.
    destruct (stage_entries _ _ _ _) as [off s] eqn:Hs. apply ok_result_0, send_data_typed.
    change s with (snd (off, s)). rewrite <- Hs. apply stage_entries_typed.
    eauto 10 with bytes.
  - intros f [= <-] u e i Hu He _. split; [|done]. cbn. apply is_int_small.
    destruct (et_buf0 e He), (et_buf1 e He).
    assert (forall z, 0 <= Z.land z 255 < 256) as Hl.
    { intros z. change 255 with (Z.ones 8). rewrite Z.land_ones by lia. apply Z.mod_pos_bound. lia. }
    pose proof (Hl (buf0 (ety_data e))). pose proof (Hl (Z.shiftr (buf1 (ety_data e)) 8)). lia.
Qed.

(** *** Decoding gives values in range, whatever the bytes *)
Lemma nth_byte bs k : Forall is_uchar bs -> is_uchar (nth k bs 0).
Proof.
  intros H. revert k. induction H; intros [|k]; cbn; try done; unfold is_uchar; lia.
Qed.
Lemma uint_at_typed bs k : Forall is_uchar bs -> is_uint (uint_at bs k).
Proof.
  intros H. pose proof (nth_byte bs k H) as H1. pose proof (nth_byte bs (S k) H) as H2.
  unfold is_uchar, is_uint, uint_at in *. change (2 ^ int_bits) with 65536. lia.
Qed.
Lemma int_at_typed bs k : is_int (int_at bs k).
Proof. apply is_int_to_int. Qed.
Lemma decode_entry_typed bs : Forall is_uchar bs -> entry_typed (snd (decode_entry bs)).
Proof.
  intros H. split; cbn; auto using uint_at_typed, int_at_typed, nth_byte.
Qed.
Lemma decode_appendentries_typed bs es : Forall entry_typed es ->
  ae_typed (decode_appendentries bs es).
Proof. intros H. split; cbn; auto using int_at_typed. Qed.
Lemma decode_requestvote_typed bs : rv_typed (decode_requestvote bs).
Proof. split; apply int_at_typed. Qed.
Lemma decode_requestvote_response_typed bs : rvr_typed (decode_requestvote_response bs).
Proof. split; apply int_at_typed. Qed.
Lemma decode_appendentries_response_typed bs : aer_typed (decode_appendentries_response bs).
Proof. split; apply int_at_typed. Qed.
#[local] Hint Resolve uint_at_typed int_at_typed decode_entry_typed decode_appendentries_typed
  decode_requestvote_typed decode_requestvote_response_typed
  decode_appendentries_response_typed : ty.

(** *** The handlers *)
Abbreviation tyr := (tyr app_typed).
Abbreviation any := (fun _ => True).

Lemma load_tyr mem off n : Forall is_uchar mem -> tyr (Forall is_uchar) (load mem off n).
Proof.
  intros H. unfold load. case_decide; [|apply tyr_raise]. apply tyr_ret. eauto with bytes.
Qed.
Lemma update_app_tyr g : (forall u, app_typed u -> app_typed (g u)) -> tyr any (update_app g).
Proof. intros H. apply tyr_modify. intros w []. split; cbn; auto. Qed.
Lemma next_random_tyr : tyr (fun r => 0 <= r <= 65535) next_random.
Proof.
  eapply tyr_bind; [apply tyr_gets|]. intros g (w & Hw & ->).
  pose proof (random_rand_range (rand_state w)) as Hr. destruct (random_rand _) as [r g'].
  eapply tyr_bind; [|intros _ _; by apply tyr_ret]. apply tyr_modify. by intros w' []; split.
Qed.
#[local] Hint Resolve load_tyr next_random_tyr : ty.
Lemma load_entries_tyr mem n i off : Forall is_uchar mem ->
  tyr (Forall (fun x => entry_typed (snd x))) (load_entries mem n i off).
Proof.
  intros Hm. revert i off. induction n as [|n IH]; intros i off; cbn [load_entries].
  { apply tyr_ret. constructor. }
  apply (tyr_bind _ any); [case_decide; [by apply tyr_ret|apply tyr_raise]|]. intros _ _.
  eapply tyr_bind; [by apply load_tyr|]. intros bs Hbs.
  eapply tyr_bind; [apply IH|]. intros rest Hr. apply tyr_ret. auto with ty.
Qed.

(** What lies in memory at an address that arrived in a message is some entry. *)
Context (Hmem : forall next, Forall entry_typed (entries_at next)).

Lemma wire_chain_typed l : Forall (fun x => entry_typed (snd x)) l ->
  Forall entry_typed (wire_chain l).
Proof.
  intros [|[next e] l' He _]; cbn; [constructor|]. constructor; [done|].
  destruct (_ =? _); [constructor|apply Hmem].
Qed.
Lemma send_message_tyr t bs i : Forall is_uchar bs ->
  tyr any (update_app (send_message t bs i)).
Proof. intros H. apply update_app_tyr. intros u Hu. by apply send_message_typed. Qed.
#[local] Hint Resolve load_entries_tyr wire_chain_typed : ty.
#[local] Hint Extern 1 (Ranges.tyr _ _ (update_app (send_message _ _ _))) =>
  apply send_message_tyr; solve [auto with bytes] : ty.

Lemma handle_msg_appendentries_tyr mem off i : Forall is_uchar mem ->
  tyr any (handle_msg_appendentries mem off i).
Proof. intros H. unfold handle_msg_appendentries, answer_appendentries. ty_solve. Qed.
Lemma handle_msg_appendentries_response_tyr mem off i : Forall is_uchar mem ->
  tyr any (handle_msg_appendentries_response mem off i).
Proof. intros H. unfold handle_msg_appendentries_response. ty_solve. Qed.
Lemma handle_msg_requestvote_tyr mem off i : Forall is_uchar mem ->
  tyr any (handle_msg_requestvote mem off i).
Proof. intros H. unfold handle_msg_requestvote, answer_requestvote. ty_solve. Qed.
Lemma handle_msg_requestvote_response_tyr mem off i : Forall is_uchar mem ->
  tyr any (handle_msg_requestvote_response mem off i).
Proof. intros H. unfold handle_msg_requestvote_response, count_vote. ty_solve. Qed.
Lemma client_entry_typed r bs : 0 <= r <= 65535 -> Forall is_uchar bs ->
  entry_typed (client_entry r bs).
Proof.
  intros Hr H. split; cbn; auto using nth_byte; try (apply is_int_small; lia);
    unfold is_uint; change (2 ^ int_bits) with 65536; lia.
Qed.
#[local] Hint Resolve client_entry_typed : ty.
Lemma handle_msg_client_tyr mem off i : Forall is_uchar mem ->
  tyr any (handle_msg_client mem off i).
Proof. intros H. unfold handle_msg_client. ty_solve. Qed.
#[local] Hint Resolve handle_msg_appendentries_tyr handle_msg_appendentries_response_tyr
  handle_msg_requestvote_tyr handle_msg_requestvote_response_tyr handle_msg_client_tyr : ty.
Lemma recv_tyr mem : Forall is_uchar mem -> tyr any (recv mem).
Proof. intros H. unfold recv, dispatch, handle_msg_client_response. ty_solve. Qed.

Lemma client_new_message_tyr : tyr any client_new_message.
Proof.
  unfold client_new_message. eapply tyr_bind; [apply next_random_tyr|]. intros r Hr.
  apply (tyr_bind _ any); [apply tyr_readonly, raft_get_current_leader_ro|]. intros leader _. cbv zeta. destruct (no_leader _).
  { by apply tyr_ret. }
  do 3 (apply (tyr_bind _ any); [apply update_app_tyr; intros u Hu; eauto with bytes|intros _ _]).
  eapply tyr_bind; [apply tyr_gets|]. intros u (w & Hw & ->). destruct (negb _).
  - apply update_app_tyr. intros u Hu. by apply send_data_typed.
  - apply handle_msg_client_tyr, at_bytes, Hw.
Qed.
#[local] Hint Resolve recv_tyr client_new_message_tyr : ty.

(** *** The start of the program *)
Lemma raft_set_election_timeout_tyr t : is_int t -> tyr any (raft_set_election_timeout t).
Proof. intros Ht. unfold raft_set_election_timeout. ty_solve. Qed.
Lemma raft_set_request_timeout_tyr t : is_int t -> tyr any (raft_set_request_timeout t).
Proof. intros Ht. unfold raft_set_request_timeout. ty_solve. Qed.
#[local] Hint Resolve raft_set_election_timeout_tyr raft_set_request_timeout_tyr : ty.

Lemma main_process_typed i w u w' : memory_typed app_typed w ->
  main_process i w = Ok u w' -> typed app_typed w'.
Proof.
  intros [H1 H2 H3 H4] H. unfold main_process in H. unfold update_app in H at 1. run_simp H.
  run_bind H as u1 w1 Hn. assert (typed app_typed w1) as Hw1.
  { eapply raft_new_typed; [|exact Hn]. split; try done. cbn [user_data with_user_data with_rand_state].
    destruct H4. split; try done. apply to_uint_range. }
  clear Hn H1 H2 H3 H4. revert H. set (m := bind _ _). assert (tyr any m) as Hm; [|by apply Hm].
  unfold m. eapply tyr_bind; [apply tyr_gets|]. intros v (w2 & Hw2 & ->).
  eapply tyr_bind; [apply raft_set_callbacks_tyr; [apply raft_funcs_typed|apply Hw2]|].
  intros _ _. unfold ELECTION_TIMEOUT, REQUEST_TIMEOUT.
  do 3 (apply (tyr_bind _ any); [solve [eauto with ty]|intros _ _]).
  apply (tyr_bind _ any).
  { apply tyr_foreach_in. repeat apply List.Forall_cons; [..|apply List.Forall_nil];
      (destruct (_ =? _); [by apply tyr_ret|]);
      (eapply tyr_bind; [apply raft_add_node_tyr, is_int_small; lia|intros; by apply tyr_ret]). }
  intros _ _. eapply tyr_bind; [apply next_random_tyr|]. intros r _.
  apply (tyr_bind _ any); [|intros _ _]; apply update_app_tyr; intros v [G1 G2 G3 G4].
  - split; try done. right. apply is_int_to_int.
  - by split.
Qed.

Definition event_bytes (e : app_event) : Prop :=
  match e with EvPacket mem => Forall is_uchar mem | EvPeriodic | EvClient => True end.

Lemma app_round_tyr e : event_bytes e -> tyr any (app_round e).
Proof.
  destruct e; cbn [event_bytes app_round]; intros He; unfold raft_periodic_process,
    client_process; ty_solve.
Qed.

(** Whatever packets arrive, and whenever the timers expire, a node stays
    well typed: the fields of the server, of the log, of the nodes and of the
    entries, and the static variables of the program, stay in the range of their
    types, and the buffer for outgoing messages keeps its size. *)
Theorem app_run_typed es w u w' : typed app_typed w -> Forall event_bytes es ->
  app_run es w = Ok u w' -> typed app_typed w'.
Proof.
  intros Hw Hes H. assert (tyr any (app_run es)) as K.
  { eapply tyr_foreach_in, Forall_impl; [exact Hes|apply app_round_tyr]. }
  by destruct (K _ _ _ Hw H).
Qed.
End AppTypes.

(** ** A conflict *)
Section Aborts.
Context {C : Contiki} {L : ContikiLaws C} {Pl : Platform C}.

Lemma app_offers w : cb (srv w) = raft_funcs -> log_raft (lg w) = SServer -> offers_accept w.
Proof. intros Hc Hr. split; [done|]. rewrite Hc. by intros f [= <-]. Qed.

(** C39: a node whose log conflicts with its leader's aborts.  The program's
    callback for deleted entries always refuses, so that the library reports an
    error for a message whose entry has another term than the uncommitted one the
    node holds at that index, and the handler of the packet asserts that there is
    none: the packet a leader sends in that situation ends the program of its
    receiver. *)
Theorem conflict_aborts u n m y x junk w a :
  appendentries16 m -> ae_entries m = [y] -> entry16 y -> ae_n_entries m = 1 ->
  uint16 (sv_node_id u) -> PACKETBUF_SIZE = 128%nat ->
  sv_node_id (user_data w) = to_uint (id n) ->
  server_ok w a -> cb (srv w) = raft_funcs ->
  log_cb (lg w) = SServer -> log_raft (lg w) = SServer ->
  ae_ok w a m -> term_of w <= ae_term m -> consistent a m -> conflicts w a m [] y [] x ->
  exists packet, sent packet u (snd (app_send_appendentries u n m)) /\
    recv (packet ++ junk) w = Fault AssertFailed.
Proof.
  intros Hm Hes Hy Hn Hu HP Hid Sok Hcb Hl1 Hl2 Hae Ht Hc Cf.
  assert (15 + sizeof_entry * length (ae_entries m) <= PACKETBUF_SIZE)%nat as Hfit
    by (rewrite HP, Hes; apply Nat.leb_le; reflexivity).
  assert (ae_n_entries m = Z.of_nat (length (ae_entries m))) as Hn' by (by rewrite Hes).
  eexists. split; [apply appendentries_staged; [done|lia|done]|].
  rewrite appendentries_received; [|done|rewrite Hes; by apply Forall_singleton|done..].
  rewrite Hid, Z.eqb_refl. rewrite (bind_ok_l _ _ _ _ _ (raft_get_node_ok w (so_nodes _ _ Sok) _)).
  assert (mk_appendentries (ae_term m) (ae_prev_log_idx m) (ae_prev_log_term m)
    (ae_leader_commit m) (ae_n_entries m) (take 1 (ae_entries m)) = m) as ->
    by (destruct m; cbn in *; by rewrite Hes).
  assert (pops_refuse w (-1)) as Hpop.
  { split; [done|]. split; [done|]. split; [done|]. exists app_logentry_pop. by rewrite Hcb. }
  destruct (appendentries_refused (List.find (node_sat w (fun n0 => to_int (sv_node_id u) =? id n0))
    (nodes_list (srv w))) w a m [] y [] x (-1) Sok (app_offers w Hcb Hl2) Hpop Hae Ht Hc Cf)
    as (w' & Hrun & _ & _).
  unfold answer_appendentries. by rewrite bind_assoc, (bind_ok_l _ _ _ _ _ Hrun).
Qed.
End Aborts.
