(* ===== verification/Radio.v ===== *)
(** * What the program puts on the air

    The network of Contiki as far as the program depends on it, and the packets
    the callbacks of app/main.c hand to it. *)
From S2P Require Import Prelude Contiki Types Node Membership Log Server Election Replication.
From S2P Require Import Wire App Sim NodeFacts Frames History LogFacts MemberFacts.
From S2P Require Import ElectionFacts Roles Campaign Sending Ranges Fixed Outbox AppFacts AppStart.
From S2P Require Import AppSafety.

#[local] Remove Hints sim_user : typeclass_instances.

(** The documented behaviour of the packet buffer and of netflood: what is copied
    into the buffer is what a following send floods, and nothing else is flooded.
    (A send may fail: no law says that a packet is flooded.) *)
Class PlatformLaws {C : Contiki} (P : Platform C) := {
  in_buffer : net -> list Z;
  flooded : net -> list (list Z);
  copyfrom_buffer bs n : (length bs <= PACKETBUF_SIZE)%nat ->
    in_buffer (packetbuf_copyfrom bs n) = bs;
  copyfrom_flooded bs n p : p ∈ flooded (packetbuf_copyfrom bs n) -> p ∈ flooded n;
  send_flooded seq n p : p ∈ flooded (netflood_send seq n) -> p ∈ flooded n \/ p = in_buffer n;
  open_flooded t c n p : p ∈ flooded (netflood_open t c n) -> p ∈ flooded n
}.

Section Bytes.
Context {C : Contiki} {Pl : Platform C}.
(** Bytes. *)
Lemma packet_of_bytes dest src t bs : Forall is_uchar bs -> Forall is_uchar (packet_of dest src t bs).
Proof.
  intros H. unfold packet_of. repeat apply Forall_app_2; [apply put_int_bytes..|].
  constructor; [|done]. unfold is_uchar. destruct t; cbn; lia.
Qed.
Lemma entry_bytes_bytes es : Forall is_uchar (entry_bytes es).
Proof.
  unfold entry_bytes. induction es as [|e es IH]; cbn [map concat]; [constructor|].
  apply Forall_app_2; [apply encode_entry_bytes|done].
Qed.
End Bytes.

Section Radio.
Context {C : Contiki} {Pl : Platform C} {R : PlatformLaws Pl}.
Context (HP : PACKETBUF_SIZE = 128%nat).
Implicit Types (u : app_state).

(** From [u] to [u'] only packets in [Q] were flooded. *)
Definition floods (Q : list Z -> Prop) u u' : Prop :=
  sv_node_id u' = sv_node_id u /\
  forall p, p ∈ flooded (netflood u') -> p ∈ flooded (netflood u) \/ Q p.

#[export] Instance floods_preorder Q : PreOrder (floods Q).
Proof.
  split; [by split; auto|]. intros u1 u2 u3 [I1 F1] [I2 F2]. split; [congruence|].
  intros p Hp. destruct (F2 p Hp) as [H|H]; auto.
Qed.

Lemma floods_mono (Q Q' : list Z -> Prop) u u' : (forall p, Q p -> Q' p) ->
  floods Q u u' -> floods Q' u u'.
Proof. intros H [I F]. split; [done|]. intros p Hp. destruct (F p Hp); auto. Qed.

Lemma sent_floods packet u u' : (length packet <= PACKETBUF_SIZE)%nat -> sent packet u u' ->
  floods (eq packet) u u'.
Proof.
  intros Hl [Hn Hid _ _ _]. split; [done|]. intros p Hp. rewrite Hn in Hp.
  apply send_flooded in Hp as [Hp| ->].
  - left. by apply copyfrom_flooded in Hp.
  - right. by rewrite copyfrom_buffer.
Qed.

Lemma packet_of_length dest src t bs : length (packet_of dest src t bs) = (5 + length bs)%nat.
Proof. done. Qed.

(** The answers and requests of fixed size. *)
Lemma send_message_floods t bs dest u : (length bs <= 8)%nat ->
  floods (eq (packet_of dest (sv_node_id u) t bs)) u (send_message t bs dest u).
Proof.
  intros Hl. apply sent_floods; [rewrite packet_of_length; lia|].
  apply send_message_sent. lia.
Qed.

(** The messages of the library on the air, from the node with id [i]. *)
Definition append_packet (i : Z) (dest : Z) (m : msg_appendentries_t) : list Z :=
  packet_of dest i MSG_APPENDENTRIES
    (encode_appendentries m ++ entry_bytes (staged (Z.to_nat (ae_n_entries m)) 11 (ae_entries m))).
Definition request_packet (i : Z) (dest : Z) (m : msg_requestvote_t) : list Z :=
  packet_of dest i MSG_REQUESTVOTE (encode_requestvote m).

Definition call_packet (i : Z) (PA : msg_appendentries_t -> Prop) (PV : msg_requestvote_t -> Prop)
    (p : list Z) : Prop :=
  exists dest, (exists m, PA m /\ p = append_packet i dest m) \/
    (exists m, PV m /\ p = request_packet i dest m).

Lemma append_packet_sent u n m : (0 < ae_n_entries m -> ae_entries m <> []) ->
  let packet := append_packet (sv_node_id u) (id n) m in
  (length packet <= PACKETBUF_SIZE)%nat /\ sent packet u (snd (app_send_appendentries u n m)).
Proof.
  intros Hne. set (st := staged (Z.to_nat (ae_n_entries m)) 11 (ae_entries m)).
  pose proof (staged_end (Z.to_nat (ae_n_entries m)) 11 (ae_entries m)) as Hend.
  fold st in Hend. assert (11 + sizeof_entry * length st < 128)%nat as Hst
    by (rewrite HP in Hend; apply Hend; unfold sizeof_entry; lia).
  assert (15 + sizeof_entry * length st <= PACKETBUF_SIZE)%nat as Hfit
    by (unfold sizeof_entry in *; lia).
  split.
  - unfold append_packet. fold st. rewrite packet_of_length, length_app, entry_bytes_length.
    change (length (encode_appendentries m)) with 10%nat. lia.
  - apply app_send_appendentries_sent; [lia|done|exact Hfit].
Qed.

Lemma app_send_appendentries_floods u n m : (0 < ae_n_entries m -> ae_entries m <> []) ->
  floods (eq (append_packet (sv_node_id u) (id n) m)) u (snd (app_send_appendentries u n m)).
Proof. intros Hne. by apply sent_floods; apply append_packet_sent. Qed.

(** A call of one of the callbacks. *)
Lemma user_call_floods PA PV u u' :
  (forall m, PA m -> 0 < ae_n_entries m -> ae_entries m <> []) ->
  user_call raft_funcs PA PV u u' -> floods (call_packet (sv_node_id u) PA PV) u u'.
Proof.
  intros Hne H. destruct H as [f n m Hf Hm|f n m Hf Hm|f e k Hf|f v Hf|f t v Hf|f n Hf|f p Hf].
  - injection Hf as <-. eapply floods_mono; [|apply app_send_appendentries_floods; auto].
    intros p <-. exists (id n). left. by exists m.
  - injection Hf as <-. eapply floods_mono; [|apply (send_message_floods MSG_REQUESTVOTE)].
    + intros p <-. exists (id n). right. by exists m.
    + done.
  - assert (snd (f u e k) = u) as ->; [|done].
    cbn in Hf. rewrite !elem_of_cons in Hf.
    destruct Hf as [[= ->]|[[= ->]|[[= ->]|[[= ->]|Hf]]]]; try done. by apply elem_of_nil in Hf.
  - by injection Hf as <-.
  - by injection Hf as <-.
  - cbn in Hf. rewrite !elem_of_cons in Hf. destruct Hf as [|[[= ->]|Hf]]; [done|done|].
    by apply elem_of_nil in Hf.
  - by injection Hf as <-.
Qed.

Lemma user_calls_floods PA PV u u' :
  (forall m, PA m -> 0 < ae_n_entries m -> ae_entries m <> []) ->
  rtc (user_call raft_funcs PA PV) u u' -> floods (call_packet (sv_node_id u) PA PV) u u'.
Proof.
  intros Hne H. induction H as [u|u u1 u2 H1 _ IH]; [done|].
  apply user_call_floods in H1; [|done]. transitivity u1; [done|].
  by destruct H1 as [<- _].
Qed.

End Radio.
