(* ===== verification/Rounds.v ===== *)
(** * A round of the program as a visit of the library

    What resumes a process of app/main.c (a packet, a timer) leads to at most one
    call of the library.  Each round is decomposed into what happens before the
    call, the call, and the answer that is sent. *)
From S2P Require Import Prelude Contiki Types Node Membership Log Server Election Replication.
From S2P Require Import Wire App Sim NodeFacts Frames History LogFacts MemberFacts.
From S2P Require Import ElectionFacts Roles Campaign Sending Receiving Ranges Fixed Conflict Cluster.
From S2P Require Import Outbox Growth Network AppFacts AppStart AppSafety Radio.

#[local] Remove Hints sim_user : typeclass_instances.

Section Rounds.
Context {C : Contiki} {L : ContikiLaws C} {Pl : Platform C} {R : PlatformLaws Pl}.
Context (HP : PACKETBUF_SIZE = 128%nat).
Implicit Types w : world.
Abbreviation host_ok := (host_ok app_typed).
Abbreviation visit := (visit app_typed).

(** The packets a node [j] may have on the air, when the letters [ml] were sent. *)
Definition fair (ml : Z -> letter -> Prop) (j : Z) (p : list Z) : Prop :=
  Forall is_uchar p /\
  exists dest t bs, p = packet_of dest j t bs /\
    match t with
    | MSG_REQUESTVOTE => exists m, ml j (Ask m) /\ bs = encode_requestvote m
    | MSG_REQUESTVOTE_RESPONSE =>
        exists r, ml j (Vote dest r) /\ uint16 dest /\ bs = encode_requestvote_response r
    | MSG_APPENDENTRIES => exists m, ml j (Append m) /\ p = append_packet j dest m
    | MSG_APPENDENTRIES_RESPONSE =>
        exists r, ml j (Ack dest r) /\ uint16 dest /\ bs = encode_appendentries_response r
    | _ => True
    end.

Lemma fair_mono (ml ml' : Z -> letter -> Prop) j p : (forall l, ml j l -> ml' j l) ->
  fair ml j p -> fair ml' j p.
Proof.
  intros H (Hb & dest & t & bs & E & Ht). split; [done|]. exists dest, t, bs. split; [done|].
  destruct t; try done; destruct Ht as (x & Hx & ?); exists x; split; auto.
Qed.

(** An id of a node of the program. *)
Definition node_id (i : Z) : Prop := 0 <= i <= 32767.

Lemma node_id_uint i : node_id i -> uint16 i /\ to_uint (T := sky) i = i /\ to_int (T := sky) i = i.
Proof.
  intros Hi. assert (uint16 i) as Hu by (unfold uint16, node_id in *; lia).
  split; [done|]. split; [by apply uint16_to_uint|]. apply to_int_small.
  change INT_MAX with 32767. unfold node_id in Hi. lia.
Qed.

(** ** The answer to the letters *)

(** The packets of an answer of node [i]. *)
Definition answer_packet (i : Z) (ans : option letter) (p : list Z) : Prop :=
  match ans with
  | Some (Vote to r) => p = packet_of to i MSG_REQUESTVOTE_RESPONSE (encode_requestvote_response r)
  | Some (Ack to r) =>
      p = packet_of to i MSG_APPENDENTRIES_RESPONSE (encode_appendentries_response r)
  | _ => False
  end.

(** A packet of the client. *)
Definition client_packet (i : Z) (p : list Z) : Prop :=
  exists dest v, p = packet_of dest i MSG_CLIENT (put_int v).

(** What one round does to node [i]. *)
Inductive round (ml : Z -> letter -> Prop) (i : Z) (w w' : world) : Prop :=
  | round_quiet u g : w' = with_user_data u (with_rand_state g w) -> app_typed u ->
      floods (client_packet i) (user_data w) u -> round ml i w w'
  | round_call u g w1 w2 ans u' : w1 = with_user_data u (with_rand_state g w) -> app_typed u ->
      floods (fun _ => False) (user_data w) u ->
      visit ml i w1 w2 ans -> (exists o, run_op o w1 = Ok tt w2) ->
      w' = with_user_data u' w2 -> (app_typed (user_data w2) -> app_typed u') ->
      floods (answer_packet (sv_node_id (user_data w2)) ans) (user_data w2) u' -> round ml i w w'.

Lemma with_same w : w = with_user_data (user_data w) (with_rand_state (rand_state w) w).
Proof. by destruct w. Qed.

(** A call without preparation. *)
Lemma round_of_call ml i w w2 ans u' : app_typed (user_data w) -> visit ml i w w2 ans ->
  (exists o, run_op o w = Ok tt w2) -> (app_typed (user_data w2) -> app_typed u') ->
  floods (answer_packet (sv_node_id (user_data w2)) ans) (user_data w2) u' ->
  round ml i w (with_user_data u' w2).
Proof.
  intros Hu Hv Ho Ht Hf.
  eapply (round_call _ _ _ _ (user_data w) (rand_state w) w w2); try done. apply with_same.
Qed.
Lemma round_of_silent_call ml i w w2 : app_typed (user_data w) -> visit ml i w w2 None ->
  (exists o, run_op o w = Ok tt w2) -> round ml i w w2.
Proof.
  intros Hu Hv Ho. assert (w2 = with_user_data (user_data w2) w2) as -> by by destruct w2.
  eapply round_of_call; try done; by destruct w2.
Qed.

Lemma round_nothing ml i w : app_typed (user_data w) -> round ml i w w.
Proof. intros Hu. eapply round_quiet; [apply with_same|done|done]. Qed.

(** ** Packets *)

(** The library looks the sender up by its id. *)
Lemma get_node_sender w a j p w' : server_ok w a -> node_id j ->
  raft_get_node (to_int j) w = Ok p w' -> w' = w /\ node_of_sender w p j.
Proof.
  intros Sok Hj H. rewrite (raft_get_node_ok w (so_nodes _ _ Sok)) in H. injection H as <- <-.
  split; [done|]. destruct (List.find _ _) as [b|] eqn:Hf; [|done].
  apply List.find_some in Hf as [_ Hs]. unfold node_sat in Hs. cbn. unfold node_id_at.
  destruct (node_heap w !! b) as [n|]; [|done]. apply Z.eqb_eq in Hs. cbn. f_equal.
  rewrite <- Hs. apply (node_id_uint j Hj).
Qed.

Lemma is_int_int16 z : is_int z -> int16 z.
Proof. intros H. by apply int_ok_iff. Qed.

Lemma send_answer_typed t bs dest (u : app_state) : Forall is_uchar bs ->
  app_typed u -> app_typed (send_message t bs dest u).
Proof. apply send_message_typed. Qed.

Lemma ask_round ml i w a j m w' : host_ok i w a -> node_id j -> ml j (Ask m) ->
  (let! node := raft_get_node (to_int j) in answer_requestvote node j m) w = Ok tt w' ->
  round ml i w w'.
Proof.
  intros Ho Hj Hm H. run_bind H as p w1 H1.
  destruct (get_node_sender w a j p w1 (ho_server _ _ _ _ Ho) Hj H1) as [-> Hs].
  unfold answer_requestvote in H. run_bind H as [e r] w2 H2. run_simp H.
  destruct (Z.eqb_spec e 0) as [->|]; [|done]. injection H as <-.
  eapply (round_of_call ml i w w2 (Some (Vote j r))).
  - apply (ho_typed _ _ _ _ Ho).
  - by eapply visit_ask.
  - exists (OpRecvRequestvote p m). cbn. by rewrite (bind_ok_l _ _ _ _ _ H2).
  - intros Hu. apply send_message_typed; [apply encode_requestvote_response_bytes|done].
  - eapply floods_mono; [|apply send_message_floods; [done|cbn; lia]]. by intros p' <-.
Qed.

Lemma vote_round ml i w a j r w' : host_ok i w a -> node_id j -> ml j (Vote i r) ->
  (let! node := raft_get_node (to_int j) in count_vote node r) w = Ok tt w' -> round ml i w w'.
Proof.
  intros Ho Hj Hm H. run_bind H as p w1 H1.
  destruct (get_node_sender w a j p w1 (ho_server _ _ _ _ Ho) Hj H1) as [-> Hs].
  unfold count_vote in H. run_bind H as e w2 H2.
  assert (w' = w2) as ->.
  { unfold raft_is_leader, raft_get_state in H. run_simp H. by destruct (e =? 0); [injection H as ->|]. }
  apply round_of_silent_call; [apply (ho_typed _ _ _ _ Ho)|by eapply visit_vote|].
  exists (OpRecvRequestvoteResponse p r). cbn. by rewrite (bind_ok_l _ _ _ _ _ H2).
Qed.

Lemma append_round ml i w a j m w' : host_ok i w a -> node_id j -> ml j (Append m) ->
  (let! node := raft_get_node (to_int j) in answer_appendentries node j (delivered m)) w = Ok tt w' ->
  round ml i w w'.
Proof.
  intros Ho Hj Hm H. run_bind H as p w1 H1.
  destruct (get_node_sender w a j p w1 (ho_server _ _ _ _ Ho) Hj H1) as [-> Hs].
  unfold answer_appendentries in H. run_bind H as [e r] w2 H2. run_simp H.
  destruct (Z.eqb_spec e 0) as [->|]; [|done]. injection H as <-.
  eapply (round_of_call ml i w w2 (Some (Ack j r))).
  - apply (ho_typed _ _ _ _ Ho).
  - by eapply visit_append.
  - exists (OpRecvAppendentries p (delivered m)). cbn. by rewrite (bind_ok_l _ _ _ _ _ H2).
  - intros Hu. apply send_message_typed; [apply encode_appendentries_response_bytes|done].
  - eapply floods_mono; [|apply send_message_floods; [done|cbn; lia]]. by intros p' <-.
Qed.

Lemma ack_round ml i w a j r w' : host_ok i w a -> node_id j -> ml j (Ack i r) ->
  (let! node := raft_get_node (to_int j) in
   match node with
   | None => ret tt
   | Some _ => let! _ := raft_recv_appendentries_response node r in ret tt
   end) w = Ok tt w' -> round ml i w w'.
Proof.
  intros Ho Hj Hm H. run_bind H as p w1 H1.
  destruct (get_node_sender w a j p w1 (ho_server _ _ _ _ Ho) Hj H1) as [-> Hs].
  destruct p as [b|]; [|injection H as <-; apply round_nothing, (ho_typed _ _ _ _ Ho)].
  run_bind H as e w2 H2. injection H as <-.
  apply round_of_silent_call; [apply (ho_typed _ _ _ _ Ho)|by eapply visit_ack|].
  exists (OpRecvAppendentriesResponse (Some b) r). cbn. by rewrite (bind_ok_l _ _ _ _ _ H2).
Qed.

(** A value from a client is proposed. *)
Lemma outside_host i w a u g : app_typed u -> host_ok i w a ->
  host_ok i (with_user_data u (with_rand_state g w)) a.
Proof.
  intros Hu [? ? ? ? [] ? ?]. split; try done. by apply (server_ok_same w).
Qed.

Lemma client_round ml i w mem off sender u w' : app_typed (user_data w) ->
  floods (fun _ => False) (user_data w) u -> app_typed u -> Forall is_uchar mem ->
  handle_msg_client mem off sender (with_user_data u w) = Ok tt w' -> round ml i w w'.
Proof.
  intros Hw Hf Hu Hmem H. unfold handle_msg_client in H. run_bind H as x w1 H1.
  unfold next_random in H1. run_simp H1. pose proof (random_rand_range (rand_state w)) as Hr.
  cbn [rand_state with_user_data] in H1. destruct (random_rand (rand_state w)) as [v g].
  run_simp H1. injection H1 as <- <-. run_bind H as bs w2 H2.
  unfold load in H2. case_decide; [|done]. run_ret H2. run_bind H as r w3 H3. injection H as <-.
  assert (entry_typed (client_entry v (take sizeof_client_message (drop (off + 1) mem)))) as He.
  { apply client_entry_typed; [done|]. by apply Forall_take, Forall_drop. }
  assert (w3 = with_user_data (user_data w3) w3) as -> by by destruct w3.
  eapply (round_call ml i w _ u g _ w3 None (user_data w3)); try done.
  - eapply visit_entry; [|exact He|exact H3]. done.
  - exists (OpRecvEntry (client_entry v (take sizeof_client_message (drop (off + 1) mem)))).
    cbn [run_op]. by rewrite (bind_ok_l _ _ _ _ _ H3).
Qed.

(** The first entry of a packet is the first of the message; the links of the
    others are zero. *)
Lemma load_first_entry pre es post n w l w' : Forall entry16 es -> n <> O -> es <> [] ->
  load_entries (pre ++ entry_bytes (staged n 11 es) ++ post) n 0 (length pre) w = Ok l w' ->
  w' = w /\ wire_chain l = take 1 es.
Proof.
  intros Hes Hn Hne H. destruct es as [|e es]; [done|]. destruct n as [|n]; [done|].
  apply Forall_cons in Hes as [He _]. cbn [staged] in H.
  set (st := match es with [] => _ | _ => _ end) in H.
  change (entry_bytes (e :: st)) with (encode_entry 0 e ++ entry_bytes st) in H.
  rewrite <- app_assoc in H. cbn [load_entries] in H. run_bind H as u w1 H1.
  assert (w1 = w) as -> by (case_decide; [by run_ret H1|done]).
  rewrite (bind_ok_l _ _ _ _ _ (load_ok pre (encode_entry 0 e) _ _ _ w eq_refl eq_refl)) in H.
  run_bind H as rest w2 H2. apply load_entries_ro in H2 as <-. run_ret H.
  split; [done|]. by rewrite entry_roundtrip.
Qed.

Lemma append_received ml i w a j dest m junk w' : host_ok i w a -> node_id j -> ml j (Append m) ->
  letter_ok j (Append m) ->
  handle_msg_appendentries (append_packet j dest m ++ junk) 4 j w = Ok tt w' -> round ml i w w'.
Proof.
  intros Ho Hj Hm (Ht & _ & _ & Hlen) H.
  assert (appendentries16 m) as H16 by (destruct Ht; split_and!; by apply is_int_int16).
  assert (Forall entry16 (ae_entries m)) as Hes.
  { eapply Forall_impl; [apply (aet_entries _ Ht)|]. intros e []. split_and!; try done.
    by apply is_int_int16. }
  unfold append_packet in H. set (n := Z.to_nat (ae_n_entries m)) in *.
  rewrite (handle_appendentries_loaded dest j m _ junk w H16) in H. fold n in H.
  apply (append_round ml i w a j m w' Ho Hj Hm).
  run_bind H as p w1 H1. rewrite (bind_ok_l _ _ _ _ _ H1). run_bind H as l w2 H2.
  pose proof H2 as E. apply load_entries_ro in E as ->.
  assert (wire_chain l = take 1 (ae_entries m)) as Hl; [|by rewrite Hl in H].
  destruct (ae_entries m) as [|e es] eqn:Hne.
  { assert (n = 0%nat) as E by (unfold n; rewrite Hlen; done). rewrite E in H2. by run_ret H2. }
  rewrite <- Hne in *.
  set (st := staged n 11 (ae_entries m)) in H2.
  assert (packet_of dest j MSG_APPENDENTRIES (encode_appendentries m ++ entry_bytes st) ++ junk
    = (packet_of dest j MSG_APPENDENTRIES (encode_appendentries m) ++ entry_bytes st ++ junk)) as E
    by (unfold packet_of; by rewrite <- !app_assoc).
  rewrite E in H2. change 15%nat with (length (packet_of dest j MSG_APPENDENTRIES (encode_appendentries m))) in H2.
  eapply load_first_entry; [exact Hes| | |exact H2]; [|by rewrite Hne].
  unfold n. rewrite Hlen, Hne. cbn. lia.
Qed.

(** A message that was handled. *)
Lemma handled {A} (m : M world A) (k : A -> M world unit) w (x y : Z) w' :
  (let! a := m in exec! k a in ret x) w = Ok y w' -> (let! a := m in k a) w = Ok tt w'.
Proof.
  intros H. run_bind H as a w1 H1. rewrite (bind_ok_l _ _ _ _ _ H1). run_bind H as u w2 H2.
  injection H as _ <-. by destruct u.
Qed.

Lemma packet_round ml i w a j p junk w' :
  (forall j l, ml j l -> letter_ok j l) -> host_ok i w a -> sv_node_id (user_data w) = i ->
  node_id i -> node_id j -> fair ml j p -> Forall is_uchar junk ->
  app_round (EvPacket (p ++ junk)) w = Ok tt w' -> round ml i w w'.
Proof.
  intros Hml Ho Hid Hi Hj (Hb & dest & t & bs & -> & Hf) Hjunk H. cbn [app_round] in H.
  destruct (node_id_uint j Hj) as (Hju & Hjt & Hjn). run_bind H as x w1 H1. injection H as <-.
  pose proof (ho_typed _ _ _ _ Ho) as Ty. pose proof H1 as H2.
  rewrite recv_packet in H1 by done. rewrite Hid in H1.
  destruct (Z.eqb_spec i (to_uint dest)) as [Hd|]; [|injection H1 as _ <-; apply round_nothing, Ty].
  unfold dispatch in H1. rewrite message_of_code_code in H1.
  destruct t; try (injection H1 as _ <-; apply round_nothing, Ty).
  - destruct Hf as (m & Hm & ->). clear H1. apply (ask_round ml i w a j m _ Ho Hj Hm).
    destruct (Hml _ _ Hm) as [[] _].
    rewrite recv_requestvote, Hid, Hd, Z.eqb_refl in H2 by (done || by split_and!; apply is_int_int16).
    by apply handled in H2.
  - destruct Hf as (r & Hm & Hd' & ->). clear H1. rewrite (uint16_to_uint dest Hd') in Hd. subst dest.
    apply (vote_round ml i w a j r _ Ho Hj Hm). destruct (Hml _ _ Hm) as [].
    rewrite recv_requestvote_response, Hid, (uint16_to_uint i Hd'), Z.eqb_refl in H2
      by (done || by split; apply is_int_int16).
    by apply handled in H2.
  - destruct Hf as (m & Hm & Hp). clear H2. rewrite Hp in H1. run_bind H1 as u w2 H2. injection H1 as _ <-. destruct u.
    apply (append_received ml i w a j dest m junk _ Ho Hj Hm (Hml _ _ Hm) H2).
  - destruct Hf as (r & Hm & Hd' & ->). clear H1. rewrite (uint16_to_uint dest Hd') in Hd. subst dest.
    apply (ack_round ml i w a j r _ Ho Hj Hm). destruct (Hml _ _ Hm) as [].
    rewrite recv_appendentries_response, Hid, (uint16_to_uint i Hd'), Z.eqb_refl in H2
      by (done || by split_and!; apply is_int_int16).
    by apply handled in H2.
  - clear H2. run_bind H1 as u w2 H2. injection H1 as _ <-. destruct u.
    apply (client_round ml i w (packet_of dest j MSG_CLIENT bs ++ junk) 4 j (user_data w));
      [apply Ty|done|apply Ty|by apply Forall_app_2|].
    assert (with_user_data (user_data w) w = w) as E by by destruct w. by rewrite E.
Qed.

(** ** Timers *)
Lemma periodic_round ml i w a w' : host_ok i w a -> app_round EvPeriodic w = Ok tt w' -> round ml i w w'.
Proof.
  intros Ho H. cbn [app_round] in H. unfold raft_periodic_process in H. run_bind H as e w1 H1.
  injection H as <-. apply round_of_silent_call; [apply (ho_typed _ _ _ _ Ho)|by eapply visit_periodic|].
  exists (OpPeriodic RAFT_PERIODIC_TICK). cbn. by rewrite (bind_ok_l _ _ _ _ _ H1).
Qed.

Lemma next_random_inv w r w' : next_random w = Ok r w' -> exists g, w' = with_rand_state g w.
Proof.
  intros H. unfold next_random in H. run_simp H. destruct (random_rand (rand_state w)) as [v g].
  run_simp H. injection H as _ <-. by exists g.
Qed.

(** The packet of a client, once its message is staged. *)
Lemma client_send_floods v dest (u : app_state) :
  floods (client_packet (sv_node_id u)) u
    (send_data (1 + sizeof_client_message) dest
       (store 1 (put_int v) (store 0 [Z.land 255 (message_code MSG_CLIENT)] (memset_stage u)))).
Proof.
  destruct (stage_message_ok MSG_CLIENT (put_int v) u) as (rest & -> & Hrest); [rewrite HP; cbn; lia|].
  set (buffer := (message_code MSG_CLIENT :: put_int v ++ rest)).
  eapply floods_mono; [|eapply sent_floods; [|apply (sent_stage _ u buffer),
    (send_data_sent (message_code MSG_CLIENT :: put_int v) rest dest (with_stage_buffer buffer u))]].
  - intros p <-. by exists dest, v.
  - rewrite HP. cbn. lia.
  - done.
  - rewrite HP. cbn. lia.
  - unfold buffer. rewrite <- Hrest. cbn. lia.
Qed.

Lemma client_event_round ml i w a w' : host_ok i w a -> sv_node_id (user_data w) = i ->
  app_round EvClient w = Ok tt w' -> round ml i w w'.
Proof.
  intros Ho Hid H. pose proof (ho_typed _ _ _ _ Ho) as [_ _ _ _ Ty].
  cbn [app_round] in H. unfold client_process in H. run_bind H as r w1 H1.
  apply next_random_inv in H1 as [g ->].
  assert (forall g, round ml i w (with_rand_state g w)) as Hquiet.
  { intros g'. eapply (round_quiet _ _ _ _ (user_data w) g'); [by destruct w|done|done]. }
  destruct (_ =? 0); cbn [when] in H; [|injection H as <-; apply Hquiet].
  unfold client_new_message in H. run_bind H as r2 w2 H2. apply next_random_inv in H2 as [g2 ->].
  run_bind H as ld w3 H3. apply raft_get_current_leader_ro in H3 as <-.
  destruct (no_leader _); [injection H as <-; apply Hquiet|].
  rewrite !(bind_ok_l _ _ _ _ _ (update_app_ok _ _)) in H. run_simp H.
  set (v := Z.rem r2 10) in H. set (dest := to_uint ld) in H.
  cbn [user_data with_user_data with_rand_state] in H.
  set (u1 := store 1 (put_int v) _) in H.
  assert (app_typed u1) as Hu1.
  { apply store_typed; [apply put_int_bytes|]. apply store_typed; [|by apply memset_stage_typed].
    constructor; [apply message_code_byte|constructor]. }
  destruct (negb _) in H.
  - rewrite update_app_ok in H. injection H as <-.
    cbn [user_data with_user_data with_rand_state].
    eapply (round_quiet _ _ _ _ (send_data (1 + sizeof_client_message) dest u1) g2);
      [by destruct w|by apply send_data_typed|].
    rewrite <- Hid. apply client_send_floods.
  - apply (client_round ml i (with_rand_state g2 w) (stage_buffer u1) 0 dest u1) in H; try done.
    + destruct H as [u g3 -> Hu Hf|u g3 w3 w4 ans u' -> Hu Hf Hv Hop -> Hu' Hf'].
      * by eapply (round_quiet _ _ _ _ u g3); [destruct w|..].
      * eapply (round_call _ _ _ _ u g3 _ w4 ans u'); try done.
    + destruct (stage_message_ok MSG_CLIENT (put_int v) (user_data w)) as (rest & E & _);
        [rewrite HP; cbn; lia|]. unfold u1. rewrite E. by split; auto.
    + apply Hu1.
Qed.

(** Every round is of this form. *)
Lemma app_round_visit ml i w a w' ev :
  (forall j l, ml j l -> letter_ok j l) -> host_ok i w a -> sv_node_id (user_data w) = i -> node_id i ->
  match ev with
  | EvPacket mem => exists j p junk, node_id j /\ fair ml j p /\ Forall is_uchar junk /\ mem = p ++ junk
  | EvPeriodic | EvClient => True
  end ->
  app_round ev w = Ok tt w' -> round ml i w w'.
Proof.
  intros Hml Ho Hid Hi Hev H. destruct ev as [mem| |].
  - destruct Hev as (j & p & junk & Hj & Hp & Hjunk & ->). by eapply packet_round.
  - by eapply periodic_round.
  - by eapply client_event_round.
Qed.
End Rounds.
