(* ===== verification/Mesh.v ===== *)
(** * The nodes of the cluster and the radio

    Several nodes run the program of app/main.c.  A node hears packets that some
    node has flooded, with anything behind them in its packet buffer: the radio
    may lose packets, repeat them, delay them and deliver them in any order.  The
    nodes refine the network of servers that exchange messages, so that what holds
    of the messages holds of the packets. *)
From S2P Require Import Prelude Contiki Types Node Membership Log Server Election Replication.
From S2P Require Import Wire App Sim NodeFacts Frames History LogFacts MemberFacts.
From S2P Require Import ElectionFacts Roles Campaign Sending Receiving Lifecycle Ranges Fixed.
From S2P Require Import Conflict Cluster Outbox Growth Network Ledger Matching.
From S2P Require Import AppFacts AppStart AppSafety Radio Rounds.

#[local] Remove Hints sim_user : typeclass_instances.

Section Mesh.
Context {C : Contiki} {L : ContikiLaws C} {Pl : Platform C} {R : PlatformLaws Pl}.
Implicit Types w : world.
Abbreviation network_step := (network_step app_typed).
Abbreviation network_ok := (network_ok app_typed).

(** ** The mesh *)

(** The nodes by their id. *)
Abbreviation mesh := (gmap Z world).

(** The memory behind [packetbuf_dataptr()] when a packet arrives. *)
Definition heard (m : mesh) (mem : list Z) : Prop :=
  exists j w p junk, m !! j = Some w /\ p ∈ flooded (netflood (user_data w)) /\
    Forall is_uchar junk /\ mem = p ++ junk.

Definition may_happen (m : mesh) (ev : app_event) : Prop :=
  match ev with EvPacket mem => heard m mem | EvPeriodic | EvClient => True end.

(** One node is resumed and runs until it waits again. *)
Inductive mesh_step (m : mesh) : mesh -> Prop :=
  | mesh_round i w ev w' : m !! i = Some w -> may_happen m ev -> app_round ev w = Ok tt w' ->
      mesh_step m (<[i := w']> m).

(** ** The mesh implements the network *)
Section Refinement.
Context (HP : PACKETBUF_SIZE = 128%nat).

(** The letters of the network [n] are on the air in [m]. *)
Record carries (m : mesh) (n : network) : Prop := {
  cr_host : host n = m;
  cr_ok : network_ok n;
  cr_node i w : m !! i = Some w ->
    node_id i /\ cb (srv w) = raft_funcs /\ sv_node_id (user_data w) = i;
  cr_mail j l : mail n j l -> node_id j;
  cr_air i w p : m !! i = Some w -> p ∈ flooded (netflood (user_data w)) -> fair (mail n) i p
}.

(** The mail after a visit of node [i], and the packets of node [i] then. *)
Lemma carries_visit m n i w w1 ans :
  carries m n -> m !! i = Some w -> visit app_typed (mail n) i w w1 ans ->
  cb (srv w1) = raft_funcs -> sv_node_id (user_data w1) = i ->
  let ml := sent_mail (mail n) i w1 ans in
  (forall p, p ∈ flooded (netflood (user_data w1)) ->
     p ∈ flooded (netflood (user_data w)) \/ fair ml i p) ->
  let n' := mk_network (<[i := w1]> (host n)) ml in
  network_step n n' /\ carries (<[i := w1]> m) n'.
Proof.
  intros Cr Hi Hv Hcb Hid ml Hair n'. pose proof (cr_host _ _ Cr) as Hh.
  assert (network_step n n') as Hs by (apply (network_visit _ _ i w); [by rewrite Hh|done]).
  split; [done|]. destruct (cr_node _ _ Cr i w Hi) as [Hnode _].
  assert (forall j l, mail n j l -> ml j l) as Hml by (intros j l Hl; by left). split.
  - cbn. by rewrite Hh.
  - apply (network_step_ok _ n); [apply Cr|done].
  - intros j v. rewrite lookup_insert_Some. intros [[<- <-]|[_ Hj]]; [done|by apply (cr_node _ _ Cr)].
  - intros j l [Hl|[-> _]]; [by eapply cr_mail|done].
  - intros j v p. rewrite lookup_insert_Some. intros [[<- <-]|[_ Hj]] Hp.
    + destruct (Hair p Hp) as [Hold|]; [|done].
      apply (fair_mono (mail n)); [intros l; apply Hml|by apply (cr_air _ _ Cr i w)].
    + apply (fair_mono (mail n)); [intros l; apply Hml|by apply (cr_air _ _ Cr j v)].
Qed.

(** Between calls. *)
Lemma carries_outside m n i w u g (Q : list Z -> Prop) :
  carries m n -> m !! i = Some w -> app_typed u -> floods Q (user_data w) u ->
  (forall p, Q p -> fair (mail n) i p) ->
  let w' := with_user_data u (with_rand_state g w) in
  exists n', network_step n n' /\ carries (<[i := w']> m) n' /\ forall j l, mail n j l -> mail n' j l.
Proof.
  intros Cr Hi Hu [Hid Hf] HQ w'. destruct (cr_node _ _ Cr i w Hi) as (_ & Hcb & Hsv).
  edestruct (carries_visit m n i w w' None) as [Hs Hc]; [done|done|by eapply visit_outside|done| | |].
  - cbn in *. congruence.
  - intros p Hp. destruct (Hf p Hp) as [|Hq]; [by left|right].
    apply (fair_mono (mail n)); [by left|auto].
  - eexists. split; [exact Hs|]. split; [exact Hc|]. by left.
Qed.

Lemma call_packet_fair ml i w a p : (forall l, honest_letter w l -> ml i l) -> log_repr w a ->
  call_packet i (honest_append w a) (honest_request w a) p -> fair ml i p.
Proof.
  intros Hml R' (dest & [(m & Hm & ->)|(m & Hm & ->)]); split.
  - apply packet_of_bytes, Forall_app_2; [apply encode_appendentries_bytes|apply entry_bytes_bytes].
  - eexists dest, MSG_APPENDENTRIES, _. split; [reflexivity|]. exists m. split; [|done].
    apply Hml. by exists a.
  - apply packet_of_bytes, encode_requestvote_bytes.
  - exists dest, MSG_REQUESTVOTE, (encode_requestvote m). split; [done|]. exists m. split; [|done].
    apply Hml. by exists a.
Qed.

(** A call of the library. *)
Lemma carries_call m n i w w1 ans o : carries m n -> m !! i = Some w ->
  visit app_typed (mail n) i w w1 ans -> run_op o w = Ok tt w1 ->
  let n' := mk_network (<[i := w1]> (host n)) (sent_mail (mail n) i w1 ans) in
  network_step n n' /\ carries (<[i := w1]> m) n'.
Proof.
  intros Cr Hi Hv Hop. destruct (cr_node _ _ Cr i w Hi) as (_ & Hcb & Hsv).
  destruct (cr_ok _ _ Cr) as [Hh Hm]. destruct (Hh i w) as [a Ho]; [by rewrite (cr_host _ _ Cr)|].
  destruct (visit_host (U := app_user) app_typed (mail n) i w a w1 ans Hm Ho Hv) as (a' & Ho' & _).
  pose proof (so_log _ _ (ho_server _ _ _ _ Ho')) as R'.
  destruct (message_honest_run o w w1 a a') as [Hcb' Hcalls]; try done; try apply Ho; [apply Ho'|].
  rewrite Hcb in Hcb', Hcalls.
  apply (user_calls_floods HP) in Hcalls as [Hid Hair].
  2: { intros m0 (_ & next & c & _ & _ & ->). cbn. intros Hpos Hnil. rewrite Hnil in Hpos. cbn in Hpos. lia. }
  rewrite Hsv in Hid, Hair.
  apply (carries_visit m n i w w1 ans Cr Hi Hv); [congruence|done|].
  intros p Hp. destruct (Hair p Hp) as [|Hc]; [by left|right].
  apply (call_packet_fair _ i w1 a'); [|done|done]. intros l Hl. right. auto.
Qed.

Lemma client_packet_fair ml i p : client_packet i p -> fair ml i p.
Proof.
  intros (dest & v & ->). split; [apply packet_of_bytes, put_int_bytes|].
  by exists dest, MSG_CLIENT, (put_int v).
Qed.

(** The answer to a letter is on the air. *)
Lemma answer_packet_fair (ml : Z -> letter -> Prop) i ans p : (forall l, ans = Some l -> ml i l) ->
  (forall to r, ans = Some (Vote to r) -> node_id to) ->
  (forall to r, ans = Some (Ack to r) -> node_id to) ->
  answer_packet i ans p -> fair ml i p.
Proof.
  intros Hml Hv Ha Hp. destruct ans as [[m|to r|m|to r]|]; cbn [answer_packet] in Hp; try done; subst p; split.
  - apply packet_of_bytes, encode_requestvote_response_bytes.
  - exists to, MSG_REQUESTVOTE_RESPONSE, (encode_requestvote_response r). split; [done|].
    exists r. split; [by apply Hml|]. split; [|done]. by apply node_id_uint, (Hv to r).
  - apply packet_of_bytes, encode_appendentries_response_bytes.
  - exists to, MSG_APPENDENTRIES_RESPONSE, (encode_appendentries_response r). split; [done|].
    exists r. split; [by apply Hml|]. split; [|done]. by apply node_id_uint, (Ha to r).
Qed.

Lemma visit_answer_to ml i w w1 ans : (forall j l, ml j l -> node_id j) ->
  visit app_typed ml i w w1 ans -> forall l to, ans = Some l ->
  (exists r, l = Vote to r) \/ (exists r, l = Ack to r) -> node_id to.
Proof.
  intros Hml Hv l to -> Hl. inversion Hv; subst; destruct Hl as [[r' [= <- <-]]|[r' [= <- <-]]]; eauto.
Qed.

(** Every round of a node is up to three steps of the network. *)
Lemma mesh_step_network m m' n : carries m n -> mesh_step m m' ->
  exists n', rtc network_step n n' /\ carries m' n'.
Proof.
  intros Cr [i w ev w' Hi Hev Hrun]. destruct (cr_node _ _ Cr i w Hi) as (Hnode & Hcb & Hsv).
  destruct (cr_ok _ _ Cr) as [Hh Hm]. destruct (Hh i w) as [a Ho]; [by rewrite (cr_host _ _ Cr)|].
  assert (round (mail n) i w w') as Hround.
  { eapply app_round_visit; try done. destruct ev as [mem| |]; [|done..].
    destruct Hev as (j & v & p & junk & Hj & Hp & Hjunk & ->). exists j, p, junk.
    split_and!; [by eapply cr_node|by eapply cr_air|done|done]. }
  destruct Hround as [u g -> Hu Hf|u g w1 w2 ans u' -> Hu Hf Hv [o Hop] -> Hu' Hf'].
  - destruct (carries_outside m n i w u g _ Cr Hi Hu Hf) as (n1 & Hs & Hc & _).
    { intros p. apply client_packet_fair. }
    exists n1. split; [by apply rtc_once|done].
  - destruct (carries_outside m n i w u g _ Cr Hi Hu Hf) as (n1 & Hs1 & Hc1 & Hm1); [done|].
    set (w1 := with_user_data u _) in *. set (m1 := <[i := w1]> m) in *.
    assert (m1 !! i = Some w1) as Hi1 by apply lookup_insert_eq.
    assert (visit app_typed (mail n1) i w1 w2 ans) as Hv1 by (by eapply visit_mono).
    destruct (carries_call m1 n1 i w1 w2 ans o Hc1 Hi1 Hv1 Hop) as [Hs2 Hc2].
    set (n2 := mk_network _ _) in *. set (m2 := <[i := w2]> m1) in *.
    assert (m2 !! i = Some w2) as Hi2 by apply lookup_insert_eq.
    destruct (cr_node _ _ Hc2 i w2 Hi2) as (_ & _ & Hsv2). rewrite Hsv2 in Hf'.
    assert (with_user_data u' w2 = with_user_data u' (with_rand_state (rand_state w2) w2)) as E
      by by destruct w2.
    assert (app_typed u') as Hu2.
    { apply Hu'. destruct (cr_ok _ _ Hc2) as [Hh2 _]. destruct (Hh2 i w2) as [a2 Ho2].
      - by rewrite (cr_host _ _ Hc2).
      - apply (ho_typed _ _ _ _ Ho2). }
    assert (forall p, answer_packet i ans p -> fair (mail n2) i p) as Hans.
    { pose proof (visit_answer_to _ i w1 w2 ans (cr_mail _ _ Hc1) Hv1) as Hto.
      intros p. apply answer_packet_fair; [intros l Hl; right; by split; [|right]|..];
        intros to r Hl; eapply Hto; eauto. }
    destruct (carries_outside m2 n2 i w2 u' (rand_state w2) _ Hc2 Hi2 Hu2 Hf' Hans)
      as (n3 & Hs3 & Hc3 & _).
    exists n3. split.
    + eapply rtc_l; [exact Hs1|]. eapply rtc_l; [exact Hs2|]. by apply rtc_once.
    + rewrite <- E in Hc3. unfold m2, m1 in Hc3. by rewrite !insert_insert_eq in Hc3.
Qed.

Lemma mesh_steps_network m m' n : carries m n -> rtc mesh_step m m' ->
  exists n', rtc network_step n n' /\ carries m' n'.
Proof.
  intros Cr Hs. revert n Cr. induction Hs as [m|m m1 m2 H1 _ IH]; intros n Cr; [by exists n|].
  destruct (mesh_step_network m m1 n Cr H1) as (n1 & Hn1 & Cr1).
  destruct (IH n1 Cr1) as (n2 & Hn2 & Cr2). exists n2. split; [by etransitivity|done].
Qed.
End Refinement.

(** ** The start *)
Section Start.
Context (HC1 : 0 < CLOCK_SECOND) (HC2 : CLOCK_SECOND * 100 <= 32768).

(** Memory when a node is switched on: nothing is allocated and nothing was sent. *)
Record booted (w : world) : Prop := {
  bt_pools : pools_empty w;
  bt_typed : memory_typed app_typed w;
  bt_entries : entry_heap w = ∅;
  bt_air p : p ∉ flooded (netflood (user_data w))
}.

(** All nodes have run the start of the program. *)
Definition switched_on (m : mesh) : Prop :=
  forall i w, m !! i = Some w -> 1 <= i <= 5 /\ exists w0, booted w0 /\ main_process i w0 = Ok tt w.

Definition all_ids : gset Z := {[1; 2; 3; 4; 5]}.

#[local] Hint Resolve next_random_keeps update_app_keeps : keeps.
Lemma main_process_entries i : keeps (same entry_heap) (main_process i).
Proof.
  unfold main_process, raft_new, raft_set_callbacks, log_set_callbacks, log_new, log_alloc,
    raft_set_snapshot_metadata, raft_set_election_timeout, raft_set_request_timeout.
  unfold_accessors. keeps_solve; by apply keeps_same_modify.
Qed.

(** There is no snapshot, and no time has passed. *)
Definition snapshots w :=
  (snapshot_last_term (srv w), snapshot_in_progress (srv w), timeout_elapsed (srv w)).
Lemma raft_new_snapshot w u w' : raft_new w = Ok u w' -> snapshots w' = (0, 0, 0).
Proof.
  intros H. unfold raft_new in H. run_simp H.
  run_bind H as u1 w1 H1. run_bind H as u2 w2 H2. run_simp H. run_bind H as u3 w3 H3. run_simp H.
  unfold raft_set_snapshot_metadata in H. run_simp H. unfold raft_randomize_election_timeout in H1.
  run_keeps H1 (same (fun w => timeout_elapsed (srv w))) as K1; [by apply keeps_same_modify..|].
  unfold log_new, log_alloc in H2.
  run_keeps H2 (same (fun w => timeout_elapsed (srv w))) as K2; [by apply keeps_same_modify..|].
  run_keeps H3 (same (fun w => timeout_elapsed (srv w))) as K3.
  unfold same in *. injection H as _ <-. unfold snapshots. cbn in *. by rewrite K3, K2, K1.
Qed.
Lemma main_process_snapshot i w u w' : main_process i w = Ok u w' -> snapshots w' = (0, 0, 0).
Proof.
  intros H. unfold main_process in H. unfold update_app at 1 in H. run_simp H. run_bind H as u1 w1 H1.
  apply raft_new_snapshot in H1. rewrite <- H1.
  unfold raft_set_callbacks, log_set_callbacks, raft_set_election_timeout, raft_set_request_timeout,
    raft_randomize_election_timeout, next_random in H.
  run_keeps H (same snapshots) as K; [by apply keeps_same_modify..|]. exact K.
Qed.

Lemma ids_voting w l :
  ids_at w (List.filter (node_sat w votes_here) l)
  = map id (List.filter votes_here (members_of (node_heap w) l)).
Proof.
  induction l as [|a l IH]; [done|]. cbn [List.filter members_of omap list_omap].
  change (list_omap _ _ _ l) with (members_of (node_heap w) l).
  unfold node_sat at 1. destruct (node_heap w !! a) as [n|] eqn:Ha; [|exact IH].
  cbn [List.filter]. destruct (votes_here n); [|exact IH]. unfold ids_at. cbn [omap list_omap map].
  unfold node_id_at at 1. rewrite Ha. cbn. f_equal. exact IH.
Qed.

Lemma switched_on_node m i w : switched_on m -> m !! i = Some w ->
  ready all_ids i w /\ host_ok app_typed i w (mk_alog 0 []) /\
  node_id i /\ cb (srv w) = raft_funcs /\ sv_node_id (user_data w) = i /\
  forall p, p ∉ flooded (netflood (user_data w)).
Proof.
  intros Hm Hi. destruct (Hm i w Hi) as (Hid & w0 & [B1 B2 B3 B4] & H).
  destruct (main_process_run i w0 B1 Hid HC1 HC2)
    as (w1 & H1 & St & Hmem & Hsv & _ & _ & _ & Hnet).
  rewrite H in H1. injection H1 as <-. destruct St as [Sok Ssnap Srole Shist Sself Scb Slog].
  assert (normal_entries w) as N.
  { intros p e He. apply main_process_entries in H. unfold same in H. by rewrite H, B3 in He. }
  assert (appends_only w) as Ha.
  { injection Slog as G1 G2. split; [by apply app_offers|]. exists (-1). split; [done|].
    split; [done|]. split; [done|]. exists app_logentry_pop. by rewrite Scb. }
  split_and!; try done.
  - injection Srole as Sr _. injection Shist as _ Sv _ _.
    split; try done; [apply Sok|apply Sok| | |lia].
    + unfold voting_nodes. rewrite ids_voting. fold (members w). rewrite Hmem.
      assert (i = 1 \/ i = 2 \/ i = 3 \/ i = 4 \/ i = 5) as Hn by lia.
      destruct Hn as [->|[->|[->|[->| ->]]]]; vm_compute; reflexivity.
    + assert (i = 1 \/ i = 2 \/ i = 3 \/ i = 4 \/ i = 5) as Hn by lia. unfold all_ids. set_solver.
  - split; try done; [by eapply main_process_typed|]. injection Shist as _ _ Sc _. lia.
  - unfold node_id. lia.
  - intros p Hp. rewrite Hnet in Hp. apply open_flooded in Hp. by apply (B4 p).
Qed.

(** The network of a mesh before anything is sent. *)
Definition silence (m : mesh) : network := mk_network m (fun _ _ => False).

Lemma switched_on_opening m : switched_on m -> opening app_typed all_ids (silence m).
Proof.
  intros Hm. split; [| |by auto].
  - intros i w Hi. by apply (switched_on_node m).
  - intros i w Hi. by apply (switched_on_node m).
Qed.

Lemma switched_on_carries m : switched_on m -> carries m (silence m).
Proof.
  intros Hm. pose proof (switched_on_opening m Hm) as Ho. split; try done.
  - by eapply opening_ok.
  - intros i w Hi. destruct (switched_on_node m i w Hm Hi) as (_ & _ & ? & ? & ? & _). done.
  - intros i w p Hi Hp. destruct (switched_on_node m i w Hm Hi) as (_ & _ & _ & _ & _ & Hair).
    by destruct (Hair p).
Qed.

(** ** What holds of the program *)
Context (HP : PACKETBUF_SIZE = 128%nat).

Lemma program_network m0 m : switched_on m0 -> rtc mesh_step m0 m ->
  exists n, opening app_typed all_ids (silence m0) /\ rtc network_step (silence m0) n /\ carries m n.
Proof.
  intros Hm Hs.
  destruct (mesh_steps_network HP m0 m (silence m0) (switched_on_carries m0 Hm) Hs) as (n & Hn & Cr).
  exists n. split; [by apply switched_on_opening|done].
Qed.

(** C9: the nodes of the cluster implement a network of servers.  Whatever the
    radio does with the packets, and whenever the timers of the nodes expire, every
    round of a node is a sequence of steps of the network whose servers are the
    nodes, in which the library receives only messages the network carries, and
    every packet on the air carries such a message: a vote request or response as it
    was, an appendentries message with its first entry.  The network's mail bounds
    what the nodes send from above: it holds every answer given, and every message
    that is honest of a state its sender was in after a call, asked for or not (as a
    candidate, the vote request of its term; as a leader, the appendentries messages
    that its log yields for any next index and any commit index up to its own). *)
Theorem program_refines_network m0 m : switched_on m0 -> rtc mesh_step m0 m ->
  exists n, rtc network_step (silence m0) n /\ host n = m /\
    (forall i w p, m !! i = Some w -> p ∈ flooded (netflood (user_data w)) -> fair (mail n) i p) /\
    exists c, rtc cluster_step (mk_cluster m0 []) c /\ server c = m.
Proof.
  intros Hm Hs. destruct (program_network m0 m Hm Hs) as (n & Ho & Hn & Cr).
  destruct (network_cluster _ _ _ _ (opening_ok _ _ _ Ho) (opening_cluster _ _ _ Ho) Hn)
    as (_ & c & Hc & Hv & _).
  exists n. split; [done|]. split; [apply Cr|]. split; [apply (cr_air _ _ Cr)|].
  exists c. split; [exact Hc|]. rewrite Hv. apply Cr.
Qed.

(** C4: election safety of the program: if a node is the leader of a term at some
    time, and a node is the leader of the same term then or later, the two are the
    same node. *)
Theorem program_election_safety m0 m1 m2 i1 i2 w1 w2 :
  switched_on m0 -> rtc mesh_step m0 m1 -> rtc mesh_step m1 m2 ->
  m1 !! i1 = Some w1 -> m2 !! i2 = Some w2 ->
  role w1 = RAFT_STATE_LEADER -> role w2 = RAFT_STATE_LEADER -> term_of w1 = term_of w2 ->
  i1 = i2.
Proof.
  intros Hm H1 H2 Hi1 Hi2 L1 L2 Ht. destruct (program_network m0 m1 Hm H1) as (n1 & Ho & Hn1 & Cr1).
  destruct (mesh_steps_network HP m1 m2 n1 Cr1 H2) as (n2 & Hn2 & Cr2).
  apply (network_election_safety (U := app_user) app_typed all_ids (silence m0) n1 n2 i1 i2 w1 w2); try done.
  - vm_compute. lia.
  - by rewrite (cr_host _ _ Cr1).
  - by rewrite (cr_host _ _ Cr2).
Qed.

(** No node has ever held more entries than its log has room for. *)
Definition unfilled (m : mesh) : Prop :=
  forall i w, m !! i = Some w -> count (lg w) <= Z.of_nat MAX_ENTRIES.

(** The logs of the nodes implement the abstract ledger, as long as no log was
    full: the log of each node is one the ledger gives it, and a leader holds the
    log of the reign of its term. *)
Theorem program_refines_ledger m0 m : switched_on m0 -> rtc mesh_step m0 m -> unfilled m ->
  exists g0 g, blank g0 /\ rtc ledger_step g0 g /\
    (forall i w a, m !! i = Some w -> log_repr w a -> held g !! i = Some (al_entries a)) /\
    (forall i w, m !! i = Some w -> role w = RAFT_STATE_LEADER ->
       exists l, held g !! i = Some l /\ reign g !! to_uint (term_of w) = Some (i, l)).
Proof.
  intros Hm Hs Hu. destruct (program_network m0 m Hm Hs) as (n & Ho & Hn & Cr).
  pose proof (cr_host _ _ Cr) as <-.
  by apply (network_follows_ledger (U := app_user) app_typed all_ids (silence m0) n); [vm_compute; lia|..].
Qed.

(** C5: log matching of the program: as long as no log was full, if the logs of two
    nodes have an entry of the same term at the same index, they have the same
    entries, ids and data included, up to that index. *)
Theorem program_log_matching m0 m i j w v a b k x y :
  switched_on m0 -> rtc mesh_step m0 m -> unfilled m ->
  m !! i = Some w -> m !! j = Some v -> log_repr w a -> log_repr v b ->
  al_get a k = Some x -> al_get b k = Some y -> ety_term x = ety_term y ->
  forall k', k' <= k -> al_get a k' = al_get b k'.
Proof.
  intros Hm Hs Hu. destruct (program_network m0 m Hm Hs) as (n & Ho & Hn & Cr).
  pose proof (cr_host _ _ Cr) as <-.
  apply (network_log_matching (U := app_user) app_typed all_ids (silence m0) n); try done. vm_compute. lia.
Qed.
End Start.
End Mesh.
