(* ===== verification/Air.v ===== *)
(** * Packets that are received

    [posting] is a platform that also writes down every packet a node gives to
    [netflood_send].  Nodes on it may receive all of these packets, which
    netflood does not promise: it is best effort, and a packet sent while the one
    before it waits replaces it.  What the callbacks and the answers of a node put
    on the air is stated for any radio that delivers ([ReliableRadio]), and
    [posting] is one. *)
From S2P Require Import Prelude Contiki Types Node Membership Log Server Election Replication.
From S2P Require Import Wire App Sim NodeFacts Frames History LogFacts MemberFacts.
From S2P Require Import ElectionFacts Roles Campaign Sending Ranges Fixed Outbox AppFacts AppStart.
From S2P Require Import AppSafety Radio.

#[local] Remove Hints sim_user : typeclass_instances.

(** A radio that floods every packet it is given, and on which packets stay. *)
Class ReliableRadio {C : Contiki} (P : Platform C) (R : PlatformLaws P) := {
  send_delivers seq n : in_buffer n ∈ flooded (netflood_send seq n);
  send_keeps seq n p : p ∈ flooded n -> p ∈ flooded (netflood_send seq n);
  copyfrom_keeps bs n p : p ∈ flooded n -> p ∈ flooded (packetbuf_copyfrom bs n)
}.

(** ** The packets given to netflood

    The platform [Pl] with a list of the contents of the packet buffer at each call
    of [netflood_send]. *)
Section Posting.
Context {C : Contiki}.

Definition posting (Pl : Platform C) (R : PlatformLaws Pl) : Platform C := {|
  net := @net C Pl * list (list Z);
  PACKETBUF_SIZE := @PACKETBUF_SIZE C Pl;
  packetbuf_copyfrom := fun bs n => (@packetbuf_copyfrom C Pl bs (fst n), snd n);
  netflood_send := fun seq n =>
    (@netflood_send C Pl seq (fst n), snd n ++ [@in_buffer C Pl R (fst n)]);
  netflood_open := fun t c n => (@netflood_open C Pl t c (fst n), snd n);
  CLOCK_SECOND := @CLOCK_SECOND C Pl;
  random_init := @random_init C Pl;
  entries_at := @entries_at C Pl
|}.

Context (Pl : Platform C) (R : PlatformLaws Pl).

Lemma posted_buffer bs (n : @net C (posting Pl R)) :
  (length bs <= @PACKETBUF_SIZE C (posting Pl R))%nat ->
  @in_buffer C Pl R (fst (@packetbuf_copyfrom C (posting Pl R) bs n)) = bs.
Proof. apply (@copyfrom_buffer C Pl R). Qed.

Lemma posted_send seq (n : @net C (posting Pl R)) p :
  p ∈ snd (@netflood_send C (posting Pl R) seq n) <-> p ∈ snd n \/ p = @in_buffer C Pl R (fst n).
Proof. cbn. by rewrite elem_of_app, list_elem_of_singleton. Qed.

(** The packets that can be heard are those given to [netflood_send]. *)
#[export] Instance posting_laws : PlatformLaws (posting Pl R) := {|
  in_buffer := fun n : @net C (posting Pl R) => @in_buffer C Pl R (fst n);
  flooded := fun n : @net C (posting Pl R) => snd n;
  copyfrom_buffer := posted_buffer;
  copyfrom_flooded := fun _ _ _ H => H;
  send_flooded := fun seq n p => proj1 (posted_send seq n p);
  open_flooded := fun _ _ _ _ H => H
|}.

#[export] Instance posting_reliable : ReliableRadio (posting Pl R) posting_laws.
Proof.
  split; [| |by auto].
  - intros seq n. apply posted_send. by right.
  - intros seq n p Hp. apply posted_send. by left.
Qed.
End Posting.

Section Air.
Context {C : Contiki} {L : ContikiLaws C} {Pl : Platform C} {R : PlatformLaws Pl}.
Context {RR : ReliableRadio Pl R} (HP : PACKETBUF_SIZE = 128%nat).
Implicit Types u : app_state.

Definition on_air u (p : list Z) : Prop := p ∈ flooded (netflood u).

(** Nothing is taken from the air. *)
Definition airs u u' : Prop :=
  sv_node_id u' = sv_node_id u /\ forall p, on_air u p -> on_air u' p.

#[export] Instance airs_preorder : PreOrder airs.
Proof.
  split; [done|]. intros u1 u2 u3 [I1 F1] [I2 F2]. split; [congruence|auto].
Qed.

Lemma sent_airs packet u u' : (length packet <= PACKETBUF_SIZE)%nat -> sent packet u u' ->
  airs u u' /\ on_air u' packet.
Proof.
  intros Hl [Hn Hid _ _ _]. unfold airs, on_air. rewrite Hn. split; [split; [done|]|].
  - intros p Hp. by apply send_keeps, copyfrom_keeps.
  - pose proof (send_delivers (netflood_seq u mod 256) (packetbuf_copyfrom packet (netflood u))) as H.
    by rewrite copyfrom_buffer in H.
Qed.

Lemma send_message_airs t bs dest u : (length bs <= 8)%nat ->
  airs u (send_message t bs dest u) /\
  on_air (send_message t bs dest u) (packet_of dest (sv_node_id u) t bs).
Proof.
  intros Hl. apply sent_airs; [rewrite packet_of_length; lia|]. apply send_message_sent. lia.
Qed.

(** The functions of the program only add packets. *)
Lemma user_call_airs PA PV u u' :
  (forall m, PA m -> 0 < ae_n_entries m -> ae_entries m <> []) ->
  user_call raft_funcs PA PV u u' -> airs u u'.
Proof.
  intros Hne H. destruct H as [f n m Hf Hm|f n m Hf Hm|f e k Hf|f v Hf|f t v Hf|f n Hf|f p Hf].
  - injection Hf as <-. by eapply sent_airs; apply append_packet_sent; auto.
  - injection Hf as <-. by apply (send_message_airs MSG_REQUESTVOTE).
  - assert (snd (f u e k) = u) as ->; [|done].
    cbn in Hf. rewrite !elem_of_cons in Hf.
    destruct Hf as [[= ->]|[[= ->]|[[= ->]|[[= ->]|Hf]]]]; try done. by apply elem_of_nil in Hf.
  - by injection Hf as <-.
  - by injection Hf as <-.
  - cbn in Hf. rewrite !elem_of_cons in Hf. destruct Hf as [|[[= ->]|Hf]]; [done|done|].
    by apply elem_of_nil in Hf.
  - by injection Hf as <-.
Qed.

Lemma user_calls_airs PA PV u u' :
  (forall m, PA m -> 0 < ae_n_entries m -> ae_entries m <> []) ->
  rtc (user_call raft_funcs PA PV) u u' -> airs u u'.
Proof.
  intros Hne H. induction H as [u|u u1 u2 H1 _ IH]; [done|].
  transitivity u1; [by eapply user_call_airs|done].
Qed.

(** A loop that sends one packet after the other. *)
Lemma foldl_airs {X} (f : app_state -> X -> app_state) (packet : Z -> X -> list Z) (l : list X) :
  (forall u x, x ∈ l -> airs u (f u x) /\ on_air (f u x) (packet (sv_node_id u) x)) ->
  forall u, airs u (foldl f u l) /\
    forall x, x ∈ l -> on_air (foldl f u l) (packet (sv_node_id u) x).
Proof.
  induction l as [|x l IH]; intros Hf u; cbn [foldl].
  { split; [done|]. by intros x ?%elem_of_nil. }
  destruct (Hf u x ltac:(left)) as [A1 O1].
  destruct (IH ltac:(intros v y Hy; apply Hf; by right) (f u x)) as [A2 O2].
  split; [by transitivity (f u x)|]. intros y [->|Hy]%elem_of_cons; [by apply A2|].
  specialize (O2 y Hy). destruct A1 as [I1 _]. by rewrite I1 in O2.
Qed.

(** The id of a node in memory. *)
Definition id_of (w : world) (b : addr) : Z := default 0 (node_id_at w b).
Lemma id_of_node w b n : node_heap w !! b = Some n -> id_of w b = id n.
Proof. intros H. unfold id_of, node_id_at. by rewrite H. Qed.

(** The vote requests of a campaign. *)
Lemma asks_airs w a l : cb (srv w) = raft_funcs -> (forall b, b ∈ l -> is_Some (node_heap w !! b)) ->
  forall u, airs u (foldl (ask w a) u l) /\
    forall b, b ∈ l -> on_air (foldl (ask w a) u l)
      (request_packet (sv_node_id u) (id_of w b) (vote_request w a)).
Proof.
  intros Hcb Hl. apply (foldl_airs (ask w a) (fun i b => request_packet i (id_of w b) (vote_request w a))).
  intros u b Hb. destruct (Hl b Hb) as [n Hn]. rewrite (id_of_node w b n Hn).
  unfold ask, logged. rewrite Hcb, Hn. cbn [send_requestvote raft_funcs log_message].
  by apply (send_message_airs MSG_REQUESTVOTE).
Qed.

(** A new entry to the peers that wait for it. *)
Lemma sends_airs w a l : cb (srv w) = raft_funcs ->
  (forall b, b ∈ l -> exists n, node_heap w !! b = Some n /\ next_idx n = al_last a) ->
  forall u, airs u (sends w a u l) /\
    forall b, b ∈ l -> on_air (sends w a u l)
      (append_packet (sv_node_id u) (id_of w b) (append_entries_for w a (al_last a))).
Proof.
  intros Hcb Hl. apply (foldl_airs (fun u p => snd (send_to w a u p))
    (fun i b => append_packet i (id_of w b) (append_entries_for w a (al_last a)))).
  intros u b Hb. destruct (Hl b Hb) as (n & Hn & Hnext). rewrite (id_of_node w b n Hn).
  unfold send_to, logged. rewrite Hcb, Hn, Hnext. cbn [send_appendentries raft_funcs log_message].
  eapply sent_airs; apply append_packet_sent; try done;
    (cbn; intros Hpos Hnil; rewrite Hnil in Hpos; cbn in Hpos; lia).
Qed.
End Air.
