(* ===== verification/Progress.v ===== *)
(** * Progress of the nodes

    What the program can reach when packets it gave to netflood are received.  A
    node whose election timer runs can be elected: the timer expires, the node sends
    its vote requests, the nodes that hear them and can vote for it send their
    answers, and the node that hears a majority of them leads.  From any state three
    nodes or more reach, the one with the best log can be elected, after it has been
    brought into the latest term.  And a leader that a client sends a value to can
    commit it: it sends the entry, the nodes that hear it append it and send their
    answers, and the leader counts them.  Every packet is staged, given to
    [netflood_send], received and decoded as in app/main.c, and nothing fails on
    the way.

    The nodes run on [Air.posting]: each packet a node hears was given to
    [netflood_send] by some node.  Nothing is said of the runs in which netflood
    loses those packets, or replaces one by the next of the same round. *)
From S2P Require Import Prelude Contiki Types Node Membership Log Server Election Replication.
From S2P Require Import Wire App Sim NodeFacts Frames History LogFacts MemberFacts.
From S2P Require Import ElectionFacts Roles Campaign Sending Receiving Commit Lifecycle Ranges Fixed.
From S2P Require Import Conflict Liveness Cluster Outbox Growth Network Ledger Matching Timers.
From S2P Require Import Acks Visits AppFacts AppStart AppSafety Radio Rounds Mesh Air.

#[local] Remove Hints sim_user : typeclass_instances.

(** ** The nodes between rounds *)
Section Nodes.
Context {C : Contiki} {L : ContikiLaws C} {Pl : Platform C} {R : PlatformLaws Pl}.
Context {RR : ReliableRadio Pl R}.
Context (HC1 : 0 < CLOCK_SECOND) (HC2 : CLOCK_SECOND * 104 <= 32768).
Context (HP : PACKETBUF_SIZE = 128%nat).
Implicit Types w : world.

(** The timers of a node are those the program set, and time is counted up to the
    longest of them only. *)
Record paced (w : world) : Prop := {
  pc_timeout : election_timeout (srv w) = CLOCK_SECOND * 50;
  pc_request : request_timeout (srv w) = CLOCK_SECOND * 8;
  pc_drawn : election_timeout_rand (srv w) < CLOCK_SECOND * 100;
  pc_snapshot : snapshot_in_progress (srv w) = 0;
  pc_elapsed : timeout_elapsed (srv w) < CLOCK_SECOND * 100
}.

Lemma paced_elapsed w w0 w' : paced w -> timing w0 = (election_timeout (srv w), request_timeout (srv w),
    snapshot_in_progress (srv w), election_timeout_rand (srv w), timeout_elapsed (srv w0)) ->
  timed w0 w' -> timeout_elapsed (srv w') < CLOCK_SECOND * 100 -> paced w'.
Proof.
  intros [P1 P2 P3 P4 _] E0 [E Q S Hr _] He. unfold timing in E0. injection E0 as E1 E2 E3 E4.
  split; try congruence. assert (INT_MAX (T := sky) = 32767) as Hm by done.
  rewrite E1, P1, E4 in Hr. assert (timer_ok (T := sky) w0) as Ht by (unfold timer_ok; rewrite E1, P1, Hm; lia).
  specialize (Hr Ht). lia.
Qed.

Lemma paced_timed w w' : timed w w' -> paced w -> paced w'.
Proof.
  intros Ht Hp. apply (paced_elapsed w w w' Hp eq_refl Ht). pose proof (pc_elapsed _ Hp).
  destruct (tm_elapsed _ _ Ht); lia.
Qed.

Lemma next_random_timed : keeps timed next_random.
Proof. unfold next_random. keeps_solve. Qed.
#[local] Hint Resolve next_random_timed update_app_keeps load_ro load_entries_ro
  raft_get_current_leader_ro : keeps.
Lemma app_round_timed ev : ev <> EvPeriodic -> keeps timed (app_round ev).
Proof.
  intros Hev. destruct ev; [|done|]; cbn [app_round]; unfold recv, dispatch, client_process,
    client_new_message, handle_msg_appendentries, answer_appendentries,
    handle_msg_appendentries_response, handle_msg_requestvote, answer_requestvote,
    handle_msg_requestvote_response, count_vote, handle_msg_client, handle_msg_client_response;
    unfold_accessors; keeps_solve.
Qed.

Lemma all_ids_enough : (1 < stdpp.base.size all_ids)%nat.
Proof. vm_compute. lia. Qed.

(** What holds of the network in every state it reaches: votes are cast once, and
    what is committed is in the log. *)
Record settled (n : network) : Prop := {
  se_ok : network_ok app_typed n;
  se_votes : exists cast c, cluster_inv all_ids cast c /\ votes_posted n c;
  se_within i w a : host n !! i = Some w -> log_repr w a -> commit_of w <= al_last a
}.

Lemma settled_step n n' : settled n -> network_step app_typed n n' -> settled n'.
Proof.
  intros [Hok (cast & c & HI & Hp) Hw] Hs. pose proof (network_step_ok _ n n' Hok Hs) as Hok'. split.
  - done.
  - destruct (network_cluster_step (U := app_user) app_typed n n' c Hok Hp Hs) as (c' & Hc & Hp').
    destruct (cluster_steps_inv all_ids cast c c' all_ids_enough HI (rtc_once _ _ Hc)) as (cast' & HI' & _).
    by exists cast', c'.
  - destruct Hok as [Hh Hm]. destruct Hok' as [Hh' _]. destruct Hs as [i w w' ans Hi Hv]. intros j v b.
    cbn. rewrite lookup_insert_Some. intros [[<- <-]|[_ Hj]] Rb; [|by eapply Hw].
    destruct (Hh i w Hi) as [a Ho]. destruct (Hh' i w') as [a' Ho']; [apply lookup_insert_eq|].
    rewrite (log_repr_unique w' b a' Rb (so_log _ _ (ho_server _ _ _ _ Ho'))).
    apply (visit_within (U := app_user) app_typed (mail n) Hm i w w' a a' ans Ho Ho' all_ids all_ids_enough
      cast); [|done|by apply (Hw i w), Ho].
    apply HI. by destruct Hp as [-> _].
Qed.

Lemma settled_steps n n' : settled n -> rtc (network_step app_typed) n n' -> settled n'.
Proof. intros Hn Hs. induction Hs; eauto using settled_step. Qed.

(** What holds of the nodes in every state the program reaches. *)
Record peopled (m : gmap Z world) : Prop := {
  pp_network : exists n, carries m n /\ settled n;
  pp_paced i w : m !! i = Some w -> paced w
}.

(** A node of a reachable mesh. *)
Record inhabitant (i : Z) (w : world) : Prop := {
  ih_host : exists a, host_ok app_typed i w a;
  ih_server : exists cast, server_inv all_ids cast i w;
  ih_id : node_id i;
  ih_cb : cb (srv w) = raft_funcs;
  ih_sv : sv_node_id (user_data w) = i;
  ih_paced : paced w;
  ih_within a : log_repr w a -> commit_of w <= al_last a
}.

Lemma peopled_node m i w : peopled m -> m !! i = Some w -> inhabitant i w.
Proof.
  intros [(n & Cr & Hn) Hpc] Hi. destruct (cr_node _ _ Cr i w Hi) as (H1 & H2 & H3).
  assert (host n !! i = Some w) as Hh by by rewrite (cr_host _ _ Cr).
  destruct Hn as [Hok (cast & c & HI & Hp) Hw].
  split; [by apply Hok|exists cast; apply HI; by destruct Hp as [-> _]|done|done|done|by eapply Hpc|].
  intros a Ra. by eapply Hw.
Qed.

(** The id of a block, when the blocks [bs] have the ids [js]. *)
Lemma elem_of_map_some {A B} (f : A -> option B) bs js b : map f bs = map Some js -> b ∈ bs ->
  exists j, j ∈ js /\ f b = Some j.
Proof.
  intros H Hb. assert (f b ∈ map Some js) as (j & Hj & Hin)%list_elem_of_fmap.
  { rewrite <- H. by apply list_elem_of_fmap_2. }
  by exists j.
Qed.

(** *** A node in its cluster *)
Section Member.
Context (i : Z) (w : world) (Hi : inhabitant i w).

Lemma member_host a (R' : log_repr w a) : host_ok app_typed i w a.
Proof.
  destruct (ih_host _ _ Hi) as [b Ho]. by rewrite (log_repr_unique w a b R' (so_log _ _ (ho_server _ _ _ _ Ho))).
Qed.

Lemma member_id : 1 <= i <= 5.
Proof.
  destruct (ih_server _ _ Hi) as [cast Si]. pose proof (si_member _ _ _ _ Si) as H.
  unfold all_ids in H. rewrite !elem_of_union, !elem_of_singleton in H. lia.
Qed.

Lemma member_uint : uint16 i /\ to_uint (T := sky) i = i.
Proof. destruct (node_id_uint HP i (ih_id _ _ Hi)) as (H1 & H2 & _). done. Qed.

Lemma member_five : length (voting_nodes w) = 5%nat.
Proof. destruct (ih_server _ _ Hi) as [cast Si]. by rewrite <- (voting_size _ _ _ _ Si). Qed.

(** Its block of a node. *)
Lemma member_node j : 1 <= j <= 5 -> exists b, b ∈ voting_nodes w /\ node_id_at w b = Some j.
Proof.
  intros Hj. destruct (ih_server _ _ Hi) as [cast Si]. apply ids_at_elem.
  apply (elem_of_list_to_set (C := gset Z)). rewrite (si_voting _ _ _ _ Si).
  unfold all_ids. assert (j = 1 \/ j = 2 \/ j = 3 \/ j = 4 \/ j = 5) as Hn by lia. set_solver.
Qed.

Lemma member_get b j : b ∈ nodes_list (srv w) -> node_id_at w b = Some j -> node_id j ->
  raft_get_node (to_int (T := sky) j) w = Ok (Some b) w.
Proof.
  intros Hb Hid Hj. destruct (ih_server _ _ Hi) as [cast Si]. pose proof (si_nodes _ _ _ _ Si) as W.
  destruct (node_id_uint HP j Hj) as (_ & _ & ->). rewrite (raft_get_node_ok w W).
  unfold node_id_at in Hid. destruct (node_heap w !! b) as [n|] eqn:Hn; [|done]. injection Hid as <-.
  by rewrite (find_by_id w W b n).
Qed.

Lemma member_self : self_votes w.
Proof.
  destruct (member_node i member_id) as (b & Hb & Hid). destruct (ih_server _ _ Hi) as [cast Si].
  apply voting_elem in Hb as [Hin Hv]. destruct (si_self _ _ _ _ Si) as (s & Hs & Hsl).
  pose proof (si_id _ _ _ _ Si) as Hself. unfold self_id in Hself. rewrite Hs in Hself.
  destruct (nw_heap _ (si_nodes _ _ _ _ Si) s Hsl) as [n Hn].
  exists s. split; [done|]. replace s with b; [done|].
  apply (nw_ids _ (si_nodes _ _ _ _ Si) b s i); try done.
  unfold node_id_at in *. rewrite Hn in *. by rewrite <- Hself.
Qed.

(** The other nodes are its electorate. *)
Lemma member_peer j : 1 <= j <= 5 -> j <> i ->
  exists b, b ∈ electorate w /\ node_id_at w b = Some j.
Proof.
  intros Hj Hne. destruct (member_node j Hj) as (b & Hb & Hid).
  destruct (ih_server _ _ Hi) as [cast Si]. apply voting_elem in Hb as [Hin Hv].
  exists b. split; [|done]. apply electorate_elem. split; [done|]. split; [|done]. intros Hs.
  destruct Hne. rewrite <- (si_id _ _ _ _ Si). unfold self_id. by rewrite Hs, Hid.
Qed.

Lemma member_elects b j : b ∈ nodes_list (srv w) -> node_id_at w b = Some j -> 1 <= j <= 5 ->
  j <> i -> b ∈ electorate w.
Proof.
  intros Hb Hid Hj Hne. destruct (member_peer j Hj Hne) as (c & Hc & Hcj).
  replace b with c; [done|]. apply electorate_elem in Hc as [Hc _].
  destruct (ih_server _ _ Hi) as [cast Si]. by apply (nw_ids _ (si_nodes _ _ _ _ Si) c b j).
Qed.

Lemma member_peers js : NoDup js -> (forall j, j ∈ js -> 1 <= j <= 5 /\ j <> i) ->
  exists bs, map (node_id_at w) bs = map Some js /\ NoDup bs /\ bs ⊆ electorate w.
Proof.
  intros Hnd Hjs. assert (exists bs, map (node_id_at w) bs = map Some js /\ bs ⊆ electorate w)
    as (bs & Hids & Hel).
  { clear Hnd. induction js as [|j js IH]; [exists []; split; [done|set_solver]|].
    destruct IH as (bs & Hids & Hel); [intros k Hk; apply Hjs; by right|].
    destruct (member_peer j) as (b & Hb & Hid); [apply Hjs; left..|]. exists (b :: bs).
    split; [cbn; by rewrite Hid, Hids|]. by intros c [->|Hc]%elem_of_cons; [|apply Hel]. }
  exists bs. split; [done|]. split; [|done]. apply (NoDup_fmap_1 (node_id_at w)).
  replace (node_id_at w <$> bs) with (Some <$> js) by done. by apply (NoDup_fmap_2 Some).
Qed.
End Member.

(** ** Runs *)
Lemma tick_value : RAFT_PERIODIC_TICK = CLOCK_SECOND * 4.
Proof. unfold RAFT_PERIODIC_TICK. apply to_int_small. change INT_MAX with 32767. lia. Qed.

(** A timer that expires. *)
Lemma periodic_paced i w e w' : inhabitant i w -> raft_periodic RAFT_PERIODIC_TICK w = Ok e w' -> paced w'.
Proof.
  intros In H. pose proof (ih_paced _ _ In) as Hp. destruct (ih_host _ _ In) as [a Ho].
  pose proof (raft_periodic_timed _ w e w' H) as Ht.
  eapply paced_elapsed; [exact Hp| |exact Ht|]; [done|].
  pose proof (sv_term _ _ (ty_srv _ _ (ho_typed _ _ _ _ Ho))) as Htm. unfold is_int in Htm.
  destruct Hp as [_ Hq Hd Hs _].
  destruct (raft_periodic_bounded RAFT_PERIODIC_TICK w a e w' (ho_server _ _ _ _ Ho)
    ltac:(rewrite (member_five i w In); lia) (member_self i w In) Hs ltac:(unfold term_of; lia) H) as [E|E].
  - rewrite E. lia.
  - rewrite Hq in E. lia.
Qed.

Lemma peopled_step m m' : peopled m -> mesh_step m m' -> peopled m'.
Proof.
  intros Hm Hs. pose proof Hm as [(n & Cr & Hn) Hpc]. split.
  - destruct (mesh_step_network HP m m' n Cr Hs) as (n' & Hns & Cr'). exists n'. split; [done|].
    by apply (settled_steps n).
  - destruct Hs as [i w ev w' Hi _ H]. intros j v. rewrite lookup_insert_Some.
    intros [[<- <-]|[_ Hj]]; [|by eapply Hpc]. assert (ev = EvPeriodic \/ ev <> EvPeriodic) as [->|Hne] by (destruct ev; auto).
    + cbn [app_round] in H. unfold raft_periodic_process in H. run_bind H as e w1 H1. injection H as <-.
      by eapply periodic_paced; [apply (peopled_node m)|].
    + apply app_round_timed in H; [|done]. eapply paced_timed; [exact H|by eapply Hpc].
Qed.

Lemma peopled_steps m m' : peopled m -> rtc mesh_step m m' -> peopled m'.
Proof. intros Hm Hs. induction Hs; eauto using peopled_step. Qed.

Lemma switched_on_peopled m : switched_on m -> peopled m.
Proof.
  intros Hm. assert (CLOCK_SECOND * 100 <= 32768) as HC3 by lia.
  assert (forall i w, m !! i = Some w -> paced w /\ commit_of w = 0) as Hall.
  { intros i w Hi. destruct (Hm i w Hi) as (Hid & w0 & [B1 _ _ _] & H).
    destruct (main_process_run i w0 B1 Hid HC1 HC3) as (w1 & H1 & St & _ & _ & Ht & Hr & Hq & _).
    rewrite H in H1. injection H1 as <-. pose proof (st_hist _ _ _ St) as Hh. injection Hh as _ _ Hc _.
    split; [|done]. apply main_process_snapshot in H. unfold snapshots in H. injection H as _ Hs He.
    split; try done; lia. }
  split; [|intros i w Hi; by eapply Hall].
  pose proof (switched_on_opening HC1 HC3 m Hm) as Ho. exists (silence m).
  split; [by apply switched_on_carries|]. split.
  - by eapply opening_ok.
  - exists (fun _ _ _ => False), (mk_cluster m []). split; [apply ready_inv; [done|apply Ho]|].
    by apply (opening_cluster (U := app_user) app_typed all_ids).
  - intros i w a Hi Ra. destruct (Hall i w Hi) as [_ ->]. pose proof (log_repr_bound _ _ Ra).
    pose proof (lr_last _ _ Ra). lia.
Qed.

(** *** Events *)
Lemma periodic_event (m : gmap Z world) i w e w' : m !! i = Some w ->
  raft_periodic RAFT_PERIODIC_TICK w = Ok e w' -> mesh_step m (<[i := w']> m).
Proof.
  intros Hi H. apply (mesh_round m i w EvPeriodic w' Hi I).
  cbn [app_round]. unfold raft_periodic_process. by rewrite (bind_ok_l _ _ _ _ _ H).
Qed.

(** A packet on the air of node [j] is heard by node [i]. *)
Lemma packet_event (m : gmap Z world) i j w v p x w' : m !! i = Some w -> m !! j = Some v ->
  on_air (user_data v) p -> recv (p ++ []) w = Ok x w' -> mesh_step m (<[i := w']> m).
Proof.
  intros Hi Hj Hp H. apply (mesh_round m i w (EvPacket p) w' Hi).
  - exists j, v, p, []. split_and!; [done|done|constructor|by rewrite app_nil_r].
  - cbn [app_round]. rewrite app_nil_r in H. by rewrite (bind_ok_l _ _ _ _ _ H).
Qed.

(** Node [j] hears a packet of node [i] and floods its answer. *)
Lemma answered (m : gmap Z world) i j w v p x t bs v2 : peopled m -> m !! i = Some w -> m !! j = Some v ->
  on_air (user_data w) p -> (length bs <= 8)%nat ->
  let v' := with_user_data (U := app_user) (send_message t bs i (user_data v2)) v2 in
  recv (p ++ []) v = Ok x v' ->
  mesh_step m (<[j := v']> m) /\ on_air (user_data v') (packet_of i j t bs).
Proof.
  intros Hm Hi Hj Hp Hl v' H. pose proof (packet_event m j i v w p x v' Hj Hi Hp H) as Hs.
  split; [done|].
  pose proof (ih_sv _ _ (peopled_node _ j v' (peopled_step _ _ Hm Hs) (lookup_insert_eq _ _ _))) as Hsv.
  destruct (send_message_airs HP t bs i (user_data v2) Hl) as [[Hsame _] Hon].
  rewrite <- Hsv. cbn [v' user_data with_user_data]. by rewrite Hsame.
Qed.

(** The nodes [js] hear node [i], one after the other, and each of them gets from
    a state in [Q] to one in [Q']. *)
Lemma each_hears i w (Q Q' : Z -> world -> Prop) js : NoDup js -> i ∉ js ->
  (forall m j v, peopled m -> m !! i = Some w -> m !! j = Some v -> j <> i -> Q j v ->
     exists v', mesh_step m (<[j := v']> m) /\ Q' j v') ->
  forall m, peopled m -> m !! i = Some w -> (forall j, j ∈ js -> exists v, m !! j = Some v /\ Q j v) ->
  exists m', rtc mesh_step m m' /\ m' !! i = Some w /\
    forall k, (k ∈ js -> exists v, m' !! k = Some v /\ Q' k v) /\ (k ∉ js -> m' !! k = m !! k).
Proof.
  intros Hnd Hni Hstep. induction Hnd as [|j js Hj Hnd IH]; intros m Hm Hi Hall.
  { exists m. split; [done|]. split; [done|]. intros k. split; [by intros ?%elem_of_nil|done]. }
  apply not_elem_of_cons in Hni as [Hne Hni].
  destruct (Hall j ltac:(left)) as (v & Hv & Hw).
  destruct (Hstep m j v Hm Hi Hv ltac:(done) Hw) as (v' & Hs & Hon).
  destruct (IH Hni (<[j := v']> m)) as (m' & Hr & Hi' & Hk); [by eapply peopled_step| | |].
  - by rewrite lookup_insert_ne.
  - intros k Hk. destruct (Hall k ltac:(by right)) as (u & Hu & Hwu).
    exists u. split; [|done]. rewrite lookup_insert_ne; [done|]. by intros ->.
  - exists m'. split; [by eapply rtc_l|]. split; [done|]. intros k. split.
    + intros [->|Hkin]%elem_of_cons; [|by apply Hk]. exists v'. split; [|done].
      rewrite (proj2 (Hk j) Hj). apply lookup_insert_eq.
    + intros [Hkj Hkjs]%not_elem_of_cons. rewrite (proj2 (Hk k) Hkjs). by apply lookup_insert_ne.
Qed.

(** Node [i], whose members are those of [w0], hears the nodes with the blocks
    [bs], one after the other. *)
Lemma hears_each i w0 (p : Z -> list Z) (I : list addr -> list addr -> world -> Prop) :
  (forall m w j v b seen rest, peopled m -> m !! i = Some w -> m !! j = Some v ->
     on_air (user_data v) (p j) -> b ∈ electorate w0 ->
     raft_get_node (to_int (T := sky) j) w = Ok (Some b) w -> I seen (b :: rest) w ->
     exists w', mesh_step m (<[i := w']> m) /\ roll w' = roll w /\ I (seen ++ [b]) rest w') ->
  forall bs m w seen, bs ⊆ electorate w0 -> peopled m -> m !! i = Some w -> roll w = roll w0 ->
  (forall b, b ∈ bs -> exists j v, node_id_at w0 b = Some j /\ j <> i /\ m !! j = Some v /\
     on_air (user_data v) (p j)) -> I seen bs w ->
  exists w', rtc mesh_step m (<[i := w']> m) /\ I (seen ++ bs) [] w'.
Proof.
  intros Hstep bs. induction bs as [|b bs IH]; intros m w seen Hbs Hm Hi Hroll Hall Hw.
  { exists w. rewrite insert_id, app_nil_r by done. done. }
  destruct (Hall b ltac:(left)) as (j & v & Hid & Hne & Hv & Hair).
  assert (b ∈ electorate w0) as Hb by (apply Hbs; left).
  destruct (Hstep m w j v b seen bs Hm Hi Hv Hair Hb) as (w1 & Hs & Hroll1 & Hw1); [|done|].
  { apply (member_get i w (peopled_node m i w Hm Hi)).
    - apply electorate_elem in Hb as [Hb _]. unfold roll in Hroll. by injection Hroll as -> _ _ _ _.
    - by rewrite (roll_id w0 w).
    - apply (ih_id j v), (peopled_node m j v Hm Hv). }
  destruct (IH (<[i := w1]> m) w1 (seen ++ [b])) as (w' & Hr & Hw'); try done.
  - intros c Hc. apply Hbs. by right.
  - by eapply peopled_step.
  - apply lookup_insert_eq.
  - congruence.
  - intros c Hc. destruct (Hall c ltac:(by right)) as (k & u & Hk & Hki & Hu & Ha). exists k, u.
    split_and!; try done. by rewrite lookup_insert_ne.
  - exists w'. rewrite insert_insert_eq in Hr. split; [by eapply rtc_l|].
    by rewrite <- app_assoc in Hw'.
Qed.

(** *** The timer expires *)
Lemma elapsed_in_range i w : inhabitant i w ->
  INT_MIN (T := sky) <= timeout_elapsed (srv w) + RAFT_PERIODIC_TICK <= INT_MAX (T := sky).
Proof.
  intros In. destruct (ih_host _ _ In) as [a Ho].
  pose proof (sv_elapsed _ _ (ty_srv _ _ (ho_typed _ _ _ _ Ho))) as He. unfold is_int in He.
  pose proof (pc_elapsed _ (ih_paced _ _ In)) as Hp. pose proof tick_value as Htick.
  change (INT_MAX (T := sky)) with 32767 in *. lia.
Qed.

(** Node [i] is resumed until its timeout is about to pass. *)
Lemma waits m i w a : peopled m -> m !! i = Some w -> log_repr w a ->
  role w <> RAFT_STATE_LEADER ->
  exists w', rtc mesh_step m (<[i := w']> m) /\ log_repr w' a /\ role w' <> RAFT_STATE_LEADER /\
    term_of w' = term_of w /\ election_timeout_rand (srv w') <= timeout_elapsed (srv w') + RAFT_PERIODIC_TICK.
Proof.
  remember (Z.to_nat (election_timeout_rand (srv w) - timeout_elapsed (srv w))) as k eqn:Hk.
  revert m w Hk. induction k as [k IH] using lt_wf_ind. intros m w Hk Hm Hi Ra Hr.
  pose proof (peopled_node m i w Hm Hi) as In. pose proof tick_value as Htick.
  destruct (Z.le_gt_cases (election_timeout_rand (srv w)) (timeout_elapsed (srv w) + RAFT_PERIODIC_TICK))
    as [Hle|Hgt].
  { exists w. rewrite insert_id by done. split_and!; done. }
  pose proof (member_host i w In a Ra) as Ho. pose proof (ty_srv _ _ (ho_typed _ _ _ _ Ho)) as Ty.
  pose proof (elapsed_in_range i w In) as He.
  destruct (raft_periodic_waits RAFT_PERIODIC_TICK w a) as (e & w1 & H1 & E1 & E2 & E3 & E4); try done;
    [apply Ho|apply Ho|apply Ty|apply Ty|rewrite (member_five i w In); lia|].
  injection E1 as Er Et.
  pose proof (periodic_event m i w e w1 Hi H1) as Hs.
  destruct (IH (Z.to_nat (election_timeout_rand (srv w1) - timeout_elapsed (srv w1)))) with (m := <[i := w1]> m) (w := w1)
    as (w' & Hr' & R2 & S2 & T2 & L2); try done; [lia|by eapply peopled_step|apply lookup_insert_eq| | |].
  - by eapply log_repr_same; [|exact Ra].
  - by rewrite Er.
  - rewrite insert_insert_eq in Hr'. exists w'. split_and!; try done; [by eapply rtc_l|].
    by rewrite T2, Et.
Qed.

(** *** The campaign *)

(** A candidate that voted for itself and whose requests are on the air. *)
Record campaigner (i : Z) (w : world) (a : alog) : Prop := {
  cn_log : log_repr w a;
  cn_role : role w = RAFT_STATE_CANDIDATE;
  cn_vote : vote_of w = self_id w;
  cn_air j : 1 <= j <= 5 -> j <> i -> on_air (user_data w) (request_packet i j (vote_request w a))
}.

Lemma stand m i w a : peopled m -> m !! i = Some w -> log_repr w a ->
  role w <> RAFT_STATE_LEADER ->
  election_timeout_rand (srv w) <= timeout_elapsed (srv w) + RAFT_PERIODIC_TICK ->
  term_of w < INT_MAX (T := sky) ->
  exists w', mesh_step m (<[i := w']> m) /\ campaigner i w' a /\ term_of w' = term_of w + 1.
Proof.
  intros Hm Hi Ra Hr Hle Ht. pose proof (peopled_node m i w Hm Hi) as In.
  pose proof (member_host i w In a Ra) as Ho. pose proof (ty_srv _ _ (ho_typed _ _ _ _ Ho)) as Ty.
  pose proof (elapsed_in_range i w In) as He. pose proof (sv_term _ _ Ty) as Htm. unfold is_int in Htm.
  destruct (raft_periodic_stands RAFT_PERIODIC_TICK w a)
    as (e & w' & u & u' & H' & Ra' & R1 & T1 & V1 & Hroll & Hcb & Hu & Hcalls); try done;
    [apply Ho|apply Ho|apply Ty|apply Ty|rewrite (member_five i w In); lia
    |apply (ih_paced _ _ In)|by eapply member_self|by split; [apply Htm|]|].
  pose proof (periodic_event m i w e w' Hi H') as Hs. exists w'. split; [done|]. split; [|done].
  pose proof (peopled_node _ i w' (peopled_step _ _ Hm Hs) (lookup_insert_eq _ _ _)) as In'.
  rewrite (ih_cb _ _ In) in Hcb, Hcalls.
  apply user_calls_airs in Hcalls as [Hid Hair]; [|done|by intros ? []].
  rewrite (ih_sv _ _ In') in Hid. destruct (asks_airs HP w' a (electorate w') Hcb) with (u := u)
    as [[Hid' _] Hasked].
  { intros b (Hin & _)%electorate_elem. pose proof (member_host i w' In' a Ra') as Ho'.
    apply (nw_heap _ (so_nodes _ _ (ho_server _ _ _ _ Ho')) b Hin). }
  rewrite <- Hu in Hid', Hasked. split; try done. intros j Hj Hne.
  destruct (member_peer i w' In' j Hj Hne) as (b & Hb' & Hbj).
  specialize (Hasked b Hb'). unfold id_of in Hasked. rewrite <- Hid', <- Hid, Hbj in Hasked.
  by apply Hair.
Qed.

(** A node that can give its vote to a candidate: its term is older, its log is
    not ahead. *)
Definition willing_node (vr : msg_requestvote_t) (v : world) : Prop :=
  exists b, log_repr v b /\ term_of v < rv_term vr /\ up_to_date b vr = true.

Definition grant_packet (i j t : Z) : list Z :=
  packet_of i j MSG_REQUESTVOTE_RESPONSE (encode_requestvote_response (granted t)).

(** A node that hears a request of a later term follows, and gives its vote if its
    log is not ahead. *)
Lemma request_heard m i j w v b vr : peopled m -> m !! i = Some w -> m !! j = Some v ->
  requestvote16 vr -> log_repr v b -> term_of v < rv_term vr ->
  on_air (user_data w) (request_packet i j vr) ->
  exists v', mesh_step m (<[j := v']> m) /\ log_repr v' b /\ term_of v' = rv_term vr /\
    role v' = RAFT_STATE_FOLLOWER /\
    (up_to_date b vr = true -> on_air (user_data v') (grant_packet i j (rv_term vr))).
Proof.
  intros Hm Hi Hj Hvr Rb Hlt Hair.
  pose proof (peopled_node m i w Hm Hi) as Ii. pose proof (peopled_node m j v Hm Hj) as Ij.
  destruct (member_uint i w Ii) as [Hiu Hit]. destruct (member_uint j v Ij) as [Hju Hjt].
  pose proof (ho_server _ _ _ _ (member_host j v Ij b Rb)) as Sok.
  destruct (member_node j v Ij i (member_id i w Ii)) as (x & [Hx _]%voting_elem & Hid).
  pose proof (member_get j v Ij x i Hx Hid (ih_id _ _ Ii)) as Hget.
  unfold node_id_at in Hid. destruct (node_heap v !! x) as [n|] eqn:Hn; [|done].
  unfold term_of in Hlt. assert (newer v vr = true) as Hnew by by apply Z.ltb_lt.
  destruct (raft_recv_requestvote_run v b (Some x) vr Sok) as (v1 & H1 & Hh & Ht1 & Hs1 & _);
    [apply free_may_grant; intros E; lia|done|].
  destruct (recv_requestvote_done_ok v1 x n 0 (if grants v b vr then 1 else refusal (Some x)))
    as (v2 & H2 & S2); [by rewrite Hh|].
  rewrite H2, Ht1, Z.max_r in H1 by lia. rewrite Hnew in Hs1.
  run_keeps H1 (same log_state) as K1. set (r := mk_requestvote_response _ _) in *.
  destruct (answered m i j w v (request_packet i j vr) 1 MSG_REQUESTVOTE_RESPONSE
    (encode_requestvote_response r) v2 Hm Hi Hj Hair) as [Hs Hon]; [cbn; lia| |].
  - unfold request_packet. rewrite recv_requestvote, (ih_sv _ _ Ij), Hjt, Z.eqb_refl by done.
    rewrite (bind_ok_l _ _ _ _ _ Hget). unfold answer_requestvote.
    rewrite bind_assoc, (bind_ok_l _ _ _ _ _ H1). done.
  - eexists. split; [exact Hs|]. split; [by eapply log_repr_same, Rb|].
    unfold term_of, role. cbn [srv with_user_data]. rewrite S2, Ht1, Z.max_r, Hs1 by lia.
    split; [done|]. split; [done|]. intros Hup. assert (r = granted (rv_term vr)) as Hgr;
      [|unfold grant_packet; rewrite <- Hgr; exact Hon].
    unfold r, granted. f_equal. assert (grants v b vr = true) as ->; [|done].
    destruct (member_self j v Ij) as (s & Hsn & Hv). unfold grants, self_voting. rewrite Hsn, Hup, Hnew.
    unfold node_sat in *. destruct (node_heap v !! s); [|done]. apply andb_true_iff in Hv as [_ ->].
    by rewrite (proj2 (Z.leb_le _ _)) by lia.
Qed.

Lemma voter_hears m i j w v vr : peopled m -> m !! i = Some w -> m !! j = Some v ->
  requestvote16 vr -> willing_node vr v -> on_air (user_data w) (request_packet i j vr) ->
  exists v', mesh_step m (<[j := v']> m) /\
    term_of v' = rv_term vr /\ on_air (user_data v') (grant_packet i j (rv_term vr)).
Proof.
  intros Hm Hi Hj Hvr (b & Rb & Hlt & Hup) Hair.
  destruct (request_heard m i j w v b vr Hm Hi Hj Hvr Rb Hlt Hair) as (v' & Hs & _ & Ht & _ & Hon).
  exists v'. auto.
Qed.

(** The candidate hears the answer of node [j]. *)
Lemma candidate_hears i a w0 m w j v b seen : peopled m -> m !! i = Some w -> m !! j = Some v ->
  on_air (user_data v) (grant_packet i j (term_of w0)) -> b ∈ electorate w0 ->
  raft_get_node (to_int (T := sky) j) w = Ok (Some b) w -> campaigning a w0 seen w ->
  exists w', mesh_step m (<[i := w']> m) /\ roll w' = roll w /\ campaigning a w0 (seen ++ [b]) w'.
Proof.
  intros Hm Hi Hj Hair Hb Hget Hc. pose proof (peopled_node m i w Hm Hi) as Ii.
  destruct (member_uint i w Ii) as [_ Hit].
  destruct (member_uint j v (peopled_node m j v Hm Hj)) as [Hju _].
  pose proof Hc as (Rl & HE & _). assert (term_of w = term_of w0) as Et by (unfold electors in HE; congruence).
  destruct (campaign_step a w0 seen w b Hc Hb) as (w' & H' & Hc'). exists w'.
  destruct (member_host i w Ii a (so_log _ _ (rl_ok _ _ Rl))) as [Sok _ N _ Ty _ _].
  split; [|split; [|done]].
  - apply (packet_event m i j w v _ 1 w' Hi Hj Hair). unfold grant_packet.
    rewrite recv_requestvote_response.
    + rewrite (ih_sv _ _ Ii), Hit, Z.eqb_refl, (bind_ok_l _ _ _ _ _ Hget).
      unfold count_vote. by rewrite bind_assoc, (bind_ok_l _ _ _ _ _ H').
    + done.
    + split; [|done]. rewrite <- Et. apply is_int_int16, (sv_term _ _ (ty_srv _ _ Ty)).
  - eapply (op_roll (OpRecvRequestvoteResponse (Some b) (granted (term_of w0))) w tt w');
      [apply Sok|done|done|]. cbn. by rewrite (bind_ok_l _ _ _ _ _ H').
Qed.

(** *** The election *)

Lemma campaigner_request i w a : host_ok app_typed i w a -> campaigner i w a ->
  requestvote16 (vote_request w a).
Proof.
  intros Ho [Ra Hrole _ _].
  destruct (honest_letter_ok (U := app_user) app_typed i w a (Ask (vote_request w a)) Ho) as [[] _];
    [by exists a|by split_and!; apply is_int_int16].
Qed.

(** After an election the nodes [js] are in the term [t], and the other nodes but the
    leader are as before. *)
Definition follow (m m' : gmap Z world) (i : Z) (js : list Z) (t : Z) : Prop :=
  forall j, j <> i -> (j ∈ js -> exists v, m' !! j = Some v /\ term_of v = t) /\
    (j ∉ js -> m' !! j = m !! j).

(** A campaign that enough nodes can vote in. *)
Lemma campaign_succeeds m i w a js : peopled m -> m !! i = Some w -> campaigner i w a ->
  al_last a < INT_MAX (T := sky) -> NoDup js -> i ∉ js -> (2 <= length js)%nat ->
  (forall j, j ∈ js -> exists v, m !! j = Some v /\ willing_node (vote_request w a) v) ->
  exists m' w', rtc mesh_step m m' /\ m' !! i = Some w' /\ role w' = RAFT_STATE_LEADER /\
    term_of w' = term_of w /\ follow m m' i js (term_of w).
Proof.
  intros Hm Hi Cn Hmax Hnd Hni Hlen Hall. pose proof (peopled_node _ _ _ Hm Hi) as In.
  pose proof (member_host i w In a (cn_log _ _ _ Cn)) as Ho.
  pose proof (campaigner_request i w a Ho Cn) as Hvr. destruct Cn as [Ra Hrole Hvote Hair].
  set (vr := vote_request w a) in *.
  assert (forall j, j ∈ js -> 1 <= j <= 5 /\ j <> i) as Hjs.
  { intros j Hj. destruct (Hall j Hj) as (v & Hv & _). split; [|by intros ->].
    by apply (member_id j v), (peopled_node m). }
  destruct (each_hears i w
    (fun j v => willing_node vr v /\ on_air (user_data w) (request_packet i j vr))
    (fun j v => term_of v = rv_term vr /\ on_air (user_data v) (grant_packet i j (rv_term vr)))
    js Hnd Hni) with (m := m) as (m1 & S1 & Hi1 & Hk); try done.
  { intros m1 j v Hm1 Hi1 Hj _ [Hw Hon]. by eapply voter_hears. }
  { intros j Hj. destruct (Hjs j Hj) as [Hid Hne]. destruct (Hall j Hj) as (v & Hv & Hw).
    exists v. split; [done|]. split; [done|by apply Hair]. }
  destruct (member_peers i w In js Hnd Hjs) as (bs & Hids & Hbs & Hel).
  assert (length bs = length js) as Hlb by (apply (f_equal length) in Hids; by rewrite !length_map in Hids).
  assert (ready_to_lead w a) as Rl by (split; [apply Ho|apply Ho|done]).
  destruct (hears_each i w (fun j => grant_packet i j (term_of w)) (fun seen _ => campaigning a w seen))
    with (bs := bs) (m := m1) (w := w) (seen := @nil addr) as (w' & S2 & Hc); try done.
  { intros m2 w2 j v b seen _ Hm2 Hi2 Hj Hon Hb Hget Hc. by eapply candidate_hears. }
  { by eapply peopled_steps. }
  { intros b Hb. destruct (elem_of_map_some _ _ _ b Hids Hb) as (j & Hj & Hbj).
    destruct (proj1 (Hk j) Hj) as (v & Hv & _ & Hav). exists j, v. split_and!; try done. by apply Hjs. }
  { by apply campaign_starts. }
  cbn [app] in Hc. exists (<[i := w']> m1), w'.
  split; [by etransitivity|]. split; [apply lookup_insert_eq|split; [|split]].
  - eapply campaign_won; [exact Hc|done|by eapply member_self|done|done| |].
    + intros ->. cbn in Hlb. lia.
    + rewrite (member_five i w In). lia.
  - destruct Hc as (_ & HE & _). unfold electors in HE. congruence.
  - intros j Hne. rewrite lookup_insert_ne by done. split; [|apply Hk].
    intros Hj. destruct (proj1 (Hk j) Hj) as (v & Hv & Htv & _). by exists v.
Qed.

(** A node times out and is elected. *)
Lemma elects m i w a js : peopled m -> m !! i = Some w -> log_repr w a ->
  role w <> RAFT_STATE_LEADER -> term_of w < INT_MAX (T := sky) -> al_last a < INT_MAX (T := sky) ->
  NoDup js -> i ∉ js -> (2 <= length js)%nat ->
  (forall j, j ∈ js -> exists v b, m !! j = Some v /\ log_repr v b /\
    term_of v <= term_of w /\ up_to_date b (vote_request w a) = true) ->
  exists m' w', rtc mesh_step m m' /\ m' !! i = Some w' /\ role w' = RAFT_STATE_LEADER /\
    term_of w' = term_of w + 1 /\ follow m m' i js (term_of w + 1).
Proof.
  intros Hm Hi Ra Hr Ht Hmax Hnd Hni Hlen Hall.
  destruct (waits m i w a Hm Hi Ra Hr) as (w1 & S1 & Ra1 & St1 & T1 & Hle1).
  pose proof (peopled_steps _ _ Hm S1) as Hm1.
  destruct (stand _ i w1 a Hm1 (lookup_insert_eq _ _ _) Ra1 St1 Hle1 ltac:(by rewrite T1))
    as (w2 & S2 & Cn & T2).
  pose proof (peopled_step _ _ Hm1 S2) as Hm2. rewrite insert_insert_eq in S2, Hm2.
  destruct (campaign_succeeds _ i w2 a js Hm2 (lookup_insert_eq _ _ _) Cn Hmax Hnd Hni Hlen)
    as (m' & w' & S3 & Hi' & Hl & T3 & Hf).
  { intros j Hj. destruct (Hall j Hj) as (v & b & Hv & Rb & Htv & Hup). exists v.
    split; [rewrite lookup_insert_ne; [done|by intros ->]|].
    exists b. split; [done|]. split; [cbn; lia|done]. }
  rewrite T2, T1 in *. exists m', w'. split; [|split_and!; try done].
  - etransitivity; [exact S1|]. by eapply rtc_l.
  - intros j Hne. destruct (Hf j Hne) as [H1 H2]. split; [done|].
    rewrite lookup_insert_ne in H2 by done. exact H2.
Qed.

(** An election succeeds over a radio that delivers. *)
Lemma radio_elects m0 m i w a js :
  switched_on m0 -> rtc mesh_step m0 m -> m !! i = Some w -> log_repr w a ->
  role w <> RAFT_STATE_LEADER -> term_of w < INT_MAX (T := sky) -> al_last a < INT_MAX (T := sky) ->
  NoDup js -> i ∉ js -> (2 <= length js)%nat ->
  (forall j, j ∈ js -> exists v b, m !! j = Some v /\ log_repr v b /\
    term_of v <= term_of w /\ up_to_date b (vote_request w a) = true) ->
  exists m' w', rtc mesh_step m m' /\ m' !! i = Some w' /\ role w' = RAFT_STATE_LEADER /\
    term_of w' = term_of w + 1 /\
    forall j, j ∈ js -> exists v, m' !! j = Some v /\ term_of v = term_of w'.
Proof.
  intros Hon Hrun Hi Ra Hr Ht Hmax Hnd Hni Hlen Hall.
  assert (peopled m) as Hm by (eapply peopled_steps; [by apply switched_on_peopled|done]).
  destruct (elects m i w a js Hm Hi Ra Hr Ht Hmax Hnd Hni Hlen Hall)
    as (m' & w' & S & Hi' & Hl & T & Hf).
  exists m', w'. split_and!; try done. intros j Hj. rewrite T. apply (Hf j); [by intros ->|done].
Qed.

(** *** A leader from any state *)

(** How good a log is in the comparison of section 5.4.1, as one number. *)
Definition log_rank (a : alog) : Z := al_last_term a * 2 ^ 16 + al_last a.

Lemma last_term_in_range i w a : host_ok app_typed i w a -> is_uint (T := sky) (al_last_term a).
Proof.
  intros Ho. pose proof (so_log _ _ (ho_server _ _ _ _ Ho)) as Ra. unfold al_last_term, al_get.
  destruct (_ && _); [|by split]. destruct (al_entries a !! _) as [e|] eqn:He; [|by split].
  apply list_elem_of_lookup_2 in He. destruct (al_entries_elem w a e Ra He) as [p Hp].
  apply (et_term e), (ty_entries _ _ (ho_typed _ _ _ _ Ho) p e Hp).
Qed.

(** A node gives its vote to a candidate whose log ranks no lower. *)
Lemma rank_up_to_date i w a j v b w0 : host_ok app_typed i w a -> host_ok app_typed j v b ->
  log_rank b <= log_rank a -> up_to_date b (vote_request w0 a) = true.
Proof.
  intros Ha Hb Hle. unfold up_to_date, vote_request. cbn [rv_last_log_term rv_last_log_idx].
  rewrite to_uint_to_int by by eapply last_term_in_range.
  pose proof (log_repr_bound _ _ (so_log _ _ (ho_server _ _ _ _ Ha))).
  pose proof (log_repr_bound _ _ (so_log _ _ (ho_server _ _ _ _ Hb))).
  pose proof (lr_last _ _ (so_log _ _ (ho_server _ _ _ _ Ha))).
  pose proof (lr_last _ _ (so_log _ _ (ho_server _ _ _ _ Hb))).
  change (INT_MAX (T := sky)) with 32767 in *. unfold log_rank in Hle.
  change (2 ^ 16) with 65536 in Hle.
  rewrite !orb_true_iff, andb_true_iff, Z.ltb_lt, Z.eqb_eq, Z.leb_le. lia.
Qed.

(** One of the nodes has the greatest of their values. *)
Lemma greatest (f : Z -> world -> Z -> Prop) (m : gmap Z world) : m <> ∅ ->
  (forall i w, m !! i = Some w -> exists z, f i w z) ->
  exists i w z, m !! i = Some w /\ f i w z /\
    forall j v, m !! j = Some v -> exists z', f j v z' /\ z' <= z.
Proof.
  induction m as [|k v m Hk IH] using map_ind; [done|]. intros _ Hall.
  destruct (Hall k v (lookup_insert_eq _ _ _)) as [zk Hzk].
  destruct (decide (m = ∅)) as [->|Hne].
  { exists k, v, zk. split_and!; [apply lookup_insert_eq|done|]. intros j u.
    rewrite lookup_insert_Some, lookup_empty. intros [[<- <-]|[_ Hu]]; [by exists zk|done]. }
  destruct IH as (i & w & z & Hi & Hz & Hmax); [done| |].
  { intros j u Hj. apply Hall. rewrite lookup_insert_ne; [done|]. by intros ->; rewrite Hk in Hj. }
  assert (i <> k) as Hik by by intros ->; rewrite Hk in Hi.
  destruct (Z.le_gt_cases zk z) as [Hle|Hgt].
  - exists i, w, z. split_and!; [by rewrite lookup_insert_ne by done|done|]. intros j u.
    rewrite lookup_insert_Some. intros [[<- <-]|[_ Hu]]; [by exists zk|by eapply Hmax].
  - exists k, v, zk. split_and!; [apply lookup_insert_eq|done|]. intros j u.
    rewrite lookup_insert_Some. intros [[<- <-]|[_ Hu]]; [by exists zk|].
    destruct (Hmax j u Hu) as (z' & Hz' & Hle'). exists z'. split; [done|lia].
Qed.

(** A node leads, and no node is in a later term. *)
Definition led (m : gmap Z world) : Prop :=
  exists i w, m !! i = Some w /\ role w = RAFT_STATE_LEADER /\
    forall j v, m !! j = Some v -> term_of v <= term_of w.

(** The node with the best log, if it is not a leader and no node is in a later
    term, is elected by all the others. *)
Lemma best_elected m i w a : peopled m -> (3 <= stdpp.base.size m)%nat -> m !! i = Some w ->
  log_repr w a -> role w <> RAFT_STATE_LEADER ->
  term_of w < INT_MAX (T := sky) -> al_last a < INT_MAX (T := sky) ->
  (forall j v, m !! j = Some v -> term_of v <= term_of w /\
     exists b, log_repr v b /\ log_rank b <= log_rank a) ->
  exists m', rtc mesh_step m m' /\ led m'.
Proof.
  intros Hm Hsz Hi Ra Hr Ht Hmax Hall. set (js := elements (dom m ∖ {[i]})).
  pose proof (peopled_node m i w Hm Hi) as Ii. pose proof (member_host i w Ii a Ra) as Ho.
  assert (forall j, j ∈ js <-> j <> i /\ is_Some (m !! j)) as Hjs.
  { intros j. unfold js. rewrite elem_of_elements, elem_of_difference, elem_of_dom, elem_of_singleton. naive_solver. }
  destruct (elects m i w a js Hm Hi Ra Hr Ht Hmax) as (m' & w' & S & Hi' & Hl & Tw & Hf).
  - apply NoDup_elements.
  - by intros [? _]%Hjs.
  - change (2 <= stdpp.base.size (dom m ∖ {[i]}))%nat.
    rewrite size_difference, size_singleton, size_dom by by apply singleton_subseteq_l, elem_of_dom. lia.
  - intros j (_ & v & Hv)%Hjs. destruct (Hall j v Hv) as (Htv & b & Rb & Hle). exists v, b. split_and!; try done.
    pose proof (peopled_node m j v Hm Hv) as Ij.
    by apply (rank_up_to_date i w a j v b); [| apply member_host|].
  - exists m'. split; [done|]. exists i, w'. split_and!; try done. intros j v Hv.
    destruct (decide (j = i)) as [->|Hne]; [by simplify_eq|].
    destruct (Hf j Hne) as [H1 H2]. destruct (decide (j ∈ js)) as [Hj|Hj].
    { destruct (H1 Hj) as (v' & Hv' & E). simplify_eq. lia. }
    rewrite (H2 Hj) in Hv. destruct Hj. apply Hjs. by split; [|exists v].
Qed.

(** A node of the latest term that is not a leader stands for election, and brings
    node [i] into its new term as a follower. *)
Lemma brought_forward m i u w x a b : peopled m -> m !! i = Some w -> m !! u = Some x -> i <> u ->
  log_repr w a -> log_repr x b -> role x <> RAFT_STATE_LEADER ->
  term_of w <= term_of x -> term_of x < INT_MAX (T := sky) ->
  exists w' x', rtc mesh_step m (<[i := w']> (<[u := x']> m)) /\
    log_repr w' a /\ role w' = RAFT_STATE_FOLLOWER /\ term_of w' = term_of x + 1 /\
    log_repr x' b /\ term_of x' = term_of x + 1.
Proof.
  intros Hm Hi Hu Hne Ra Rb Hr Hle Ht.
  destruct (waits m u x b Hm Hu Rb Hr) as (x1 & S1 & Rb1 & St1 & T1 & Hle1).
  pose proof (peopled_steps _ _ Hm S1) as Hm1.
  destruct (stand _ u x1 b Hm1 (lookup_insert_eq _ _ _) Rb1 St1 Hle1 ltac:(by rewrite T1))
    as (x2 & S2 & Cn & T2).
  pose proof (peopled_step _ _ Hm1 S2) as Hm2. rewrite insert_insert_eq in S2, Hm2.
  assert (m !! i = <[u := x2]> m !! i) as Hi2 by by rewrite lookup_insert_ne.
  rewrite Hi in Hi2. symmetry in Hi2.
  pose proof (peopled_node _ u x2 Hm2 (lookup_insert_eq _ _ _)) as Iu.
  pose proof (member_host u x2 Iu b (cn_log _ _ _ Cn)) as Ho.
  destruct (request_heard _ u i x2 w a (vote_request x2 b) Hm2 (lookup_insert_eq _ _ _) Hi2)
    as (w' & S3 & Ra' & T3 & R3 & _); try done.
  - by eapply campaigner_request.
  - cbn. lia.
  - apply (cn_air _ _ _ Cn); [by apply (member_id i w), (peopled_node m)|done].
  - exists w', x2. change (rv_term (vote_request x2 b)) with (term_of x2) in T3.
    split_and!; try done; [|lia|apply Cn|lia].
    etransitivity; [exact S1|]. eapply rtc_l; [exact S2|]. by eapply rtc_once.
Qed.

(** A leader can be reached over a radio that delivers. *)
Lemma radio_leads m0 m :
  switched_on m0 -> rtc mesh_step m0 m -> (3 <= stdpp.base.size m)%nat ->
  (forall i w, m !! i = Some w -> term_of w + 1 < INT_MAX (T := sky)) ->
  (forall i w a, m !! i = Some w -> log_repr w a -> al_last a < INT_MAX (T := sky)) ->
  exists m', rtc mesh_step m m' /\ led m'.
Proof.
  intros Hon Hrun Hsz Hterm Hlast.
  assert (peopled m) as Hm by (eapply peopled_steps; [by apply switched_on_peopled|done]).
  assert (m <> ∅) as Hne by (intros ->; by rewrite map_size_empty in Hsz; lia).
  destruct (greatest (fun _ w z => z = term_of w) m Hne) as (u & x & t & Hu & -> & Htop); [by eauto|].
  destruct (greatest (fun _ w z => exists a, log_repr w a /\ z = log_rank a) m Hne)
    as (i & w & ? & Hi & (a & Ra & ->) & Hbest).
  { intros j v Hj. destruct (ih_host _ _ (peopled_node m j v Hm Hj)) as [b Ho]. exists (log_rank b), b.
    split; [apply Ho|done]. }
  destruct (decide (role x = RAFT_STATE_LEADER)) as [Hl|Hl].
  { exists m. split; [done|]. exists u, x. split_and!; try done. intros j v Hj. by destruct (Htop j v Hj) as (? & -> & ?). }
  assert (forall j v, m !! j = Some v -> term_of v <= term_of x /\
     exists b, log_repr v b /\ log_rank b <= log_rank a) as Hall.
  { intros j v Hj. destruct (Htop j v Hj) as (? & -> & ?).
    destruct (Hbest j v Hj) as (? & (b & Rb & ->) & Hle). split; [done|by exists b]. }
  pose proof (Hterm u x Hu) as Htx. pose proof (Hlast i w a Hi Ra) as Hmax.
  destruct (decide (i = u)) as [->|Hiu].
  { assert (x = w) as -> by congruence. by apply (best_elected m u w a); try done; lia. }
  destruct (Hall u x Hu) as (_ & b & Rb & Hb). destruct (Hall i w Hi) as [Htw _].
  destruct (brought_forward m i u w x a b Hm Hi Hu Hiu Ra Rb Hl Htw ltac:(lia))
    as (w2 & x2 & S & Ra2 & R2 & T2 & Rb2 & Tx2).
  assert (m !! i = <[u := x2]> m !! i) as Hi2 by by rewrite lookup_insert_ne.
  destruct (best_elected (<[i := w2]> (<[u := x2]> m)) i w2 a) as (m' & S' & H'); try done.
  - by apply (peopled_steps m).
  - rewrite !map_size_insert_Some by (rewrite <- ?Hi2; eauto). done.
  - apply lookup_insert_eq.
  - by rewrite R2.
  - lia.
  - intros j v. rewrite !lookup_insert_Some. intros [[<- <-]|[_ [[<- <-]|[_ Hv]]]].
    + split; [lia|by exists a].
    + split; [lia|by exists b].
    + destruct (Hall j v Hv) as [Hj He]. split; [lia|done].
  - exists m'. split; [by etransitivity|done].
Qed.

(** ** An entry that is committed *)

(** *** The message with a new entry *)

(** The leader's message to a peer that has the log [a]. *)
Definition news (w : world) (a : alog) (e : raft_entry_t) : msg_appendentries_t :=
  append_entries_for w (al_append e a) (al_last a + 1).

Lemma al_from_new e a : al_from (al_append e a) (al_last a + 1) = [with_ety_idx (al_last a + 1) e].
Proof.
  unfold al_from, al_append, al_first. cbn [al_last al_entries]. rewrite al_make_room_last, length_app.
  cbn [length]. apply drop_app_length'. lia.
Qed.

(** It holds the entry, and its receiver finds the entry before in its log. *)
Lemma news_parts i w a e : host_ok app_typed i w a -> entry_typed e -> al_last a < INT_MAX (T := sky) ->
  exists pt, news w a e
    = mk_appendentries (term_of w) (al_last a) pt (commit_of w) 1 [with_ety_idx (al_last a + 1) e] /\
    consistent a (news w a e) /\ ae_typed (news w a e).
Proof.
  intros Ho He Hmax. pose proof (ty_srv _ _ (ho_typed _ _ _ _ Ho)) as Ty.
  pose proof (ho_server _ _ _ _ Ho) as Sok. pose proof (so_log _ _ Sok) as Ra.
  pose proof (log_repr_bound _ _ Ra). pose proof (lr_last _ _ Ra). pose proof (lr_cap _ _ Ra).
  unfold news, append_entries_for, prev_of, consistent. rewrite al_from_new.
  replace (al_last a + 1 - 1) with (al_last a) by lia. cbn [length].
  assert (forall pt, is_int (T := sky) pt -> ae_typed (mk_appendentries (term_of w) (al_last a) pt
    (commit_of w) (Z.of_nat 1) [with_ety_idx (al_last a + 1) e])) as Hty.
  { intros pt Hpt. change (INT_MAX (T := sky)) with 32767 in *.
    split; try done; [apply Ty| |apply Ty|].
    - unfold is_int. change (INT_MIN (T := sky)) with (-32768). change (INT_MAX (T := sky)) with 32767. cbn. lia.
    - apply Forall_singleton, with_ety_idx_typed; [done|]. unfold is_uint.
      change (2 ^ int_bits (CTarget := sky)) with 65536. lia. }
  destruct (Z.ltb_spec 1 (al_last a + 1)) as [Hpos|Hz]; cbn [fst snd ae_prev_log_idx ae_prev_log_term].
  - destruct (so_last _ _ Sok) as [|[x Hx]]; [lia|].
    assert (1 <= length (al_entries a))%nat as Hlen.
    { unfold al_get in Hx. destruct (_ && _); [|done]. apply lookup_lt_Some in Hx. lia. }
    rewrite al_append_get_old; [|done|].
    2: { unfold al_first. rewrite al_append_last, al_append_length by done.
         unfold MAX_ENTRIES. lia. }
    rewrite Hx. eexists. split; [reflexivity|]. split; [|by apply Hty, is_int_to_int].
    right. exists x. split; [done|].
    rewrite to_uint_to_int; [done|]. unfold al_get in Hx. destruct (_ && _); [|done].
    apply list_elem_of_lookup_2 in Hx. destruct (al_entries_elem w a x Ra Hx) as [p Hp].
    apply (et_term x), (ty_entries _ _ (ho_typed _ _ _ _ Ho) p x Hp).
  - exists 0. assert (al_last a = 0) as E by lia. rewrite E in *. split; [done|]. split; [by left|]. by apply Hty.
Qed.

(** *** The entry reaches the leader *)

(** A peer that has the whole log of the leader, as far as the leader knows. *)
Definition synced (w : world) (a : alog) (b : addr) : Prop :=
  exists n, node_heap w !! b = Some n /\ next_idx n = al_last a + 1 /\ match_idx n <= al_last a.

Lemma waiting_elem w a b : b ∈ waiting w a <->
  b ∈ electorate w /\ exists n, node_heap w !! b = Some n /\ next_idx n = al_last a.
Proof.
  rewrite electorate_elem. unfold waiting, is_waiting.
  rewrite list_elem_of_In, List.filter_In, <- list_elem_of_In, andb_true_iff.
  unfold is_self_ptr, node_sat. rewrite negb_true_iff, bool_decide_eq_false.
  destruct (node_heap w !! b) as [n|]; rewrite ?andb_true_iff, ?Z.eqb_eq; naive_solver.
Qed.

(** The leader hears a client's value and sends it to the peers that wait for it. *)
Lemma leader_takes m i w a s ws x : peopled m -> m !! i = Some w -> m !! s = Some ws ->
  on_air (user_data ws) (packet_of i s MSG_CLIENT (put_int x)) ->
  log_repr w a -> role w = RAFT_STATE_LEADER -> al_last a + 1 < INT_MAX (T := sky) ->
  exists w1 r, let e := with_ety_term (to_uint (T := sky) (term_of w)) (client_entry r (put_int x)) in
    entry_typed e /\ mesh_step m (<[i := w1]> m) /\ awaits w1 (al_append e a) (al_last a + 1) /\
    commit_of w1 = commit_of w /\ role_of w1 = role_of w /\ node_state w1 = node_state w /\
    forall j b, j <> i -> b ∈ electorate w -> node_id_at w b = Some j -> synced w a b ->
      on_air (user_data w1) (append_packet i j (news w a e)).
Proof.
  intros Hm Hi Hs Hair Ra Hl Hmax. pose proof (peopled_node _ _ _ Hm Hi) as In.
  pose proof (member_host i w In a Ra) as Ho. destruct (member_uint i w In) as [_ Hit].
  destruct (member_uint s ws (peopled_node _ _ _ Hm Hs)) as [Hsu _].
  destruct (random_rand (rand_state w)) as [r g] eqn:Hrand. set (w0 := with_rand_state g w).
  assert (ready_to_lead w0 a) as Rl.
  { split; [by apply (server_ok_same w), Ho|apply Ho|lia]. }
  destruct (entry_taken w0 a (client_entry r (put_int x)) Rl Hmax (proj1 (ho_appends _ _ _ _ Ho)) Hl eq_refl)
    as (w1 & u & H1 & A1 & C1 & K1 & N1 & U1).
  { by apply (ih_within _ _ In). }
  { change (voting_nodes w0) with (voting_nodes w). rewrite (member_five i w In). lia. }
  set (a1 := al_append _ a) in *. exists w1, r. cbv zeta. assert (mesh_step m (<[i := w1]> m)) as Hst.
  { apply (packet_event m i s w ws _ 1 w1 Hi Hs Hair). rewrite recv_packet, (ih_sv _ _ In), Hit, Z.eqb_refl by done.
    unfold dispatch. rewrite message_of_code_code. unfold handle_msg_client, next_random.
    rewrite !bind_assoc, bind_gets_l, Hrand, bind_assoc, bind_modify_l, bind_ret_l, bind_assoc. fold w0.
    rewrite (bind_ok_l _ _ _ _ _ (load_message _ _ _ (put_int x) _ sizeof_client_message w0 eq_refl)).
    by rewrite bind_assoc, (bind_ok_l _ _ _ _ _ H1). }
  split.
  { pose proof (random_rand_range (rand_state w)) as Hr. rewrite Hrand in Hr.
    destruct (client_entry_typed r (put_int x) Hr (put_int_bytes x)). split; try done.
    apply is_uint_to_uint. }
  split_and!; try done. intros j b Hne Hb Hid (n & Hn & Hnext & _).
  pose proof (ih_sv _ _ (peopled_node _ _ _ (peopled_step _ _ Hm Hst) (lookup_insert_eq _ _ _))) as Hsv.
  assert (al_last a1 = al_last a + 1) as Hlast by apply al_append_last.
  destruct (sends_airs HP w0 a1 (waiting w0 a1) (ih_cb _ _ In)) with (u := u) as [[Hid1 _] Hon].
  { intros c [_ Hc]%waiting_elem. exact Hc. }
  rewrite <- U1 in Hid1, Hon. specialize (Hon b). unfold id_of in Hon.
  change (node_id_at w0 b) with (node_id_at w b) in Hon. rewrite <- Hid1, Hsv, Hid, Hlast in Hon.
  apply Hon, waiting_elem. split; [done|]. exists n. split; [done|lia].
Qed.

(** *** The followers take it *)
Definition ack_packet (i j t idx : Z) : list Z :=
  packet_of i j MSG_APPENDENTRIES_RESPONSE (encode_appendentries_response (acked t idx idx)).

Lemma typed_appendentries16 m : ae_typed m -> appendentries16 m /\ Forall entry16 (ae_entries m).
Proof.
  intros []. split; [split_and!; by apply is_int_int16|]. eapply Forall_impl; [done|].
  intros e []. split_and!; try done. by apply is_int_int16.
Qed.

(** A follower with the leader's log hears the message with the new entry. *)
Lemma follower_takes m i j w v a t pt c y :
  let ae := mk_appendentries t (al_last a) pt c 1 [y] in
  peopled m -> m !! i = Some w -> m !! j = Some v -> ae_typed ae ->
  raft_entry_is_cfg_change y = false -> consistent a ae -> al_last a + 1 < INT_MAX (T := sky) ->
  log_repr v a -> term_of v <= t -> on_air (user_data w) (append_packet i j ae) ->
  exists v', mesh_step m (<[j := v']> m) /\ log_repr v' (al_append y a) /\
    on_air (user_data v') (ack_packet i j t (al_last a + 1)).
Proof.
  intros ae Hm Hi Hj Hty Hy Hcons Hmax Rv Ht Hair.
  pose proof (peopled_node m i w Hm Hi) as Ii. pose proof (peopled_node m j v Hm Hj) as Ij.
  destruct (member_uint i w Ii) as [Hiu Hit]. destruct (member_uint j v Ij) as [Hju Hjt].
  pose proof (member_host j v Ij a Rv) as Ho. pose proof (ho_server _ _ _ _ Ho) as Sok.
  pose proof (log_repr_bound _ _ Rv). pose proof (lr_last _ _ Rv).
  destruct (member_node j v Ij i (member_id i w Ii)) as (x & [Hx _]%voting_elem & Hid).
  pose proof (member_get j v Ij x i Hx Hid (ih_id _ _ Ii)) as Hget.
  assert (replicated a ae = al_append y a) as Hrep.
  { unfold replicated, lacked, Receiving.held. change (ae_prev_log_idx ae) with (al_last a).
    by rewrite Z.sub_diag. }
  destruct (raft_recv_appendentries_run (Some x) ae v a Sok (proj1 (ho_appends _ _ _ _ Ho)))
    as (v1 & H1 & Sok1 & _); try done.
  { split; cbn; [done|by constructor|lia|lia|by apply (ih_within _ _ Ij)]. }
  { change (al_first a <= al_last a + 1). unfold al_first. lia. }
  { intros k z y' Hz. cbn in Hz. rewrite al_get_past in Hz; [done|lia]. }
  { left. rewrite Hrep, al_append_last. lia. }
  rewrite Hrep in Sok1. change (mk_appendentries_response _ _ _ _) with
    (acked t (al_last a + 1) (al_last a + 1)) in H1.
  destruct (answered m i j w v (append_packet i j ae) 1 MSG_APPENDENTRIES_RESPONSE
    (encode_appendentries_response (acked t (al_last a + 1) (al_last a + 1))) v1 Hm Hi Hj Hair)
    as [Hs Hon]; [cbn; lia| |].
  - destruct (typed_appendentries16 ae Hty) as [H16 He16].
    pose proof (appendentries_received j i ae [] v H16 He16 Hiu eq_refl
      ltac:(rewrite HP; cbn; lia)) as Hrecv.
    rewrite (ih_sv _ _ Ij), Hjt, Z.eqb_refl, (bind_ok_l _ _ _ _ _ Hget) in Hrecv.
    etransitivity; [exact Hrecv|]. unfold answer_appendentries.
    by rewrite bind_assoc, (bind_ok_l _ _ _ _ _ H1).
  - eexists. split; [exact Hs|]. split; [by eapply log_repr_same, Sok1|exact Hon].
Qed.

(** *** The leader counts the answers *)
Lemma leader_hears i a idx w0 m w j v b seen rest : peopled m -> m !! i = Some w -> m !! j = Some v ->
  on_air (user_data v) (ack_packet i j (term_of w0) idx) -> b ∈ electorate w0 ->
  raft_get_node (to_int (T := sky) j) w = Ok (Some b) w ->
  NoDup (b :: rest) /\ committing a idx w0 seen (b :: rest) w ->
  exists w', mesh_step m (<[i := w']> m) /\ roll w' = roll w /\
    NoDup rest /\ committing a idx w0 (seen ++ [b]) rest w'.
Proof.
  intros Hm Hi Hj Hair Hb Hget [[Hnb Hnd]%NoDup_cons Hc]. pose proof (peopled_node m i w Hm Hi) as Ii.
  destruct (member_uint i w Ii) as [_ Hit].
  destruct (member_uint j v (peopled_node m j v Hm Hj)) as [Hju _].
  pose proof Hc as ([Rl Hlast Hpos _ _] & HE & _).
  assert (term_of w = term_of w0) as Et by (unfold electors in HE; congruence).
  destruct (commit_step a idx idx w0 seen b rest w Hc Hnb Hb) as (w' & H' & Hc'). exists w'.
  destruct (member_host i w Ii a (so_log _ _ (rl_ok _ _ Rl))) as [Sok _ N _ Ty _ _].
  pose proof (lr_max _ _ (so_log _ _ Sok)) as Hmax.
  split; [|split; [|done]].
  - apply (packet_event m i j w v _ 1 w' Hi Hj Hair). unfold ack_packet.
    rewrite recv_appendentries_response.
    + rewrite (ih_sv _ _ Ii), Hit, Z.eqb_refl, (bind_ok_l _ _ _ _ _ Hget).
      by rewrite bind_assoc, (bind_ok_l _ _ _ _ _ H').
    + done.
    + rewrite <- Et. split_and!; cbn; apply is_int_int16; [apply (sv_term _ _ (ty_srv _ _ Ty))|..];
        unfold is_int; change (INT_MIN (T := sky)) with (-32768); change (INT_MAX (T := sky)) with 32767 in *; lia.
  - eapply (op_roll (OpRecvAppendentriesResponse (Some b) (acked (term_of w0) idx idx)) w tt w');
      [apply Sok|done|done|]. cbn. by rewrite (bind_ok_l _ _ _ _ _ H').
Qed.

(** The answers of enough peers commit the entry. *)
Lemma answers_commit m i w a idx js : peopled m -> m !! i = Some w -> awaits w a idx -> commit_of w < idx ->
  NoDup js -> i ∉ js -> (2 <= length js)%nat ->
  (forall j, j ∈ js -> (exists b, b ∈ nodes_list (srv w) /\ node_id_at w b = Some j /\ behind w idx b) /\
    exists v, m !! j = Some v /\ on_air (user_data v) (ack_packet i j (term_of w) idx)) ->
  exists w', rtc mesh_step m (<[i := w']> m) /\ log_repr w' a /\ role_of w' = role_of w /\
    commit_of w' = idx.
Proof.
  intros Hm Hi Haw Hlt Hnd Hni Hlen Hall. pose proof (peopled_node _ _ _ Hm Hi) as In.
  destruct (member_peers i w In js Hnd) as (bs & Hids & Hbs & Hel).
  { intros j Hj. destruct (Hall j Hj) as (_ & v & Hv & _). split; [|by intros ->].
    by apply (member_id j v), (peopled_node m). }
  assert (length bs = length js) as Hlb by (apply (f_equal length) in Hids; by rewrite !length_map in Hids).
  destruct (hears_each i w (fun j => ack_packet i j (term_of w) idx)
    (fun seen rest w' => NoDup rest /\ committing a idx w seen rest w'))
    with (bs := bs) (m := m) (w := w) (seen := @nil addr) as (w' & S & _ & Hc); try done.
  { intros m1 w1 j v b seen rest. apply leader_hears. }
  { intros b Hb. destruct (elem_of_map_some _ _ _ b Hids Hb) as (j & Hj & Hbj).
    destruct (Hall j Hj) as (_ & v & Hv & Ha). exists j, v. split_and!; try done. by intros ->. }
  { split; [done|]. apply committing_starts; [done|done|]. intros b Hb.
    destruct (elem_of_map_some _ _ _ b Hids Hb) as (j & Hj & Hbj).
    destruct (Hall j Hj) as ((b' & Hin & Hbj' & Hbeh) & _). replace b with b'; [done|].
    apply Hel, electorate_elem in Hb as [Hb _]. destruct (ih_server _ _ In) as [cast Si].
    by apply (nw_ids _ (si_nodes _ _ _ _ Si) b' b j). }
  cbn [app] in Hc. exists w'. split; [done|].
  assert (commit_of w' = idx) as Hci.
  { eapply commit_reached; [exact Hc|done|rewrite (member_five i w In); lia..]. }
  destruct Hc as ([Rl _ _ _ Hl'] & HE & _). split; [apply Rl|]. split; [|done].
  unfold electors in HE. unfold role_of. rewrite Hl', (aw_leader _ _ _ Haw). congruence.
Qed.

(** All of them take the entry. *)
Lemma followers_take m i w a js t pt c y :
  let ae := mk_appendentries t (al_last a) pt c 1 [y] in
  peopled m -> m !! i = Some w -> NoDup js -> i ∉ js -> ae_typed ae ->
  raft_entry_is_cfg_change y = false -> consistent a ae -> al_last a + 1 < INT_MAX (T := sky) ->
  (forall j, j ∈ js -> on_air (user_data w) (append_packet i j ae) /\
     exists v, m !! j = Some v /\ log_repr v a /\ term_of v <= t) ->
  exists m', rtc mesh_step m m' /\ m' !! i = Some w /\ forall j, j ∈ js -> exists v, m' !! j = Some v /\
    log_repr v (al_append y a) /\ on_air (user_data v) (ack_packet i j t (al_last a + 1)).
Proof.
  intros ae Hm Hi Hnd Hni Hty Hy Hcons Hmax Hall.
  destruct (each_hears i w
    (fun j v => log_repr v a /\ term_of v <= t /\ on_air (user_data w) (append_packet i j ae))
    (fun j v => log_repr v (al_append y a) /\ on_air (user_data v) (ack_packet i j t (al_last a + 1)))
    js Hnd Hni) with (m := m) as (m' & S & Hi' & Hk); try done.
  - intros m' j v Hm' Hi' Hj _ (Rv & Htv & Hap). by eapply follower_takes.
  - intros j Hj. destruct (Hall j Hj) as (Hap & v & Hv & Rv & Htv). by exists v.
  - exists m'. split; [done|]. split; [done|]. intros j Hj. by apply (Hk j).
Qed.

(** An entry of a client is committed over a radio that delivers. *)
Lemma radio_commits m0 m i w a js s ws x :
  switched_on m0 -> rtc mesh_step m0 m -> m !! i = Some w -> log_repr w a ->
  role w = RAFT_STATE_LEADER -> al_last a + 1 < INT_MAX (T := sky) ->
  NoDup js -> i ∉ js -> (2 <= length js)%nat ->
  (forall j, j ∈ js ->
    (exists b, b ∈ nodes_list (srv w) /\ node_id_at w b = Some j /\ synced w a b) /\
    exists v, m !! j = Some v /\ log_repr v a /\ term_of v <= term_of w) ->
  m !! s = Some ws -> on_air (user_data ws) (packet_of i s MSG_CLIENT (put_int x)) ->
  exists m' w' r, let e := stamped w a (client_entry r (put_int x)) in
    rtc mesh_step m m' /\ m' !! i = Some w' /\ role_of w' = role_of w /\
    log_repr w' (al_append e a) /\ commit_of w' = al_last a + 1 /\
    forall j, j ∈ js -> exists v, m' !! j = Some v /\ log_repr v (al_append e a).
Proof.
  intros Hon Hrun Hi Ra Hl Hmax Hnd Hni Hlen Hall Hs Hair.
  assert (peopled m) as Hm by (eapply peopled_steps; [by apply switched_on_peopled|done]).
  pose proof (peopled_node _ _ _ Hm Hi) as In.
  destruct (leader_takes m i w a s ws x Hm Hi Hs Hair Ra Hl Hmax)
    as (w1 & r & He & S1 & A1 & C1 & K1 & N1 & Hon1).
  set (e := with_ety_term _ _) in *. set (y := with_ety_idx (al_last a + 1) e).
  pose proof (peopled_step _ _ Hm S1) as Hm1. set (m1 := <[i := w1]> m) in *.
  assert (m1 !! i = Some w1) as Hi1 by apply lookup_insert_eq.
  destruct (news_parts i w a e (member_host i w In a Ra) He ltac:(lia)) as (pt & Hnews & Hcons & Hty).
  rewrite Hnews in Hcons, Hty, Hon1.
  destruct (followers_take m1 i w1 a js (term_of w) pt (commit_of w) y Hm1 Hi1 Hnd Hni Hty eq_refl Hcons Hmax)
    as (m2 & S2 & Hi2 & Hk).
  { intros j Hj. destruct (Hall j Hj) as ((b & Hb & Hbj & Hsy) & v & Hv & Rv & Htv).
    assert (j <> i) as Hne by by intros ->. split.
    - apply (Hon1 j b Hne); [|done|done].
      apply (member_elects i w In b j); try done. by apply (member_id j v), (peopled_node m).
    - exists v. split; [unfold m1; by rewrite lookup_insert_ne|done]. }
  destruct (answers_commit m2 i w1 (al_append e a) (al_last a + 1) js) as (w' & S3 & Ra' & K' & C'); try done.
  { apply (peopled_steps m1); done. }
  { rewrite C1. pose proof (ih_within _ _ In a Ra). lia. }
  { intros j Hj. destruct (Hall j Hj) as ((b & Hb & Hbj & n & Hn & _ & Hmn) & _).
    destruct (Hk j Hj) as (v & Hv & _ & Hav). injection K1 as _ T1.
    assert (nodes_list (srv w1) = nodes_list (srv w) /\ node_heap w1 = node_heap w) as [El Eh]
      by (unfold node_state in N1; split; congruence).
    split; [|exists v; by rewrite T1]. exists b. unfold node_id_at, behind, node_sat.
    rewrite El, Eh, Hn. split; [done|]. unfold node_id_at in Hbj. rewrite Hn in Hbj.
    split; [done|]. apply Z.ltb_lt. lia. }
  exists (<[i := w']> m2), w', r. cbv zeta. split_and!.
  - eapply rtc_l; [exact S1|]. by etransitivity.
  - apply lookup_insert_eq.
  - congruence.
  - exact Ra'.
  - done.
  - intros j Hj. destruct (Hk j Hj) as (v & Hv & Rv & _). exists v.
    split; [rewrite lookup_insert_ne; [done|by intros ->]|exact Rv].
Qed.
End Nodes.

(** ** The program, when packets given to netflood are received

    The nodes over the platform that writes down what is given to
    [netflood_send]. *)
Section Program.
Context {C : Contiki} {L : ContikiLaws C} (Pl0 : Platform C) (R0 : PlatformLaws Pl0).
#[local] Instance posted : Platform C := posting Pl0 R0.
#[local] Instance posted_laws : PlatformLaws posted := posting_laws Pl0 R0.
#[local] Instance posted_reliable : ReliableRadio posted posted_laws := posting_reliable Pl0 R0.
Context (HC1 : 0 < CLOCK_SECOND) (HC2 : CLOCK_SECOND * 104 <= 32768).
Context (HP : PACKETBUF_SIZE = 128%nat).
Implicit Types w : world.

(** C6: an election of the program can succeed.  From any state the nodes reach, let
    node [i] not be a leader, and let enough other nodes for a majority with it be
    in no later term and have logs that are not ahead of its log; no term or index
    is at the end of its type.  Then there is a course of events, in which timers expire and nodes receive packets that were
    given to [netflood_send], after which node [i] is the leader of the next term: it
    waits for its timeout and sends its vote requests, the others receive them and
    answer, and it receives and counts the answers.  No node fails on the way, and
    the others have followed it into its term.  That these packets are received is
    part of the course and not promised by netflood, which is best effort and may
    replace packets sent back to back: when it does, nothing is claimed. *)
Theorem program_elects m0 m i w a js :
  switched_on m0 -> rtc mesh_step m0 m -> m !! i = Some w -> log_repr w a ->
  role w <> RAFT_STATE_LEADER -> term_of w < INT_MAX (T := sky) -> al_last a < INT_MAX (T := sky) ->
  NoDup js -> i ∉ js -> (2 <= length js)%nat ->
  (forall j, j ∈ js -> exists v b, m !! j = Some v /\ log_repr v b /\
    term_of v <= term_of w /\ up_to_date b (vote_request w a) = true) ->
  exists m' w', rtc mesh_step m m' /\ m' !! i = Some w' /\ role w' = RAFT_STATE_LEADER /\
    term_of w' = term_of w + 1 /\
    forall j, j ∈ js -> exists v, m' !! j = Some v /\ term_of v = term_of w'.
Proof. by apply (radio_elects HC1 HC2 HP). Qed.

(** C7: the program can commit an entry of a client.  From any state the nodes reach,
    let node [i] be a leader, let a client's packet for it have been given to
    [netflood_send] by some node, and let enough other nodes for a majority with it
    be in no later term and have its log, as it knows; no index is at the end of its
    type.  Then there is a course of events, in which nodes receive packets that were given to [netflood_send], after
    which the entry with the client's value is in the logs of all these nodes and is
    committed by the leader, which is still the leader of the same term.  No node
    fails on the way.  That these packets are received is part of the course and not
    promised by netflood, which is best effort and may replace packets sent back to
    back: when it does, nothing is claimed. *)
Theorem program_commits m0 m i w a js s ws x :
  switched_on m0 -> rtc mesh_step m0 m -> m !! i = Some w -> log_repr w a ->
  role w = RAFT_STATE_LEADER -> al_last a + 1 < INT_MAX (T := sky) ->
  NoDup js -> i ∉ js -> (2 <= length js)%nat ->
  (forall j, j ∈ js ->
    (exists b, b ∈ nodes_list (srv w) /\ node_id_at w b = Some j /\ synced w a b) /\
    exists v, m !! j = Some v /\ log_repr v a /\ term_of v <= term_of w) ->
  m !! s = Some ws -> on_air (user_data ws) (packet_of i s MSG_CLIENT (put_int x)) ->
  exists m' w' r, let e := stamped w a (client_entry r (put_int x)) in
    rtc mesh_step m m' /\ m' !! i = Some w' /\ role_of w' = role_of w /\
    log_repr w' (al_append e a) /\ commit_of w' = al_last a + 1 /\
    forall j, j ∈ js -> exists v, m' !! j = Some v /\ log_repr v (al_append e a).
Proof. by apply (radio_commits HC1 HC2 HP). Qed.

(** C8: the program does not get into a state from which no leader can come.  From any
    state that three or more nodes reach, whatever their terms, logs and roles,
    unless an integer is about to overflow, there is a course of events, in which
    timers expire and nodes receive packets that were given to [netflood_send], after
    which one of them leads and no node is in a later term than the leader.  When no
    node of the latest term leads, such a node times out and brings the one with the
    best log into the next term, and that one is elected by all the others.  That
    these packets are received is part of the course and not promised by netflood,
    which is best effort and may replace packets sent back to back: when it does,
    nothing is claimed. *)
Theorem program_leads m0 m :
  switched_on m0 -> rtc mesh_step m0 m -> (3 <= stdpp.base.size m)%nat ->
  (forall i w, m !! i = Some w -> term_of w + 1 < INT_MAX (T := sky)) ->
  (forall i w a, m !! i = Some w -> log_repr w a -> al_last a < INT_MAX (T := sky)) ->
  exists m', rtc mesh_step m m' /\ led m'.
Proof. by apply (radio_leads HC1 HC2 HP). Qed.
End Program.
