(* ===== verification/Consensus.v ===== *)
(** * Agreement of the nodes

    What [Agreement.v] proves of servers that exchange messages, for the nodes of
    [Mesh.v] that run the program: the nodes implement the council of
    [Council.v], a later leader has what was committed, and no two nodes commit
    different entries at an index, as long as no log has been full. *)
From S2P Require Import Prelude Contiki Types Node Membership Log Server Election Replication.
From S2P Require Import Wire App Sim NodeFacts Frames History LogFacts MemberFacts.
From S2P Require Import ElectionFacts Roles Campaign Sending Receiving Lifecycle Ranges Fixed.
From S2P Require Import Conflict Cluster Outbox Growth Network Ledger Council Matching Claims.
From S2P Require Import Sessions Agreement AppFacts AppStart AppSafety Radio Rounds Mesh.

#[local] Remove Hints sim_user : typeclass_instances.

Section Consensus.
Context {C : Contiki} {L : ContikiLaws C} {Pl : Platform C} {R : PlatformLaws Pl}.
Implicit Types w : world.
Abbreviation network_step := (network_step app_typed).
Abbreviation council_step := (council_step all_ids).

(** ** The start *)
Section Start.
Context (HC1 : 0 < CLOCK_SECOND) (HC2 : CLOCK_SECOND * 100 <= 32768).

Lemma switched_on_newborn m i w : switched_on m -> m !! i = Some w -> newborn w.
Proof.
  intros Hm Hi. destruct (Hm i w Hi) as (Hid & w0 & [B1 _ _ _] & H).
  destruct (main_process_run i w0 B1 Hid HC1 HC2) as (w1 & H1 & St & _).
  rewrite H in H1. injection H1 as <-. pose proof (st_hist _ _ _ St) as [= Ht _ Hc Ha].
  split; try done. by apply main_process_snapshot in H as [= ? _ _].
Qed.

(** ** The nodes implement the council *)
Context (HP : PACKETBUF_SIZE = 128%nat).

Lemma enough_ids : (1 < stdpp.base.size all_ids)%nat.
Proof. vm_compute. lia. Qed.

Lemma program_convened m0 m : switched_on m0 -> rtc mesh_step m0 m -> unfilled m ->
  exists n c0 c, carries m n /\ unmet c0 /\ rtc council_step c0 c /\
    convened app_typed all_ids n c.
Proof.
  intros Hm Hs Hu. destruct (program_network HC1 HC2 HP m0 m Hm Hs) as (n & Ho & Hn & Cr).
  destruct (opening_convened (U := app_user) app_typed all_ids (silence m0) Ho) as (c0 & Hc0 & Cv).
  { intros i w Hi. by eapply switched_on_newborn. }
  destruct (convened_run (U := app_user) app_typed all_ids enough_ids (silence m0) n c0 Cv Hn)
    as (c & Hc & Cv'); [by rewrite <- (cr_host _ _ Cr) in Hu|].
  by exists n, c0, c.
Qed.

(** Two moments of a run. *)
Lemma program_convened_later m0 m1 m2 : switched_on m0 -> rtc mesh_step m0 m1 ->
  rtc mesh_step m1 m2 -> unfilled m2 ->
  exists n1 n2 c1 c2, host n1 = m1 /\ host n2 = m2 /\ rtc council_step c1 c2 /\
    convened app_typed all_ids n1 c1 /\ convened app_typed all_ids n2 c2.
Proof.
  intros Hm H1 H2 Hu. destruct (program_network HC1 HC2 HP m0 m1 Hm H1) as (n1 & Ho & Hn1 & Cr1).
  destruct (mesh_steps_network HP m1 m2 n1 Cr1 H2) as (n2 & Hn2 & Cr2).
  destruct (opening_convened (U := app_user) app_typed all_ids (silence m0) Ho) as (c0 & _ & Cv).
  { intros i w Hi. by eapply switched_on_newborn. }
  assert (roomy n2) as Hr2 by by rewrite <- (cr_host _ _ Cr2) in Hu.
  assert (roomy n1) as Hr1 by by eapply (roomy_steps_back (U := app_user) app_typed); [apply Cr1|..].
  destruct (convened_run (U := app_user) app_typed all_ids enough_ids (silence m0) n1 c0 Cv Hn1 Hr1)
    as (c1 & _ & Cv1).
  destruct (convened_run (U := app_user) app_typed all_ids enough_ids n1 n2 c1 Cv1 Hn2 Hr2)
    as (c2 & Hc & Cv2).
  exists n1, n2, c1, c2. split_and!; try done; [apply Cr1|apply Cr2].
Qed.

(** C1: leader completeness of the program: as long as no log was full, what a
    node has committed at some time, in a term up to [t], is in the log of every
    node that leads term [t] or a later one, then or afterwards: the same entry
    at the same index. *)
Theorem program_leader_completeness m0 m1 m2 i1 i2 w1 w2 a1 a2 k :
  switched_on m0 -> rtc mesh_step m0 m1 -> rtc mesh_step m1 m2 -> unfilled m2 ->
  m1 !! i1 = Some w1 -> m2 !! i2 = Some w2 -> log_repr w1 a1 -> log_repr w2 a2 ->
  role w2 = RAFT_STATE_LEADER -> term_of w1 <= term_of w2 -> 1 <= k <= commit_of w1 ->
  exists e, al_get a1 k = Some e /\ al_get a2 k = Some e.
Proof.
  intros Hm H1 H2 Hu Hi1 Hi2 R1 R2 Hl Ht Hk.
  destruct (program_convened_later m0 m1 m2 Hm H1 H2 Hu) as (n1 & n2 & c1 & c2 & <- & <- & Hc & Cv1 & Cv2).
  destruct (committed_present (U := app_user) app_typed all_ids n1 c1 i1 w1 a1 k Cv1 Hi1 R1 Hk) as [e He].
  exists e. split; [done|]. rewrite <- He. symmetry.
  by eapply (committed_led (U := app_user) app_typed all_ids n1 n2 c1 c2 i1 i2 w1 w2); [..|lia].
Qed.

(** C2: state machine safety of the program: as long as no log was full, no two
    nodes ever commit different entries at an index, also not at different times,
    and no node applies an entry that it has not committed. *)
Theorem program_state_machine_safety m0 m1 m2 i1 i2 w1 w2 a1 a2 k :
  switched_on m0 -> rtc mesh_step m0 m1 -> rtc mesh_step m1 m2 -> unfilled m2 ->
  m1 !! i1 = Some w1 -> m2 !! i2 = Some w2 -> log_repr w1 a1 -> log_repr w2 a2 ->
  1 <= k <= commit_of w1 -> k <= commit_of w2 ->
  applied_of w1 <= commit_of w1 /\ exists e, al_get a1 k = Some e /\ al_get a2 k = Some e.
Proof.
  intros Hm H1 H2 Hu Hi1 Hi2 R1 R2 Hk Hk2.
  destruct (program_convened_later m0 m1 m2 Hm H1 H2 Hu) as (n1 & n2 & c1 & c2 & <- & <- & Hc & Cv1 & Cv2).
  destruct (committed_present (U := app_user) app_typed all_ids n1 c1 i1 w1 a1 k Cv1 Hi1 R1 Hk) as [e He].
  split; [by apply (convened_applied (U := app_user) app_typed all_ids n1 c1 i1)|]. exists e. split; [done|]. rewrite <- He. symmetry.
  by eapply (committed_agree (U := app_user) app_typed all_ids n1 n2 c1 c2 i1 i2 w1 w2); [..|lia|].
Qed.

(** C3: the nodes implement the council, as long as no log was full: the council
    takes its steps only, and it gives each node its term and its log, a leader
    the reign of its term, and what a node has committed was chosen by a majority
    in a term up to its own. *)
Theorem program_refines_council m0 m : switched_on m0 -> rtc mesh_step m0 m -> unfilled m ->
  exists c0 c, unmet c0 /\ rtc council_step c0 c /\
    forall i w a, m !! i = Some w -> log_repr w a ->
      epoch c !! i = Some (term_of w) /\ held (book c) !! i = Some (al_entries a) /\
      (role w = RAFT_STATE_LEADER -> reign (book c) !! term_of w = Some (i, al_entries a)) /\
      committed all_ids c (commit_of w) (term_of w) (al_entries a).
Proof.
  intros Hm Hs Hu. destruct (program_convened m0 m Hm Hs Hu) as (n & c0 & c & Cr & Hc0 & Hc & Cv).
  exists c0, c. split; [done|]. split; [done|]. intros i w a. rewrite <- (cr_host _ _ Cr). intros Hi Ra.
  destruct (convened_log (U := app_user) app_typed all_ids n c i w a Cv Hi Ra) as (_ & Hh & _ & Hcm).
  split; [by apply (convened_epoch (U := app_user) app_typed all_ids n c i w Cv Hi)|]. split; [done|]. split; [|done].
  by apply (convened_leader (U := app_user) app_typed all_ids n c i w a Cv Hi Ra).
Qed.
End Start.
End Consensus.
