(* ===== verification/AppRuns.v ===== *)
(** * The application on a concrete platform

    A network that records the packets sent, and the theorems about app/main.c
    on concrete states. *)
From S2P Require Import Prelude Contiki Types Node Membership Log Server Election Replication.
From S2P Require Import Wire App Sim NodeFacts Frames History LogFacts MemberFacts.
From S2P Require Import ElectionFacts Roles Campaign Sending Receiving Lifecycle Ranges Conflict.
From S2P Require Import AppFacts AppStart AppSafety Radio Air.

#[local] Remove Hints sim_user : typeclass_instances.

(** A radio that is a packet buffer, and floods nothing. *)
#[local] Instance buffer_platform : Platform sim_contiki := {|
  net := list Z;
  PACKETBUF_SIZE := 128;
  packetbuf_copyfrom := fun bs _ => bs;
  netflood_send := fun _ n => n;
  netflood_open := fun _ _ n => n;
  CLOCK_SECOND := 128;
  random_init := fun seed _ => seed;
  entries_at := fun _ => []
|}.

#[local] Instance buffer_laws : PlatformLaws buffer_platform.
Proof. by refine {| in_buffer := fun n : net => n; flooded := fun _ => [] |}; auto. Defined.

(** The packet buffer, and the packets given to [netflood_send]. *)
#[export] Instance sim_platform : Platform sim_contiki := posting buffer_platform buffer_laws.

#[export] Instance sim_platform_laws : PlatformLaws sim_platform :=
  posting_laws buffer_platform buffer_laws.

Definition app_boot : world :=
  mk_world zero_server zero_log ∅ (MEMB MAX_ENTRIES) ∅ (MEMB MAX_NODES) 0
    (mk_app 0 (replicate PACKETBUF_SIZE 0) 0 ([], []) false).

(** The state of a program after a run, the initial one if the run goes wrong. *)
Definition app_after {A} (m : M world A) (w : world) : world :=
  match m w with Ok _ w' => w' | Fault _ => w end.

(** A node of the cluster after its start. *)
Definition app_node (i : Z) : world := app_after (main_process i) app_boot.

Definition app_data (w : world) : app_state := user_data w.

(** The node structure of a peer. *)
Definition peer (i : Z) : raft_node_private_t := Node.init i.

Definition sim_request : msg_requestvote_t := mk_requestvote 1 1 0 0.

Lemma requestvote_delivered_witness :
  let u := app_data (app_node 1) in
  exists packet, sent packet u (snd (app_send_requestvote u (peer 2) sim_request)) /\
    forall junk w, recv (packet ++ junk) w =
      if sv_node_id (user_data w) =? to_uint 2
      then (let! node := raft_get_node (to_int (sv_node_id u)) in
            exec! answer_requestvote node (sv_node_id u) sim_request in ret 1) w
      else Ok 1 w.
Proof.
  apply (requestvote_delivered (app_data (app_node 1)) (peer 2) sim_request).
  - vm_compute. lia.
  - split_and!; reflexivity.
  - vm_compute. split; [discriminate|reflexivity].
Defined.

Lemma responses_delivered_witness :
  let u := app_data (app_node 2) in
  let rvr := mk_requestvote_response 1 1 in
  let aer := mk_appendentries_response 1 1 0 1 in
  (exists packet,
    sent packet u (send_message MSG_REQUESTVOTE_RESPONSE (encode_requestvote_response rvr) 1 u) /\
    forall junk w, recv (packet ++ junk) w =
      if sv_node_id (user_data w) =? to_uint 1
      then (let! node := raft_get_node (to_int (sv_node_id u)) in
            exec! count_vote node rvr in ret 1) w
      else Ok 1 w) /\
  (exists packet,
    sent packet u (send_message MSG_APPENDENTRIES_RESPONSE (encode_appendentries_response aer) 1 u) /\
    forall junk w, recv (packet ++ junk) w =
      if sv_node_id (user_data w) =? to_uint 1
      then (let! node := raft_get_node (to_int (sv_node_id u)) in
            exec! match node with
                  | None => ret tt
                  | Some _ => let! _ := raft_recv_appendentries_response node aer in ret tt
                  end in ret 1) w
      else Ok 1 w).
Proof.
  apply (responses_delivered (app_data (app_node 2)) 1).
  - vm_compute. lia.
  - vm_compute. split; [discriminate|reflexivity].
  - split; reflexivity.
  - split_and!; reflexivity.
Defined.

(** A message with [k] entries of term 1. *)
Definition sim_append (k : nat) : msg_appendentries_t :=
  mk_appendentries 1 0 0 0 (Z.of_nat k)
    (map (fun i => mk_entry 1 (Z.of_nat (S i)) 7 RAFT_LOGTYPE_NORMAL (mk_data 3 0)) (seq 0 k)).

Lemma appendentries_delivered_witness :
  let u := app_data (app_node 1) in
  exists packet, sent packet u (snd (app_send_appendentries u (peer 2) (sim_append 3))) /\
    forall junk w, recv (packet ++ junk) w =
      if sv_node_id (user_data w) =? to_uint 2
      then (let! node := raft_get_node (to_int (sv_node_id u)) in
            exec! answer_appendentries node (sv_node_id u)
              (mk_appendentries 1 0 0 0 3 (take 1 (ae_entries (sim_append 3)))) in ret 1) w
      else Ok 1 w.
Proof.
  apply (appendentries_delivered (app_data (app_node 1)) (peer 2) (sim_append 3)).
  - split_and!; reflexivity.
  - repeat (apply List.Forall_cons; [unfold entry16, uint16, uint8, int16; cbn; split_and!; (lia || reflexivity)|]).
    apply List.Forall_nil.
  - vm_compute. split; [discriminate|reflexivity].
  - reflexivity.
  - vm_compute. lia.
  - vm_compute. lia.
Defined.

Lemma app_node2_wf : nodes_wf (app_node 2).
Proof. apply nodes_wfb_sound. vm_compute. reflexivity. Qed.

Lemma appendentries_overrun_witness :
  let u := app_data (app_node 1) in
  exists packet, sent packet u (snd (app_send_appendentries u (peer 2) (sim_append 11))) /\
    (length packet <= PACKETBUF_SIZE)%nat /\
    recv (packet ++ []) (app_node 2) = Fault WildDeref.
Proof.
  eapply (appendentries_overrun (app_data (app_node 1)) (peer 2) (sim_append 11) [] (app_node 2)).
  - split_and!; reflexivity.
  - vm_compute. split; [discriminate|reflexivity].
  - reflexivity.
  - reflexivity.
  - reflexivity.
  - vm_compute. reflexivity.
  - apply raft_get_node_ok, app_node2_wf.
Defined.

Lemma callbacks_in_bounds_witness :
  let u := app_data (app_node 1) in
  Forall (fun u' => undefined u' = false /\ length (stage_buffer u') = PACKETBUF_SIZE /\
            sv_node_id u' = sv_node_id u /\ netflood_seq u' = netflood_seq u + 1)
    [snd (app_send_requestvote u (peer 2) sim_request);
     snd (app_send_appendentries u (peer 2) (sim_append 40));
     send_message MSG_REQUESTVOTE_RESPONSE (put_int 1 ++ put_int 1) 2 u].
Proof.
  apply (callbacks_in_bounds (app_data (app_node 1)) (peer 2) sim_request (sim_append 40)).
  - reflexivity.
  - vm_compute. reflexivity.
  - vm_compute. reflexivity.
  - discriminate.
  - cbn. unfold sizeof_requestvote. lia.
Defined.

Lemma main_process_establishes_witness :
  exists w', main_process 3 app_boot = Ok tt w' /\
    started 3 raft_funcs w' /\ members w' = map Node.init [3; 1; 2; 4; 5] /\
    sv_node_id (user_data w') = 3 /\
    election_timeout (srv w') = 6400 /\
    6400 <= election_timeout_rand (srv w') < 12800 /\
    request_timeout (srv w') = 1024.
Proof.
  apply (main_process_establishes 3 app_boot).
  - split_and!; reflexivity.
  - lia.
  - reflexivity.
  - discriminate.
Defined.

(** Node 3 after a heartbeat of node 1. *)
Definition app_follower : world :=
  app_after (recv (packet_of 3 1 MSG_APPENDENTRIES (encode_appendentries (sim_append 0)))) (app_node 3).

Lemma client_new_message_spec_witness :
  exists a ld, node_heap app_follower !! a = Some ld /\ id ld = 1 /\
    exists packet u,
      client_new_message app_follower = Ok tt (with_user_data u (after_draw app_follower)) /\
      sent packet (user_data app_follower) u /\
      forall junk w', recv (packet ++ junk) w' =
        if sv_node_id (user_data w') =? 1 then propose (drawn app_follower) 1 w' else Ok 1 w'.
Proof.
  exists 2%positive, (Node.init 1). split; [vm_compute; reflexivity|]. split; [reflexivity|].
  apply (client_new_message_spec app_follower 2%positive (Node.init 1)).
  - vm_compute. lia.
  - vm_compute. split; [discriminate|reflexivity].
  - vm_compute. reflexivity.
  - cbn. lia.
  - vm_compute. reflexivity.
  - vm_compute. discriminate.
Defined.

(** *** Runs *)

(** Node 3 grants node 1 its vote, receives a heartbeat of node 1, its timers
    expire, and it receives an entry. *)
Definition app_events : list app_event := [
  EvPacket (packet_of 3 1 MSG_REQUESTVOTE (encode_requestvote sim_request));
  EvPacket (packet_of 3 1 MSG_APPENDENTRIES (encode_appendentries (sim_append 0)));
  EvClient; EvPeriodic;
  EvPacket (packet_of 3 1 MSG_APPENDENTRIES
    (encode_appendentries (sim_append 1) ++ entry_bytes (ae_entries (sim_append 1)))) ].

Lemma app_after_ok {A} (m : M world A) w v :
  match m w with Ok a _ => Some a | Fault _ => None end = Some v -> m w = Ok v (app_after m w).
Proof. unfold app_after. destruct (m w); by intros [= ->]. Qed.

Lemma app_run_history_witness :
  exists w w', main_process 3 app_boot = Ok tt w /\ app_run app_events w = Ok tt w' /\
  term_of w' = 1 /\ vote_of w' = 1 /\
  term_of w <= term_of w' /\ commit_of w <= commit_of w' /\ applied_of w <= applied_of w' /\
  (applied_of w <= commit_of w -> applied_of w' <= commit_of w') /\
  (term_of w = term_of w' -> vote_of w <> -1 -> vote_of w' = vote_of w).
Proof.
  assert (main_process 3 app_boot = Ok tt (app_after (main_process 3) app_boot)) as H
    by (apply app_after_ok; vm_compute; reflexivity).
  assert (app_run app_events (app_after (main_process 3) app_boot)
    = Ok tt (app_after (app_run app_events) (app_after (main_process 3) app_boot))) as H'
    by (apply app_after_ok; vm_compute; reflexivity).
  eexists _, _. split; [exact H|]. split; [exact H'|].
  split; [vm_compute; reflexivity|]. split; [vm_compute; reflexivity|].
  eapply app_run_history. exact H'.
Defined.

Lemma app_boot_typed : memory_typed app_typed app_boot.
Proof.
  split; [split; apply is_int_small; cbn; lia|apply map_Forall_empty..|].
  split; [apply Forall_replicate; by unfold is_uchar|reflexivity| |].
  - by split.
  - right. apply is_int_small. cbn. lia.
Qed.

Lemma app_events_bytes : Forall event_bytes app_events.
Proof.
  assert (forall mem, bool_decide (Forall is_uchar mem) = true -> Forall is_uchar mem) as Hb
    by (intros mem; apply bool_decide_eq_true_1).
  unfold app_events. repeat (apply List.Forall_cons;
    [first [exact I | apply Hb; vm_compute; reflexivity]|]). apply List.Forall_nil.
Qed.

Lemma no_stray_entries next : Forall entry_typed (entries_at next).
Proof. apply List.Forall_nil. Qed.

Lemma app_run_typed_witness :
  exists w w', main_process 3 app_boot = Ok tt w /\ app_run app_events w = Ok tt w' /\
    typed app_typed w'.
Proof.
  assert (main_process 3 app_boot = Ok tt (app_after (main_process 3) app_boot)) as H
    by (apply app_after_ok; vm_compute; reflexivity).
  assert (app_run app_events (app_after (main_process 3) app_boot)
    = Ok tt (app_after (app_run app_events) (app_after (main_process 3) app_boot))) as H'
    by (apply app_after_ok; vm_compute; reflexivity).
  eexists _, _. split; [exact H|]. split; [exact H'|].
  eapply (app_run_typed no_stray_entries app_events); [|exact app_events_bytes|exact H'].
  eapply main_process_typed; [exact app_boot_typed|exact H].
Defined.

(** *** A conflict *)

(** Node 3 with an entry of term 1 from node 1, not committed. *)
Definition app_stale : world := app_after (app_run app_events) (app_node 3).
Definition app_stale_log : alog := mk_alog 1 [mk_entry 1 1 7 RAFT_LOGTYPE_NORMAL (mk_data 3 0)].

Lemma app_stale_cb : cb (srv app_stale) = raft_funcs.
Proof.
  assert (main_process 3 app_boot = Ok tt (app_node 3)) as H
    by (unfold app_node; apply app_after_ok; vm_compute; reflexivity).
  assert (app_run app_events (app_node 3) = Ok tt app_stale) as H'
    by (unfold app_stale; apply app_after_ok; vm_compute; reflexivity).
  rewrite (app_run_cb _ _ _ _ H'). exact (main_process_cb _ _ _ _ H).
Qed.

Lemma app_stale_ok : server_ok app_stale app_stale_log.
Proof.
  apply server_okb_check; [|vm_compute; reflexivity].
  unfold persists. rewrite app_stale_cb. exact raft_funcs_persist.
Qed.

(** The leader of term 2, node 2, has another entry 1. *)
Definition app_conflict : msg_appendentries_t :=
  mk_appendentries 2 0 0 0 1 [mk_entry 2 1 8 RAFT_LOGTYPE_NORMAL (mk_data 5 0)].

Lemma conflict_aborts_witness :
  let u := app_data (app_node 2) in
  exists packet, sent packet u (snd (app_send_appendentries u (peer 3) app_conflict)) /\
    recv (packet ++ []) app_stale = Fault AssertFailed.
Proof.
  apply (conflict_aborts (app_data (app_node 2)) (peer 3) app_conflict
    (mk_entry 2 1 8 RAFT_LOGTYPE_NORMAL (mk_data 5 0))
    (mk_entry 1 1 7 RAFT_LOGTYPE_NORMAL (mk_data 3 0)) [] app_stale app_stale_log).
  - split_and!; reflexivity.
  - reflexivity.
  - split_and!; first [reflexivity | vm_compute; split; [discriminate|reflexivity]].
  - reflexivity.
  - vm_compute. split; [discriminate|reflexivity].
  - reflexivity.
  - vm_compute. reflexivity.
  - exact app_stale_ok.
  - exact app_stale_cb.
  - vm_compute. reflexivity.
  - vm_compute. reflexivity.
  - split; try (vm_compute; discriminate); [reflexivity|repeat constructor].
  - vm_compute. discriminate.
  - by left.
  - split; try reflexivity; try (vm_compute; discriminate).
Defined.
