(* ===== verification/MeshRuns.v ===== *)
(** * Nodes on a concrete radio

    Three nodes elect a leader and replicate two entries; in another run they
    commit an entry, a second leader takes office, and commits in turn.  The
    theorems about the nodes and the radio on these runs. *)
From S2P Require Import Prelude Contiki Types Node Membership Log Server Election Replication.
From S2P Require Import Wire App Sim NodeFacts Frames History LogFacts MemberFacts.
From S2P Require Import ElectionFacts Roles Campaign Sending Receiving Lifecycle Ranges Fixed.
From S2P Require Import Conflict Cluster Outbox Growth Network Ledger Matching.
From S2P Require Import Council Claims AppFacts AppStart AppSafety Radio Rounds Mesh.
From S2P Require Import Air Progress Consensus AppRuns.

#[local] Remove Hints sim_user : typeclass_instances.

(** What happens at a node: a timer expires, or it hears the [k]-th packet that
    node [j] flooded. *)
Inductive happening :=
  | Tick
  | Propose
  | Hear (j : Z) (k : nat).

Definition event_of (m : gmap Z world) (h : happening) : option app_event :=
  match h with
  | Tick => Some EvPeriodic
  | Propose => Some EvClient
  | Hear j k => w ← m !! j; p ← flooded (netflood (user_data w)) !! k; Some (EvPacket p)
  end.

Definition mesh_happen (m : gmap Z world) (ih : Z * happening) : option (gmap Z world) :=
  w ← m !! ih.1; ev ← event_of m ih.2;
  match app_round ev w with Ok _ w' => Some (<[ih.1 := w']> m) | Fault _ => None end.

Fixpoint mesh_exec (l : list (Z * happening)) (m : gmap Z world) : option (gmap Z world) :=
  match l with
  | [] => Some m
  | ih :: l' => m' ← mesh_happen m ih; mesh_exec l' m'
  end.

Lemma mesh_exec_steps l m m' : mesh_exec l m = Some m' -> rtc mesh_step m m'.
Proof.
  revert m. induction l as [|[i h] l IH]; intros m H; cbn [mesh_exec] in H; [by injection H as ->|].
  destruct (mesh_happen m (i, h)) as [m1|] eqn:H1; [|done]. cbn in H.
  eapply rtc_l; [|by apply IH]. unfold mesh_happen in H1. cbn [fst snd] in H1.
  destruct (m !! i) as [w|] eqn:Hi; [|done]. cbn in H1.
  destruct (event_of m h) as [ev|] eqn:He; [|done]. cbn in H1.
  destruct (app_round ev w) as [[] w1|] eqn:Hr; [|done]. injection H1 as <-.
  apply (mesh_round m i w ev w1); [done| |done].
  destruct h as [| |j k]; cbn in He; [by injection He as <-..|].
  destruct (m !! j) as [v|] eqn:Hj; [|done]. cbn in He.
  apply bind_Some in He as (p & Hp & He). injection He as <-.
  exists j, v, p, []. split_and!; [done| |done|by rewrite app_nil_r].
  by eapply list_elem_of_lookup_2.
Qed.

(** Three nodes of the five are switched on. *)
Definition nodes3 : gmap Z world := {[1 := app_node 1; 2 := app_node 2; 3 := app_node 3]}.

(** Node 1 times out, nodes 2 and 3 give it their votes. *)
Definition electing : list (Z * happening) :=
  repeat (1, Tick) 18 ++ [(2, Hear 1 0); (3, Hear 1 1); (1, Hear 2 0); (1, Hear 3 0)].

(** Its client proposes two values, and node 2 receives them. *)
Definition replicating : list (Z * happening) :=
  electing ++ repeat (1, Propose) 4 ++
  [(2, Hear 1 8); (1, Hear 2 1); (1, Propose); (2, Hear 1 12)].

Definition mesh_after (l : list (Z * happening)) : gmap Z world :=
  default nodes3 (mesh_exec l nodes3).
Definition node_after (l : list (Z * happening)) (i : Z) : world :=
  default app_boot (mesh_after l !! i).

Lemma mesh_after_steps l : bool_decide (is_Some (mesh_exec l nodes3)) = true ->
  rtc mesh_step nodes3 (mesh_after l).
Proof. intros [m H]%bool_decide_eq_true. apply (mesh_exec_steps l). unfold mesh_after. by rewrite H. Qed.
Lemma node_after_at l i : bool_decide (is_Some (mesh_after l !! i)) = true ->
  mesh_after l !! i = Some (node_after l i).
Proof. intros [w H]%bool_decide_eq_true. unfold node_after. by rewrite H. Qed.

Lemma app_boot_booted : booted app_boot.
Proof.
  split; [split_and!; reflexivity|exact app_boot_typed|reflexivity|].
  intros p. apply not_elem_of_nil.
Qed.

Lemma nodes3_on : switched_on nodes3.
Proof.
  assert (forall i, i = 1 \/ i = 2 \/ i = 3 -> main_process i app_boot = Ok tt (app_node i)) as Hrun.
  { intros i [-> | [-> | ->]]; unfold app_node; apply app_after_ok; vm_compute; reflexivity. }
  intros i w Hi. unfold nodes3 in Hi. rewrite !lookup_insert_Some in Hi.
  destruct Hi as [[<- <-]|[_ [[<- <-]|[_ [<- <-]%lookup_singleton_Some]]]];
    (split; [lia|]; exists app_boot; split; [exact app_boot_booted|apply Hrun; auto]).
Qed.

Lemma electing_runs : rtc mesh_step nodes3 (mesh_after electing).
Proof. apply mesh_after_steps. vm_compute. reflexivity. Qed.
Lemma replicating_runs : rtc mesh_step nodes3 (mesh_after replicating).
Proof. apply mesh_after_steps. vm_compute. reflexivity. Qed.

Lemma tick_length : 0 < CLOCK_SECOND /\ CLOCK_SECOND * 100 <= 32768 /\ PACKETBUF_SIZE = 128%nat.
Proof. by split_and!. Qed.

Lemma program_refines_network_witness :
  exists n, rtc (network_step app_typed) (silence nodes3) n /\ host n = mesh_after electing /\
    (forall i w p, mesh_after electing !! i = Some w -> p ∈ flooded (netflood (user_data w)) ->
       fair (mail n) i p) /\
    exists c, rtc cluster_step (mk_cluster nodes3 []) c /\ server c = mesh_after electing.
Proof.
  destruct tick_length as (H1 & H2 & H3).
  apply (program_refines_network H1 H2 H3 nodes3 (mesh_after electing)).
  - exact nodes3_on.
  - exact electing_runs.
Defined.

(** Node 1 leads term 1, and no other node does. *)
Lemma program_election_safety_witness :
  role (node_after electing 1) = RAFT_STATE_LEADER /\
  forall i w, mesh_after electing !! i = Some w -> role w = RAFT_STATE_LEADER ->
    term_of (node_after electing 1) = term_of w -> 1 = i.
Proof.
  assert (role (node_after electing 1) = RAFT_STATE_LEADER) as HL by (vm_compute; reflexivity).
  split; [exact HL|]. intros i w Hi Hl Ht. destruct tick_length as (H1 & H2 & H3).
  apply (program_election_safety H1 H2 H3 nodes3 (mesh_after electing) (mesh_after electing) 1 i
    (node_after electing 1) w); try assumption.
  - exact nodes3_on.
  - exact electing_runs.
  - apply rtc_refl.
  - apply node_after_at. vm_compute. reflexivity.
Defined.

(** When they are switched on, node 3 can be elected. *)
Lemma program_elects_witness :
  exists m' w', rtc mesh_step nodes3 m' /\ m' !! 3 = Some w' /\ role w' = RAFT_STATE_LEADER /\
    term_of w' = term_of (app_node 3) + 1 /\
    forall j, j ∈ [1; 2] -> exists v, m' !! j = Some v /\ term_of v = term_of w'.
Proof.
  destruct tick_length as (H1 & H2 & H3).
  assert (forall i, i = 1 \/ i = 2 \/ i = 3 -> log_repr (app_node i) (mk_alog 0 [])) as Hlog.
  { intros i Hi. apply log_reprb_sound. destruct Hi as [-> | [-> | ->]]; vm_compute; reflexivity. }
  assert (CLOCK_SECOND * 104 <= 32768) as H4 by (vm_compute; discriminate).
  apply (program_elects buffer_platform buffer_laws H1 H4 H3 nodes3 nodes3 3 (app_node 3) (mk_alog 0 []) [1; 2]).
  - exact nodes3_on.
  - apply rtc_refl.
  - reflexivity.
  - apply Hlog. auto.
  - vm_compute. discriminate.
  - vm_compute. reflexivity.
  - vm_compute. reflexivity.
  - repeat constructor; set_solver.
  - set_solver.
  - cbn. lia.
  - intros j [->|[->| []%elem_of_nil]%elem_of_cons]%elem_of_cons.
    + exists (app_node 1), (mk_alog 0 []). split; [reflexivity|]. split; [by apply Hlog; auto|].
      split; [vm_compute; discriminate|vm_compute; reflexivity].
    + exists (app_node 2), (mk_alog 0 []). split; [reflexivity|]. split; [by apply Hlog; auto|].
      split; [vm_compute; discriminate|vm_compute; reflexivity].
Defined.

(** Neither the term nor the log of a node is at its end. *)
Lemma room_left m :
  forallb (fun iw : Z * world =>
    (term_of iw.2 + 1 <? INT_MAX (T := sky)) && (base (lg iw.2) + count (lg iw.2) <? INT_MAX (T := sky)))
    (map_to_list m) = true ->
  (forall i w, m !! i = Some w -> term_of w + 1 < INT_MAX (T := sky)) /\
  (forall i w a, m !! i = Some w -> log_repr w a -> al_last a < INT_MAX (T := sky)).
Proof.
  intros H. rewrite forallb_forall in H. split.
  - intros i w Hi. apply elem_of_map_to_list, list_elem_of_In, H, andb_true_iff in Hi as [Ht _].
    by apply Z.ltb_lt.
  - intros i w a Hi Ra. apply elem_of_map_to_list, list_elem_of_In, H, andb_true_iff in Hi as [_ Hl].
    rewrite (lr_last _ _ Ra). by apply Z.ltb_lt.
Qed.

Lemma program_leads_witness : exists m', rtc mesh_step nodes3 m' /\ led m'.
Proof.
  destruct tick_length as (H1 & H2 & H3).
  assert (CLOCK_SECOND * 104 <= 32768) as H4 by (vm_compute; discriminate).
  destruct (room_left nodes3) as [Ht Hl]; [vm_compute; reflexivity|].
  apply (program_leads buffer_platform buffer_laws H1 H4 H3 nodes3 nodes3).
  - exact nodes3_on.
  - apply rtc_refl.
  - vm_compute. lia.
  - exact Ht.
  - exact Hl.
Defined.

(** Node 2 hears of the leader, and its client sends it a value. *)
Definition proposing : list (Z * happening) :=
  electing ++ [(2, Hear 1 4)] ++ repeat (2, Propose) 8.

Lemma proposing_runs : rtc mesh_step nodes3 (mesh_after proposing).
Proof. apply mesh_after_steps. vm_compute. reflexivity. Qed.

(** The leader's block of a peer, by its id. *)
Definition peer_block (w : world) (j : Z) : addr :=
  default 1%positive (List.find (node_sat w (fun n => j =? id n)) (nodes_list (srv w))).

Lemma peer_block_synced w a j :
  bool_decide (peer_block w j ∈ nodes_list (srv w)) &&
  node_sat w (fun n => (id n =? j) && (next_idx n =? al_last a + 1) && (match_idx n <=? al_last a))
    (peer_block w j) = true ->
  exists b, b ∈ nodes_list (srv w) /\ node_id_at w b = Some j /\ synced w a b.
Proof.
  intros [Hin Hn]%andb_true_iff. apply bool_decide_eq_true in Hin. unfold node_sat in Hn.
  exists (peer_block w j). split; [done|]. unfold node_id_at, synced.
  destruct (node_heap w !! peer_block w j) as [n|]; [|done].
  apply andb_true_iff in Hn as [[Hi%Z.eqb_eq Hx%Z.eqb_eq]%andb_true_iff Hm%Z.leb_le].
  split; [cbn; congruence|]. by exists n.
Qed.

Lemma others_23 : NoDup [2; 3] /\ 1 ∉ [2; 3].
Proof. split; [repeat constructor; set_solver|set_solver]. Qed.

(** Nodes 2 and 3 take the value, and node 1 commits it. *)
Lemma program_commits_witness :
  let w := node_after proposing 1 in
  exists m' w' r, let e := stamped w (mk_alog 0 []) (client_entry r (put_int 4)) in
    rtc mesh_step (mesh_after proposing) m' /\ m' !! 1 = Some w' /\ role_of w' = role_of w /\
    log_repr w' (al_append e (mk_alog 0 [])) /\ commit_of w' = 0 + 1 /\
    forall j, j ∈ [2; 3] -> exists v, m' !! j = Some v /\ log_repr v (al_append e (mk_alog 0 [])).
Proof.
  intros w. destruct tick_length as (H1 & H2 & H3).
  assert (forall i, i = 1 \/ i = 2 \/ i = 3 -> mesh_after proposing !! i = Some (node_after proposing i) /\
    log_repr (node_after proposing i) (mk_alog 0 [])) as Hnode.
  { intros i Hi. split; [apply node_after_at|apply log_reprb_sound];
      destruct Hi as [-> | [-> | ->]]; vm_compute; reflexivity. }
  assert (CLOCK_SECOND * 104 <= 32768) as H4 by (vm_compute; discriminate).
  apply (program_commits buffer_platform buffer_laws H1 H4 H3 nodes3 (mesh_after proposing) 1 w (mk_alog 0 []) [2; 3] 2
    (node_after proposing 2) 4).
  - exact nodes3_on.
  - exact proposing_runs.
  - apply Hnode. auto.
  - apply Hnode. auto.
  - vm_compute. reflexivity.
  - vm_compute. reflexivity.
  - apply others_23.
  - apply others_23.
  - cbn. lia.
  - intros j [->|[->| []%elem_of_nil]%elem_of_cons]%elem_of_cons.
    + split.
      * apply peer_block_synced. vm_compute. reflexivity.
      * exists (node_after proposing 2). split; [by apply Hnode; auto|]. split; [by apply Hnode; auto|].
        vm_compute. discriminate.
    + split.
      * apply peer_block_synced. vm_compute. reflexivity.
      * exists (node_after proposing 3). split; [by apply Hnode; auto|]. split; [by apply Hnode; auto|].
        vm_compute. discriminate.
  - apply Hnode. auto.
  - apply (list_elem_of_lookup_2 _ 2). vm_compute. reflexivity.
Defined.

(** The log of a node, read from its memory. *)
Definition alog_of (w : world) : alog :=
  mk_alog (count (lg w)) (omap (fun p => entry_heap w !! p) (entries_list (lg w))).

Lemma counts_unfilled m :
  forallb (fun iw : Z * world => count (lg iw.2) <=? Z.of_nat MAX_ENTRIES) (map_to_list m) = true ->
  unfilled m.
Proof.
  intros H. rewrite forallb_forall in H. intros i w Hi.
  apply elem_of_map_to_list, list_elem_of_In, H in Hi. by apply Z.leb_le.
Qed.

Lemma replicating_unfilled : unfilled (mesh_after replicating).
Proof. apply counts_unfilled. vm_compute. reflexivity. Qed.

Lemma program_refines_ledger_witness :
  exists g0 g, blank g0 /\ rtc ledger_step g0 g /\
    (forall i w a, mesh_after replicating !! i = Some w -> log_repr w a ->
       held g !! i = Some (al_entries a)) /\
    (forall i w, mesh_after replicating !! i = Some w -> role w = RAFT_STATE_LEADER ->
       exists l, held g !! i = Some l /\ reign g !! to_uint (term_of w) = Some (i, l)).
Proof.
  destruct tick_length as (H1 & H2 & H3).
  apply (program_refines_ledger H1 H2 H3 nodes3 (mesh_after replicating)).
  - exact nodes3_on.
  - exact replicating_runs.
  - exact replicating_unfilled.
Defined.

(** Nodes 1 and 2 hold two entries. *)
Lemma program_log_matching_witness :
  let a := alog_of (node_after replicating 1) in let b := alog_of (node_after replicating 2) in
  al_last a = 2 /\ al_last b = 2 /\ forall k', k' <= 2 -> al_get a k' = al_get b k'.
Proof.
  split; [vm_compute; reflexivity|]. split; [vm_compute; reflexivity|].
  destruct tick_length as (H1 & H2 & H3).
  set (x := default (client_entry 0 []) (al_get (alog_of (node_after replicating 1)) 2)).
  set (y := default (client_entry 0 []) (al_get (alog_of (node_after replicating 2)) 2)).
  apply (program_log_matching H1 H2 H3 nodes3 (mesh_after replicating) 1 2
    (node_after replicating 1) (node_after replicating 2) _ _ 2 x y).
  - exact nodes3_on.
  - exact replicating_runs.
  - exact replicating_unfilled.
  - apply node_after_at. vm_compute. reflexivity.
  - apply node_after_at. vm_compute. reflexivity.
  - apply log_reprb_sound. vm_compute. reflexivity.
  - apply log_reprb_sound. vm_compute. reflexivity.
  - vm_compute. reflexivity.
  - vm_compute. reflexivity.
  - vm_compute. reflexivity.
Defined.

(** ** A change of leaders *)

(** Nodes 2 and 3 acknowledge the first value, and node 1 commits it. *)
Definition committing : list (Z * happening) :=
  electing ++ repeat (1, Propose) 4 ++
  [(2, Hear 1 8); (3, Hear 1 9); (1, Hear 2 1); (1, Hear 3 1); (1, Tick)].

(** Then node 2 times out, nodes 1 and 3 give it their votes, and its client
    proposes a value that it commits with them. *)
Definition succeeding : list (Z * happening) :=
  repeat (2, Tick) 22 ++ [(1, Hear 2 2); (3, Hear 2 3); (2, Hear 1 12); (2, Hear 3 2)] ++
  repeat (2, Propose) 6 ++ [(1, Hear 2 10); (3, Hear 2 11); (2, Hear 1 13); (2, Hear 3 3)].

Definition changed : list (Z * happening) := committing ++ succeeding.

Lemma mesh_exec_app l l' m m' : mesh_exec l m = Some m' -> mesh_exec (l ++ l') m = mesh_exec l' m'.
Proof.
  revert m. induction l as [|ih l IH]; intros m H; [by injection H as ->|]. cbn [mesh_exec app] in *.
  destruct (mesh_happen m ih) as [m1|]; [|done]. cbn in *. by apply IH.
Qed.

Lemma committing_runs : rtc mesh_step nodes3 (mesh_after committing).
Proof. apply mesh_after_steps. vm_compute. reflexivity. Qed.
Lemma succeeding_runs : rtc mesh_step (mesh_after committing) (mesh_after changed).
Proof.
  assert (bool_decide (is_Some (mesh_exec committing nodes3)) = true) as H1 by (vm_compute; reflexivity).
  assert (bool_decide (is_Some (mesh_exec changed nodes3)) = true) as H2 by (vm_compute; reflexivity).
  apply bool_decide_eq_true in H1 as [m1 H1], H2 as [m2 H2]. unfold mesh_after. rewrite H1, H2.
  apply (mesh_exec_steps succeeding). change (mesh_exec succeeding m1 = Some m2).
  rewrite <- (mesh_exec_app committing succeeding nodes3 m1 H1). exact H2.
Qed.
Lemma committing_unfilled : unfilled (mesh_after committing).
Proof. apply counts_unfilled. vm_compute. reflexivity. Qed.
Lemma changed_unfilled : unfilled (mesh_after changed).
Proof. apply counts_unfilled. vm_compute. reflexivity. Qed.

(** Node 2 leads term 2, and has the entry node 1 committed in term 1. *)
Lemma program_leader_completeness_witness :
  term_of (node_after committing 1) = 1 /\ commit_of (node_after committing 1) = 1 /\
  role (node_after changed 2) = RAFT_STATE_LEADER /\ term_of (node_after changed 2) = 2 /\
  exists e, al_get (alog_of (node_after committing 1)) 1 = Some e /\
    al_get (alog_of (node_after changed 2)) 1 = Some e.
Proof.
  split; [vm_compute; reflexivity|]. split; [vm_compute; reflexivity|].
  split; [vm_compute; reflexivity|]. split; [vm_compute; reflexivity|].
  destruct tick_length as (H1 & H2 & H3).
  apply (program_leader_completeness H1 H2 H3 nodes3 (mesh_after committing) (mesh_after changed) 1 2
    (node_after committing 1) (node_after changed 2)).
  - exact nodes3_on.
  - exact committing_runs.
  - exact succeeding_runs.
  - exact changed_unfilled.
  - apply node_after_at. vm_compute. reflexivity.
  - apply node_after_at. vm_compute. reflexivity.
  - apply log_reprb_sound. vm_compute. reflexivity.
  - apply log_reprb_sound. vm_compute. reflexivity.
  - vm_compute. reflexivity.
  - vm_compute. discriminate.
  - split; vm_compute; discriminate.
Defined.

(** Node 1 committed the first entry in term 1, node 2 the first two in term 2. *)
Lemma program_state_machine_safety_witness :
  commit_of (node_after committing 1) = 1 /\ commit_of (node_after changed 2) = 2 /\
  applied_of (node_after committing 1) <= commit_of (node_after committing 1) /\
  exists e, al_get (alog_of (node_after committing 1)) 1 = Some e /\
    al_get (alog_of (node_after changed 2)) 1 = Some e.
Proof.
  split; [vm_compute; reflexivity|]. split; [vm_compute; reflexivity|].
  destruct tick_length as (H1 & H2 & H3).
  apply (program_state_machine_safety H1 H2 H3 nodes3 (mesh_after committing) (mesh_after changed) 1 2
    (node_after committing 1) (node_after changed 2)).
  - exact nodes3_on.
  - exact committing_runs.
  - exact succeeding_runs.
  - exact changed_unfilled.
  - apply node_after_at. vm_compute. reflexivity.
  - apply node_after_at. vm_compute. reflexivity.
  - apply log_reprb_sound. vm_compute. reflexivity.
  - apply log_reprb_sound. vm_compute. reflexivity.
  - split; vm_compute; discriminate.
  - vm_compute. discriminate.
Defined.

(** After the change of leaders every node is at its place in the council. *)
Lemma program_refines_council_witness :
  exists c0 c, unmet c0 /\ rtc (council_step all_ids) c0 c /\
    forall i w a, mesh_after changed !! i = Some w -> log_repr w a ->
      epoch c !! i = Some (term_of w) /\ held (book c) !! i = Some (al_entries a) /\
      (role w = RAFT_STATE_LEADER -> reign (book c) !! term_of w = Some (i, al_entries a)) /\
      committed all_ids c (commit_of w) (term_of w) (al_entries a).
Proof.
  destruct tick_length as (H1 & H2 & H3).
  apply (program_refines_council H1 H2 H3 nodes3 (mesh_after changed)).
  - exact nodes3_on.
  - etransitivity; [exact committing_runs|exact succeeding_runs].
  - exact changed_unfilled.
Defined.
