(* ===== verification/PowerLoss.v ===== *)
(** * Nodes that restart

    The callbacks of app/main.c that are to save the term and the vote to disk
    answer that they did, and save nothing.  A node that loses power starts again
    as a node that has never voted, so that it votes twice in a term; what holds
    of the nodes as long as they run ([Mesh.v], [Consensus.v]) does not hold when
    one of them restarts. *)
From S2P Require Import Prelude Contiki Types Node Membership Log Server Election Replication.
From S2P Require Import Wire App Sim NodeFacts Frames History LogFacts MemberFacts.
From S2P Require Import ElectionFacts Roles Campaign Sending Receiving Lifecycle Ranges Fixed.
From S2P Require Import Conflict Cluster Outbox Growth Network Ledger Matching.
From S2P Require Import AppFacts AppStart AppSafety Radio Rounds Mesh AppRuns MeshRuns.

#[local] Remove Hints sim_user : typeclass_instances.

Section Loss.
Context {C : Contiki} {L : ContikiLaws C} {Pl : Platform C} {R : PlatformLaws Pl}.
Implicit Types w : world.

(** A node may also lose its memory, and start again. *)
Inductive mesh_life (m : gmap Z world) : gmap Z world -> Prop :=
  | life_round m' : mesh_step m m' -> mesh_life m m'
  | life_restart i w w0 w' : m !! i = Some w -> booted w0 -> main_process i w0 = Ok tt w' ->
      mesh_life m (<[i := w']> m).

Lemma started_voting w ids : nodes_wf w -> self_wf w -> members w = map Node.init ids ->
  self_voting w = true.
Proof.
  intros W (b & Hb & Hl) Hm. destruct (nw_heap _ W b Hl) as [n Hn].
  assert (n ∈ members w) as Hin by (unfold members; apply list_elem_of_omap; by exists b).
  rewrite Hm in Hin. apply list_elem_of_fmap in Hin as (j & -> & _).
  unfold self_voting, node_sat. by rewrite Hb, Hn.
Qed.

(** A node that has started gives its vote to whoever asks first, in any later
    term. *)
Theorem restart_votes_again i w0 w p vr :
  0 < CLOCK_SECOND -> CLOCK_SECOND * 100 <= 32768 ->
  booted w0 -> 1 <= i <= 5 -> main_process i w0 = Ok tt w -> is_Some (node_heap w !! p) ->
  0 < rv_term vr ->
  exists w', raft_recv_requestvote (Some p) vr w = Ok (0, mk_requestvote_response (rv_term vr) 1) w' /\
    term_of w' = rv_term vr /\ vote_of w' = rv_candidate_id vr.
Proof.
  intros H1 H2 B Hi H [n Hn] Ht.
  destruct (main_process_run i w0 (bt_pools _ B) Hi H1 H2) as (w1 & H' & St & Hmem & _).
  rewrite H in H'. injection H' as <-. destruct St as [Sok _ Hrole Hhist _ _ _].
  injection Hhist as Hterm Hvote _ _. injection Hrole as Hrole _.
  unfold term_of, vote_of in *.
  destruct (raft_recv_requestvote_answers w (mk_alog 0 []) p n vr Sok Hn) as (w' & Hr & Ht' & Hv' & _).
  { apply free_may_grant. unfold free_to_vote. lia. }
  assert (grants w (mk_alog 0 []) vr = true) as G.
  { unfold grants, newer. rewrite Hterm. rewrite (started_voting w _ (so_nodes _ _ Sok) (so_self _ _ Sok) Hmem).
    rewrite (proj2 (Z.ltb_lt 0 _)), (proj2 (Z.leb_le 0 _)) by lia. done. }
  exists w'. rewrite G, Hterm in *. rewrite Z.max_r in * by lia. split; [exact Hr|]. split; [exact Ht'|exact Hv'].
Qed.
End Loss.

(** ** Two leaders of one term *)
Definition nodes5 : gmap Z world :=
  {[1 := app_node 1; 2 := app_node 2; 3 := app_node 3; 4 := app_node 4; 5 := app_node 5]}.

(** Node 1 is elected with the votes of nodes 2 and 3; then node 3 starts again. *)
Definition before_loss : gmap Z world := default nodes5 (mesh_exec electing nodes5).
Definition after_loss : gmap Z world := <[3 := app_node 3]> before_loss.

(** Node 4 times out, and nodes 3 and 5 give it their votes. *)
Definition rivalling : list (Z * happening) :=
  repeat (4, Tick) 20 ++ [(3, Hear 4 2); (5, Hear 4 3); (4, Hear 3 0); (4, Hear 5 0)].
Definition with_rival : gmap Z world := default after_loss (mesh_exec rivalling after_loss).

Lemma exec_default l m : bool_decide (is_Some (mesh_exec l m)) = true ->
  rtc mesh_step m (default m (mesh_exec l m)).
Proof. intros [m' H]%bool_decide_eq_true. rewrite H. by apply (mesh_exec_steps l). Qed.

Definition node_at (m : gmap Z world) (i : Z) : world := default app_boot (m !! i).
Lemma node_at_some m i : bool_decide (is_Some (m !! i)) = true -> m !! i = Some (node_at m i).
Proof. intros [w H]%bool_decide_eq_true. unfold node_at. by rewrite H. Qed.

Lemma app_node_runs i : i ∈ [1; 2; 3; 4; 5] -> main_process i app_boot = Ok tt (app_node i).
Proof.
  rewrite !elem_of_cons, elem_of_nil. intros [->|[->|[->|[->|[->|[]]]]]];
    unfold app_node; apply app_after_ok; vm_compute; reflexivity.
Qed.

Lemma nodes5_on : switched_on nodes5.
Proof.
  assert (map_Forall (fun i w => i ∈ [1; 2; 3; 4; 5] /\ w = app_node i) nodes5) as F.
  { unfold nodes5. repeat (apply map_Forall_insert_2; [split; [set_solver|done]|]).
    apply map_Forall_empty. }
  intros i w Hi. destruct (F i w Hi) as [Hin ->].
  split; [rewrite !elem_of_cons, elem_of_nil in Hin; lia|].
  exists app_boot. split; [exact app_boot_booted|by apply app_node_runs].
Qed.

Lemma mesh_life_rounds m m' : rtc mesh_step m m' -> rtc mesh_life m m'.
Proof. apply rtc_subrel. intros. by apply life_round. Qed.

(** C10: election safety fails when nodes lose power.  Five nodes run the program;
    one is elected in term 1; a node that voted for it starts again, and gives its
    vote in the same term to another node, which becomes a second leader of the
    term.  The callbacks that are to save the term and the vote before the node
    answers save nothing. *)
Theorem power_loss_splits_term : exists m0 m i j w v,
  switched_on m0 /\ rtc mesh_life m0 m /\ i <> j /\ m !! i = Some w /\ m !! j = Some v /\
  role w = RAFT_STATE_LEADER /\ role v = RAFT_STATE_LEADER /\ term_of w = term_of v.
Proof.
  exists nodes5, with_rival, 1, 4, (node_at with_rival 1), (node_at with_rival 4).
  split; [exact nodes5_on|].
  split; [|split; [done|split; [|split; [|split_and!; vm_compute; reflexivity]]]];
    [|apply node_at_some; vm_compute; reflexivity..].
  transitivity before_loss; [apply mesh_life_rounds, exec_default; vm_compute; reflexivity|].
  transitivity after_loss; [|apply mesh_life_rounds, exec_default; vm_compute; reflexivity].
  apply rtc_once, (life_restart _ _ (node_at before_loss 3) app_boot).
  - apply node_at_some. vm_compute. reflexivity.
  - exact app_boot_booted.
  - apply app_node_runs. set_solver.
Qed.
